(** * TinyOS kernel: a shallow embedding of the runtime, filesystem and
      network code, with the properties of the design document checked
      against it.

    Conventions.  C integers are modelled as [Z]; every place where the C
    code relies on a fixed width has the wrap-around written out
    ([wrap32], [wrap64], [wrap16], [wrap8]).  Arrays are lists read with
    stdpp's [!!] and written with [<[i:=x]>]; C strings are lists of
    character codes without the terminating NUL (reading at the end of the
    list yields 0, as reading the terminator does).  Global variables of a
    translation unit become the fields of a state record that every
    function takes and returns. *)

From stdpp Require Import prelude.
From Stdlib Require Import ZArith Lia.

Open Scope Z_scope.

(** ** Fixed-width arithmetic *)

Definition wrap8  (v : Z) : Z := v mod 2^8.
Definition wrap16 (v : Z) : Z := v mod 2^16.
Definition wrap32 (v : Z) : Z := v mod 2^32.
Definition wrap64 (v : Z) : Z := v mod 2^64.

(** [(int)v]: reinterpretation of the low 32 bits as a signed value. *)
Definition to_int32 (v : Z) : Z :=
  let w := wrap32 v in if w <? 2^31 then w else w - 2^32.

Lemma wrap32_small (v : Z) : 0 <= v < 2^32 -> wrap32 v = v.
Proof. intros H. unfold wrap32. now rewrite Z.mod_small. Qed.

Lemma wrap64_small (v : Z) : 0 <= v < 2^64 -> wrap64 v = v.
Proof. intros H. unfold wrap64. now rewrite Z.mod_small. Qed.

Lemma wrap16_small (v : Z) : 0 <= v < 2^16 -> wrap16 v = v.
Proof. intros H. unfold wrap16. now rewrite Z.mod_small. Qed.

Lemma wrap8_small (v : Z) : 0 <= v < 2^8 -> wrap8 v = v.
Proof. intros H. unfold wrap8. now rewrite Z.mod_small. Qed.

(** * Input event ring (kernel/event.c) *)

Module EventRing.

Definition EVENT_QUEUE_SIZE : Z := 256.
Definition EVENT_QUEUE_MASK : Z := EVENT_QUEUE_SIZE - 1.

Record input_event_t := mk_event {
  ev_type : Z;      (* uint8_t  *)
  ev_subtype : Z;   (* uint8_t  *)
  ev_code : Z;      (* uint16_t *)
  ev_x : Z;         (* int32_t  *)
  ev_y : Z          (* int32_t  *)
}.

Definition zero_event : input_event_t := mk_event 0 0 0 0 0.

(** The three file-scope variables of event.c. *)
Record ring := mk_ring {
  event_queue : list input_event_t;   (* EVENT_QUEUE_SIZE slots *)
  queue_head : Z;                     (* volatile uint32_t, write index *)
  queue_tail : Z                      (* volatile uint32_t, read index  *)
}.

(** Static storage is zero-initialised. *)
Definition ring_boot : ring :=
  mk_ring (replicate (Z.to_nat EVENT_QUEUE_SIZE) zero_event) 0 0.

Definition event_queue_init (r : ring) : ring :=
  mk_ring (event_queue r) 0 0.

(** [event_push]: returns the C return value and the new ring.  The source
    copies the five fields one by one; the result is the slot holding a
    copy of the event. *)
Definition event_push (ev : input_event_t) (r : ring) : Z * ring :=
  let next_head := Z.land (wrap32 (queue_head r + 1)) EVENT_QUEUE_MASK in
  if next_head =? queue_tail r then (-1, r)
  else
    let slot := mk_event (ev_type ev) (ev_subtype ev) (ev_code ev) (ev_x ev) (ev_y ev) in
    (0, mk_ring (<[Z.to_nat (queue_head r) := slot]> (event_queue r))
                next_head (queue_tail r)).

Definition event_pop (r : ring) : Z * option input_event_t * ring :=
  if queue_tail r =? queue_head r then (-1, None, r)
  else
    (0, event_queue r !! Z.to_nat (queue_tail r),
     mk_ring (event_queue r) (queue_head r)
             (Z.land (wrap32 (queue_tail r + 1)) EVENT_QUEUE_MASK)).

Definition event_pending (r : ring) : Z :=
  if queue_head r =? queue_tail r then 0 else 1.

Definition event_count (r : ring) : Z :=
  Z.land (wrap32 (queue_head r - queue_tail r)) EVENT_QUEUE_MASK.

(** Pushing a list of events in order, collecting the return values. *)
Fixpoint push_all (evs : list input_event_t) (r : ring) : list Z * ring :=
  match evs with
  | [] => ([], r)
  | ev :: evs' =>
      let '(rc, r1) := event_push ev r in
      let '(rcs, r2) := push_all evs' r1 in
      (rc :: rcs, r2)
  end.

(** Indices stay inside the array: both are only ever assigned 0 or a value
    masked with [EVENT_QUEUE_MASK]. *)
Definition ring_wf (r : ring) : Prop :=
  0 <= queue_head r < EVENT_QUEUE_SIZE /\
  0 <= queue_tail r < EVENT_QUEUE_SIZE /\
  length (event_queue r) = Z.to_nat EVENT_QUEUE_SIZE.

Lemma mask_wrap32 (a : Z) : Z.land (wrap32 a) EVENT_QUEUE_MASK = a mod 256.
Proof.
  unfold EVENT_QUEUE_MASK, EVENT_QUEUE_SIZE, wrap32.
  change (256 - 1) with (Z.ones 8). rewrite Z.land_ones by lia.
  apply Z.mod_mod_divide. exists (2^24). reflexivity.
Qed.

Lemma ring_boot_wf : ring_wf ring_boot.
Proof.
  unfold ring_wf, ring_boot, EVENT_QUEUE_SIZE.
  cbn [event_queue queue_head queue_tail]. rewrite length_replicate. lia.
Qed.

Lemma event_push_wf ev r : ring_wf r -> ring_wf (event_push ev r).2.
Proof.
  intros (Hh & Ht & Hl). unfold event_push.
  destruct (_ =? _) eqn:E; simpl; [now repeat split|].
  unfold ring_wf; simpl. rewrite length_insert, mask_wrap32.
  unfold EVENT_QUEUE_SIZE in *.
  pose proof (Z.mod_pos_bound (queue_head r + 1) 256). lia.
Qed.

Lemma event_push_full ev r :
  (event_push ev r).1 = -1 <-> (queue_head r + 1) mod 256 = queue_tail r.
Proof.
  unfold event_push. rewrite mask_wrap32.
  destruct (_ =? queue_tail r) eqn:E; simpl.
  - apply Z.eqb_eq in E. tauto.
  - apply Z.eqb_neq in E. split; [discriminate | tauto].
Qed.

Lemma event_push_ok ev r :
  (event_push ev r).1 = 0 <-> (queue_head r + 1) mod 256 <> queue_tail r.
Proof.
  unfold event_push. rewrite mask_wrap32.
  destruct (_ =? queue_tail r) eqn:E; simpl.
  - apply Z.eqb_eq in E. split; [discriminate | tauto].
  - apply Z.eqb_neq in E. tauto.
Qed.

Lemma event_count_full r :
  ring_wf r ->
  event_count r = 255 <-> (queue_head r + 1) mod 256 = queue_tail r.
Proof.
  intros (Hh & Ht & _). unfold event_count, EVENT_QUEUE_SIZE in *.
  rewrite mask_wrap32.
  destruct (Z_lt_ge_dec (queue_head r) (queue_tail r)) as [Hlt|Hge].
  - replace ((queue_head r - queue_tail r) mod 256)
      with (queue_head r - queue_tail r + 256).
    2:{ apply Z.mod_unique with (q := -1); lia. }
    rewrite (Z.mod_small (queue_head r + 1)) by lia. lia.
  - rewrite (Z.mod_small (queue_head r - queue_tail r)) by lia.
    destruct (Z.eq_dec (queue_head r) 255) as [->|Hne].
    + change ((255 + 1) mod 256) with 0. lia.
    + rewrite (Z.mod_small (queue_head r + 1)) by lia. lia.
Qed.

(** After [k] accepted pushes into the empty ring the head is at [k]. *)
Lemma push_all_from_empty (evs : list input_event_t) :
  forall r, ring_wf r -> queue_tail r = 0 ->
    queue_head r + Z.of_nat (length evs) <= 255 ->
    Forall (fun rc => rc = 0) (push_all evs r).1 /\
    length (push_all evs r).1 = length evs /\
    ring_wf (push_all evs r).2 /\
    queue_tail (push_all evs r).2 = 0 /\
    queue_head (push_all evs r).2 = queue_head r + Z.of_nat (length evs).
Proof.
  induction evs as [|ev evs IH]; intros r Hwf Ht Hlen; simpl in *.
  - repeat split; try done; try lia; apply Hwf.
  - pose proof (event_push_wf ev r Hwf) as Hwf1.
    assert (Hh : 0 <= queue_head r < 256) by apply Hwf.
    assert (Hok : (event_push ev r).1 = 0).
    { apply event_push_ok. rewrite Z.mod_small by lia. lia. }
    assert (Hst : queue_tail (event_push ev r).2 = 0
                  /\ queue_head (event_push ev r).2 = queue_head r + 1).
    { revert Hok. unfold event_push. rewrite mask_wrap32.
      destruct (_ =? _); simpl; [discriminate|]. intros _.
      rewrite Z.mod_small by lia. done. }
    destruct (event_push ev r) as [rc r1]; simpl in *.
    destruct Hst as [Ht1 Hh1].
    specialize (IH r1 Hwf1 Ht1 ltac:(lia)).
    destruct (push_all evs r1) as [rcs r2]; simpl in *.
    destruct IH as (HF & HL & Hwf2 & Ht2 & Hh2).
    repeat split; try apply Hwf2; try done.
    + constructor; done.
    + lia.
    + lia.
Qed.


(** ** The consumer side and the two helpers *)

Definition EVENT_KEY : Z := 1.
Definition EVENT_TOUCH : Z := 2.
Definition KEY_PRESS : Z := 1.
Definition KEY_RELEASE : Z := 0.

(** [event_push_key] and [event_push_touch] build the event and ignore
    what [event_push] returns.  [subtype] arrives as an [int] and is
    stored in a [uint8_t]. *)
Definition event_push_key (keycode pressed : Z) (r : ring) : ring :=
  let ev := mk_event EVENT_KEY (if pressed =? 0 then KEY_RELEASE else KEY_PRESS)
                     keycode 0 0 in
  (event_push ev r).2.

Definition event_push_touch (slot subtype x y : Z) (r : ring) : ring :=
  let ev := mk_event EVENT_TOUCH (wrap8 subtype) slot x y in
  (event_push ev r).2.

(** Popping [n] times in a row, collecting return values and events. *)
Fixpoint pop_all (n : nat) (r : ring) : list (Z * option input_event_t) * ring :=
  match n with
  | O => ([], r)
  | S n' =>
      let '(rc, ev, r1) := event_pop r in
      let '(out, r2) := pop_all n' r1 in
      ((rc, ev) :: out, r2)
  end.

(** The events the ring holds, oldest first: the slots from the read
    index up to the write index. *)
Definition slot_at (r : ring) (i : Z) : input_event_t :=
  default zero_event (event_queue r !! Z.to_nat ((queue_tail r + i) mod 256)).

Definition queued (r : ring) : list input_event_t :=
  map (fun i : nat => slot_at r (Z.of_nat i)) (seq 0 (Z.to_nat (event_count r))).

Lemma event_count_mod r : event_count r = (queue_head r - queue_tail r) mod 256.
Proof. unfold event_count. apply mask_wrap32. Qed.

Lemma event_count_range r : 0 <= event_count r <= 255.
Proof.
  rewrite event_count_mod.
  pose proof (Z.mod_pos_bound (queue_head r - queue_tail r) 256). lia.
Qed.

Lemma queued_length r : Z.of_nat (length (queued r)) = event_count r.
Proof.
  unfold queued. rewrite length_map, length_seq.
  pose proof (event_count_range r). lia.
Qed.

Lemma event_count_zero r :
  ring_wf r -> (event_count r = 0 <-> queue_head r = queue_tail r).
Proof.
  intros (Hh & Ht & _). unfold EVENT_QUEUE_SIZE in *. rewrite event_count_mod. split.
  - intros H. destruct (Z_lt_ge_dec (queue_head r) (queue_tail r)) as [Hlt|Hge].
    + assert ((queue_head r - queue_tail r) mod 256 = queue_head r - queue_tail r + 256)
        by (symmetry; apply Z.mod_unique with (q := -1); lia).
      lia.
    + rewrite Z.mod_small in H by lia. lia.
  - intros ->. now rewrite Z.sub_diag.
Qed.

(** An accepted push appends the event. *)
Lemma event_push_queued ev r :
  ring_wf r -> (event_push ev r).1 = 0 ->
  queued (event_push ev r).2 = queued r ++ [ev] /\
  event_count (event_push ev r).2 = event_count r + 1.
Proof.
  intros Hwf Hok. pose proof Hwf as (Hh & Ht & Hl). unfold EVENT_QUEUE_SIZE in *.
  pose proof (proj1 (event_push_ok ev r) Hok) as Hnf.
  assert (Hnot255 : event_count r <> 255).
  { intros H. apply Hnf. now apply (event_count_full r Hwf). }
  pose proof (event_count_range r) as Hcr.
  assert (Hr' : (event_push ev r).2 =
                mk_ring (<[Z.to_nat (queue_head r) := ev]> (event_queue r))
                        ((queue_head r + 1) mod 256) (queue_tail r)).
  { unfold event_push. rewrite mask_wrap32.
    destruct (_ =? _) eqn:E; [apply Z.eqb_eq in E; contradiction|].
    cbn [snd]. destruct ev; reflexivity. }
  rewrite Hr'. clear Hr'.
  set (r' := mk_ring _ _ _).
  assert (Hc : event_count r' = event_count r + 1).
  { rewrite !event_count_mod in *. unfold r'. cbn [queue_head queue_tail].
    rewrite Zminus_mod_idemp_l.
    replace (queue_head r + 1 - queue_tail r) with (queue_head r - queue_tail r + 1) by lia.
    rewrite <- Zplus_mod_idemp_l. apply Z.mod_small. lia. }
  split; [|exact Hc].
  unfold queued. rewrite Hc.
  replace (Z.to_nat (event_count r + 1)) with (Z.to_nat (event_count r) + 1)%nat by lia.
  rewrite seq_app, map_app. cbn [seq map]. f_equal.
  - apply map_ext_in. intros i Hi. apply in_seq in Hi.
    unfold slot_at, r'. cbn [event_queue queue_tail].
    rewrite list_lookup_insert_ne; [reflexivity|].
    intros Heq.
    assert (Hm : (queue_tail r + Z.of_nat i) mod 256 = queue_head r).
    { pose proof (Z.mod_pos_bound (queue_tail r + Z.of_nat i) 256). lia. }
    assert (Hi' : Z.of_nat i = event_count r).
    { rewrite event_count_mod, <- Hm, Zminus_mod_idemp_l.
      replace (queue_tail r + Z.of_nat i - queue_tail r) with (Z.of_nat i) by lia.
      symmetry. apply Z.mod_small. lia. }
    lia.
  - f_equal. unfold slot_at, r'. cbn [event_queue queue_tail].
    assert (Hm : (queue_tail r + Z.of_nat (0 + Z.to_nat (event_count r))) mod 256
                 = queue_head r).
    { replace (Z.of_nat (0 + Z.to_nat (event_count r))) with (event_count r) by lia.
      rewrite event_count_mod, Zplus_mod_idemp_r.
      replace (queue_tail r + (queue_head r - queue_tail r)) with (queue_head r) by lia.
      apply Z.mod_small. lia. }
    rewrite Hm, list_lookup_insert_eq by lia. reflexivity.
Qed.

(** A pop hands out the oldest event; on the empty ring it fails and
    touches nothing. *)
Lemma event_pop_queued r :
  ring_wf r ->
  match queued r with
  | [] => event_pop r = (-1, None, r)
  | e :: q =>
      exists r', event_pop r = (0, Some e, r') /\ ring_wf r' /\ queued r' = q /\
                 event_count r' = event_count r - 1
  end.
Proof.
  intros Hwf. pose proof Hwf as (Hh & Ht & Hl). unfold EVENT_QUEUE_SIZE in *.
  pose proof (event_count_range r) as Hcr.
  pose proof (event_count_zero r Hwf) as Hz.
  unfold queued. destruct (Z.to_nat (event_count r)) as [|c] eqn:Ec.
  - cbn. unfold event_pop.
    assert (queue_head r = queue_tail r) by (apply Hz; lia).
    destruct (_ =? _) eqn:E; [reflexivity|apply Z.eqb_neq in E; lia].
  - cbn [seq map].
    set (r' := mk_ring (event_queue r) (queue_head r) ((queue_tail r + 1) mod 256)).
    assert (Hne : queue_tail r <> queue_head r) by (intros H; symmetry in H; apply Hz in H; lia).
    assert (Hc : event_count r' = event_count r - 1).
    { rewrite !event_count_mod in *. unfold r'. cbn [queue_head queue_tail].
      rewrite Zminus_mod_idemp_r.
      replace (queue_head r - (queue_tail r + 1)) with (queue_head r - queue_tail r - 1) by lia.
      rewrite <- Zminus_mod_idemp_l. apply Z.mod_small. lia. }
    exists r'. split; [|split; [|split; [|exact Hc]]].
    + unfold event_pop. destruct (_ =? _) eqn:E; [apply Z.eqb_eq in E; contradiction|].
      rewrite mask_wrap32. fold r'. f_equal. f_equal.
      unfold slot_at. rewrite Z.add_0_r, Z.mod_small by lia.
      destruct (lookup_lt_is_Some_2 (event_queue r) (Z.to_nat (queue_tail r))
                  ltac:(lia)) as [x Hx].
      now rewrite Hx.
    + unfold ring_wf, r', EVENT_QUEUE_SIZE. cbn [queue_head queue_tail event_queue].
      pose proof (Z.mod_pos_bound (queue_tail r + 1) 256). lia.
    + rewrite Hc. replace (Z.to_nat (event_count r - 1)) with c by lia.
      rewrite <- seq_shift, map_map. apply map_ext. intros i.
      unfold slot_at, r'. cbn [event_queue queue_tail].
      rewrite Zplus_mod_idemp_l.
      replace (queue_tail r + 1 + Z.of_nat i) with (queue_tail r + Z.of_nat (S i)) by lia.
      reflexivity.
Qed.

Lemma push_all_queued evs :
  forall r, ring_wf r -> event_count r + Z.of_nat (length evs) <= 255 ->
    (push_all evs r).1 = replicate (length evs) 0 /\
    ring_wf (push_all evs r).2 /\
    queued (push_all evs r).2 = queued r ++ evs.
Proof.
  induction evs as [|ev evs IH]; intros r Hwf Hroom.
  - cbn. now rewrite app_nil_r.
  - cbn [push_all length] in *.
    assert (Hok : (event_push ev r).1 = 0).
    { apply event_push_ok. intros Hfull. apply (event_count_full r Hwf) in Hfull. lia. }
    destruct (event_push_queued ev r Hwf Hok) as [Hq Hc].
    pose proof (event_push_wf ev r Hwf) as Hwf1.
    destruct (event_push ev r) as [rc r1]. cbn [fst snd] in *. subst rc.
    destruct (IH r1 Hwf1 ltac:(lia)) as (H1 & H2 & H3).
    destruct (push_all evs r1) as [rcs r2]. cbn [fst snd] in *.
    split; [cbn; now f_equal|]. split; [exact H2|].
    rewrite H3, Hq, <- app_assoc. reflexivity.
Qed.

Lemma pop_all_queued n :
  forall r, ring_wf r -> (n <= length (queued r))%nat ->
    (pop_all n r).1 = map (fun e => (0, Some e)) (take n (queued r)) /\
    ring_wf (pop_all n r).2 /\
    queued (pop_all n r).2 = drop n (queued r).
Proof.
  induction n as [|n IH]; intros r Hwf Hn.
  - cbn. done.
  - pose proof (event_pop_queued r Hwf) as Hp.
    destruct (queued r) as [|e q] eqn:Eq; [cbn in Hn; lia|].
    destruct Hp as (r' & Hpop & Hwf' & Hq' & _).
    cbn [pop_all]. rewrite Hpop.
    destruct (IH r' Hwf' ltac:(rewrite Hq'; cbn in Hn; lia)) as (H1 & H2 & H3).
    destruct (pop_all n r') as [out r2]. cbn [fst snd] in *.
    rewrite Hq' in H1, H3. split; [cbn; now f_equal|]. split; [exact H2|exact H3].
Qed.

(** First in, first out.  Push [evs] into a ring that has room for them,
    pop what the ring held before, and the next pops return exactly
    [evs], in the order pushed; after that the ring is empty and a pop
    fails without touching it. *)
Theorem event_fifo r evs :
  ring_wf r -> event_count r + Z.of_nat (length evs) <= 255 ->
  let r1 := (push_all evs r).2 in
  let r2 := (pop_all (Z.to_nat (event_count r)) r1).2 in
  let r3 := (pop_all (length evs) r2).2 in
  (push_all evs r).1 = replicate (length evs) 0 /\
  (pop_all (length evs) r2).1 = map (fun e => (0, Some e)) evs /\
  event_count r3 = 0 /\
  event_pop r3 = (-1, None, r3).
Proof.
  intros Hwf Hroom r1 r2 r3.
  destruct (push_all_queued evs r Hwf Hroom) as (H1 & Hwf1 & Hq1). fold r1 in Hwf1, Hq1.
  pose proof (queued_length r) as Hl.
  destruct (pop_all_queued (Z.to_nat (event_count r)) r1 Hwf1) as (_ & Hwf2 & Hq2).
  { rewrite Hq1, length_app. lia. }
  fold r2 in Hwf2, Hq2.
  assert (Hq2' : queued r2 = evs).
  { rewrite Hq2, Hq1, drop_app_length'; [reflexivity|lia]. }
  destruct (pop_all_queued (length evs) r2 Hwf2) as (H3 & Hwf3 & Hq3).
  { rewrite Hq2'. lia. }
  fold r3 in Hwf3, Hq3. rewrite Hq2', take_ge in H3 by lia.
  rewrite Hq2', drop_all in Hq3.
  split; [exact H1|]. split; [exact H3|].
  pose proof (queued_length r3) as Hl3. rewrite Hq3 in Hl3. cbn in Hl3.
  split; [lia|].
  pose proof (event_pop_queued r3 Hwf3) as Hp. now rewrite Hq3 in Hp.
Qed.

Definition sample_key (code : Z) : input_event_t := mk_event EVENT_KEY KEY_PRESS code 0 0.

Lemma event_fifo_witness :
  let evs := [sample_key 30; sample_key 31; sample_key 32] in
  (ring_wf ring_boot /\ event_count ring_boot + Z.of_nat (length evs) <= 255) /\
  (pop_all 3 (push_all evs ring_boot).2).1 = map (fun e => (0, Some e)) evs.
Proof.
  intros evs.
  assert (H1 : ring_wf ring_boot) by apply ring_boot_wf.
  assert (H2 : event_count ring_boot + Z.of_nat (length evs) <= 255) by (vm_compute; discriminate).
  split; [split; assumption|].
  exact (proj1 (proj2 (event_fifo ring_boot evs H1 H2))).
Defined.

(** The counter follows the queue: it stays within 0..255, an accepted
    push adds one, a successful pop takes one away, and [event_pending],
    a zero count and a failing pop say the same thing. *)
Theorem event_count_tracks ev r :
  ring_wf r ->
  0 <= event_count r <= 255 /\
  ((event_push ev r).1 = 0 -> event_count (event_push ev r).2 = event_count r + 1) /\
  ((event_pop r).1.1 = 0 -> event_count (event_pop r).2 = event_count r - 1) /\
  (event_pending r = 0 <-> event_count r = 0) /\
  ((event_pop r).1.1 = -1 <-> event_count r = 0) /\
  (event_count r = 0 -> event_pop r = (-1, None, r)).
Proof.
  intros Hwf. pose proof (event_count_zero r Hwf) as Hz.
  pose proof (event_pop_queued r Hwf) as Hp.
  pose proof (queued_length r) as Hl.
  split; [apply event_count_range|]. split.
  { intros Hok. now apply event_push_queued. }
  split.
  { intros Hok. destruct (queued r) as [|e q].
    - rewrite Hp in Hok. discriminate.
    - destruct Hp as (r' & -> & _ & _ & Hc). exact Hc. }
  split.
  { unfold event_pending. destruct (queue_head r =? queue_tail r) eqn:E.
    - apply Z.eqb_eq in E. tauto.
    - apply Z.eqb_neq in E. split; [discriminate|]. intros H. apply Hz in H. contradiction. }
  split.
  { destruct (queued r) as [|e q].
    - rewrite Hp. cbn in *. split; [lia|reflexivity].
    - destruct Hp as (r' & -> & _). cbn in *. split; [discriminate|lia]. }
  intros H0. destruct (queued r) as [|e q]; [exact Hp|]. cbn in Hl. lia.
Qed.

Lemma event_count_tracks_witness :
  ring_wf ring_boot /\
  event_count (event_push (sample_key 30) ring_boot).2 = 1.
Proof.
  split; [apply ring_boot_wf|].
  exact (proj1 (proj2 (event_count_tracks (sample_key 30) ring_boot ring_boot_wf)) eq_refl).
Defined.




Lemma push_all_tail evs : forall r, queue_tail (push_all evs r).2 = queue_tail r.
Proof.
  induction evs as [|ev evs IH]; intros r; [reflexivity|].
  cbn [push_all]. specialize (IH (event_push ev r).2).
  destruct (event_push ev r) as [rc r1] eqn:E. cbn [snd] in IH.
  destruct (push_all evs r1) as [rcs r2]. cbn [snd] in *. rewrite IH.
  revert E. unfold event_push. destruct (_ =? _); intros E; inversion E; reflexivity.
Qed.

(** What an accepted push does to the ring: the event is stored in the
    slot at [head], [head] advances by one modulo 256 and [tail] stays. *)
Lemma event_push_accepted ev r :
  (event_push ev r).1 = 0 ->
  queue_tail (event_push ev r).2 = queue_tail r /\
  queue_head (event_push ev r).2 = (queue_head r + 1) mod 256 /\
  event_queue (event_push ev r).2 = <[Z.to_nat (queue_head r) := ev]> (event_queue r).
Proof.
  unfold event_push. rewrite mask_wrap32.
  destruct (_ =? _); cbn; [discriminate|]. intros _. now destruct ev.
Qed.

(** C5.  [event_push] fails exactly on a full ring -- 255 stored events,
    which is [(head+1) mod 256 = tail] -- and a failed push changes
    neither [head], [tail] nor the stored elements.  An accepted push
    returns 0, stores the event at [head], advances [head] by one modulo
    256, leaves [tail] alone and makes the count one larger.  Hence from
    every empty ring ([head = tail], wherever the two indices stand) 255
    pushes in a row are accepted and the 256th is refused. *)
Theorem event_push_full_iff_255 :
  (forall ev r, ring_wf r ->
     ((event_push ev r).1 = -1 <-> event_count r = 255) /\
     (event_count r = 255 <-> (queue_head r + 1) mod 256 = queue_tail r) /\
     ((event_push ev r).1 = -1 \/ (event_push ev r).1 = 0) /\
     ((event_push ev r).1 = -1 -> (event_push ev r).2 = r) /\
     ((event_push ev r).1 = 0 ->
        queue_tail (event_push ev r).2 = queue_tail r /\
        queue_head (event_push ev r).2 = (queue_head r + 1) mod 256 /\
        event_queue (event_push ev r).2 = <[Z.to_nat (queue_head r) := ev]> (event_queue r) /\
        event_count (event_push ev r).2 = event_count r + 1)) /\
  (forall r evs ev256, ring_wf r -> queue_head r = queue_tail r -> length evs = 255%nat ->
     let r' := (push_all evs r).2 in
     (push_all evs r).1 = replicate 255 0 /\
     queued r' = evs /\
     event_count r' = 255 /\
     queue_tail r' = queue_tail r /\
     event_push ev256 r' = (-1, r')).
Proof.
  split.
  - intros ev r Hwf.
    pose proof (event_push_full ev r) as H1.
    pose proof (event_count_full r Hwf) as H2.
    split; [tauto|]. split; [tauto|]. split; [|split].
    + unfold event_push. destruct (_ =? _); simpl; auto.
    + unfold event_push. destruct (_ =? _); simpl; [done | discriminate].
    + intros Hok. destruct (event_push_accepted ev r Hok) as (Ht & Hh & Hq).
      repeat split; try assumption.
      apply (event_push_queued ev r Hwf Hok).
  - intros r evs ev256 Hwf Hempty Hlen r'.
    assert (Hc0 : event_count r = 0) by now apply event_count_zero.
    destruct (push_all_queued evs r Hwf) as (Hrc & Hwf' & Hq); [rewrite Hc0; lia|].
    fold r' in Hwf', Hq.
    assert (Hq0 : queued r = []).
    { pose proof (queued_length r) as HL. rewrite Hc0 in HL.
      destruct (queued r); [reflexivity|cbn in HL; lia]. }
    rewrite Hq0 in Hq. cbn [app] in Hq.
    assert (Hc : event_count r' = 255).
    { rewrite <- queued_length, Hq, Hlen. reflexivity. }
    split; [now rewrite Hrc, Hlen|]. split; [exact Hq|]. split; [exact Hc|].
    split; [apply push_all_tail|].
    pose proof (proj2 (event_push_full ev256 r')
                  (proj1 (event_count_full r' Hwf') Hc)) as Hrc'.
    revert Hrc'. unfold event_push. destruct (_ =? _); simpl; [done | discriminate].
Qed.

(** A ring whose indices both stand at 100, filled by 255 key presses;
    the full ring refuses a further event. *)
Lemma event_push_full_iff_255_witness :
  let r0 := mk_ring (replicate 256 zero_event) 100 100 in
  let evs := replicate 255 (sample_key 30) in
  let full := (push_all evs r0).2 in
  (ring_wf r0 /\ queue_head r0 = queue_tail r0 /\ length evs = 255%nat /\ ring_wf full) /\
  ((push_all evs r0).1 = replicate 255 0 /\ queued full = evs /\ event_count full = 255 /\
   queue_tail full = 100 /\ event_push (sample_key 31) full = (-1, full)) /\
  ((event_push (sample_key 31) full).1 = -1 <-> event_count full = 255).
Proof.
  intros r0 evs full.
  assert (H0 : ring_wf r0) by (vm_compute; intuition discriminate).
  assert (H1 : ring_wf full) by (vm_compute; intuition discriminate).
  split; [repeat split; first [exact H0 | exact H1 | reflexivity | apply H0]|].
  split.
  - exact (proj2 event_push_full_iff_255 r0 evs (sample_key 31) H0 eq_refl eq_refl).
  - exact (proj1 (proj1 event_push_full_iff_255 (sample_key 31) full H1)).
Defined.
End EventRing.

(** * Heap allocator (kernel/memory.c) *)

Module Alloc.

(** [block_header_t] on the ARM64 target of the kernel: [size_t size] (8
    bytes), [struct block_header* next] (8 bytes), [uint32_t is_free] and
    [uint32_t magic] (4 bytes each), no padding. *)
Definition sizeof_size_t : Z := 8.
Definition sizeof_pointer : Z := 8.
Definition sizeof_uint32_t : Z := 4.

Definition BLOCK_MAGIC : Z := 0xDEADBEEF.
Definition HEADER_SIZE : Z :=
  sizeof_size_t + sizeof_pointer + sizeof_uint32_t + sizeof_uint32_t.
Definition MIN_BLOCK_SIZE : Z := HEADER_SIZE + 16.
Definition ALIGN_SIZE : Z := 16.

(** [ALIGN(x)] on a 64-bit operand: [((x) + 15) & ~15]. *)
Definition ALIGN (x : Z) : Z :=
  Z.land (wrap64 (x + (ALIGN_SIZE - 1))) (wrap64 (Z.lnot (ALIGN_SIZE - 1))).

(** A header of the physical-order list.  The [next] link of a header is
    the block that follows it in the list; the last block has
    [next = NULL].  [b_addr] is the address of the header itself. *)
Record block := mk_block {
  b_addr : Z;
  b_size : Z;       (* size_t, header included *)
  b_is_free : Z;    (* uint32_t: 1 = free, 0 = allocated *)
  b_magic : Z       (* uint32_t *)
}.

Definition truthy (v : Z) : bool := negb (v =? 0).

Definition set_size (b : block) (s : Z) : block :=
  mk_block (b_addr b) s (b_is_free b) (b_magic b).
Definition set_free (b : block) (f : Z) : block :=
  mk_block (b_addr b) (b_size b) f (b_magic b).

(** File-scope state of memory.c.  [blocks] is the list reached from
    [heap_head] ([[]] when [heap_head] is NULL). *)
Record heap := mk_heap {
  heap_initialized : bool;
  blocks : list block;
  total_allocated : Z;
  total_freed : Z
}.

Definition heap_boot : heap := mk_heap false [] 0 0.

Section Region.

(** Linker symbols [__heap_start] and [__heap_end]. *)
Variables heap_start heap_end : Z.

Definition aligned_start : Z := ALIGN heap_start.

Definition initial_size : Z :=
  let heap_size := wrap64 (heap_end - heap_start) in
  let heap_size := wrap64 (heap_size - (aligned_start - heap_start)) in
  Z.land heap_size (wrap64 (Z.lnot (ALIGN_SIZE - 1))).

Definition heap_init (h : heap) : heap :=
  if heap_initialized h then h
  else mk_heap true [mk_block aligned_start initial_size 1 BLOCK_MAGIC]
               (total_allocated h) (total_freed h).

(** Total size needed for a request: header plus payload, aligned, and at
    least [MIN_BLOCK_SIZE]. *)
Definition request_size (size : Z) : Z :=
  let total_size := ALIGN (wrap64 (HEADER_SIZE + size)) in
  if total_size <? MIN_BLOCK_SIZE then MIN_BLOCK_SIZE else total_size.

(** The first-fit loop of [malloc], from [current] on.  [None] is the NULL
    result; otherwise the payload pointer, the size charged to
    [total_allocated] and the list after the allocation. *)
Fixpoint malloc_walk (total_size : Z) (l : list block) : option (Z * Z * list block) :=
  match l with
  | [] => None
  | current :: rest =>
      if negb (b_magic current =? BLOCK_MAGIC) then None
      else if truthy (b_is_free current) && (total_size <=? b_size current) then
        if wrap64 (total_size + MIN_BLOCK_SIZE) <=? b_size current then
          let new_block :=
            mk_block (b_addr current + total_size)
                     (wrap64 (b_size current - total_size)) 1 BLOCK_MAGIC in
          let current' := set_free (set_size current total_size) 0 in
          Some (b_addr current + HEADER_SIZE, b_size current', current' :: new_block :: rest)
        else
          let current' := set_free current 0 in
          Some (b_addr current + HEADER_SIZE, b_size current', current' :: rest)
      else
        match malloc_walk total_size rest with
        | None => None
        | Some (p, sz, rest') => Some (p, sz, current :: rest')
        end
  end.

(** [malloc]: the returned pointer (0 for NULL) and the heap afterwards. *)
Definition malloc (size : Z) (h : heap) : Z * heap :=
  let h := if heap_initialized h then h else heap_init h in
  if size =? 0 then (0, h)
  else
    match malloc_walk (request_size size) (blocks h) with
    | None => (0, h)
    | Some (p, sz, l) =>
        (p, mk_heap (heap_initialized h) l
                    (wrap64 (total_allocated h + sz)) (total_freed h))
    end.

(** First half of [free]: find the header at [baddr], check it, mark it
    free and absorb a free successor.  [None] stands for the early
    returns: the magic of the header does not match, or the block is
    already free.  An address that is not a header of the list is memory
    that was never given the magic number, or a header absorbed by an
    earlier merge, which still reads [is_free = 1]: both return early.
    Otherwise the list and the size added to [total_freed]. *)
Fixpoint free_mark (baddr : Z) (l : list block) : option (list block * Z) :=
  match l with
  | [] => None
  | b :: rest =>
      if b_addr b =? baddr then
        if negb (b_magic b =? BLOCK_MAGIC) then None
        else if truthy (b_is_free b) then None
        else
          let b1 := set_free b 1 in
          match rest with
          | n :: rest' =>
              if truthy (b_is_free n)
              then Some (set_size b1 (wrap64 (b_size b1 + b_size n)) :: rest', b_size b)
              else Some (b1 :: rest, b_size b)
          | [] => Some ([b1], b_size b)
          end
      else
        match free_mark baddr rest with
        | None => None
        | Some (rest', sz) => Some (b :: rest', sz)
        end
  end.

(** Second half of [free]: the walk from [heap_head] that looks for the
    predecessor of the block at [baddr].  [current] is the block under the
    cursor and [rest] what follows it. *)
Fixpoint free_walk (baddr : Z) (current : block) (rest : list block) : list block :=
  match rest with
  | [] => [current]
  | nxt :: rest1 =>
      if truthy (b_is_free current) && (b_addr nxt =? baddr) then
        (* merge current with block, break *)
        set_size current (wrap64 (b_size current + b_size nxt)) :: rest1
      else
        match rest1 with
        | nn :: rest2 =>
            if truthy (b_is_free nxt) && (b_addr nn =? baddr) && truthy (b_is_free nn)
            then (* three-way merge, then current = current->next *)
              current :: free_walk baddr (set_size nxt (wrap64 (b_size nxt + b_size nn))) rest2
            else current :: free_walk baddr nxt rest1
        | [] => current :: free_walk baddr nxt rest1
        end
  end.

Definition free (ptr : Z) (h : heap) : heap :=
  if ptr =? 0 then h
  else
    match free_mark (ptr - HEADER_SIZE) (blocks h) with
    | None => h
    | Some (l, sz) =>
        let l' := match l with
                  | [] => []
                  | head :: rest => free_walk (ptr - HEADER_SIZE) head rest
                  end in
        mk_heap (heap_initialized h) l' (total_allocated h) (wrap64 (total_freed h + sz))
    end.

(** A client of the allocator: a sequence of calls.  The pointer handed
    to [free] is the client's choice, any address at all; in particular
    any pointer returned earlier in the run. *)
Inductive call :=
| Malloc (size : Z)
| Free (ptr : Z).

(** Runs the calls in order, recording the pointers returned by malloc. *)
Fixpoint run (cs : list call) (results : list Z) (h : heap) : list Z * heap :=
  match cs with
  | [] => (results, h)
  | Malloc size :: cs' =>
      let '(p, h') := malloc size h in run cs' (results ++ [p]) h'
  | Free ptr :: cs' => run cs' results (free ptr h)
  end.

(** No two neighbours of the physical list are both free. *)
Fixpoint no_adjacent_free (l : list block) : Prop :=
  match l with
  | b1 :: ((b2 :: _) as tl) =>
      ~ (truthy (b_is_free b1) = true /\ truthy (b_is_free b2) = true) /\
      no_adjacent_free tl
  | _ => True
  end.


(** ** Arithmetic of the alignment mask *)

Lemma mask16 (v : Z) :
  0 <= v < 2^64 -> Z.land v (wrap64 (Z.lnot (ALIGN_SIZE - 1))) = v - v mod 16.
Proof.
  intros Hv.
  change (wrap64 (Z.lnot (ALIGN_SIZE - 1))) with (Z.land (Z.lnot (Z.ones 4)) (Z.ones 64)).
  rewrite (Z.land_comm (Z.lnot _)), Z.land_assoc.
  rewrite (Z.land_ones v 64) by lia. rewrite Z.mod_small by lia.
  rewrite <- Z.sub_land_same_l. rewrite Z.land_ones by lia. reflexivity.
Qed.

Lemma ALIGN_spec (x : Z) :
  ALIGN x = wrap64 (x + 15) - wrap64 (x + 15) mod 16.
Proof.
  unfold ALIGN. rewrite mask16; [reflexivity|].
  unfold wrap64. apply Z.mod_pos_bound. lia.
Qed.

Lemma ALIGN_range (x : Z) : 0 <= ALIGN x < 2^64.
Proof.
  rewrite ALIGN_spec.
  pose proof (Z.mod_pos_bound (x + 15) (2^64) ltac:(lia)) as H1.
  unfold wrap64.
  pose proof (Z.mod_pos_bound ((x + 15) mod 2^64) 16 ltac:(lia)) as H2.
  pose proof (Z.mod_le ((x + 15) mod 2^64) 16 ltac:(lia) ltac:(lia)). lia.
Qed.

Lemma ALIGN_mod16 (x : Z) : ALIGN x mod 16 = 0.
Proof.
  rewrite ALIGN_spec. set (v := wrap64 (x + 15)).
  rewrite Zminus_mod, Z.mod_mod by lia. rewrite Z.sub_diag. reflexivity.
Qed.

Lemma request_size_range (size : Z) :
  MIN_BLOCK_SIZE <= request_size size < 2^64.
Proof.
  unfold request_size. pose proof (ALIGN_range (wrap64 (HEADER_SIZE + size))).
  destruct (_ <? _) eqn:E.
  - unfold MIN_BLOCK_SIZE, HEADER_SIZE, sizeof_size_t, sizeof_pointer, sizeof_uint32_t. lia.
  - apply Z.ltb_ge in E. lia.
Qed.

(** ** Shape of the physical list

    [chain a l]: the blocks of [l] lie one after the other from address
    [a] on, each header intact, each block that has a successor of
    positive size, everything below [2^63]. *)
Fixpoint chain (a : Z) (l : list block) : Prop :=
  match l with
  | [] => True
  | b :: l' =>
      b_addr b = a /\ b_magic b = BLOCK_MAGIC /\ 0 <= b_size b /\
      (l' <> [] -> 0 < b_size b) /\ a + b_size b < 2^63 /\
      chain (a + b_size b) l'
  end.

Definition hd_free (l : list block) : Prop :=
  match l with
  | b :: _ => truthy (b_is_free b) = true
  | [] => False
  end.

(** As [no_adjacent_free], except that a free block may precede the block
    at [baddr]: the state of the list between the two halves of [free]. *)
Fixpoint adjacent_free_only_at (baddr : Z) (l : list block) : Prop :=
  match l with
  | b1 :: ((b2 :: _) as tl) =>
      (truthy (b_is_free b1) = true -> truthy (b_is_free b2) = true ->
       b_addr b2 = baddr) /\
      adjacent_free_only_at baddr tl
  | _ => True
  end.

Lemma chain_addr_ge (l : list block) :
  forall a b, chain a l -> b ∈ l -> a <= b_addr b.
Proof.
  induction l as [|c l IH]; intros a b Hc Hin; [inversion Hin|].
  destruct Hc as (Ha & _ & Hs & _ & _ & Hc).
  apply elem_of_cons in Hin as [->|Hin]; [lia|].
  specialize (IH _ _ Hc Hin). lia.
Qed.

Lemma chain_tail_gt (c : block) (l : list block) a b :
  chain a (c :: l) -> b ∈ l -> b_addr c < b_addr b.
Proof.
  intros (Ha & _ & Hs & Hpos & _ & Hc) Hin.
  pose proof (chain_addr_ge _ _ _ Hc Hin).
  assert (l <> []) by (intros ->; inversion Hin).
  specialize (Hpos H0). lia.
Qed.

Lemma no_adjacent_free_weaken baddr l :
  no_adjacent_free l -> adjacent_free_only_at baddr l.
Proof.
  induction l as [|b1 [|b2 l] IH]; simpl; try done.
  intros [H1 H2]. split; [tauto | now apply IH].
Qed.

Lemma no_adjacent_cons2 b1 b2 l :
  no_adjacent_free (b1 :: b2 :: l) <->
  ~ (truthy (b_is_free b1) = true /\ truthy (b_is_free b2) = true) /\
  no_adjacent_free (b2 :: l).
Proof. reflexivity. Qed.

Lemma only_at_cons2 baddr b1 b2 l :
  adjacent_free_only_at baddr (b1 :: b2 :: l) <->
  (truthy (b_is_free b1) = true -> truthy (b_is_free b2) = true ->
   b_addr b2 = baddr) /\
  adjacent_free_only_at baddr (b2 :: l).
Proof. reflexivity. Qed.

Lemma no_adjacent_tail b l : no_adjacent_free (b :: l) -> no_adjacent_free l.
Proof. destruct l; simpl; [done | tauto]. Qed.

Lemma only_at_tail baddr b l :
  adjacent_free_only_at baddr (b :: l) -> adjacent_free_only_at baddr l.
Proof. destruct l; simpl; [done | tauto]. Qed.

(** No block after the target carries its address: past it the exception
    of [adjacent_free_only_at] never applies. *)
Lemma only_at_past baddr a l :
  chain a l -> baddr < a -> adjacent_free_only_at baddr l -> no_adjacent_free l.
Proof.
  revert a. induction l as [|b1 [|b2 l] IH]; intros a Hc Hlt; simpl; try done.
  intros [H1 H2]. split.
  - intros [F1 F2]. specialize (H1 F1 F2).
    pose proof (chain_tail_gt b1 (b2 :: l) a b2 Hc ltac:(left)).
    destruct Hc as (Ha & _). lia.
  - destruct Hc as (Ha & _ & Hs & _ & _ & Hc).
    apply (IH (a + b_size b1)); [done | lia | done].
Qed.

(** ** [malloc] keeps the shape *)

Lemma malloc_walk_inv (t : Z) (l : list block) :
  MIN_BLOCK_SIZE <= t < 2^64 ->
  forall a p sz l',
    0 <= a -> chain a l -> no_adjacent_free l ->
    malloc_walk t l = Some (p, sz, l') ->
    chain a l' /\ no_adjacent_free l' /\ (hd_free l' -> hd_free l).
Proof.
  intros Ht. unfold MIN_BLOCK_SIZE, HEADER_SIZE, sizeof_size_t, sizeof_pointer,
    sizeof_uint32_t in Ht.
  induction l as [|cur rest IH]; intros a p sz l' Ha Hc Hn Hw; [discriminate|].
  simpl in Hw.
  destruct (negb (b_magic cur =? BLOCK_MAGIC)); [discriminate|].
  destruct Hc as (Hadr & Hmag & Hs & Hpos & Hlim & Hc).
  destruct (truthy (b_is_free cur) && (t <=? b_size cur)) eqn:Efit.
  - apply andb_true_iff in Efit as [Efree Esz]. apply Z.leb_le in Esz.
    assert (Hw64 : wrap64 (t + MIN_BLOCK_SIZE) = t + MIN_BLOCK_SIZE).
    { apply wrap64_small. unfold MIN_BLOCK_SIZE, HEADER_SIZE, sizeof_size_t,
        sizeof_pointer, sizeof_uint32_t. lia. }
    rewrite Hw64 in Hw.
    destruct (t + MIN_BLOCK_SIZE <=? b_size cur) eqn:Esplit.
    + apply Z.leb_le in Esplit.
      unfold MIN_BLOCK_SIZE, HEADER_SIZE, sizeof_size_t, sizeof_pointer,
        sizeof_uint32_t in Esplit.
      injection Hw as <- <- <-.
      rewrite wrap64_small by lia.
      split; [|split].
      * simpl. repeat split; try done; try lia.
        replace (a + t + (b_size cur - t)) with (a + b_size cur) by lia. done.
      * simpl. split; [unfold truthy; simpl; intros [? _]; done|].
        destruct rest as [|nx rest]; [done|].
        simpl in Hn |- *. split; [|tauto].
        intros [_ F2]. apply (proj1 Hn). done.
      * simpl. unfold truthy; simpl. done.
    + injection Hw as <- <- <-.
      split; [|split].
      * simpl. repeat split; done.
      * destruct rest as [|nx rest]; [done|].
        simpl in Hn |- *. split; [|tauto].
        unfold truthy at 1; simpl. intros [? _]; done.
      * simpl. unfold truthy; simpl. done.
  - destruct (malloc_walk t rest) as [[[p0 sz0] rest']|] eqn:Erec; [|discriminate].
    injection Hw as <- <- <-.
    assert (Ha' : 0 <= a + b_size cur) by lia.
    destruct (IH _ _ _ _ Ha' Hc (no_adjacent_tail _ _ Hn) eq_refl) as (Hc' & Hn' & Hhd).
    assert (Hne : rest' <> [] -> rest <> []).
    { intros _ ->. discriminate. }
    split; [|split].
    + simpl. repeat split; try done. intros H. apply Hpos. auto.
    + destruct rest' as [|r1 rest']; [done|].
      simpl. split; [|done].
      intros [F1 F2]. destruct rest as [|q rest]; [discriminate|].
      simpl in Hn. apply (proj1 Hn). split; [done|]. apply Hhd. done.
    + simpl. done.
Qed.

(** ** [free] restores the shape *)

Definition target_free (baddr : Z) (l : list block) : Prop :=
  forall b, b ∈ l -> b_addr b = baddr -> truthy (b_is_free b) = true.

Definition hd_kept (baddr : Z) (l1 l : list block) : Prop :=
  match l1, l with
  | h1 :: _, h :: _ => b_is_free h1 = b_is_free h \/ b_addr h1 = baddr
  | _, _ => False
  end.

Lemma free_mark_inv (baddr : Z) (l : list block) :
  forall a l1 sz,
    0 <= a -> chain a l -> no_adjacent_free l ->
    free_mark baddr l = Some (l1, sz) ->
    chain a l1 /\ adjacent_free_only_at baddr l1 /\ target_free baddr l1 /\
    hd_kept baddr l1 l.
Proof.
  induction l as [|b rest IH]; intros a l1 sz Ha Hc Hn Hm; [discriminate|].
  simpl in Hm.
  pose proof Hc as (Hadr & Hmag & Hs & Hpos & Hlim & Hc').
  destruct (b_addr b =? baddr) eqn:Eaddr.
  - apply Z.eqb_eq in Eaddr.
    destruct (negb (b_magic b =? BLOCK_MAGIC)); [discriminate|].
    destruct (truthy (b_is_free b)) eqn:Efree; [discriminate|].
    destruct rest as [|n rest'].
    + injection Hm as <- <-. repeat split; try done.
      * intros b0 Hin _. apply list_elem_of_singleton in Hin as ->. done.
      * simpl. now right.
    + destruct Hc' as (Hadr' & Hmag' & Hs' & Hpos' & Hlim' & Hc'').
      specialize (Hpos ltac:(done)).
      destruct (truthy (b_is_free n)) eqn:Enext; injection Hm as <- <-.
      * cbn [set_free set_size b_size b_addr b_is_free b_magic].
        rewrite wrap64_small by lia.
        split; [|split; [|split]].
        -- simpl. repeat split; try done; try lia.
           all: try (now rewrite Z.add_assoc).
        -- destruct rest' as [|q rest'']; [done|].
           apply no_adjacent_cons2 in Hn as (_ & Hn).
           pose proof Hn as Hn0.
           apply no_adjacent_cons2 in Hn as (Hnq & Hn').
           apply only_at_cons2. split.
           ++ intros _ Fq. exfalso. apply Hnq. done.
           ++ now apply no_adjacent_free_weaken.
        -- intros b0 Hin Hb0. apply elem_of_cons in Hin as [->|Hin]; [done|].
           exfalso.
           assert (Hin' : b0 ∈ n :: rest') by now right.
           pose proof (chain_tail_gt b (n :: rest') a b0 Hc Hin'). lia.
        -- simpl. now right.
      * split; [|split; [|split]].
        -- simpl. repeat split; try done; try lia.
        -- apply only_at_cons2. split.
           ++ intros _ Fn. congruence.
           ++ apply no_adjacent_free_weaken. apply (no_adjacent_tail _ _ Hn).
        -- intros b0 Hin Hb0. apply elem_of_cons in Hin as [->|Hin]; [done|].
           exfalso.
           pose proof (chain_tail_gt b (n :: rest') a b0 Hc Hin). lia.
        -- simpl. now right.
  - apply Z.eqb_neq in Eaddr.
    destruct (free_mark baddr rest) as [[rest1 sz1]|] eqn:Erec; [|discriminate].
    injection Hm as <- <-.
    assert (Ha' : 0 <= a + b_size b) by lia.
    destruct (IH _ _ _ Ha' Hc' (no_adjacent_tail _ _ Hn) eq_refl)
      as (Hc1 & Ho1 & Ht1 & Hk1).
    split; [|split; [|split]].
    + simpl. repeat split; try done. intros _. apply Hpos.
      intros ->. discriminate.
    + destruct rest1 as [|r1 rest1]; [done|].
      apply only_at_cons2. split; [|done].
      intros F1 F2. destruct rest as [|q rest]; [discriminate|].
      simpl in Hk1. destruct Hk1 as [Hk1|Hk1]; [|done].
      exfalso. apply no_adjacent_cons2 in Hn as (Hn & _). apply Hn. split; [done|].
      unfold truthy in *. now rewrite <- Hk1.
    + intros b0 Hin Hb0. apply elem_of_cons in Hin as [->|Hin]; [done|].
      now apply Ht1.
    + simpl. now left.
Qed.

Lemma free_walk_inv (baddr : Z) (n : nat) :
  forall rest cur a,
    (length rest <= n)%nat ->
    0 <= a -> chain a (cur :: rest) ->
    adjacent_free_only_at baddr (cur :: rest) ->
    target_free baddr (cur :: rest) ->
    chain a (free_walk baddr cur rest) /\
    no_adjacent_free (free_walk baddr cur rest) /\
    exists h t, free_walk baddr cur rest = h :: t /\ b_is_free h = b_is_free cur.
Proof.
  induction n as [|n IH]; intros rest cur a Hlen Ha Hc Ho Ht.
  { destruct rest; [|simpl in Hlen; lia].
    split; [exact Hc | split; [exact I | eauto]]. }
  destruct rest as [|nxt rest1].
  { split; [exact Hc | split; [exact I | eauto]]. }
  pose proof Hc as (Hadr & Hmag & Hs & Hpos & Hlim & Hc1).
  specialize (Hpos ltac:(done)).
  pose proof Hc1 as (Hadr1 & Hmag1 & Hs1 & Hpos1 & Hlim1 & Hc2).
  simpl in Hlen. simpl free_walk.
  destruct (truthy (b_is_free cur) && (b_addr nxt =? baddr)) eqn:Efirst.
  - (* merge current with block *)
    apply andb_true_iff in Efirst as [Fcur Enxt]. apply Z.eqb_eq in Enxt.
    assert (Fnxt : truthy (b_is_free nxt) = true).
    { apply Ht; [right; left|done]. }
    rewrite wrap64_small by lia.
    split; [|split].
    + simpl. repeat split; try done; try lia.
      all: try (intros Hne; specialize (Hpos1 Hne); lia).
      all: try (now rewrite Z.add_assoc).
    + destruct rest1 as [|q rest2]; [done|].
      specialize (Hpos1 ltac:(done)).
      apply no_adjacent_cons2. split.
      * intros [_ Fq]. apply only_at_cons2 in Ho as (_ & Ho).
        apply only_at_cons2 in Ho as (Hoq & _).
        specialize (Hoq Fnxt Fq).
        destruct Hc2 as (Hadrq & _). lia.
      * apply (only_at_past baddr (a + b_size cur + b_size nxt)); [done|lia|].
        apply (only_at_tail _ nxt). apply (only_at_tail _ cur). done.
    + eauto.
  - assert (Hpair : ~ (truthy (b_is_free cur) = true /\ truthy (b_is_free nxt) = true)).
    { intros [F1 F2]. apply only_at_cons2 in Ho as (Ho1 & _).
      specialize (Ho1 F1 F2). rewrite F1 in Efirst. simpl in Efirst.
      apply Z.eqb_neq in Efirst. done. }
    assert (Ha1 : 0 <= a + b_size cur) by lia.
    assert (Hstep : forall c' rest',
      chain (a + b_size cur) (c' :: rest') ->
      b_is_free c' = b_is_free nxt ->
      chain (a + b_size cur) (free_walk baddr c' rest') /\
      no_adjacent_free (free_walk baddr c' rest') /\
      (exists h t, free_walk baddr c' rest' = h :: t /\ b_is_free h = b_is_free c') ->
      chain a (cur :: free_walk baddr c' rest') /\
      no_adjacent_free (cur :: free_walk baddr c' rest') /\
      exists h t, cur :: free_walk baddr c' rest' = h :: t /\ b_is_free h = b_is_free cur).
    { intros c' rest' Hcc Hfr (HcR & HnR & h & t & Heq & Hh).
      rewrite Heq in *. split; [|split].
      - simpl. repeat split; try done; apply HcR.
      - apply no_adjacent_cons2. split; [|done].
        intros [F1 F2]. apply Hpair. split; [done|].
        unfold truthy in *. now rewrite <- Hfr, <- Hh.
      - eauto. }
    destruct rest1 as [|nn rest2].
    + apply Hstep; [done|done|]. apply IH; try done.
      * simpl. lia.
      * intros b0 Hin. apply Ht. now right.
    + specialize (Hpos1 ltac:(done)).
      pose proof Hc2 as (Hadr2 & Hmag2 & Hs2 & Hpos2 & Hlim2 & Hc3).
      destruct (truthy (b_is_free nxt) && (b_addr nn =? baddr) && truthy (b_is_free nn))
        eqn:Ethree.
      * (* three-way merge *)
        apply andb_true_iff in Ethree as [Ethree Fnn].
        apply andb_true_iff in Ethree as [Fnxt Enn]. apply Z.eqb_eq in Enn.
        assert (Hcm : chain (a + b_size cur)
                        (set_size nxt (wrap64 (b_size nxt + b_size nn)) :: rest2)).
        { rewrite wrap64_small by lia. simpl. repeat split; try done; try lia.
          all: try (intros Hne; specialize (Hpos2 Hne); lia).
          all: try (now rewrite Z.add_assoc). }
        apply Hstep; [done|done|].
        apply IH; try done.
        -- simpl in Hlen. lia.
        -- destruct rest2 as [|q rest3]; [done|].
           specialize (Hpos2 ltac:(done)).
           apply only_at_cons2. split.
           ++ intros _ Fq. exfalso. apply only_at_cons2 in Ho as (_ & Ho).
              apply only_at_cons2 in Ho as (_ & Ho).
              apply only_at_cons2 in Ho as (Hoq & _).
              specialize (Hoq Fnn Fq). destruct Hc3 as (Hadr3 & _).
              cbn [set_size b_addr b_size] in *. lia.
           ++ apply (only_at_tail _ nn). apply (only_at_tail _ nxt).
              apply (only_at_tail _ cur). done.
        -- intros b0 Hin Hb0. apply elem_of_cons in Hin as [->|Hin].
           ++ simpl in Hb0. lia.
           ++ apply Ht; [|done]. right. right. now right.
      * apply Hstep; [done|done|]. apply IH; try done.
        -- lia.
        -- apply (only_at_tail _ cur). done.
        -- intros b0 Hin. apply Ht. now right.
Qed.

(** ** The heap invariant along a run *)

Definition region_ok : Prop :=
  0 <= heap_start /\ heap_start + 15 <= heap_end /\ heap_end < 2^63.

Definition heap_inv (h : heap) : Prop :=
  chain aligned_start (blocks h) /\ no_adjacent_free (blocks h).

Lemma aligned_start_range :
  region_ok -> heap_start <= aligned_start <= heap_start + 15.
Proof.
  intros (H0 & H1 & H2). unfold aligned_start. rewrite ALIGN_spec.
  rewrite wrap64_small by lia.
  pose proof (Z.mod_pos_bound (heap_start + 15) 16 ltac:(lia)). lia.
Qed.

Lemma initial_size_range :
  region_ok -> 0 <= initial_size <= heap_end - aligned_start.
Proof.
  intros Hr. pose proof (aligned_start_range Hr) as Ha.
  destruct Hr as (H0 & H1 & H2). unfold initial_size.
  rewrite (wrap64_small (heap_end - heap_start)) by lia.
  rewrite wrap64_small by lia.
  rewrite mask16 by lia.
  pose proof (Z.mod_pos_bound (heap_end - heap_start - (aligned_start - heap_start)) 16
                ltac:(lia)).
  pose proof (Z.mod_le (heap_end - heap_start - (aligned_start - heap_start)) 16
                ltac:(lia) ltac:(lia)). lia.
Qed.

Lemma heap_init_inv h : region_ok -> heap_inv h -> heap_inv (heap_init h).
Proof.
  intros Hr Hi. unfold heap_init. destruct (heap_initialized h); [done|].
  pose proof (aligned_start_range Hr) as Hra.
  pose proof (initial_size_range Hr) as Hri.
  destruct Hr as (Hr0 & Hr1 & Hr2).
  split; simpl; repeat split; try done; lia.
Qed.

Lemma malloc_inv size h : region_ok -> heap_inv h -> heap_inv (malloc size h).2.
Proof.
  intros Hr Hi. unfold malloc.
  assert (Hi' : heap_inv (if heap_initialized h then h else heap_init h)).
  { destruct (heap_initialized h); [done | now apply heap_init_inv]. }
  set (h1 := if heap_initialized h then h else heap_init h) in *.
  destruct (size =? 0); [done|].
  destruct (malloc_walk (request_size size) (blocks h1)) as [[[p sz] l]|] eqn:Ew; [|done].
  pose proof (aligned_start_range Hr) as Hra. destruct Hr as (Hr0 & _).
  destruct Hi' as [Hc Hn].
  destruct (malloc_walk_inv _ _ (request_size_range size) aligned_start p sz l
              ltac:(lia) Hc Hn Ew) as (Hc' & Hn' & _).
  split; done.
Qed.

Lemma free_inv ptr h : region_ok -> heap_inv h -> heap_inv (free ptr h).
Proof.
  intros Hr Hi. unfold free. destruct (ptr =? 0); [done|].
  destruct (free_mark (ptr - HEADER_SIZE) (blocks h)) as [[l sz]|] eqn:Em; [|done].
  pose proof (aligned_start_range Hr) as Hra. destruct Hr as (Hr0 & _).
  destruct Hi as [Hc Hn].
  destruct (free_mark_inv _ _ aligned_start l sz ltac:(lia) Hc Hn Em)
    as (Hc1 & Ho1 & Ht1 & _).
  destruct l as [|head rest]; [done|].
  destruct (free_walk_inv (ptr - HEADER_SIZE) (length rest) rest head aligned_start
              ltac:(lia) ltac:(lia) Hc1 Ho1 Ht1) as (Hc2 & Hn2 & _).
  split; done.
Qed.

Lemma run_inv cs : forall results h,
  region_ok -> heap_inv h -> heap_inv (run cs results h).2.
Proof.
  induction cs as [|[size|ptr] cs IH]; intros results h Hr Hi; simpl; [done| |].
  - pose proof (malloc_inv size h Hr Hi) as Hm.
    destruct (malloc size h) as [p h']. now apply IH.
  - apply IH; [done|]. now apply free_inv.
Qed.

Lemma heap_boot_inv : heap_inv heap_boot.
Proof. split; simpl; done. Qed.

(** C3.  Whatever calls of [malloc] and [free] a client makes on the
    freshly initialised heap, afterwards no two neighbours of the
    physical-order block list are both free. *)
Theorem coalescing_invariant (cs : list call) :
  region_ok ->
  no_adjacent_free (blocks (run cs [] (heap_init heap_boot)).2).
Proof.
  intros Hr. apply run_inv; [done|].
  apply heap_init_inv; [done | apply heap_boot_inv].
Qed.

(** The first allocation on a fresh heap sits at the aligned start of the
    region, so its payload begins one header past a 16-byte boundary. *)
Lemma malloc_first_payload (size : Z) :
  region_ok -> size <> 0 -> request_size size <= initial_size ->
  (malloc size (heap_init heap_boot)).1 = aligned_start + HEADER_SIZE /\
  (malloc size (heap_init heap_boot)).1 mod 16 = HEADER_SIZE mod 16.
Proof.
  intros Hr Hsz Hfit.
  assert (E : (malloc size (heap_init heap_boot)).1 = aligned_start + HEADER_SIZE).
  { unfold malloc, heap_init. cbn [heap_initialized heap_boot blocks].
    apply Z.eqb_neq in Hsz. rewrite Hsz.
    cbn [malloc_walk b_magic b_is_free b_size b_addr].
    rewrite Z.eqb_refl. apply Z.leb_le in Hfit. rewrite Hfit.
    cbn [negb truthy andb]. change (truthy 1) with true. cbn [andb].
    destruct (wrap64 _ <=? _); reflexivity. }
  split; [done|]. rewrite E. unfold aligned_start.
  rewrite Zplus_mod, ALIGN_mod16. rewrite Z.add_0_l, Z.mod_mod by lia. done.
Qed.

End Region.

(** A one-megabyte heap region, as a linker script would place it. *)
Definition sample_start : Z := 0x40200000.
Definition sample_end : Z := 0x40300000.

Lemma sample_region_ok : region_ok sample_start sample_end.
Proof. unfold region_ok, sample_start, sample_end. lia. Qed.

Lemma coalescing_invariant_witness :
  region_ok sample_start sample_end /\
  no_adjacent_free
    (blocks (run sample_start sample_end
               [Malloc 100; Malloc 200; Free 0x40200018; Free 0x40200098; Malloc 290]
               [] (heap_init sample_start sample_end heap_boot)).2).
Proof.
  split; [exact sample_region_ok|].
  apply (coalescing_invariant sample_start sample_end _ sample_region_ok).
Defined.

(** The design document's scenario: [p1 = alloc 100; p2 = alloc 200;
    free p1; free p2; p3 = alloc 290] ends with a non-null [p3], served
    from the block rebuilt by the two merges. *)
Example heap_coalesce_scenario :
  (run sample_start sample_end
     [Malloc 100; Malloc 200; Free 0x40200018; Free 0x40200098; Malloc 290]
     [] heap_boot).1 = [0x40200018; 0x40200098; 0x40200018].
Proof. vm_compute. reflexivity. Qed.

(** C4 (defect).  On the ARM64 layout the header is 24 bytes, so the
    payload of the very first allocation, [malloc 1] on the sample region,
    is at offset 8 from a 16-byte boundary: the pointer is not 16-byte
    aligned although the block itself is. *)
Theorem malloc_payload_not_16_aligned :
  HEADER_SIZE = 24 /\
  (malloc sample_start sample_end 1 heap_boot).1 = 0x40200018 /\
  (malloc sample_start sample_end 1 heap_boot).1 <> 0 /\
  (malloc sample_start sample_end 1 heap_boot).1 mod 16 = 8.
Proof. vm_compute. repeat split; try reflexivity. discriminate. Qed.


(** ** Accounting: the two statistics walks *)

(** [heap_free_bytes] and [heap_used_bytes]: the loop from [current] on,
    with the running [size_t] sum. *)
Fixpoint free_bytes_walk (l : list block) (free_bytes : Z) : Z :=
  match l with
  | [] => free_bytes
  | current :: rest =>
      free_bytes_walk rest
        (if truthy (b_is_free current)
         then wrap64 (free_bytes + wrap64 (b_size current - HEADER_SIZE))
         else free_bytes)
  end.

Fixpoint used_bytes_walk (l : list block) (used_bytes : Z) : Z :=
  match l with
  | [] => used_bytes
  | current :: rest =>
      used_bytes_walk rest
        (if negb (truthy (b_is_free current))
         then wrap64 (used_bytes + wrap64 (b_size current - HEADER_SIZE))
         else used_bytes)
  end.

(** The sizes of the blocks, added up. *)
Fixpoint total (l : list block) : Z :=
  match l with
  | [] => 0
  | b :: l' => b_size b + total l'
  end.

Definition sizes_ok (l : list block) : Prop := Forall (fun b => HEADER_SIZE <= b_size b) l.

Ltac header_size :=
  unfold MIN_BLOCK_SIZE, HEADER_SIZE, sizeof_size_t, sizeof_pointer, sizeof_uint32_t in *.

Lemma chain_total a l : chain a l -> 0 <= a -> 0 <= total l /\ (l <> [] -> a + total l < 2^63).
Proof.
  revert a. induction l as [|b l IH]; intros a Hc Ha; [cbn; split; [lia|done]|].
  destruct Hc as (Hadr & _ & Hs & _ & Hlim & Hc). cbn [total].
  destruct (IH _ Hc ltac:(lia)) as [H0 H1]. split; [lia|]. intros _.
  destruct l as [|c l]; [cbn; lia|]. specialize (H1 ltac:(done)). lia.
Qed.

Lemma chain_block_inside a l b :
  chain a l -> 0 <= a -> b ∈ l -> a <= b_addr b /\ b_addr b + b_size b <= a + total l.
Proof.
  revert a. induction l as [|c l IH]; intros a Hc Ha Hin; [inversion Hin|].
  pose proof Hc as (Hadr & _ & Hs & _ & _ & Hc'). cbn [total].
  pose proof (chain_total _ _ Hc' ltac:(lia)) as [Ht _].
  apply elem_of_cons in Hin as [->|Hin]; [lia|].
  destruct (IH _ Hc' ltac:(lia) Hin). lia.
Qed.

Lemma malloc_walk_total (t : Z) (l : list block) :
  MIN_BLOCK_SIZE <= t < 2^64 ->
  forall a p sz l', 0 <= a -> chain a l -> sizes_ok l ->
    malloc_walk t l = Some (p, sz, l') -> total l' = total l /\ sizes_ok l'.
Proof.
  intros Ht. unfold MIN_BLOCK_SIZE, HEADER_SIZE, sizeof_size_t, sizeof_pointer,
    sizeof_uint32_t in Ht.
  induction l as [|cur rest IH]; intros a p sz l' Ha Hc Hok Hw; [discriminate|].
  cbn [malloc_walk] in Hw.
  destruct (negb (b_magic cur =? BLOCK_MAGIC)); [discriminate|].
  destruct Hc as (Hadr & Hmag & Hs & Hpos & Hlim & Hc).
  apply Forall_cons in Hok as [Hok1 Hok].
  unfold HEADER_SIZE, sizeof_size_t, sizeof_pointer, sizeof_uint32_t in Hok1.
  destruct (truthy (b_is_free cur) && (t <=? b_size cur)) eqn:Efit.
  - apply andb_true_iff in Efit as [_ Esz]. apply Z.leb_le in Esz.
    assert (Hw64 : wrap64 (t + MIN_BLOCK_SIZE) = t + MIN_BLOCK_SIZE).
    { apply wrap64_small. unfold MIN_BLOCK_SIZE, HEADER_SIZE, sizeof_size_t,
        sizeof_pointer, sizeof_uint32_t. lia. }
    rewrite Hw64 in Hw.
    destruct (t + MIN_BLOCK_SIZE <=? b_size cur) eqn:Esplit.
    + apply Z.leb_le in Esplit.
      unfold MIN_BLOCK_SIZE, HEADER_SIZE, sizeof_size_t, sizeof_pointer,
        sizeof_uint32_t in Esplit.
      injection Hw as <- <- <-. cbn [total b_size set_size set_free].
      rewrite wrap64_small by lia. split; [lia|].
      repeat constructor; cbn [b_size set_size set_free];
        unfold HEADER_SIZE, sizeof_size_t, sizeof_pointer, sizeof_uint32_t; try lia.
      exact Hok.
    + injection Hw as <- <- <-. cbn [total b_size set_free]. split; [reflexivity|].
      constructor; [cbn; unfold HEADER_SIZE, sizeof_size_t, sizeof_pointer,
                      sizeof_uint32_t; lia|exact Hok].
  - destruct (malloc_walk t rest) as [[[p1 sz1] rest']|] eqn:Er; [|discriminate].
    injection Hw as <- <- <-.
    destruct (IH (a + b_size cur) p1 sz1 rest' ltac:(lia) Hc Hok eq_refl) as [H1 H2].
    cbn [total]. split; [lia|]. constructor; [|exact H2].
    unfold HEADER_SIZE, sizeof_size_t, sizeof_pointer, sizeof_uint32_t. lia.
Qed.

(** Two neighbours merged into the first. *)
Lemma chain_merge a b1 b2 l :
  0 <= a -> chain a (b1 :: b2 :: l) ->
  wrap64 (b_size b1 + b_size b2) = b_size b1 + b_size b2 /\
  chain a (set_size b1 (wrap64 (b_size b1 + b_size b2)) :: l).
Proof.
  intros Ha (Hadr & Hmag & Hs & Hpos & Hlim & Hadr2 & Hmag2 & Hs2 & Hpos2 & Hlim2 & Hc).
  specialize (Hpos ltac:(done)).
  assert (Hw : wrap64 (b_size b1 + b_size b2) = b_size b1 + b_size b2)
    by (apply wrap64_small; lia).
  split; [exact Hw|]. rewrite Hw. cbn.
  repeat split; try done; try lia.
  replace (a + (b_size b1 + b_size b2)) with (a + b_size b1 + b_size b2) by lia. exact Hc.
Qed.

Lemma free_mark_total (baddr : Z) (l : list block) :
  forall a l1 sz, 0 <= a -> chain a l -> sizes_ok l ->
    free_mark baddr l = Some (l1, sz) -> total l1 = total l /\ sizes_ok l1.
Proof.
  induction l as [|b rest IH]; intros a l1 sz Ha Hc Hok Hm; [discriminate|].
  cbn [free_mark] in Hm. pose proof Hok as Hok'. apply Forall_cons in Hok' as [Hok1 Hokr].
  destruct (b_addr b =? baddr).
  - destruct (negb (b_magic b =? BLOCK_MAGIC)); [discriminate|].
    destruct (truthy (b_is_free b)); [discriminate|].
    destruct rest as [|n rest'].
    + injection Hm as <- <-. cbn. split; [reflexivity|]. now repeat constructor.
    + destruct (truthy (b_is_free n)).
      * injection Hm as <- <-.
        destruct (chain_merge a b n rest' Ha Hc) as [Hw _].
        apply Forall_cons in Hokr as [Hok2 Hokr].
        cbn [total b_size set_size set_free]. rewrite Hw. split; [lia|].
        constructor; [cbn [b_size set_size set_free]; header_size; lia|exact Hokr].
      * injection Hm as <- <-. cbn [total b_size set_free]. split; [reflexivity|].
        constructor; [exact Hok1|exact Hokr].
  - destruct (free_mark baddr rest) as [[rest' sz']|] eqn:Er; [|discriminate].
    injection Hm as <- <-.
    destruct Hc as (_ & _ & Hs & _ & _ & Hc).
    destruct (IH (a + b_size b) rest' sz' ltac:(lia) Hc Hokr eq_refl) as [H1 H2].
    cbn [total]. split; [lia|]. now constructor.
Qed.

Lemma free_walk_total (baddr : Z) (n : nat) :
  forall rest cur a, (length rest <= n)%nat -> 0 <= a ->
    chain a (cur :: rest) -> sizes_ok (cur :: rest) ->
    total (free_walk baddr cur rest) = total (cur :: rest) /\
    sizes_ok (free_walk baddr cur rest).
Proof.
  induction n as [|n IH]; intros rest cur a Hlen Ha Hc Hok.
  { destruct rest; [|cbn in Hlen; lia]. now split. }
  destruct rest as [|nxt rest1]; [now split|].
  cbn [length] in Hlen. cbn [free_walk].
  pose proof Hok as Hok'. apply Forall_cons in Hok' as [Hok1 Hokr].
  pose proof Hokr as Hokr'. apply Forall_cons in Hokr' as [Hok2 Hokr1].
  destruct (chain_merge a cur nxt rest1 Ha Hc) as [Hw _].
  pose proof Hc as (_ & _ & Hs & _ & _ & Hc1).
  destruct (truthy (b_is_free cur) && (b_addr nxt =? baddr)).
  - cbn [total b_size set_size]. rewrite Hw. split; [lia|].
    constructor; [cbn [b_size set_size]; header_size; lia|exact Hokr1].
  - assert (Hstep : total (cur :: free_walk baddr nxt rest1) = total (cur :: nxt :: rest1) /\
                    sizes_ok (cur :: free_walk baddr nxt rest1)).
    { destruct (IH rest1 nxt (a + b_size cur) ltac:(lia) ltac:(lia) Hc1 Hokr) as [H1 H2].
      cbn [total] in *. split; [lia|]. now constructor. }
    destruct rest1 as [|nn rest2]; [exact Hstep|].
    destruct (truthy (b_is_free nxt) && (b_addr nn =? baddr) && truthy (b_is_free nn));
      [|exact Hstep].
    destruct (chain_merge (a + b_size cur) nxt nn rest2 ltac:(lia) Hc1) as [Hw2 Hc2].
    apply Forall_cons in Hokr1 as [Hok3 Hokr2].
    set (m := set_size nxt (wrap64 (b_size nxt + b_size nn))) in *.
    assert (Hm : b_size m = b_size nxt + b_size nn) by exact Hw2.
    destruct (IH rest2 m (a + b_size cur)
                ltac:(cbn in Hlen; lia) ltac:(lia) Hc2) as [H1 H2].
    { constructor; [rewrite Hm; header_size; lia|exact Hokr2]. }
    cbn [total] in *. split; [lia|]. now constructor.
Qed.

Section Accounting.

Variables heap_start heap_end : Z.

Definition heap_free_bytes (h : heap) : Z * heap :=
  let h := if heap_initialized h then h else heap_init heap_start heap_end h in
  (free_bytes_walk (blocks h) 0, h).

Definition heap_used_bytes (h : heap) : Z * heap :=
  let h := if heap_initialized h then h else heap_init heap_start heap_end h in
  (used_bytes_walk (blocks h) 0, h).

(** The blocks tile the region handed out at initialisation. *)
Definition tiled (h : heap) : Prop :=
  heap_initialized h = true /\
  heap_inv heap_start h /\
  sizes_ok (blocks h) /\
  total (blocks h) = initial_size heap_start heap_end.

Lemma heap_init_tiled :
  region_ok heap_start heap_end -> HEADER_SIZE <= initial_size heap_start heap_end ->
  tiled (heap_init heap_start heap_end heap_boot).
Proof.
  intros Hr Hbig.
  split; [reflexivity|]. split; [now apply heap_init_inv, heap_boot_inv|].
  cbn. split; [now repeat constructor|lia].
Qed.

Lemma malloc_tiled size h :
  region_ok heap_start heap_end -> tiled h -> tiled (malloc heap_start heap_end size h).2.
Proof.
  intros Hr (Hi & Hinv & Hok & Ht).
  pose proof (malloc_inv heap_start heap_end size h Hr Hinv) as Hinv'.
  revert Hinv'. unfold malloc. rewrite Hi.
  destruct (size =? 0); [now split|].
  destruct (malloc_walk (request_size size) (blocks h)) as [[[p sz] l]|] eqn:Ew;
    [|now split].
  pose proof (aligned_start_range heap_start heap_end Hr) as Hra.
  destruct Hr as (Hr0 & Hr1 & Hr2). destruct Hinv as [Hc Hn].
  destruct (malloc_walk_total _ _ (request_size_range size) (aligned_start heap_start)
              p sz l ltac:(lia) Hc Hok Ew)
    as [H1 H2].
  cbn [snd blocks heap_initialized]. intros Hinv'. split; [exact Hi|]. split; [exact Hinv'|].
  cbn [blocks]. split; [exact H2|]. now rewrite H1.
Qed.

Lemma free_tiled ptr h :
  region_ok heap_start heap_end -> tiled h -> tiled (free ptr h).
Proof.
  intros Hr (Hi & Hinv & Hok & Ht).
  pose proof (free_inv heap_start heap_end ptr h Hr Hinv) as Hinv'.
  revert Hinv'. unfold free. destruct (ptr =? 0); [now split|].
  destruct (free_mark (ptr - HEADER_SIZE) (blocks h)) as [[l sz]|] eqn:Em; [|now split].
  pose proof (aligned_start_range heap_start heap_end Hr) as Hra.
  destruct Hr as (Hr0 & Hr1 & Hr2). destruct Hinv as [Hc Hn].
  destruct (free_mark_total _ _ (aligned_start heap_start) l sz ltac:(lia) Hc Hok Em)
    as [H1 H2].
  destruct (free_mark_inv _ _ (aligned_start heap_start) l sz ltac:(lia) Hc Hn Em)
    as (Hc1 & _).
  cbn [blocks heap_initialized]. intros Hinv'. split; [exact Hi|]. split; [exact Hinv'|].
  cbn [blocks].
  destruct l as [|head rest]; [split; [constructor|now rewrite <- Ht, <- H1]|].
  destruct (free_walk_total (ptr - HEADER_SIZE) (length rest) rest head
              (aligned_start heap_start) ltac:(lia) ltac:(lia) Hc1 H2) as [H3 H4].
  split; [exact H4|]. now rewrite H3, H1.
Qed.

Lemma run_tiled cs : forall results h,
  region_ok heap_start heap_end -> tiled h ->
  tiled (run heap_start heap_end cs results h).2.
Proof.
  induction cs as [|[size|ptr] cs IH]; intros results h Hr Ht; cbn [run]; [done| |].
  - pose proof (malloc_tiled size h Hr Ht) as Hm.
    destruct (malloc heap_start heap_end size h) as [p h']. now apply IH.
  - apply IH; [done|]. now apply free_tiled.
Qed.

End Accounting.

(** The sums the two walks compute, without the wrap-around. *)
Fixpoint free_sum (l : list block) : Z :=
  match l with
  | [] => 0
  | b :: l' => (if truthy (b_is_free b) then b_size b - HEADER_SIZE else 0) + free_sum l'
  end.

Fixpoint used_sum (l : list block) : Z :=
  match l with
  | [] => 0
  | b :: l' => (if truthy (b_is_free b) then 0 else b_size b - HEADER_SIZE) + used_sum l'
  end.

Lemma sums_total l :
  sizes_ok l ->
  0 <= free_sum l /\ 0 <= used_sum l /\
  free_sum l + used_sum l + HEADER_SIZE * Z.of_nat (length l) = total l.
Proof.
  induction 1 as [|b l Hb Hl IH]; [cbn; lia|].
  cbn [free_sum used_sum total length]. destruct (truthy (b_is_free b)); lia.
Qed.

Lemma free_bytes_walk_sum l :
  sizes_ok l -> forall acc, 0 <= acc -> acc + free_sum l + used_sum l < 2^64 ->
  free_bytes_walk l acc = acc + free_sum l.
Proof.
  induction 1 as [|b l Hb Hl IH]; intros acc Ha Hlim; [cbn; lia|].
  pose proof (sums_total l Hl) as (H1 & H2 & _).
  cbn [free_bytes_walk free_sum used_sum] in *.
  destruct (truthy (b_is_free b)).
  - rewrite (wrap64_small (b_size b - HEADER_SIZE)) by lia.
    rewrite wrap64_small by lia. rewrite IH by lia. lia.
  - rewrite IH by lia. lia.
Qed.

Lemma used_bytes_walk_sum l :
  sizes_ok l -> forall acc, 0 <= acc -> acc + free_sum l + used_sum l < 2^64 ->
  used_bytes_walk l acc = acc + used_sum l.
Proof.
  induction 1 as [|b l Hb Hl IH]; intros acc Ha Hlim; [cbn; lia|].
  pose proof (sums_total l Hl) as (H1 & H2 & _).
  cbn [used_bytes_walk free_sum used_sum] in *.
  destruct (truthy (b_is_free b)); cbn [negb].
  - rewrite IH by lia. lia.
  - rewrite (wrap64_small (b_size b - HEADER_SIZE)) by lia.
    rewrite wrap64_small by lia. rewrite IH by lia. lia.
Qed.

Section HeapAccounting.

Variables heap_start heap_end : Z.

(** Nothing is lost.  After any calls of [malloc] and [free] on a heap
    that starts with room for a header, the blocks lie inside the
    region set up by [heap_init], and the free bytes, the used bytes and
    one header per block add up to its size. *)
Theorem heap_accounting (cs : list call) :
  region_ok heap_start heap_end -> HEADER_SIZE <= initial_size heap_start heap_end ->
  let h := (run heap_start heap_end cs [] (heap_init heap_start heap_end heap_boot)).2 in
  (heap_free_bytes heap_start heap_end h).1 + (heap_used_bytes heap_start heap_end h).1 +
    HEADER_SIZE * Z.of_nat (length (blocks h)) = initial_size heap_start heap_end /\
  (forall b, b ∈ blocks h ->
     aligned_start heap_start <= b_addr b /\
     b_addr b + b_size b <= aligned_start heap_start + initial_size heap_start heap_end /\
     b_addr b + b_size b <= heap_end).
Proof.
  intros Hr Hbig h.
  destruct (run_tiled heap_start heap_end cs [] _ Hr (heap_init_tiled _ _ Hr Hbig))
    as (Hi & [Hc Hn] & Hok & Ht).
  fold h in Hi, Hc, Hn, Hok, Ht.
  pose proof (aligned_start_range heap_start heap_end Hr) as Hra.
  pose proof (initial_size_range heap_start heap_end Hr) as Hri.
  pose proof Hr as (Hr0 & Hr1 & Hr2).
  pose proof (sums_total _ Hok) as (H1 & H2 & H3).
  assert (Hlim : total (blocks h) < 2^64) by lia.
  assert (Hh : 0 <= HEADER_SIZE * Z.of_nat (length (blocks h))) by (header_size; lia).
  unfold heap_free_bytes, heap_used_bytes. rewrite Hi. cbn [fst].
  rewrite free_bytes_walk_sum, used_bytes_walk_sum by (try done; lia).
  split; [lia|]. intros b Hb.
  destruct (chain_block_inside _ _ b Hc ltac:(lia) Hb). lia.
Qed.

End HeapAccounting.

Lemma heap_accounting_witness :
  (region_ok sample_start sample_end /\
   HEADER_SIZE <= initial_size sample_start sample_end) /\
  let h := (run sample_start sample_end [Malloc 100; Malloc 200; Free 0x40200018] []
              (heap_init sample_start sample_end heap_boot)).2 in
  (heap_free_bytes sample_start sample_end h).1 +
  (heap_used_bytes sample_start sample_end h).1 + HEADER_SIZE * 3 = 0x100000.
Proof.
  assert (H1 : region_ok sample_start sample_end) by exact sample_region_ok.
  assert (H2 : HEADER_SIZE <= initial_size sample_start sample_end)
    by (vm_compute; discriminate).
  split; [split; assumption|].
  exact (proj1 (heap_accounting sample_start sample_end
                  [Malloc 100; Malloc 200; Free 0x40200018] H1 H2)).
Defined.

(** ** What a successful [malloc] hands out *)

Lemma chain_addr_unique a l b c :
  chain a l -> b ∈ l -> c ∈ l -> b_addr b = b_addr c -> b = c.
Proof.
  revert a. induction l as [|x l IH]; intros a Hc Hb Hcin Heq; [inversion Hb|].
  apply elem_of_cons in Hb as [->|Hb]; apply elem_of_cons in Hcin as [->|Hcin].
  - reflexivity.
  - pose proof (chain_tail_gt x l a c Hc Hcin). lia.
  - pose proof (chain_tail_gt x l a b Hc Hb). lia.
  - destruct Hc as (_ & _ & _ & _ & _ & Hc). exact (IH _ Hc Hb Hcin Heq).
Qed.

Lemma malloc_walk_block (t : Z) (l : list block) :
  forall p sz l', malloc_walk t l = Some (p, sz, l') ->
    exists b, b ∈ l' /\ p = b_addr b + HEADER_SIZE /\ b_is_free b = 0 /\
              b_size b = sz /\ t <= sz /\
              (exists b0, b0 ∈ l /\ b_addr b0 = b_addr b /\ truthy (b_is_free b0) = true) /\
              (forall c, c ∈ l -> truthy (b_is_free c) = false -> c ∈ l').
Proof.
  induction l as [|cur rest IH]; intros p sz l' Hw; [discriminate|].
  cbn [malloc_walk] in Hw.
  destruct (negb (b_magic cur =? BLOCK_MAGIC)); [discriminate|].
  destruct (truthy (b_is_free cur) && (t <=? b_size cur)) eqn:Efit.
  - apply andb_true_iff in Efit as [Efree Esz]. apply Z.leb_le in Esz.
    destruct (wrap64 (t + MIN_BLOCK_SIZE) <=? b_size cur).
    + injection Hw as <- <- <-.
      exists (set_free (set_size cur t) 0). cbn [b_addr b_size b_is_free set_free set_size].
      split; [left|]. split; [reflexivity|]. split; [reflexivity|]. split; [reflexivity|].
      split; [lia|]. split; [exists cur; split; [left|done]|].
      intros c Hc Hf. apply elem_of_cons in Hc as [->|Hc]; [congruence|].
      right. right. exact Hc.
    + injection Hw as <- <- <-.
      exists (set_free cur 0). cbn [b_addr b_size b_is_free set_free].
      split; [left|]. split; [reflexivity|]. split; [reflexivity|]. split; [reflexivity|].
      split; [lia|]. split; [exists cur; split; [left|done]|].
      intros c Hc Hf. apply elem_of_cons in Hc as [->|Hc]; [congruence|].
      right. exact Hc.
  - destruct (malloc_walk t rest) as [[[p1 sz1] rest']|] eqn:Er; [|discriminate].
    injection Hw as <- <- <-.
    destruct (IH p1 sz1 rest' eq_refl) as (b & Hb & Hp & Hf & Hs & Ht & (b0 & Hb0 & Ha0 & Hf0) & Hk).
    exists b. split; [now right|]. split; [exact Hp|]. split; [exact Hf|].
    split; [exact Hs|]. split; [exact Ht|]. split; [exists b0; split; [now right|done]|].
    intros c Hc Hfc. apply elem_of_cons in Hc as [->|Hc]; [left|right; now apply Hk].
Qed.

Lemma request_size_fits (size : Z) :
  0 <= size -> HEADER_SIZE + size + 15 < 2^64 -> HEADER_SIZE + size <= request_size size.
Proof.
  intros H0 Hlim. unfold request_size. cbv zeta.
  assert (Ha : HEADER_SIZE + size <= ALIGN (wrap64 (HEADER_SIZE + size))).
  { rewrite ALIGN_spec. header_size.
    rewrite (wrap64_small (8 + 8 + 4 + 4 + size)) by lia.
    rewrite wrap64_small by lia.
    pose proof (Z.mod_pos_bound (8 + 8 + 4 + 4 + size + 15) 16 ltac:(lia)). lia. }
  destruct (_ <? MIN_BLOCK_SIZE) eqn:E; [apply Z.ltb_lt in E|]; lia.
Qed.

Section MallocBlocks.

Variables heap_start heap_end : Z.


End MallocBlocks.


(** ** Freeing and reusing *)

Definition has_free_of (s : Z) (l : list block) : Prop :=
  exists b, b ∈ l /\ truthy (b_is_free b) = true /\ s <= b_size b.

Lemma free_mark_frees (l : list block) :
  forall a b, 0 <= a -> chain a l -> b ∈ l -> truthy (b_is_free b) = false ->
    exists l1 sz, free_mark (b_addr b) l = Some (l1, sz) /\ has_free_of (b_size b) l1.
Proof.
  induction l as [|x rest IH]; intros a b Ha Hc Hb Hf; [inversion Hb|].
  cbn [free_mark]. destruct (b_addr x =? b_addr b) eqn:E.
  - apply Z.eqb_eq in E.
    assert (x = b) by (apply (chain_addr_unique a (x :: rest) x b Hc); [left|exact Hb|exact E]).
    subst x. pose proof Hc as (_ & Hmag & Hs & _).
    rewrite Hmag, Z.eqb_refl, Hf. cbn [negb].
    destruct rest as [|n rest'].
    + eexists _, _. split; [reflexivity|]. exists (set_free b 1).
      split; [left|]. split; [reflexivity|cbn; lia].
    + destruct (chain_merge a b n rest' Ha Hc) as [Hw _].
      pose proof Hc as (_ & _ & _ & _ & _ & _ & _ & Hs2 & _).
      destruct (truthy (b_is_free n)).
      * eexists _, _. split; [reflexivity|].
        exists (set_size (set_free b 1) (wrap64 (b_size (set_free b 1) + b_size n))).
        split; [left|]. split; [reflexivity|]. cbn [b_size set_size set_free].
        rewrite Hw. lia.
      * eexists _, _. split; [reflexivity|]. exists (set_free b 1).
        split; [left|]. split; [reflexivity|cbn; lia].
  - apply Z.eqb_neq in E.
    apply elem_of_cons in Hb as [->|Hb]; [contradiction|].
    destruct Hc as (_ & _ & Hs & _ & _ & Hc).
    destruct (IH (a + b_size x) b ltac:(lia) Hc Hb Hf) as (l1 & sz & Hm & (c & Hc1 & Hc2 & Hc3)).
    rewrite Hm. eexists _, _. split; [reflexivity|]. exists c. split; [now right|done].
Qed.

Lemma free_walk_keeps_free (baddr s : Z) (n : nat) :
  forall rest cur a, (length rest <= n)%nat -> 0 <= a -> chain a (cur :: rest) ->
    has_free_of s (cur :: rest) -> has_free_of s (free_walk baddr cur rest).
Proof.
  induction n as [|n IH]; intros rest cur a Hlen Ha Hc Hfree.
  { destruct rest; [exact Hfree|cbn in Hlen; lia]. }
  destruct rest as [|nxt rest1]; [exact Hfree|].
  cbn [length] in Hlen. cbn [free_walk].
  destruct (chain_merge a cur nxt rest1 Ha Hc) as [Hw _].
  pose proof Hc as (_ & _ & Hs & _ & _ & Hc1).
  pose proof Hc1 as (_ & _ & Hs1 & _).
  destruct Hfree as (b & Hb & Hbf & Hbs).
  destruct (truthy (b_is_free cur) && (b_addr nxt =? baddr)) eqn:E1.
  - apply andb_true_iff in E1 as [Fcur _].
    apply elem_of_cons in Hb as [->|Hb]; [|apply elem_of_cons in Hb as [->|Hb]].
    + exists (set_size cur (wrap64 (b_size cur + b_size nxt))). split; [left|].
      split; [exact Fcur|]. cbn [b_size set_size]. rewrite Hw. lia.
    + exists (set_size cur (wrap64 (b_size cur + b_size nxt))). split; [left|].
      split; [exact Fcur|]. cbn [b_size set_size]. rewrite Hw. lia.
    + exists b. split; [now right|done].
  - assert (Hstep : has_free_of s (cur :: free_walk baddr nxt rest1)).
    { apply elem_of_cons in Hb as [->|Hb].
      - exists cur. split; [left|done].
      - destruct (IH rest1 nxt (a + b_size cur) ltac:(lia) ltac:(lia) Hc1
                    ltac:(exists b; done)) as (c & Hc2 & Hcf & Hcs).
        exists c. split; [now right|done]. }
    destruct rest1 as [|nn rest2]; [exact Hstep|].
    destruct (truthy (b_is_free nxt) && (b_addr nn =? baddr) && truthy (b_is_free nn)) eqn:E2;
      [|exact Hstep].
    apply andb_true_iff in E2 as [E2 _]. apply andb_true_iff in E2 as [Fnxt _].
    destruct (chain_merge (a + b_size cur) nxt nn rest2 ltac:(lia) Hc1) as [Hw2 Hc2].
    pose proof Hc1 as (_ & _ & _ & _ & _ & _ & _ & Hs2 & _).
    set (m := set_size nxt (wrap64 (b_size nxt + b_size nn))) in *.
    assert (Hm : b_size m = b_size nxt + b_size nn) by exact Hw2.
    assert (Hmf : truthy (b_is_free m) = true) by exact Fnxt.
    apply elem_of_cons in Hb as [->|Hb]; [exists cur; split; [left|done]|].
    assert (Hin : has_free_of s (m :: rest2)).
    { apply elem_of_cons in Hb as [->|Hb]; [|apply elem_of_cons in Hb as [->|Hb]].
      - exists m. split; [left|]. split; [exact Hmf|lia].
      - exists m. split; [left|]. split; [exact Hmf|lia].
      - exists b. split; [now right|done]. }
    destruct (IH rest2 m (a + b_size cur) ltac:(cbn in Hlen; lia) ltac:(lia) Hc2 Hin)
      as (c & Hc3 & Hcf & Hcs).
    exists c. split; [now right|done].
Qed.

Lemma malloc_walk_finds (t : Z) (l : list block) :
  forall a, chain a l -> has_free_of t l -> malloc_walk t l <> None.
Proof.
  induction l as [|cur rest IH]; intros a Hc (b & Hb & Hf & Hs); [inversion Hb|].
  cbn [malloc_walk]. pose proof Hc as (_ & Hmag & _ & _ & _ & Hc1).
  rewrite Hmag, Z.eqb_refl. cbn [negb].
  destruct (truthy (b_is_free cur) && (t <=? b_size cur)) eqn:E.
  - destruct (wrap64 (t + MIN_BLOCK_SIZE) <=? b_size cur); intros H; discriminate H.
  - apply elem_of_cons in Hb as [->|Hb].
    + rewrite Hf in E. cbn in E. apply Z.leb_gt in E. lia.
    + specialize (IH _ Hc1 ltac:(exists b; done)).
      destruct (malloc_walk t rest) as [[[? ?] ?]|]; [intros H; discriminate H|contradiction].
Qed.

(** Blocks at the address just freed are free: a second [free] of the
    same pointer finds nothing to do. *)
Lemma free_walk_target (baddr : Z) (n : nat) :
  forall rest cur, (length rest <= n)%nat ->
    target_free baddr (cur :: rest) -> target_free baddr (free_walk baddr cur rest).
Proof.
  induction n as [|n IH]; intros rest cur Hlen Ht.
  { destruct rest; [exact Ht|cbn in Hlen; lia]. }
  destruct rest as [|nxt rest1]; [exact Ht|].
  cbn [length] in Hlen. cbn [free_walk].
  assert (Htail : forall x l, target_free baddr (x :: l) -> target_free baddr l).
  { intros x l H b Hb. apply H. now right. }
  assert (Hcons : forall x l, (b_addr x = baddr -> truthy (b_is_free x) = true) ->
                    target_free baddr l -> target_free baddr (x :: l)).
  { intros x l Hx Hl b Hb. apply elem_of_cons in Hb as [->|Hb]; [exact Hx|now apply Hl]. }
  destruct (truthy (b_is_free cur) && (b_addr nxt =? baddr)) eqn:E1.
  - apply andb_true_iff in E1 as [Fcur _].
    apply Hcons; [intros _; exact Fcur|]. apply (Htail nxt), (Htail cur), Ht.
  - assert (Hstep : target_free baddr (cur :: free_walk baddr nxt rest1)).
    { apply Hcons; [apply Ht; left|]. apply IH; [lia|]. apply (Htail cur), Ht. }
    destruct rest1 as [|nn rest2]; [exact Hstep|].
    destruct (truthy (b_is_free nxt) && (b_addr nn =? baddr) && truthy (b_is_free nn)) eqn:E2;
      [|exact Hstep].
    apply andb_true_iff in E2 as [E2 _]. apply andb_true_iff in E2 as [Fnxt _].
    apply Hcons; [apply Ht; left|]. apply IH; [cbn in Hlen; lia|].
    apply Hcons; [intros _; exact Fnxt|]. apply (Htail nn), (Htail nxt), (Htail cur), Ht.
Qed.

Lemma free_mark_of_free (baddr : Z) (l : list block) :
  target_free baddr l -> free_mark baddr l = None.
Proof.
  induction l as [|b rest IH]; intros Ht; [reflexivity|].
  cbn [free_mark]. destruct (b_addr b =? baddr) eqn:E.
  - apply Z.eqb_eq in E. rewrite (Ht b ltac:(left) E).
    destruct (negb _); reflexivity.
  - rewrite IH; [reflexivity|]. intros c Hc. apply Ht. now right.
Qed.

Section Freeing.

Variables heap_start heap_end : Z.

(** What is freed can be had again.  When [malloc] has returned a
    pointer and [free] is called on it, the next [malloc] of the same
    size does not fail. *)
Theorem malloc_after_free (cs : list call) (size : Z) :
  region_ok heap_start heap_end -> HEADER_SIZE <= initial_size heap_start heap_end ->
  let h := (run heap_start heap_end cs [] (heap_init heap_start heap_end heap_boot)).2 in
  let p := (malloc heap_start heap_end size h).1 in
  let h1 := (malloc heap_start heap_end size h).2 in
  p <> 0 ->
  (malloc heap_start heap_end size (free p h1)).1 <> 0.
Proof.
  intros Hr Hbig h p h1 Hp.
  pose proof (run_tiled heap_start heap_end cs [] _ Hr (heap_init_tiled _ _ Hr Hbig)) as Ht.
  fold h in Ht.
  pose proof (malloc_tiled heap_start heap_end size h Hr Ht) as Ht1. fold h1 in Ht1.
  pose proof (free_tiled heap_start heap_end p h1 Hr Ht1) as Ht2.
  destruct Ht as (Hi & _). destruct Ht1 as (Hi1 & [Hc1 Hn1] & _).
  destruct Ht2 as (Hi2 & [Hc2 _] & _).
  pose proof (aligned_start_range heap_start heap_end Hr) as Hra.
  pose proof Hr as (Hr0 & Hr1 & Hr2).
  assert (Hh : HEADER_SIZE = 24) by reflexivity.
  (* the block the first call handed out *)
  assert (Hblk : size <> 0 /\ exists b, b ∈ blocks h1 /\ p = b_addr b + HEADER_SIZE /\
                   truthy (b_is_free b) = false /\ request_size size <= b_size b).
  { revert Hp. unfold p, h1, malloc. rewrite Hi.
    destruct (size =? 0) eqn:E0; [cbn; intros H; contradiction|].
    apply Z.eqb_neq in E0. split; [exact E0|].
    destruct (malloc_walk (request_size size) (blocks h)) as [[[q sz] l]|] eqn:Ew;
      [|cbn in Hp; contradiction].
    destruct (malloc_walk_block _ _ q sz l Ew) as (b & Hb & Hq & Hf & Hs & Hge & _).
    cbn [fst snd blocks]. exists b. split; [exact Hb|]. split; [exact Hq|].
    split; [unfold truthy; now rewrite Hf|lia]. }
  destruct Hblk as (Hsz & b & Hb & Hpb & Hf & Hs).
  (* [free] finds it and leaves a free block at least as large *)
  assert (Hfree : has_free_of (request_size size) (blocks (free p h1))).
  { unfold free. destruct (p =? 0) eqn:E; [apply Z.eqb_eq in E; contradiction|].
    replace (p - HEADER_SIZE) with (b_addr b) by lia.
    destruct (free_mark_frees _ (aligned_start heap_start) b ltac:(lia) Hc1 Hb Hf)
      as (l1 & sz & Hm & Hhas).
    rewrite Hm. cbn [blocks].
    destruct (free_mark_inv _ _ (aligned_start heap_start) l1 sz ltac:(lia) Hc1 Hn1 Hm)
      as (Hcl1 & _).
    assert (Hhas' : has_free_of (request_size size) l1).
    { destruct Hhas as (c & Hc & Hcf & Hcs). exists c. split; [exact Hc|]. split; [exact Hcf|lia]. }
    destruct l1 as [|head rest]; [destruct Hhas' as (c & Hc & _); inversion Hc|].
    apply (free_walk_keeps_free _ _ (length rest) rest head (aligned_start heap_start));
      [lia|lia|exact Hcl1|exact Hhas']. }
  unfold malloc. rewrite Hi2.
  destruct (size =? 0) eqn:E0; [apply Z.eqb_eq in E0; contradiction|].
  pose proof (malloc_walk_finds _ _ _ Hc2 Hfree) as Hfind.
  destruct (malloc_walk (request_size size) (blocks (free p h1))) as [[[q sz] l]|] eqn:Ew;
    [|contradiction].
  cbn [fst].
  destruct (malloc_walk_block _ _ q sz l Ew) as (c & Hc & Hq & _).
  destruct (malloc_walk_inv _ _ (request_size_range size) (aligned_start heap_start)
              q sz l ltac:(lia) Hc2 ltac:(apply (free_tiled heap_start heap_end p h1 Hr);
                                          now apply malloc_tiled, run_tiled, heap_init_tiled)
              Ew) as (Hcl & _).
  pose proof (chain_addr_ge _ _ c Hcl Hc). lia.
Qed.

(** Freeing twice is freeing once, and [free (NULL)] does nothing. *)
Theorem free_twice (cs : list call) (ptr : Z) :
  region_ok heap_start heap_end ->
  let h := (run heap_start heap_end cs [] (heap_init heap_start heap_end heap_boot)).2 in
  free ptr (free ptr h) = free ptr h /\ free 0 h = h.
Proof.
  intros Hr h. split; [|reflexivity].
  assert (Hinv : heap_inv heap_start h).
  { apply run_inv; [exact Hr|]. apply heap_init_inv; [exact Hr|apply heap_boot_inv]. }
  pose proof (aligned_start_range heap_start heap_end Hr) as Hra.
  pose proof Hr as (Hr0 & Hr1 & Hr2). destruct Hinv as [Hc Hn].
  assert (Hcase : free ptr h = h \/
                  target_free (ptr - HEADER_SIZE) (blocks (free ptr h))).
  { unfold free. destruct (ptr =? 0); [now left|].
    destruct (free_mark (ptr - HEADER_SIZE) (blocks h)) as [[l sz]|] eqn:Em; [|now left].
    right. cbn [blocks].
    destruct (free_mark_inv _ _ (aligned_start heap_start) l sz ltac:(lia) Hc Hn Em)
      as (_ & _ & Ht & _).
    destruct l as [|head rest]; [intros b Hb; inversion Hb|].
    now apply (free_walk_target _ (length rest)). }
  destruct Hcase as [Hsame|Ht]; [now rewrite !Hsame|].
  set (h' := free ptr h) in *. unfold free.
  destruct (ptr =? 0); [reflexivity|].
  now rewrite (free_mark_of_free _ _ Ht).
Qed.

End Freeing.

Lemma malloc_after_free_witness :
  (region_ok sample_start sample_end /\
   HEADER_SIZE <= initial_size sample_start sample_end) /\
  let h := (run sample_start sample_end [Malloc 100] []
              (heap_init sample_start sample_end heap_boot)).2 in
  ((malloc sample_start sample_end 200 h).1 <> 0) /\
  (malloc sample_start sample_end 200
     (free (malloc sample_start sample_end 200 h).1
           (malloc sample_start sample_end 200 h).2)).1 <> 0.
Proof.
  assert (H1 : region_ok sample_start sample_end) by exact sample_region_ok.
  assert (H2 : HEADER_SIZE <= initial_size sample_start sample_end)
    by (vm_compute; discriminate).
  split; [split; assumption|]. intros h.
  assert (H3 : (malloc sample_start sample_end 200 h).1 <> 0) by (vm_compute; discriminate).
  split; [exact H3|].
  exact (malloc_after_free sample_start sample_end [Malloc 100] 200 H1 H2 H3).
Defined.

Lemma free_twice_witness :
  region_ok sample_start sample_end /\
  let h := (run sample_start sample_end [Malloc 100; Malloc 200] []
              (heap_init sample_start sample_end heap_boot)).2 in
  free 0x40200018 (free 0x40200018 h) = free 0x40200018 h.
Proof.
  split; [exact sample_region_ok|].
  exact (proj1 (free_twice sample_start sample_end [Malloc 100; Malloc 200] 0x40200018
                  sample_region_ok)).
Defined.

(** ** Byte memory: [memset], [memcpy], [memmove], [memcmp] *)

(** The bytes the pointers of these functions range over, by address. *)
Definition memory := Z -> Z.

Definition store (m : memory) (a v : Z) : memory :=
  fun x => if x =? a then v else m x.

(** [for (i = 0; i < num; i++) p[i] = v;] *)
Fixpoint memset_loop (rounds : nat) (p v i : Z) (m : memory) : memory :=
  match rounds with
  | O => m
  | S rounds' => memset_loop rounds' p v (i + 1) (store m (p + i) v)
  end.

Definition memset (ptr value num : Z) (m : memory) : Z * memory :=
  (ptr, memset_loop (Z.to_nat num) ptr (wrap8 value) 0 m).

(** [for (i = 0; i < num; i++) d[i] = s[i];] *)
Fixpoint copy_up (rounds : nat) (d s i : Z) (m : memory) : memory :=
  match rounds with
  | O => m
  | S rounds' => copy_up rounds' d s (i + 1) (store m (d + i) (m (s + i)))
  end.

(** [for (i = num; i > 0; i--) d[i - 1] = s[i - 1];] *)
Fixpoint copy_down (rounds : nat) (d s i : Z) (m : memory) : memory :=
  match rounds with
  | O => m
  | S rounds' => copy_down rounds' d s (i - 1) (store m (d + (i - 1)) (m (s + (i - 1))))
  end.

Definition memcpy (dest src num : Z) (m : memory) : Z * memory :=
  (dest, copy_up (Z.to_nat num) dest src 0 m).

Definition memmove (dest src num : Z) (m : memory) : Z * memory :=
  if dest <? src then (dest, copy_up (Z.to_nat num) dest src 0 m)
  else if src <? dest then (dest, copy_down (Z.to_nat num) dest src num m)
  else (dest, m).

Fixpoint memcmp_loop (rounds : nat) (p1 p2 i : Z) (m : memory) : Z :=
  match rounds with
  | O => 0
  | S rounds' =>
      if negb (m (p1 + i) =? m (p2 + i)) then m (p1 + i) - m (p2 + i)
      else memcmp_loop rounds' p1 p2 (i + 1) m
  end.

Definition memcmp (s1 s2 n : Z) (m : memory) : Z := memcmp_loop (Z.to_nat n) s1 s2 0 m.

Lemma memset_loop_spec rounds :
  forall p v i m a,
    memset_loop rounds p v i m a =
    if (p + i <=? a) && (a <? p + i + Z.of_nat rounds) then v else m a.
Proof.
  induction rounds as [|r IH]; intros p v i m a.
  - cbn [memset_loop]. destruct (p + i <=? a) eqn:E1; [|reflexivity].
    destruct (a <? p + i + Z.of_nat 0) eqn:E2; [|reflexivity].
    apply Z.leb_le in E1. apply Z.ltb_lt in E2. lia.
  - cbn [memset_loop]. rewrite IH. unfold store.
    destruct (p + (i + 1) <=? a) eqn:E1; destruct (a <? p + (i + 1) + Z.of_nat r) eqn:E2;
      destruct (p + i <=? a) eqn:E3; destruct (a <? p + i + Z.of_nat (S r)) eqn:E4;
      destruct (a =? p + i) eqn:E5; cbn [andb]; try reflexivity;
      try apply Z.leb_le in E1; try apply Z.leb_gt in E1;
      try apply Z.ltb_lt in E2; try apply Z.ltb_ge in E2;
      try apply Z.leb_le in E3; try apply Z.leb_gt in E3;
      try apply Z.ltb_lt in E4; try apply Z.ltb_ge in E4;
      try apply Z.eqb_eq in E5; try apply Z.eqb_neq in E5; lia.
Qed.

(** A forward copy reads every source byte before any write reaches it,
    as long as the destination does not start inside the source. *)
Lemma copy_up_spec rounds :
  forall d s i m a,
    d <= s \/ s + i + Z.of_nat rounds <= d + i ->
    copy_up rounds d s i m a =
    if (d + i <=? a) && (a <? d + i + Z.of_nat rounds) then m (s + (a - d)) else m a.
Proof.
  induction rounds as [|r IH]; intros d s i m a Hsafe.
  - cbn [copy_up]. destruct (d + i <=? a) eqn:E1; [|reflexivity].
    destruct (a <? d + i + Z.of_nat 0) eqn:E2; [|reflexivity].
    apply Z.leb_le in E1. apply Z.ltb_lt in E2. lia.
  - cbn [copy_up]. rewrite IH by lia. unfold store.
    destruct ((d + (i + 1) <=? a) && (a <? d + (i + 1) + Z.of_nat r)) eqn:E1.
    + apply andb_true_iff in E1 as [E1 E2]. apply Z.leb_le in E1. apply Z.ltb_lt in E2.
      destruct (d + i <=? a) eqn:E3; [|apply Z.leb_gt in E3; lia].
      destruct (a <? d + i + Z.of_nat (S r)) eqn:E4; [|apply Z.ltb_ge in E4; lia].
      cbn [andb]. destruct (s + (a - d) =? d + i) eqn:E5; [|reflexivity].
      apply Z.eqb_eq in E5. lia.
    + destruct (a =? d + i) eqn:E5.
      * apply Z.eqb_eq in E5. subst a.
        destruct (d + i <=? d + i) eqn:E3; [|apply Z.leb_gt in E3; lia].
        destruct (d + i <? d + i + Z.of_nat (S r)) eqn:E4; [|apply Z.ltb_ge in E4; lia].
        cbn [andb]. f_equal. lia.
      * apply Z.eqb_neq in E5.
        destruct ((d + i <=? a) && (a <? d + i + Z.of_nat (S r))) eqn:E3; [|reflexivity].
        apply andb_true_iff in E3 as [E3 E4]. apply Z.leb_le in E3. apply Z.ltb_lt in E4.
        apply andb_false_iff in E1 as [E1|E1];
          [apply Z.leb_gt in E1|apply Z.ltb_ge in E1]; lia.
Qed.

(** A backward copy is safe when the destination lies above the source. *)
Lemma copy_down_spec rounds :
  forall d s m a,
    s <= d ->
    copy_down rounds d s (Z.of_nat rounds) m a =
    if (d <=? a) && (a <? d + Z.of_nat rounds) then m (s + (a - d)) else m a.
Proof.
  induction rounds as [|r IH]; intros d s m a Hsafe.
  - cbn [copy_down]. destruct (d <=? a) eqn:E1; [|reflexivity].
    destruct (a <? d + Z.of_nat 0) eqn:E2; [|reflexivity].
    apply Z.leb_le in E1. apply Z.ltb_lt in E2. lia.
  - cbn [copy_down]. replace (Z.of_nat (S r) - 1) with (Z.of_nat r) by lia.
    rewrite IH by lia. unfold store.
    destruct ((d <=? a) && (a <? d + Z.of_nat r)) eqn:E1.
    + apply andb_true_iff in E1 as [E1 E2]. apply Z.leb_le in E1. apply Z.ltb_lt in E2.
      destruct (a <? d + Z.of_nat (S r)) eqn:E4; [|apply Z.ltb_ge in E4; lia].
      rewrite (proj2 (Z.leb_le d a) E1). cbn [andb].
      destruct (s + (a - d) =? d + Z.of_nat r) eqn:E5; [|reflexivity].
      apply Z.eqb_eq in E5. lia.
    + destruct (a =? d + Z.of_nat r) eqn:E5.
      * apply Z.eqb_eq in E5. subst a.
        destruct (d <=? d + Z.of_nat r) eqn:E3; [|apply Z.leb_gt in E3; lia].
        destruct (d + Z.of_nat r <? d + Z.of_nat (S r)) eqn:E4; [|apply Z.ltb_ge in E4; lia].
        cbn [andb]. f_equal. lia.
      * apply Z.eqb_neq in E5.
        destruct ((d <=? a) && (a <? d + Z.of_nat (S r))) eqn:E3; [|reflexivity].
        apply andb_true_iff in E3 as [E3 E4]. apply Z.leb_le in E3. apply Z.ltb_lt in E4.
        apply andb_false_iff in E1 as [E1|E1];
          [apply Z.leb_gt in E1|apply Z.ltb_ge in E1]; lia.
Qed.

(** [memmove] copies right whatever the overlap; [memcpy] does when the
    destination does not start inside the source.  Both return [dest];
    afterwards the [num] bytes at [dest] are the bytes that were at
    [src], and no byte outside them has changed. *)
Theorem memmove_overlap (dest src num : Z) (m : memory) :
  let moved (m' : memory) :=
    (forall k, 0 <= k < num -> m' (dest + k) = m (src + k)) /\
    (forall a, ~ (dest <= a < dest + num) -> m' a = m a) in
  (memmove dest src num m).1 = dest /\ moved (memmove dest src num m).2 /\
  (memcpy dest src num m).1 = dest /\
  (dest <= src \/ src + num <= dest -> moved (memcpy dest src num m).2).
Proof.
  intros moved.
  assert (Hup : dest <= src \/ src + num <= dest ->
                moved (copy_up (Z.to_nat num) dest src 0 m)).
  { intros Hsafe. split.
    - intros k Hk. rewrite copy_up_spec by lia.
      destruct (dest + 0 <=? dest + k) eqn:E1; [|apply Z.leb_gt in E1; lia].
      destruct (dest + k <? dest + 0 + Z.of_nat (Z.to_nat num)) eqn:E2;
        [|apply Z.ltb_ge in E2; lia].
      cbn [andb]. f_equal. lia.
    - intros a Ha. destruct (Z_le_gt_dec num 0) as [Hn|Hn].
      + replace (Z.to_nat num) with 0%nat by lia. reflexivity.
      + rewrite copy_up_spec by lia.
        destruct ((dest + 0 <=? a) && (a <? dest + 0 + Z.of_nat (Z.to_nat num))) eqn:E;
          [|reflexivity].
        apply andb_true_iff in E as [E1 E2]. apply Z.leb_le in E1. apply Z.ltb_lt in E2. lia. }
  split; [unfold memmove; destruct (dest <? src); [reflexivity|];
          destruct (src <? dest); reflexivity|].
  split; [|split; [reflexivity|exact Hup]].
  unfold memmove. destruct (dest <? src) eqn:E1.
  - apply Z.ltb_lt in E1. cbn [snd]. apply Hup. lia.
  - apply Z.ltb_ge in E1. destruct (src <? dest) eqn:E2.
    + apply Z.ltb_lt in E2. cbn [snd]. destruct (Z_le_gt_dec num 0) as [Hn|Hn].
      * replace (Z.to_nat num) with 0%nat by lia. cbn [copy_down].
        split; [intros k Hk; lia|reflexivity].
      * replace num with (Z.of_nat (Z.to_nat num)) at 2 by lia. split.
        -- intros k Hk. rewrite copy_down_spec by lia.
           destruct (dest <=? dest + k) eqn:E3; [|apply Z.leb_gt in E3; lia].
           destruct (dest + k <? dest + Z.of_nat (Z.to_nat num)) eqn:E4;
             [|apply Z.ltb_ge in E4; lia].
           cbn [andb]. f_equal. lia.
        -- intros a Ha. rewrite copy_down_spec by lia.
           destruct ((dest <=? a) && (a <? dest + Z.of_nat (Z.to_nat num))) eqn:E;
             [|reflexivity].
           apply andb_true_iff in E as [E3 E4]. apply Z.leb_le in E3. apply Z.ltb_lt in E4.
           lia.
    + apply Z.ltb_ge in E2. assert (dest = src) by lia. subst dest. cbn [snd].
      split; [reflexivity|reflexivity].
Qed.

Lemma memcmp_loop_spec rounds :
  forall p1 p2 i m,
    (memcmp_loop rounds p1 p2 i m = 0 <->
     forall k, i <= k < i + Z.of_nat rounds -> m (p1 + k) = m (p2 + k)) /\
    (forall k, i <= k < i + Z.of_nat rounds ->
       (forall j, i <= j < k -> m (p1 + j) = m (p2 + j)) ->
       m (p1 + k) <> m (p2 + k) ->
       memcmp_loop rounds p1 p2 i m = m (p1 + k) - m (p2 + k)).
Proof.
  induction rounds as [|r IH]; intros p1 p2 i m.
  - cbn [memcmp_loop]. split; [split; [intros _ k Hk; lia|reflexivity]|intros k Hk; lia].
  - cbn [memcmp_loop]. destruct (IH p1 p2 (i + 1) m) as [IH1 IH2].
    destruct (m (p1 + i) =? m (p2 + i)) eqn:E; cbn [negb].
    + apply Z.eqb_eq in E. split.
      * rewrite IH1. split.
        -- intros H k Hk. destruct (Z.eq_dec k i) as [->|Hne]; [exact E|]. apply H. lia.
        -- intros H k Hk. apply H. lia.
      * intros k Hk Hpre Hd. destruct (Z.eq_dec k i) as [->|Hne]; [contradiction|].
        apply IH2; [lia| |exact Hd]. intros j Hj. apply Hpre. lia.
    + apply Z.eqb_neq in E. split.
      * split; [intros H; lia|]. intros H. exfalso. apply E. apply H. lia.
      * intros k Hk Hpre Hd. destruct (Z.eq_dec k i) as [->|Hne]; [reflexivity|].
        exfalso. apply E. apply Hpre. lia.
Qed.

(** [memcmp] returns 0 exactly when the two ranges hold the same bytes;
    otherwise it returns the difference of the first pair of bytes that
    differ. *)
Theorem memcmp_first_difference (s1 s2 n : Z) (m : memory) :
  (memcmp s1 s2 n m = 0 <-> forall k, 0 <= k < n -> m (s1 + k) = m (s2 + k)) /\
  (forall k, 0 <= k < n ->
     (forall j, 0 <= j < k -> m (s1 + j) = m (s2 + j)) ->
     m (s1 + k) <> m (s2 + k) ->
     memcmp s1 s2 n m = m (s1 + k) - m (s2 + k) /\ memcmp s1 s2 n m <> 0).
Proof.
  unfold memcmp. destruct (memcmp_loop_spec (Z.to_nat n) s1 s2 0 m) as [H1 H2]. split.
  - rewrite H1. split; intros H k Hk; apply H; lia.
  - intros k Hk Hpre Hd. rewrite (H2 k) by (lia || assumption). split; [reflexivity|lia].
Qed.

(** ** [calloc] and the size arithmetic of [malloc] *)

Section Calloc.

Variables heap_start heap_end : Z.

(** [calloc(num, size)]: the pointer, the heap and the bytes afterwards. *)
Definition calloc (num size : Z) (h : heap) (m : memory) : Z * heap * memory :=
  let total := wrap64 (num * size) in
  if negb (num =? 0) && negb (total / num =? size) then (0, h, m)
  else
    let '(ptr, h') := malloc heap_start heap_end total h in
    if negb (ptr =? 0) then (ptr, h', (memset ptr 0 total m).2)
    else (ptr, h', m).


(** The size arithmetic of [malloc] wraps: a request of [2^64 - 39]
    bytes or more is rounded to the minimum block, so it is served
    exactly like a request for one byte. *)
Theorem malloc_huge_request_wraps (size : Z) (h : heap) :
  2^64 - 39 <= size < 2^64 ->
  request_size size = MIN_BLOCK_SIZE /\
  malloc heap_start heap_end size h = malloc heap_start heap_end 1 h.
Proof.
  intros Hs.
  assert (Hr : request_size size = MIN_BLOCK_SIZE).
  { unfold request_size. cbv zeta.
    destruct (ALIGN (wrap64 (HEADER_SIZE + size)) <? MIN_BLOCK_SIZE) eqn:E; [reflexivity|].
    apply Z.ltb_ge in E. exfalso.
    pose proof (ALIGN_spec (wrap64 (HEADER_SIZE + size))) as Ha.
    pose proof (ALIGN_range (wrap64 (HEADER_SIZE + size))) as Hrg.
    assert (Hh : HEADER_SIZE = 24) by reflexivity.
    assert (Hm : MIN_BLOCK_SIZE = 40) by reflexivity.
    rewrite Hh, Hm in *. revert Ha E Hrg. unfold wrap64.
    destruct (Z_lt_ge_dec (24 + size) (2^64)) as [Hlt|Hge].
    - rewrite (Z.mod_small (24 + size)) by lia. intros Ha E Hrg.
      assert (Hq : (24 + size + 15) mod 2^64 = 24 + size + 15 - 2^64).
      { symmetry. apply (Z.mod_unique _ _ 1); lia. }
      rewrite Hq in Ha.
      pose proof (Z.mod_pos_bound (24 + size + 15 - 2^64) 16 ltac:(lia)). lia.
    - assert (Hq : (24 + size) mod 2^64 = 24 + size - 2^64).
      { symmetry. apply (Z.mod_unique _ _ 1); lia. }
      rewrite Hq. intros Ha E Hrg.
      rewrite (Z.mod_small (24 + size - 2^64 + 15)) in Ha by lia.
      pose proof (Z.mod_pos_bound (24 + size - 2^64 + 15) 16 ltac:(lia)). lia. }
  split; [exact Hr|]. unfold malloc.
  assert (H1 : request_size 1 = MIN_BLOCK_SIZE) by reflexivity.
  rewrite Hr, H1. rewrite (proj2 (Z.eqb_neq size 0)) by lia. reflexivity.
Qed.

End Calloc.


Lemma malloc_huge_request_wraps_witness :
  malloc sample_start sample_end (2^64 - 1) heap_boot = malloc sample_start sample_end 1 heap_boot.
Proof.
  exact (proj2 (malloc_huge_request_wraps sample_start sample_end (2^64 - 1) heap_boot
                  ltac:(lia))).
Defined.
(** ** [realloc] *)

(** The header that [(block_header_t* )((char* )ptr - HEADER_SIZE)] reads
    when [ptr] is the payload of a block of the list. *)
Fixpoint header_at (baddr : Z) (l : list block) : option block :=
  match l with
  | [] => None
  | b :: rest => if b_addr b =? baddr then Some b else header_at baddr rest
  end.

Lemma header_at_elem a l b : chain a l -> b ∈ l -> header_at (b_addr b) l = Some b.
Proof.
  revert a. induction l as [|x l IH]; intros a Hc Hb; [inversion Hb|].
  cbn [header_at]. destruct (b_addr x =? b_addr b) eqn:E.
  - apply Z.eqb_eq in E. f_equal.
    apply (chain_addr_unique a (x :: l)); [exact Hc|left|exact Hb|exact E].
  - apply Z.eqb_neq in E. apply elem_of_cons in Hb as [->|Hb]; [contradiction|].
    destruct Hc as (_ & _ & _ & _ & _ & Hc). exact (IH _ Hc Hb).
Qed.

(** Blocks of the list do not overlap. *)
Lemma chain_order a l b c :
  chain a l -> b ∈ l -> c ∈ l -> b_addr b < b_addr c -> b_addr b + b_size b <= b_addr c.
Proof.
  revert a. induction l as [|x l IH]; intros a Hc Hb Hcin Hlt; [inversion Hb|].
  pose proof Hc as (Hadr & _ & _ & _ & _ & Hc').
  apply elem_of_cons in Hb as [->|Hb]; apply elem_of_cons in Hcin as [->|Hcin].
  - lia.
  - pose proof (chain_addr_ge _ _ _ Hc' Hcin). lia.
  - pose proof (chain_tail_gt x l a b Hc Hb). lia.
  - exact (IH _ Hc' Hb Hcin Hlt).
Qed.

Section Realloc.

Variables heap_start heap_end : Z.

(** [realloc(ptr, size)]: the pointer, the heap and the bytes afterwards.
    The header is read where [ptr] says; the case of an address that is
    no header of the list is the failed magic check, as in [free]. *)
Definition realloc (ptr size : Z) (h : heap) (m : memory) : Z * heap * memory :=
  if ptr =? 0 then
    let '(p, h') := malloc heap_start heap_end size h in (p, h', m)
  else if size =? 0 then (0, free ptr h, m)
  else
    match header_at (ptr - HEADER_SIZE) (blocks h) with
    | None => (0, h, m)
    | Some block =>
        if negb (b_magic block =? BLOCK_MAGIC) then (0, h, m)
        else
          let current_payload := wrap64 (b_size block - HEADER_SIZE) in
          if size <=? current_payload then (ptr, h, m)
          else
            let '(new_ptr, h') := malloc heap_start heap_end size h in
            if negb (new_ptr =? 0)
            then (new_ptr, free ptr h', (memcpy new_ptr ptr current_payload m).2)
            else (new_ptr, h', m)
    end.


End Realloc.

End Alloc.

(** * Block device (kernel/drivers/virtio/blk.c), as the filesystem sees it *)

Module Blk.

Definition SECTOR_SIZE : Z := 512.

(** The driver talks to a virtio device.  The device is the environment of
    the kernel; it is modelled by its observable behaviour: a request that
    lies inside the capacity is served from [disk], unless the head of the
    fault schedule says that this request ends with a status byte other
    than [VIRTIO_BLK_S_OK] (I/O error or no completion before the poll
    loop gives up).  Every request consumes one entry of the schedule; an
    empty schedule means no faults. *)
Record blkdev := mk_blkdev {
  blk_initialized : bool;
  capacity : Z;                 (* disk_info.capacity, in sectors *)
  disk : Z -> list Z;           (* sector number -> its 512 bytes *)
  faults : list bool
}.

Definition blk_available (d : blkdev) : bool := blk_initialized d.

Definition next_fault (d : blkdev) : bool :=
  match faults d with f :: _ => f | [] => false end.

Definition consume_fault (d : blkdev) : blkdev :=
  mk_blkdev (blk_initialized d) (capacity d) (disk d) (tail (faults d)).

Definition in_range (d : blkdev) (sector count : Z) : bool :=
  (0 <=? sector) && (sector + count <=? capacity d).

(** Bytes [512*k .. 512*k + 511] of a buffer. *)
Definition sector_of (buf : list Z) (k : Z) : list Z :=
  take 512 (drop (Z.to_nat (SECTOR_SIZE * k)) buf).

Definition disk_write (dk : Z -> list Z) (sector count : Z) (buf : list Z) : Z -> list Z :=
  fun s => if (sector <=? s) && (s <? sector + count)
           then sector_of buf (s - sector) else dk s.

Fixpoint disk_read (dk : Z -> list Z) (sector : Z) (count : nat) : list Z :=
  match count with
  | O => []
  | S n => dk sector ++ disk_read dk (sector + 1) n
  end.

(** [do_blk_io] for [VIRTIO_BLK_T_IN]: status and data copied to [buf]. *)
Definition do_blk_read (sector count : Z) (d : blkdev) : Z * list Z * blkdev :=
  if negb (blk_initialized d) then (-1, [], d)
  else if count =? 0 then (0, [], d)
  else
    let count := if 128 <? count then 128 else count in
    if next_fault d || negb (in_range d sector count)
    then (-1, [], consume_fault d)
    else (0, disk_read (disk d) sector (Z.to_nat count), consume_fault d).

(** [do_blk_io] for [VIRTIO_BLK_T_OUT]. *)
Definition do_blk_write (sector count : Z) (buf : list Z) (d : blkdev) : Z * blkdev :=
  if negb (blk_initialized d) then (-1, d)
  else if count =? 0 then (0, d)
  else
    let count := if 128 <? count then 128 else count in
    if next_fault d || negb (in_range d sector count)
    then (-1, consume_fault d)
    else
      let d1 := consume_fault d in
      (0, mk_blkdev (blk_initialized d1) (capacity d1)
                    (disk_write (disk d1) sector count buf) (faults d1)).

(** [blk_read]: chunks of at most 128 sectors; [fuel] bounds the number of
    chunks.  The data returned is what was copied to the caller's buffer
    before the first failing chunk. *)
Fixpoint blk_read_loop (fuel : nat) (sector count : Z) (d : blkdev) : Z * list Z * blkdev :=
  match fuel with
  | O => (0, [], d)
  | S fuel' =>
      if count <=? 0 then (0, [], d)
      else
        let chunk := if 128 <? count then 128 else count in
        let '(rc, data, d1) := do_blk_read sector chunk d in
        if negb (rc =? 0) then (-1, [], d1)
        else
          let '(rc2, data2, d2) := blk_read_loop fuel' (sector + chunk) (count - chunk) d1 in
          (rc2, data ++ data2, d2)
  end.

Definition blk_read (sector count : Z) (d : blkdev) : Z * list Z * blkdev :=
  blk_read_loop (Z.to_nat count) sector count d.

Fixpoint blk_write_loop (fuel : nat) (sector count : Z) (buf : list Z) (d : blkdev) : Z * blkdev :=
  match fuel with
  | O => (0, d)
  | S fuel' =>
      if count <=? 0 then (0, d)
      else
        let chunk := if 128 <? count then 128 else count in
        let '(rc, d1) := do_blk_write sector chunk buf d in
        if negb (rc =? 0) then (-1, d1)
        else blk_write_loop fuel' (sector + chunk) (count - chunk)
                            (drop (Z.to_nat (chunk * SECTOR_SIZE)) buf) d1
  end.

Definition blk_write (sector count : Z) (buf : list Z) (d : blkdev) : Z * blkdev :=
  blk_write_loop (Z.to_nat count) sector count buf d.

(** [blk_flush]: a request of its own; it does not change the contents. *)
Definition blk_flush (d : blkdev) : Z * blkdev :=
  if negb (blk_initialized d) then (-1, d)
  else if next_fault d then (-1, consume_fault d) else (0, consume_fault d).

(** A device that is present and never fails. *)
Definition healthy (d : blkdev) : Prop :=
  blk_initialized d = true /\ faults d = [].

Lemma blk_read_one sector d :
  healthy d -> in_range d sector 1 = true ->
  blk_read sector 1 d = (0, disk d sector, d).
Proof.
  intros [Hi Hf] Hr. unfold blk_read. simpl.
  unfold do_blk_read. rewrite Hi. simpl.
  unfold next_fault. rewrite Hf. simpl. rewrite Hr. simpl.
  rewrite !app_nil_r. destruct d; simpl in *; subst. reflexivity.
Qed.

Lemma blk_write_small sector count buf d :
  healthy d -> 0 < count <= 128 -> in_range d sector count = true ->
  blk_write sector count buf d =
    (0, mk_blkdev true (capacity d) (disk_write (disk d) sector count buf) []).
Proof.
  intros [Hi Hf] Hc Hr. unfold blk_write.
  destruct (Z.to_nat count) as [|n] eqn:En; [lia|].
  simpl. destruct (count <=? 0) eqn:E0; [apply Z.leb_le in E0; lia|].
  destruct (128 <? count) eqn:E1; [apply Z.ltb_lt in E1; lia|].
  unfold do_blk_write. rewrite Hi. simpl.
  destruct (count =? 0) eqn:E2; [apply Z.eqb_eq in E2; lia|].
  rewrite E1. unfold next_fault. rewrite Hf. simpl. rewrite Hr. simpl.
  rewrite Z.sub_diag, Hi. destruct n; reflexivity.
Qed.

Lemma disk_write_other dk sector count buf s :
  s < sector \/ sector + count <= s ->
  disk_write dk sector count buf s = dk s.
Proof.
  intros H. unfold disk_write.
  destruct (sector <=? s) eqn:E1; [|done].
  destruct (s <? sector + count) eqn:E2; [|done].
  apply Z.leb_le in E1. apply Z.ltb_lt in E2. lia.
Qed.

Lemma disk_write_same dk sector buf :
  disk_write dk sector 1 buf sector = take 512 buf.
Proof.
  unfold disk_write, sector_of. rewrite Z.leb_refl.
  destruct (sector <? sector + 1) eqn:E; [|apply Z.ltb_ge in E; lia].
  simpl. rewrite Z.sub_diag. reflexivity.
Qed.


(** ** Chunked transfers *)

Lemma consume_fault_healthy d : healthy d -> consume_fault d = d.
Proof. intros [Hi Hf]. destruct d; cbn in *; subst. reflexivity. Qed.

Lemma in_range_true d sector count :
  0 <= sector -> sector + count <= capacity d -> in_range d sector count = true.
Proof.
  intros H0 H1. unfold in_range. apply andb_true_iff. split; apply Z.leb_le; lia.
Qed.

Lemma do_blk_write_ok sector c buf d :
  healthy d -> 0 < c <= 128 -> 0 <= sector -> sector + c <= capacity d ->
  do_blk_write sector c buf d =
    (0, mk_blkdev true (capacity d) (disk_write (disk d) sector c buf) []).
Proof.
  intros [Hi Hf] Hc Hs Hr. unfold do_blk_write. rewrite Hi. cbn [negb].
  rewrite (proj2 (Z.eqb_neq c 0)) by lia.
  rewrite (proj2 (Z.ltb_ge 128 c)) by lia.
  unfold next_fault. rewrite Hf. cbn [orb].
  rewrite in_range_true by lia. cbn [negb consume_fault blk_initialized capacity disk faults].
  now rewrite Hi, Hf.
Qed.

Lemma do_blk_read_ok sector c d :
  healthy d -> 0 < c <= 128 -> 0 <= sector -> sector + c <= capacity d ->
  do_blk_read sector c d = (0, disk_read (disk d) sector (Z.to_nat c), d).
Proof.
  intros Hh Hc Hs Hr. pose proof Hh as [Hi Hf]. unfold do_blk_read. rewrite Hi. cbn [negb].
  rewrite (proj2 (Z.eqb_neq c 0)) by lia.
  rewrite (proj2 (Z.ltb_ge 128 c)) by lia.
  unfold next_fault. rewrite Hf. cbn [orb].
  rewrite in_range_true by lia. cbn [negb]. now rewrite consume_fault_healthy.
Qed.

Lemma disk_read_app dk sector (n m : nat) :
  disk_read dk sector (n + m) =
  disk_read dk sector n ++ disk_read dk (sector + Z.of_nat n) m.
Proof.
  revert sector. induction n as [|n IH]; intros sector.
  - cbn [disk_read Nat.add app]. f_equal. lia.
  - cbn [disk_read Nat.add]. rewrite IH, <- app_assoc. do 3 f_equal. lia.
Qed.

Lemma blk_write_loop_ok (fuel : nat) :
  forall sector count buf d,
    healthy d -> 0 <= sector -> 0 <= count <= Z.of_nat fuel ->
    sector + count <= capacity d ->
    exists d', blk_write_loop fuel sector count buf d = (0, d') /\ healthy d' /\
               capacity d' = capacity d /\
               forall s, disk d' s = disk_write (disk d) sector count buf s.
Proof.
  induction fuel as [|fuel IH]; intros sector count buf d Hh Hs Hc Hr.
  - exists d. cbn [blk_write_loop]. split; [reflexivity|]. split; [exact Hh|].
    split; [reflexivity|]. intros s. unfold disk_write.
    destruct (sector <=? s) eqn:E1; [|reflexivity].
    destruct (s <? sector + count) eqn:E2; [|reflexivity].
    apply Z.leb_le in E1. apply Z.ltb_lt in E2. lia.
  - cbn [blk_write_loop]. destruct (count <=? 0) eqn:E0.
    + apply Z.leb_le in E0. exists d. split; [reflexivity|]. split; [exact Hh|].
      split; [reflexivity|]. intros s. unfold disk_write.
      destruct (sector <=? s) eqn:E1; [|reflexivity].
      destruct (s <? sector + count) eqn:E2; [|reflexivity].
      apply Z.leb_le in E1. apply Z.ltb_lt in E2. lia.
    + apply Z.leb_gt in E0. cbv zeta.
      set (chunk := if 128 <? count then 128 else count).
      assert (Hch : 0 < chunk <= 128 /\ chunk <= count).
      { unfold chunk. destruct (128 <? count) eqn:E; [apply Z.ltb_lt in E|apply Z.ltb_ge in E];
          lia. }
      clearbody chunk.
      rewrite do_blk_write_ok by (exact Hh || lia). cbn [negb Z.eqb].
      destruct (IH (sector + chunk) (count - chunk)
                  (drop (Z.to_nat (chunk * SECTOR_SIZE)) buf)
                  (mk_blkdev true (capacity d) (disk_write (disk d) sector chunk buf) []))
        as (d' & E & Hh' & Hcap & Hd); [split; reflexivity|lia|lia|cbn; lia|].
      exists d'. split; [exact E|]. split; [exact Hh'|]. split; [exact Hcap|].
      intros s. rewrite Hd. cbn [disk]. unfold disk_write, sector_of, SECTOR_SIZE.
      destruct (sector + chunk <=? s) eqn:E1; destruct (s <? sector + chunk + (count - chunk)) eqn:E2;
        destruct (sector <=? s) eqn:E3; destruct (s <? sector + count) eqn:E4;
        destruct (s <? sector + chunk) eqn:E5; cbn [andb]; try reflexivity;
        try apply Z.leb_le in E1; try apply Z.leb_gt in E1;
        try apply Z.ltb_lt in E2; try apply Z.ltb_ge in E2;
        try apply Z.leb_le in E3; try apply Z.leb_gt in E3;
        try apply Z.ltb_lt in E4; try apply Z.ltb_ge in E4;
        try apply Z.ltb_lt in E5; try apply Z.ltb_ge in E5; try lia.
      rewrite drop_drop. do 2 f_equal. lia.
Qed.

Lemma blk_read_loop_ok (fuel : nat) :
  forall sector count d,
    healthy d -> 0 <= sector -> 0 <= count <= Z.of_nat fuel ->
    sector + count <= capacity d ->
    blk_read_loop fuel sector count d = (0, disk_read (disk d) sector (Z.to_nat count), d).
Proof.
  induction fuel as [|fuel IH]; intros sector count d Hh Hs Hc Hr.
  - cbn [blk_read_loop]. replace (Z.to_nat count) with 0%nat by lia. reflexivity.
  - cbn [blk_read_loop]. destruct (count <=? 0) eqn:E0.
    + apply Z.leb_le in E0. replace (Z.to_nat count) with 0%nat by lia. reflexivity.
    + apply Z.leb_gt in E0. cbv zeta.
      set (chunk := if 128 <? count then 128 else count).
      assert (Hch : 0 < chunk <= 128 /\ chunk <= count).
      { unfold chunk. destruct (128 <? count) eqn:E; [apply Z.ltb_lt in E|apply Z.ltb_ge in E];
          lia. }
      clearbody chunk.
      rewrite do_blk_read_ok by (exact Hh || lia). cbn [negb Z.eqb].
      rewrite IH by (exact Hh || lia).
      replace (Z.to_nat count) with (Z.to_nat chunk + Z.to_nat (count - chunk))%nat by lia.
      rewrite disk_read_app, Z2Nat.id by lia. reflexivity.
Qed.

Lemma disk_read_buffer dk sector buf (n : nat) :
  forall k : nat,
    length buf = (512 * (k + n))%nat ->
    (forall j, (j < n)%nat ->
       dk (sector + Z.of_nat k + Z.of_nat j) = sector_of buf (Z.of_nat k + Z.of_nat j)) ->
    disk_read dk (sector + Z.of_nat k) n = drop (512 * k) buf.
Proof.
  induction n as [|n IH]; intros k Hlen Hdk.
  - cbn [disk_read]. rewrite drop_ge by lia. reflexivity.
  - cbn [disk_read]. specialize (Hdk 0%nat ltac:(lia)) as H0.
    rewrite Z.add_0_r in H0. rewrite H0.
    replace (sector + Z.of_nat k + 1) with (sector + Z.of_nat (S k)) by lia.
    rewrite IH.
    + unfold sector_of, SECTOR_SIZE.
      replace (Z.to_nat (512 * (Z.of_nat k + Z.of_nat 0))) with (512 * k)%nat by lia.
      replace (512 * S k)%nat with (512 * k + 512)%nat by lia.
      rewrite <- drop_drop. apply take_drop.
    + rewrite Hlen. lia.
    + intros j Hj. specialize (Hdk (S j) ltac:(lia)).
      replace (sector + Z.of_nat (S k) + Z.of_nat j)
        with (sector + Z.of_nat k + Z.of_nat (S j)) by lia.
      rewrite Hdk. f_equal. lia.
Qed.

(** What [blk_write] has written, [blk_read] returns, whatever the number
    of 128-sector chunks the transfer takes.  On a device that answers
    every request, writing [count] sectors from [buf] inside the capacity
    succeeds, reading the same range back yields [buf], and no sector
    outside the range has changed. *)
Theorem blk_write_then_read (sector count : Z) (buf : list Z) (d : blkdev) :
  healthy d -> 0 <= sector -> 0 <= count -> sector + count <= capacity d ->
  Z.of_nat (length buf) = SECTOR_SIZE * count ->
  let d1 := (blk_write sector count buf d).2 in
  (blk_write sector count buf d).1 = 0 /\
  blk_read sector count d1 = (0, buf, d1) /\
  capacity d1 = capacity d /\
  (forall s, s < sector \/ sector + count <= s -> disk d1 s = disk d s).
Proof.
  intros Hh Hs Hc Hr Hlen d1. subst d1. unfold blk_write, blk_read.
  destruct (blk_write_loop_ok (Z.to_nat count) sector count buf d Hh Hs ltac:(lia) Hr)
    as (d' & E & Hh' & Hcap & Hd).
  rewrite E. cbn [fst snd]. split; [reflexivity|].
  split; [|split; [exact Hcap|]].
  - rewrite blk_read_loop_ok by (exact Hh' || lia). do 2 f_equal.
    replace sector with (sector + Z.of_nat 0) at 1 by lia.
    rewrite (disk_read_buffer (disk d') sector buf (Z.to_nat count) 0); [reflexivity| |].
    + unfold SECTOR_SIZE in Hlen. lia.
    + intros j Hj. rewrite Hd. unfold disk_write.
      destruct (sector <=? sector + Z.of_nat 0 + Z.of_nat j) eqn:E1;
        [|apply Z.leb_gt in E1; lia].
      destruct (sector + Z.of_nat 0 + Z.of_nat j <? sector + count) eqn:E2;
        [|apply Z.ltb_ge in E2; lia].
      cbn [andb]. f_equal. lia.
  - intros s Hout. rewrite Hd. now apply disk_write_other.
Qed.

Lemma blk_write_then_read_witness :
  let d := mk_blkdev true 400 (fun _ => replicate 512 0) [] in
  let buf := replicate (Z.to_nat (512 * 300)) 7 in
  blk_read 20 300 (blk_write 20 300 buf d).2 = (0, buf, (blk_write 20 300 buf d).2).
Proof.
  intros d buf.
  refine (proj1 (proj2 (blk_write_then_read 20 300 buf d _ _ _ _ _)));
    [split; reflexivity|lia|lia|cbn; lia|].
  unfold buf. rewrite length_replicate, Z2Nat.id by lia. reflexivity.
Defined.
End Blk.

(** * TinyFS (kernel/fs.c) *)

Module TinyFS.
Import Blk.

Definition FS_MAGIC : Z := 0x54465321.
Definition FS_VERSION : Z := 1.
Definition FS_MAX_FILENAME : Z := 20.
Definition FS_MAX_FILES : Z := 64.
Definition FS_MAX_OPEN : Z := 8.
Definition FS_CLUSTER_SIZE : Z := 2048.
Definition FS_SECTORS_PER_CLUSTER : Z := 4.

Definition FS_O_READ : Z := 0x01.
Definition FS_O_WRITE : Z := 0x02.
Definition FS_O_CREATE : Z := 0x04.
Definition FS_O_TRUNC : Z := 0x08.
Definition FS_O_APPEND : Z := 0x10.

Definition FAT_FREE : Z := 0x0000.
Definition FAT_EOF : Z := 0xFFFF.

Definition SUPERBLOCK_SECTOR : Z := 0.
Definition FAT_START_SECTOR : Z := 1.
Definition FAT_SECTORS : Z := 8.
Definition ROOT_START_SECTOR : Z := 9.
Definition ROOT_SECTORS : Z := 4.
Definition DATA_START_SECTOR : Z := 13.

(** ** Data *)

Record fs_dirent_t := mk_dirent {
  name : list Z;            (* char name[20] *)
  size : Z;                 (* uint32_t *)
  first_cluster : Z;        (* uint16_t *)
  flags : Z;                (* uint16_t *)
  reserved : Z              (* uint32_t *)
}.

Record fs_superblock_t := mk_superblock {
  magic : Z; version : Z; total_sectors : Z; total_clusters : Z;
  free_clusters : Z; fat_start : Z; fat_sectors : Z; root_start : Z;
  root_sectors : Z; data_start : Z;
  sb_reserved : list Z      (* uint8_t reserved[472] *)
}.

Record open_file_t := mk_open_file {
  in_use : Z;
  dirent_idx : Z;
  of_size : Z;              (* uint32_t size *)
  pos : Z;                  (* uint32_t *)
  of_first_cluster : Z;     (* uint16_t first_cluster *)
  of_flags : Z
}.

Definition zero_dirent : fs_dirent_t := mk_dirent (replicate 20 0) 0 0 0 0.
Definition zero_open_file : open_file_t := mk_open_file 0 0 0 0 0 0.
Definition zero_superblock : fs_superblock_t :=
  mk_superblock 0 0 0 0 0 0 0 0 0 0 (replicate 472 0).

(** The cached state of fs.c together with the block driver below it. *)
Record fs := mk_fs {
  superblock : fs_superblock_t;
  fat : list Z;                       (* uint16_t fat[2048] *)
  root_dir : list fs_dirent_t;        (* 64 entries *)
  open_files : list open_file_t;      (* FS_MAX_OPEN entries *)
  fs_is_mounted : Z;
  sector_buf : list Z;                (* uint8_t sector_buf[512] *)
  dev : blkdev
}.

Definition set_superblock (st : fs) (v : fs_superblock_t) : fs :=
  mk_fs v (fat st) (root_dir st) (open_files st) (fs_is_mounted st) (sector_buf st) (dev st).
Definition set_fat (st : fs) (v : list Z) : fs :=
  mk_fs (superblock st) v (root_dir st) (open_files st) (fs_is_mounted st) (sector_buf st) (dev st).
Definition set_root_dir (st : fs) (v : list fs_dirent_t) : fs :=
  mk_fs (superblock st) (fat st) v (open_files st) (fs_is_mounted st) (sector_buf st) (dev st).
Definition set_open_files (st : fs) (v : list open_file_t) : fs :=
  mk_fs (superblock st) (fat st) (root_dir st) v (fs_is_mounted st) (sector_buf st) (dev st).
Definition set_mounted (st : fs) (v : Z) : fs :=
  mk_fs (superblock st) (fat st) (root_dir st) (open_files st) v (sector_buf st) (dev st).
Definition set_sector_buf (st : fs) (v : list Z) : fs :=
  mk_fs (superblock st) (fat st) (root_dir st) (open_files st) (fs_is_mounted st) v (dev st).
Definition set_dev (st : fs) (v : blkdev) : fs :=
  mk_fs (superblock st) (fat st) (root_dir st) (open_files st) (fs_is_mounted st) (sector_buf st) v.

Definition set_free_clusters (sb : fs_superblock_t) (v : Z) : fs_superblock_t :=
  mk_superblock (magic sb) (version sb) (total_sectors sb) (total_clusters sb) v
    (fat_start sb) (fat_sectors sb) (root_start sb) (root_sectors sb) (data_start sb)
    (sb_reserved sb).

Definition set_dirent_size (d : fs_dirent_t) (v : Z) : fs_dirent_t :=
  mk_dirent (name d) v (first_cluster d) (flags d) (reserved d).
Definition set_dirent_first (d : fs_dirent_t) (v : Z) : fs_dirent_t :=
  mk_dirent (name d) (size d) v (flags d) (reserved d).
Definition set_dirent_name (d : fs_dirent_t) (v : list Z) : fs_dirent_t :=
  mk_dirent v (size d) (first_cluster d) (flags d) (reserved d).

Definition set_of_pos (f : open_file_t) (v : Z) : open_file_t :=
  mk_open_file (in_use f) (dirent_idx f) (of_size f) v (of_first_cluster f) (of_flags f).
Definition set_of_size (f : open_file_t) (v : Z) : open_file_t :=
  mk_open_file (in_use f) (dirent_idx f) v (pos f) (of_first_cluster f) (of_flags f).
Definition set_of_first (f : open_file_t) (v : Z) : open_file_t :=
  mk_open_file (in_use f) (dirent_idx f) (of_size f) (pos f) v (of_flags f).
Definition set_of_in_use (f : open_file_t) (v : Z) : open_file_t :=
  mk_open_file v (dirent_idx f) (of_size f) (pos f) (of_first_cluster f) (of_flags f).

(** Array reads; an index outside the array reads as zero. *)
Definition fat_at (st : fs) (i : Z) : Z := default 0 (fat st !! Z.to_nat i).
Definition dirent_at (st : fs) (i : Z) : fs_dirent_t :=
  default zero_dirent (root_dir st !! Z.to_nat i).
Definition file_at (st : fs) (fd : Z) : open_file_t :=
  default zero_open_file (open_files st !! Z.to_nat fd).

Definition update_file (st : fs) (fd : Z) (g : open_file_t -> open_file_t) : fs :=
  set_open_files st (alter g (Z.to_nat fd) (open_files st)).
Definition update_dirent (st : fs) (idx : Z) (g : fs_dirent_t -> fs_dirent_t) : fs :=
  set_root_dir st (alter g (Z.to_nat idx) (root_dir st)).

(** ** On-disk images (little-endian) *)

Definition le16 (v : Z) : list Z := [v mod 256; (v / 256) mod 256].
Definition le32 (v : Z) : list Z :=
  [v mod 256; (v / 256) mod 256; (v / 65536) mod 256; (v / 16777216) mod 256].

Definition superblock_bytes (sb : fs_superblock_t) : list Z :=
  le32 (magic sb) ++ le32 (version sb) ++ le32 (total_sectors sb) ++
  le32 (total_clusters sb) ++ le32 (free_clusters sb) ++ le32 (fat_start sb) ++
  le32 (fat_sectors sb) ++ le32 (root_start sb) ++ le32 (root_sectors sb) ++
  le32 (data_start sb) ++ sb_reserved sb.

Definition fat_bytes (f : list Z) : list Z := concat (map le16 f).

Definition dirent_bytes (d : fs_dirent_t) : list Z :=
  name d ++ le32 (size d) ++ le16 (first_cluster d) ++ le16 (flags d) ++ le32 (reserved d).

Definition root_dir_bytes (r : list fs_dirent_t) : list Z := concat (map dirent_bytes r).

(** ** String utilities; the end of a list reads as the terminating NUL *)

Fixpoint str_cmp (a b : list Z) : Z :=
  match a, b with
  | ca :: a', cb :: b' =>
      if negb (ca =? 0) && negb (cb =? 0) && (ca =? cb) then str_cmp a' b' else ca - cb
  | ca :: _, [] => ca - 0
  | [], cb :: _ => 0 - cb
  | [], [] => 0
  end.

(** [str_cpy dst src max] with [room = max - 1]: the array after the copy. *)
Fixpoint str_cpy (dst src : list Z) (room : nat) : list Z :=
  match dst with
  | [] => []
  | d :: dst' =>
      match room, src with
      | S room', c :: src' => if c =? 0 then 0 :: dst' else c :: str_cpy dst' src' room'
      | _, _ => 0 :: dst'
      end
  end.

(** ** Metadata I/O *)

Definition write_superblock (st : fs) : Z * fs :=
  let '(rc, d) := blk_write SUPERBLOCK_SECTOR 1 (superblock_bytes (superblock st)) (dev st) in
  (rc, set_dev st d).

Definition write_fat (st : fs) : Z * fs :=
  let '(rc, d) := blk_write FAT_START_SECTOR FAT_SECTORS (fat_bytes (fat st)) (dev st) in
  (rc, set_dev st d).

Definition write_root_dir (st : fs) : Z * fs :=
  let '(rc, d) := blk_write ROOT_START_SECTOR ROOT_SECTORS (root_dir_bytes (root_dir st)) (dev st) in
  (rc, set_dev st d).

Definition cluster_to_sector (cluster : Z) : Z :=
  wrap32 (DATA_START_SECTOR + cluster * FS_SECTORS_PER_CLUSTER).

(** The scan of [alloc_cluster]: [tl] is the FAT from index [i] on. *)
Fixpoint alloc_scan (tl : list Z) (i limit : Z) : option Z :=
  match tl with
  | [] => None
  | v :: tl' =>
      if limit <=? i then None
      else if v =? FAT_FREE then Some i
      else alloc_scan tl' (i + 1) limit
  end.

Definition alloc_cluster (st : fs) : Z * fs :=
  match alloc_scan (drop 1 (fat st)) 1 (to_int32 (total_clusters (superblock st))) with
  | None => (-1, st)
  | Some i =>
      let st1 := set_fat st (<[Z.to_nat i := FAT_EOF]> (fat st)) in
      (i, set_superblock st1
            (set_free_clusters (superblock st1)
               (wrap32 (free_clusters (superblock st1) - 1))))
  end.

(** [free_cluster_chain]; every round clears one FAT cell, so after 2049
    rounds the loop has met a cleared cell and stopped. *)
Fixpoint free_cluster_chain_loop (fuel : nat) (start : Z) (st : fs) : fs :=
  match fuel with
  | O => st
  | S fuel' =>
      if negb (start =? FAT_EOF) && negb (start =? FAT_FREE) && (start <? 2048) then
        let next := fat_at st start in
        let st1 := set_fat st (<[Z.to_nat start := FAT_FREE]> (fat st)) in
        let st2 := set_superblock st1
                     (set_free_clusters (superblock st1)
                        (wrap32 (free_clusters (superblock st1) + 1))) in
        free_cluster_chain_loop fuel' next st2
      else st
  end.

Definition free_cluster_chain (start : Z) (st : fs) : fs :=
  free_cluster_chain_loop 2049 start st.

Definition name0 (d : fs_dirent_t) : Z := default 0 (name d !! 0%nat).

Fixpoint find_file_from (entries : list fs_dirent_t) (i : Z) (nm : list Z) : Z :=
  match entries with
  | [] => -1
  | d :: entries' =>
      if negb (name0 d =? 0) && (str_cmp (name d) nm =? 0) then i
      else find_file_from entries' (i + 1) nm
  end.

Definition find_file (st : fs) (nm : list Z) : Z :=
  find_file_from (take (Z.to_nat FS_MAX_FILES) (root_dir st)) 0 nm.

Fixpoint find_free_dirent_from (entries : list fs_dirent_t) (i : Z) : Z :=
  match entries with
  | [] => -1
  | d :: entries' =>
      if name0 d =? 0 then i else find_free_dirent_from entries' (i + 1)
  end.

Definition find_free_dirent (st : fs) : Z :=
  find_free_dirent_from (take (Z.to_nat FS_MAX_FILES) (root_dir st)) 0.

Fixpoint find_free_fd (files : list open_file_t) (i : Z) : Z :=
  match files with
  | [] => -1
  | f :: files' => if in_use f =? 0 then i else find_free_fd files' (i + 1)
  end.

(** ** The API *)

Definition fs_format (st : fs) : Z * fs :=
  if negb (blk_available (dev st)) then (-1, st)
  else
    let total_sectors := wrap32 (capacity (dev st)) in
    if total_sectors <? 32 then (-1, st)
    else
      let data_sectors := wrap32 (total_sectors - DATA_START_SECTOR) in
      let total_clusters := data_sectors / FS_SECTORS_PER_CLUSTER in
      let total_clusters := if 2048 <? total_clusters then 2048 else total_clusters in
      let sb := mk_superblock FS_MAGIC FS_VERSION total_sectors total_clusters
                  total_clusters FAT_START_SECTOR FAT_SECTORS ROOT_START_SECTOR
                  ROOT_SECTORS DATA_START_SECTOR (replicate 472 0) in
      let fat' := <[0%nat := FAT_EOF]> (replicate 2048 0) in
      let sb := set_free_clusters sb (wrap32 (free_clusters sb - 1)) in
      let st1 := mk_fs sb fat' (replicate 64 zero_dirent)
                   (replicate (Z.to_nat FS_MAX_OPEN) zero_open_file)
                   (fs_is_mounted st) (sector_buf st) (dev st) in
      let '(rc, st2) := write_superblock st1 in
      if negb (rc =? 0) then (-1, st2)
      else
        let '(rc, st3) := write_fat st2 in
        if negb (rc =? 0) then (-1, st3)
        else
          let '(rc, st4) := write_root_dir st3 in
          if negb (rc =? 0) then (-1, st4)
          else
            let '(_, d) := blk_flush (dev st4) in
            (0, set_mounted (set_dev st4 d) 1).

Definition skip_slash (path : list Z) : list Z :=
  match path with
  | c :: path' => if c =? 47 then path' else path
  | [] => path
  end.

Definition install_fd (fd idx flags : Z) (st : fs) : Z * fs :=
  let d := dirent_at st idx in
  let p := if negb (Z.land flags FS_O_APPEND =? 0) then size d else 0 in
  (fd, set_open_files st
         (<[Z.to_nat fd := mk_open_file 1 idx (size d) p (first_cluster d) flags]>
            (open_files st))).

Definition fs_open (path : list Z) (flags : Z) (st : fs) : Z * fs :=
  if fs_is_mounted st =? 0 then (-1, st)
  else
    let path := skip_slash path in
    if default 0 (path !! 0%nat) =? 0 then (-1, st)
    else
      let fd := find_free_fd (take (Z.to_nat FS_MAX_OPEN) (open_files st)) 0 in
      if fd <? 0 then (-1, st)
      else
        let idx := find_file st path in
        if idx <? 0 then
          if Z.land flags FS_O_CREATE =? 0 then (-1, st)
          else
            let idx := find_free_dirent st in
            if idx <? 0 then (-1, st)
            else
              let st1 :=
                update_dirent st idx (fun d =>
                  mk_dirent (str_cpy (name d) path (Z.to_nat (FS_MAX_FILENAME - 1)))
                            0 FAT_EOF 0 0) in
              let '(rc, st2) := write_root_dir st1 in
              if negb (rc =? 0) then
                (-1, update_dirent st2 idx (fun d =>
                       set_dirent_name d (<[0%nat := 0]> (name d))))
              else install_fd fd idx flags st2
        else if negb (Z.land flags FS_O_TRUNC =? 0) then
          if negb (first_cluster (dirent_at st idx) =? FAT_EOF) then
            let st1 := free_cluster_chain (first_cluster (dirent_at st idx)) st in
            let st2 := update_dirent st1 idx (fun d =>
                         set_dirent_size (set_dirent_first d FAT_EOF) 0) in
            let '(_, st3) := write_fat st2 in
            let '(_, st4) := write_root_dir st3 in
            install_fd fd idx flags st4
          else install_fd fd idx flags st
        else install_fd fd idx flags st.

Definition fd_ok (fd : Z) (st : fs) : bool :=
  (0 <=? fd) && (fd <? FS_MAX_OPEN) && negb (in_use (file_at st fd) =? 0).

Definition fs_close (fd : Z) (st : fs) : Z * fs :=
  if negb (fd_ok fd st) then (-1, st)
  else (0, update_file st fd (fun f => set_of_in_use f 0)).

Definition fs_size (fd : Z) (st : fs) : Z :=
  if negb (fd_ok fd st) then -1 else to_int32 (of_size (file_at st fd)).

(** [bytes > 0 ? bytes : -1] *)
Definition count_or_error (bytes : Z) : Z := if 0 <? bytes then bytes else -1.

(** The cluster walk of [fs_read]:
    [for (i = 0; i < cluster_num && cluster != FAT_EOF; i++) cluster = fat[cluster]]. *)
Fixpoint read_walk (n : nat) (cluster : Z) (st : fs) : Z :=
  match n with
  | O => cluster
  | S n' => if cluster =? FAT_EOF then cluster else read_walk n' (fat_at st cluster) st
  end.

(** Which [return] (or loop exit) ended a call of [fs_read] or [fs_write].
    The tag is not part of the C state; it names the statement taken. *)
Inductive exit_reason :=
| Completed          (* the loop condition became false *)
| ChainEnd           (* fs_read: break, the cluster chain ended *)
| NoCluster          (* fs_write: alloc_cluster returned -1 *)
| BlkReadFailed      (* fs_read: blk_read returned non-zero *)
| BlkWriteFailed.    (* fs_write: blk_write returned non-zero *)

Inductive step (A : Type) :=
| Next (a : A)
| Stop (why : exit_reason) (rc : Z) (st : fs).
Arguments Next {A} a.
Arguments Stop {A} why rc st.

(** One round of the [while] loop of [fs_read], entered with [len > 0] and
    [pos < size]; [out] is what has been copied to the caller so far. *)
Definition fs_read_round (fd : Z) (out : list Z) (len bytes_read : Z) (st : fs)
  : step (list Z * Z * Z * fs) :=
  let f := file_at st fd in
  let cluster_num := pos f / FS_CLUSTER_SIZE in
  let cluster_offset := pos f mod FS_CLUSTER_SIZE in
  let cluster := read_walk (Z.to_nat cluster_num) (of_first_cluster f) st in
  if (cluster =? FAT_EOF) || (cluster =? FAT_FREE) then Stop ChainEnd bytes_read st  (* break *)
  else
    let sector_in_cluster := cluster_offset / 512 in
    let sector_offset := cluster_offset mod 512 in
    let sector := wrap32 (cluster_to_sector cluster + sector_in_cluster) in
    let '(rc, data, d) := blk_read sector 1 (dev st) in
    if negb (rc =? 0) then Stop BlkReadFailed (count_or_error bytes_read) (set_dev st d)
    else
      let st1 := set_sector_buf (set_dev st d) data in
      let to_copy := 512 - sector_offset in
      let to_copy := if len <? to_int32 to_copy then wrap32 len else to_copy in
      let to_copy := if of_size f <? wrap32 (pos f + to_copy)
                     then wrap32 (of_size f - pos f) else to_copy in
      let copied := take (Z.to_nat to_copy) (drop (Z.to_nat sector_offset) (sector_buf st1)) in
      let st2 := update_file st1 fd (fun f => set_of_pos f (wrap32 (pos f + to_copy))) in
      Next (out ++ copied, len - to_copy, bytes_read + to_copy, st2).

Fixpoint fs_read_loop (fuel : nat) (fd : Z) (out : list Z) (len bytes_read : Z) (st : fs)
  : exit_reason * Z * list Z * fs :=
  match fuel with
  | O => (Completed, bytes_read, out, st)
  | S fuel' =>
      if (0 <? len) && (pos (file_at st fd) <? of_size (file_at st fd)) then
        match fs_read_round fd out len bytes_read st with
        | Stop why rc st' => (why, rc, out, st')
        | Next (out', len', n, st') => fs_read_loop fuel' fd out' len' n st'
        end
      else (Completed, bytes_read, out, st)
  end.

(** [fs_read]: return value, the bytes stored in the caller's buffer, and
    the state.  Every round copies at least one byte, so [len] rounds are
    enough. *)
Definition fs_read (fd len : Z) (st : fs) : Z * list Z * fs :=
  if negb (fd_ok fd st) then (-1, [], st)
  else if Z.land (of_flags (file_at st fd)) FS_O_READ =? 0 then (-1, [], st)
  else
    let '(_, rc, out, st') := fs_read_loop (Z.to_nat len) fd [] len 0 st in
    (rc, out, st').

(** The cluster walk of [fs_write], extending the chain where it ends.
    [inr] is the exit taken when no cluster can be allocated. *)
Fixpoint write_walk (n : nat) (cluster : Z) (st : fs) : (Z * fs) + fs :=
  match n with
  | O => inl (cluster, st)
  | S n' =>
      let prev_cluster := cluster in
      if fat_at st cluster =? FAT_EOF then
        let '(new_cluster, st1) := alloc_cluster st in
        if new_cluster <? 0 then inr st1
        else
          let st2 := set_fat st1 (<[Z.to_nat prev_cluster := wrap16 new_cluster]> (fat st1)) in
          write_walk n' (fat_at st2 cluster) st2
      else write_walk n' (fat_at st cluster) st
  end.

Definition flush_metadata (st : fs) : fs :=
  let '(_, st1) := write_fat st in
  let '(_, st2) := write_root_dir st1 in
  let '(_, st3) := write_superblock st2 in
  st3.

(** The three parts of one round of the [while] loop of [fs_write]:
    materialise the first cluster of an empty file, walk to the cluster of
    the cursor, then transfer one sector's worth of data. *)
Definition write_first (fd idx : Z) (st : fs) : (Z * fs) + fs :=
  let f := file_at st fd in
  if of_first_cluster f =? FAT_EOF then
    let '(new_cluster, st1) := alloc_cluster st in
    if new_cluster <? 0 then inr st1
    else
      let cluster := wrap16 new_cluster in
      let st2 := update_file st1 fd (fun f => set_of_first f cluster) in
      inl (cluster, update_dirent st2 idx (fun d => set_dirent_first d cluster))
  else inl (of_first_cluster f, st).

Definition write_data (fd idx cluster cluster_offset : Z) (inp : list Z)
    (len bytes_written : Z) (st2 : fs) : step (list Z * Z * Z * fs) :=
  let sector_in_cluster := cluster_offset / 512 in
  let sector_offset := cluster_offset mod 512 in
  let sector := wrap32 (cluster_to_sector cluster + sector_in_cluster) in
  let st3 :=
    if negb (sector_offset =? 0) || (len <? 512) then
      let '(rc, data, d) := blk_read sector 1 (dev st2) in
      if negb (rc =? 0)
      then set_sector_buf (set_dev st2 d) (replicate 512 0)
      else set_sector_buf (set_dev st2 d) data
    else st2 in
  let to_copy := 512 - sector_offset in
  let to_copy := if len <? to_int32 to_copy then wrap32 len else to_copy in
  let buf' := take (Z.to_nat sector_offset) (sector_buf st3)
              ++ take (Z.to_nat to_copy) inp
              ++ drop (Z.to_nat (sector_offset + to_copy)) (sector_buf st3) in
  let st4 := set_sector_buf st3 buf' in
  let '(rc, d) := blk_write sector 1 (sector_buf st4) (dev st4) in
  let st5 := set_dev st4 d in
  if negb (rc =? 0) then Stop BlkWriteFailed (count_or_error bytes_written) st5
  else
    let st6 := update_file st5 fd (fun f => set_of_pos f (wrap32 (pos f + to_copy))) in
    let f6 := file_at st6 fd in
    let st7 :=
      if of_size f6 <? pos f6 then
        let st' := update_file st6 fd (fun f => set_of_size f (pos f)) in
        update_dirent st' idx (fun d => set_dirent_size d (pos f6))
      else st6 in
    Next (drop (Z.to_nat to_copy) inp, len - to_copy, bytes_written + to_copy, st7).

(** One round, entered with [len > 0]; [inp] is the caller's buffer from
    the cursor [in] on. *)
Definition fs_write_round (fd idx : Z) (inp : list Z) (len bytes_written : Z) (st : fs)
  : step (list Z * Z * Z * fs) :=
  let f := file_at st fd in
  let cluster_num := pos f / FS_CLUSTER_SIZE in
  let cluster_offset := pos f mod FS_CLUSTER_SIZE in
  match write_first fd idx st with
  | inr st1 => Stop NoCluster (count_or_error bytes_written) st1
  | inl (cluster, st1) =>
      match write_walk (Z.to_nat cluster_num) cluster st1 with
      | inr st2 => Stop NoCluster (count_or_error bytes_written) (flush_metadata st2)
      | inl (cluster, st2) =>
          write_data fd idx cluster cluster_offset inp len bytes_written st2
      end
  end.

Fixpoint fs_write_loop (fuel : nat) (fd idx : Z) (inp : list Z) (len bytes_written : Z)
    (st : fs) : exit_reason * Z * fs :=
  match fuel with
  | O => (Completed, bytes_written, flush_metadata st)
  | S fuel' =>
      if 0 <? len then
        match fs_write_round fd idx inp len bytes_written st with
        | Stop why rc st' => (why, rc, st')
        | Next (inp', len', n, st') => fs_write_loop fuel' fd idx inp' len' n st'
        end
      else (Completed, bytes_written, flush_metadata st)
  end.

(** [fs_write fd buf len]: every round consumes at least one byte of the
    request, so [len] rounds are enough. *)
Definition fs_write_body (fd : Z) (buf : list Z) (len : Z) (st : fs)
  : exit_reason * Z * fs :=
  fs_write_loop (Z.to_nat len) fd (dirent_idx (file_at st fd)) buf len 0 st.

Definition fs_write (fd : Z) (buf : list Z) (len : Z) (st : fs) : Z * fs :=
  if negb (fd_ok fd st) then (-1, st)
  else if Z.land (of_flags (file_at st fd)) FS_O_WRITE =? 0 then (-1, st)
  else let '(_, rc, st') := fs_write_body fd buf len st in (rc, st').

(** ** Return values of [fs_write] *)

Lemma to_copy_range (off len : Z) :
  0 < len < 2^31 ->
  let to_copy := 512 - off mod 512 in
  1 <= (if len <? to_int32 to_copy then wrap32 len else to_copy) <= len /\
  (if len <? to_int32 to_copy then wrap32 len else to_copy) <= 512 - off mod 512.
Proof.
  intros Hlen. cbv zeta.
  pose proof (Z.mod_pos_bound off 512 ltac:(lia)) as Hoff.
  assert (E : to_int32 (512 - off mod 512) = 512 - off mod 512).
  { unfold to_int32. rewrite wrap32_small by lia.
    destruct (_ <? _) eqn:E; [done|]. apply Z.ltb_ge in E. lia. }
  rewrite E. destruct (len <? _) eqn:E1.
  - apply Z.ltb_lt in E1. rewrite wrap32_small by lia. lia.
  - apply Z.ltb_ge in E1. lia.
Qed.

Lemma fs_write_round_progress fd idx inp len bw st :
  0 < len < 2^31 ->
  match fs_write_round fd idx inp len bw st with
  | Next (inp', len', bw', st') => 0 <= len' < len /\ bw' + len' = bw + len
  | Stop why rc st' =>
      (why = NoCluster \/ why = BlkWriteFailed) /\ rc = count_or_error bw
  end.
Proof.
  intros Hlen. unfold fs_write_round.
  destruct (write_first fd idx st) as [[cluster st1]|st1]; [|auto].
  destruct (write_walk _ cluster st1) as [[cluster2 st2]|st2]; [|auto].
  unfold write_data.
  set (off := pos (file_at st fd) mod FS_CLUSTER_SIZE).
  pose proof (to_copy_range off len Hlen) as Htc. cbv zeta in Htc.
  set (to_copy := if len <? to_int32 (512 - off mod 512) then wrap32 len
                  else 512 - off mod 512) in *.
  destruct (blk_write _ _ _ _) as [rc d].
  destruct (negb (rc =? 0)); [auto|]. lia.
Qed.

Lemma fs_write_loop_count (fuel : nat) :
  forall fd idx inp len bw st,
    len < 2^31 -> 0 <= bw -> (Z.to_nat len <= fuel)%nat ->
    (fs_write_loop fuel fd idx inp len bw st).1.1 = Completed /\
      (fs_write_loop fuel fd idx inp len bw st).1.2 = bw + Z.max 0 len
    \/
    ((fs_write_loop fuel fd idx inp len bw st).1.1 = NoCluster \/
     (fs_write_loop fuel fd idx inp len bw st).1.1 = BlkWriteFailed) /\
      0 < len /\
      (fs_write_loop fuel fd idx inp len bw st).1.2 < bw + len.
Proof.
  induction fuel as [|fuel IH]; intros fd idx inp len bw st Hlen Hbw Hfuel.
  - left. simpl. split; [done|]. lia.
  - simpl. destruct (0 <? len) eqn:Epos.
    + apply Z.ltb_lt in Epos.
      pose proof (fs_write_round_progress fd idx inp len bw st ltac:(lia)) as Hr.
      destruct (fs_write_round fd idx inp len bw st) as [[[[inp' len'] bw'] st']|why rc st'].
      * destruct Hr as [Hl Hsum].
        destruct (IH fd idx inp' len' bw' st' ltac:(lia) ltac:(lia) ltac:(lia))
          as [[Hw Hrc]|[Hw [Hl' Hrc]]].
        -- left. split; [done|]. rewrite Hrc. lia.
        -- right. split; [done|]. split; [done|]. lia.
      * right. simpl. destruct Hr as [Hw ->]. split; [done|]. split; [done|].
        unfold count_or_error. destruct (0 <? bw); lia.
    + apply Z.ltb_ge in Epos. left. simpl. split; [done|]. lia.
Qed.

(** The reading of C7 as stated: a short count implies that the call left
    through one of the two returns that follow a failed [alloc_cluster]. *)
Definition short_only_on_alloc_failure : Prop :=
  forall fd buf len st,
    fd_ok fd st = true -> Z.land (of_flags (file_at st fd)) FS_O_WRITE <> 0 ->
    0 <= len < 2^31 ->
    (fs_write fd buf len st).1 < len ->
    (fs_write_body fd buf len st).1.1 = NoCluster.

(** C7, amended.  For an open writable descriptor, [fs_write] returns
    less than the requested length only if it left through a return that
    follows a failed cluster allocation or a failed block write; a call
    that runs its loop to the end returns the full length.  A failed
    block read never ends the call. *)
Theorem fs_write_short_count_causes fd buf len st :
  fd_ok fd st = true -> Z.land (of_flags (file_at st fd)) FS_O_WRITE <> 0 ->
  0 <= len < 2^31 ->
  (fs_write fd buf len st).1 = (fs_write_body fd buf len st).1.2 /\
  ((fs_write_body fd buf len st).1.1 = Completed ->
     (fs_write fd buf len st).1 = len) /\
  ((fs_write fd buf len st).1 < len ->
     (fs_write_body fd buf len st).1.1 = NoCluster \/
     (fs_write_body fd buf len st).1.1 = BlkWriteFailed) /\
  (fs_write_body fd buf len st).1.1 <> BlkReadFailed.
Proof.
  intros Hfd Hw Hlen.
  assert (E : (fs_write fd buf len st).1 = (fs_write_body fd buf len st).1.2).
  { unfold fs_write. rewrite Hfd. simpl.
    apply Z.eqb_neq in Hw. rewrite Hw.
    destruct (fs_write_body fd buf len st) as [[why rc] st']. reflexivity. }
  rewrite E. unfold fs_write_body.
  destruct (fs_write_loop_count (Z.to_nat len) fd (dirent_idx (file_at st fd)) buf len 0 st
              ltac:(lia) ltac:(lia) ltac:(lia)) as [[H1 H2]|[H1 [H2 H3]]].
  - rewrite H1, H2. repeat split; try lia; try done.
  - repeat split; try done.
    + intros Hc. destruct H1 as [H1|H1]; rewrite H1 in Hc; discriminate.
    + destruct H1 as [H1|H1]; rewrite H1; discriminate.
Qed.

(** A 64-sector disk, a kernel just booted (static storage zeroed), and
    the state after formatting and creating file "a" for writing. *)
Definition sample_dev (fl : list bool) : blkdev :=
  mk_blkdev true 64 (fun _ => replicate 512 0) fl.

Definition boot_state (d : blkdev) : fs :=
  mk_fs zero_superblock (replicate 2048 0) (replicate 64 zero_dirent)
        (replicate (Z.to_nat FS_MAX_OPEN) zero_open_file) 0 (replicate 512 0) d.

Definition file_a_open : fs :=
  (fs_open [97] (Z.lor FS_O_WRITE FS_O_CREATE)
     (fs_format (boot_state (sample_dev []))).2).2.

(** The same state with the device about to fail its second request. *)
Definition file_a_open_faulty : fs :=
  set_dev file_a_open
    (mk_blkdev true 64 (disk (dev file_a_open)) [false; true]).

Lemma fs_write_short_count_causes_witness :
  fd_ok 0 file_a_open_faulty = true /\
  (fs_write 0 (replicate 1024 65) 1024 file_a_open_faulty).1 =
  (fs_write_body 0 (replicate 1024 65) 1024 file_a_open_faulty).1.2.
Proof.
  split; [vm_compute; reflexivity|].
  apply (fs_write_short_count_causes 0 (replicate 1024 65) 1024 file_a_open_faulty).
  - vm_compute. reflexivity.
  - vm_compute. discriminate.
  - lia.
Defined.

(** C7 as stated fails: with free clusters at hand and every allocation
    successful, a block write that fails in the second round makes
    [fs_write] return 512 for a request of 1024 bytes. *)
Lemma fs_write_short_without_alloc_failure :
  (fs_write 0 (replicate 1024 65) 1024 file_a_open_faulty).1 = 512 /\
  (fs_write_body 0 (replicate 1024 65) 1024 file_a_open_faulty).1.1 = BlkWriteFailed /\
  0 <= (alloc_cluster (fs_write 0 (replicate 1024 65) 1024 file_a_open_faulty).2).1 /\
  ~ short_only_on_alloc_failure.
Proof.
  assert (H1 : (fs_write 0 (replicate 1024 65) 1024 file_a_open_faulty).1 = 512)
    by (vm_compute; reflexivity).
  assert (H2 : (fs_write_body 0 (replicate 1024 65) 1024 file_a_open_faulty).1.1
               = BlkWriteFailed) by (vm_compute; reflexivity).
  split; [done|]. split; [done|]. split; [vm_compute; discriminate|].
  intros H.
  specialize (H 0 (replicate 1024 65) 1024 file_a_open_faulty).
  rewrite H1, H2 in H.
  assert (BlkWriteFailed = NoCluster); [|discriminate].
  apply H.
  - vm_compute. reflexivity.
  - vm_compute. discriminate.
  - lia.
  - lia.
Qed.

(** A failed block read alone does not shorten the count: the sector
    buffer is zero-filled and the write goes on. *)
Example fs_write_survives_read_failure :
  let st := set_dev file_a_open (mk_blkdev true 64 (disk (dev file_a_open)) [true]) in
  (fs_write 0 [104; 101; 108; 108; 111] 5 st).1 = 5.
Proof. vm_compute. reflexivity. Qed.

(** ** Write, then read back *)

Ltac fs_simpl :=
  cbn [dev set_dev set_open_files set_root_dir set_fat set_superblock set_sector_buf
       set_mounted update_file update_dirent superblock fs_is_mounted fat open_files
       root_dir sector_buf total_clusters set_free_clusters] in *.

(** A file name as [fs_open] keeps it: what follows an optional leading
    slash is one to nineteen characters, none of them NUL. *)
Definition valid_filename (nm : list Z) : Prop :=
  skip_slash nm <> [] /\
  (length (skip_slash nm) <= 19)%nat /\
  Forall (fun c => c <> 0) (skip_slash nm).

(** Cluster count computed by [fs_format] for a given capacity. *)
Definition clusters_of_capacity (cap : Z) : Z :=
  let t := wrap32 (wrap32 cap - DATA_START_SECTOR) / FS_SECTORS_PER_CLUSTER in
  if 2048 <? t then 2048 else t.

Lemma str_cmp_str_cpy (p : list Z) :
  forall dst room,
    Forall (fun c => c <> 0) p ->
    (length p <= room)%nat -> (length p < length dst)%nat ->
    str_cmp (str_cpy dst p room) p = 0.
Proof.
  induction p as [|c p IH]; intros dst room Hnz Hroom Hdst.
  - destruct dst as [|d dst]; [simpl in Hdst; lia|].
    simpl. destruct room; reflexivity.
  - destruct dst as [|d dst]; [simpl in Hdst; lia|].
    destruct room as [|room]; [simpl in Hroom; lia|].
    inversion Hnz as [|? ? Hc Hp]; subst.
    simpl. apply Z.eqb_neq in Hc. rewrite Hc. simpl. rewrite Hc, Z.eqb_refl. simpl.
    apply IH; [done | simpl in Hroom; lia | simpl in Hdst; lia].
Qed.

Lemma str_cpy_head (p : list Z) (c : Z) dst room :
  c <> 0 -> dst <> [] -> str_cpy dst (c :: p) (S room) !! 0%nat = Some c.
Proof.
  intros Hc Hd. destruct dst as [|d dst]; [done|].
  simpl. apply Z.eqb_neq in Hc. rewrite Hc. reflexivity.
Qed.

Lemma find_file_from_zero n i nm :
  find_file_from (replicate n zero_dirent) i nm = -1.
Proof.
  revert i. induction n as [|n IH]; intros i; [reflexivity|].
  simpl. apply IH.
Qed.

Lemma take_replicate_le {A} (n m : nat) (x : A) :
  (n <= m)%nat -> take n (replicate m x) = replicate n x.
Proof. intros H. rewrite take_replicate. f_equal. lia. Qed.

(** Consequences of a healthy device for the metadata writes. *)
Lemma healthy_write (d : blkdev) sector count buf :
  healthy d -> 0 < count <= 128 -> 0 <= sector -> sector + count <= capacity d ->
  exists d', blk_write sector count buf d = (0, d') /\ healthy d' /\
             capacity d' = capacity d /\
             (forall s, s < sector \/ sector + count <= s -> disk d' s = disk d s) /\
             (count = 1 -> disk d' sector = take 512 buf).
Proof.
  intros Hh Hc Hs Hr.
  assert (Hin : in_range d sector count = true).
  { unfold in_range. apply andb_true_iff. split; [now apply Z.leb_le | now apply Z.leb_le]. }
  rewrite (blk_write_small sector count buf d Hh Hc Hin).
  eexists. split; [reflexivity|]. split; [split; reflexivity|]. split; [reflexivity|].
  split.
  - intros s Hs'. simpl. now apply disk_write_other.
  - intros ->. simpl. apply disk_write_same.
Qed.

Lemma healthy_read (d : blkdev) sector :
  healthy d -> 0 <= sector < capacity d ->
  blk_read sector 1 d = (0, disk d sector, d).
Proof.
  intros Hh Hs. apply blk_read_one; [done|].
  unfold in_range. apply andb_true_iff. split; apply Z.leb_le; lia.
Qed.

Section Roundtrip.

Variable st0 : fs.
Variables nm B : list Z.

Let cap : Z := capacity (dev st0).
Let tc : Z := clusters_of_capacity cap.
Let len : Z := Z.of_nat (length B).
Let path : list Z := skip_slash nm.
Let nmarr : list Z := str_cpy (replicate 20 0) path (Z.to_nat (FS_MAX_FILENAME - 1)).

Hypothesis Hdev : healthy (dev st0).
Hypothesis Hcap0 : 0 <= cap.
Hypothesis Hcap : 32 <= wrap32 cap.
Hypothesis Hname : valid_filename nm.
Hypothesis Hfit : len <= (tc - 1) * FS_CLUSTER_SIZE.

Lemma geometry : 4 <= tc <= 2048 /\ 13 + 4 * tc <= cap /\ to_int32 tc = tc.
Proof.
  assert (Hw : wrap32 cap <= cap).
  { unfold wrap32. apply Z.mod_le; lia. }
  assert (Hw2 : wrap32 cap < 2^32).
  { unfold wrap32. apply Z.mod_pos_bound. lia. }
  unfold tc, clusters_of_capacity, DATA_START_SECTOR, FS_SECTORS_PER_CLUSTER.
  rewrite (wrap32_small (wrap32 cap - 13)) by lia.
  assert (Hq : 4 * ((wrap32 cap - 13) / 4) <= wrap32 cap - 13).
  { apply Z.mul_div_le. lia. }
  assert (Hq4 : 4 <= (wrap32 cap - 13) / 4).
  { apply Z.div_le_lower_bound; lia. }
  destruct (2048 <? _) eqn:E.
  - apply Z.ltb_lt in E. split; [lia|]. split; [lia|]. reflexivity.
  - apply Z.ltb_ge in E. split; [lia|]. split; [lia|].
    unfold to_int32. rewrite wrap32_small by lia.
    destruct (_ <? 2^31) eqn:E2; [done|]. apply Z.ltb_ge in E2. lia.
Qed.

Definition fat_cell (k j : Z) : Z :=
  if j <? k then j + 1 else if j =? k then FAT_EOF else 0.

Definition first_of (k : Z) : Z := if k =? 0 then FAT_EOF else 1.

Definition chunk (n i : Z) : nat := Z.to_nat (Z.min 512 (n - 512 * i)).

(** The filesystem while file 0 holds the first [n] bytes of [B] in [k]
    clusters, with [f] as the entry of descriptor 0. *)
Record holds (k n : Z) (f : open_file_t) (st : fs) : Prop := {
  h_healthy : healthy (dev st);
  h_cap : capacity (dev st) = cap;
  h_tc : total_clusters (superblock st) = tc;
  h_mounted : fs_is_mounted st = 1;
  h_fat_len : length (fat st) = 2048%nat;
  h_fat : forall j, 1 <= j < 2048 -> fat_at st j = fat_cell k j;
  h_files_len : length (open_files st) = 8%nat;
  h_file : open_files st !! 0%nat = Some f;
  h_dirent : root_dir st !! 0%nat = Some (mk_dirent nmarr n (first_of k) 0 0);
  h_disk : forall i, 0 <= i -> 512 * i < n ->
      take (chunk n i) (disk (dev st) (17 + i)) = take (chunk n i) (drop (Z.to_nat (512 * i)) B)
}.

Definition wfile (k n : Z) : open_file_t :=
  mk_open_file 1 0 n n (first_of k) (Z.lor FS_O_WRITE FS_O_CREATE).

Lemma healthy_flush (d : blkdev) :
  healthy d -> healthy (blk_flush d).2 /\ capacity (blk_flush d).2 = capacity d /\
               disk (blk_flush d).2 = disk d.
Proof.
  intros [Hi Hf]. unfold blk_flush, next_fault, healthy. rewrite Hi, Hf. simpl.
  rewrite Hi, Hf. done.
Qed.

Lemma format_ok :
  exists st1,
    fs_format st0 = (0, st1) /\
    healthy (dev st1) /\ capacity (dev st1) = cap /\
    total_clusters (superblock st1) = tc /\ fs_is_mounted st1 = 1 /\
    fat st1 = <[0%nat := FAT_EOF]> (replicate 2048 0) /\
    root_dir st1 = replicate 64 zero_dirent /\
    open_files st1 = replicate 8 zero_open_file.
Proof.
  pose proof geometry as (Htc & Hcapg & _).
  unfold fs_format, blk_available.
  destruct Hdev as [Hinit Hfl]. rewrite Hinit. cbn [negb].
  destruct (wrap32 (capacity (dev st0)) <? 32) eqn:E.
  { apply Z.ltb_lt in E. fold cap in E. lia. }
  unfold write_superblock. cbn [dev superblock].
  destruct (healthy_write (dev st0) SUPERBLOCK_SECTOR 1
              (superblock_bytes
                 (set_free_clusters
                    (mk_superblock FS_MAGIC FS_VERSION (wrap32 (capacity (dev st0)))
                       (clusters_of_capacity (capacity (dev st0)))
                       (clusters_of_capacity (capacity (dev st0)))
                       FAT_START_SECTOR FAT_SECTORS ROOT_START_SECTOR ROOT_SECTORS
                       DATA_START_SECTOR (replicate 472 0))
                    (wrap32 (clusters_of_capacity (capacity (dev st0)) - 1)))))
    as (d1 & E1 & H1 & C1 & _).
  { split; done. } { lia. } { unfold SUPERBLOCK_SECTOR; lia. }
  { unfold SUPERBLOCK_SECTOR. fold cap. lia. }
  unfold clusters_of_capacity in E1. cbn [free_clusters] in *.
  rewrite E1. cbn [negb Z.eqb].
  unfold write_fat. cbn [dev set_dev fat].
  destruct (healthy_write d1 FAT_START_SECTOR FAT_SECTORS
              (fat_bytes (<[0%nat := FAT_EOF]> (replicate 2048 0))))
    as (d2 & E2 & H2 & C2 & _); [done | unfold FAT_SECTORS; lia
                                 | unfold FAT_START_SECTOR; lia
                                 | unfold FAT_START_SECTOR, FAT_SECTORS; fold cap in C1; lia |].
  rewrite E2. cbn [negb Z.eqb].
  unfold write_root_dir. cbn [dev set_dev root_dir].
  destruct (healthy_write d2 ROOT_START_SECTOR ROOT_SECTORS
              (root_dir_bytes (replicate 64 zero_dirent)))
    as (d3 & E3 & H3 & C3 & _); [done | unfold ROOT_SECTORS; lia
                                 | unfold ROOT_START_SECTOR; lia
                                 | unfold ROOT_START_SECTOR, ROOT_SECTORS; fold cap in C1; lia |].
  rewrite E3. cbn [negb Z.eqb dev set_dev].
  pose proof (healthy_flush d3 H3) as (H4 & C4 & _).
  destruct (blk_flush d3) as [rcf d4]. cbn [snd] in *.
  eexists. split; [reflexivity|].
  cbn. repeat split; try apply H4.
  - fold cap in C1. congruence.
Qed.

Lemma path_head : exists c rest, path = c :: rest /\ c <> 0.
Proof.
  destruct Hname as (Hne & _ & Hnz). fold path in Hne, Hnz.
  destruct path as [|c rest]; [done|].
  inversion Hnz; subst. eauto.
Qed.

Lemma nmarr_matches : name0 (mk_dirent nmarr 0 0 0 0) <> 0 /\ str_cmp nmarr path = 0.
Proof.
  destruct Hname as (Hne & Hlen & Hnz). fold path in Hne, Hlen, Hnz.
  split.
  - destruct path_head as (c & rest & E & Hc).
    unfold name0, nmarr. cbn [name]. rewrite E.
    change (Z.to_nat (FS_MAX_FILENAME - 1)) with 19%nat.
    rewrite str_cpy_head; [done | done | done].
  - unfold nmarr. apply str_cmp_str_cpy; [done | |].
    + change (Z.to_nat (FS_MAX_FILENAME - 1)) with 19%nat. lia.
    + rewrite length_replicate. lia.
Qed.

Lemma open_create_ok st1 :
  healthy (dev st1) -> capacity (dev st1) = cap ->
  total_clusters (superblock st1) = tc -> fs_is_mounted st1 = 1 ->
  fat st1 = <[0%nat := FAT_EOF]> (replicate 2048 0) ->
  root_dir st1 = replicate 64 zero_dirent ->
  open_files st1 = replicate 8 zero_open_file ->
  exists st2,
    fs_open nm (Z.lor FS_O_WRITE FS_O_CREATE) st1 = (0, st2) /\
    holds 0 0 (wfile 0 0) st2.
Proof.
  intros Hh Hc Htc Hm Hfat Hroot Hopen.
  pose proof geometry as (Htcr & Hcapg & _).
  destruct path_head as (c & rest & Epath & Hc0).
  unfold fs_open. rewrite Hm. cbn [Z.eqb]. fold path. rewrite Epath.
  change (default 0 ((c :: rest) !! 0%nat)) with c.
  apply Z.eqb_neq in Hc0 as Hc0'. rewrite Hc0'.
  rewrite Hopen. change (Z.to_nat FS_MAX_OPEN) with 8%nat.
  cbn [replicate take find_free_fd in_use zero_open_file Z.eqb Z.ltb Z.compare].
  unfold find_file. rewrite Hroot. change (Z.to_nat FS_MAX_FILES) with 64%nat.
  rewrite take_replicate_le by lia. rewrite find_file_from_zero.
  cbn [Z.ltb Z.compare].
  change (Z.land (Z.lor FS_O_WRITE FS_O_CREATE) FS_O_CREATE =? 0) with false.
  unfold find_free_dirent. rewrite Hroot. change (Z.to_nat FS_MAX_FILES) with 64%nat.
  rewrite take_replicate_le by lia.
  change (find_free_dirent_from (replicate 64 zero_dirent) 0) with 0.
  cbn [Z.ltb Z.compare]. unfold write_root_dir, update_dirent.
  cbn [dev set_root_dir root_dir]. rewrite Hroot.
  destruct (healthy_write (dev st1) ROOT_START_SECTOR ROOT_SECTORS
              (root_dir_bytes
                 (alter (fun d => mk_dirent
                           (str_cpy (name d) (c :: rest) (Z.to_nat (FS_MAX_FILENAME - 1)))
                           0 FAT_EOF 0 0) (Z.to_nat 0) (replicate 64 zero_dirent))))
    as (d2 & E2 & H2 & C2 & _); [done | unfold ROOT_SECTORS; lia
                                 | unfold ROOT_START_SECTOR; lia
                                 | unfold ROOT_START_SECTOR, ROOT_SECTORS; lia |].
  rewrite E2. cbn [negb Z.eqb]. unfold install_fd.
  eexists. split; [reflexivity|].
  constructor; cbn [dev set_dev set_open_files set_root_dir superblock fs_is_mounted
                    fat open_files root_dir].
  - done.
  - congruence.
  - done.
  - done.
  - rewrite Hfat. rewrite length_insert, length_replicate. reflexivity.
  - intros j Hj. unfold fat_at. fs_simpl. rewrite Hfat.
    rewrite list_lookup_insert_ne by lia.
    rewrite lookup_replicate_2 by lia. cbn [default].
    unfold fat_cell. destruct (j <? 0) eqn:E1; [apply Z.ltb_lt in E1; lia|].
    destruct (j =? 0) eqn:E3; [apply Z.eqb_eq in E3; lia|]. reflexivity.
  - rewrite Hopen. rewrite length_insert, length_replicate. reflexivity.
  - rewrite Hopen. reflexivity.
  - rewrite <- Epath. reflexivity.
  - intros i Hi Hn. lia.
Qed.

(** *** Allocation on the sequential chain *)

Lemma fat_at_insert st i v j :
  0 <= i -> 0 <= j -> (Z.to_nat i < length (fat st))%nat ->
  fat_at (set_fat st (<[Z.to_nat i := v]> (fat st))) j =
  if j =? i then v else fat_at st j.
Proof.
  intros Hi Hj Hlen. unfold fat_at. fs_simpl.
  destruct (j =? i) eqn:E.
  - apply Z.eqb_eq in E. subst. now rewrite list_lookup_insert_eq.
  - apply Z.eqb_neq in E. rewrite list_lookup_insert_ne by lia. reflexivity.
Qed.

Lemma alloc_scan_finds (ft : list Z) (k limit : Z) :
  forall (m : nat) (i : Z),
    i + Z.of_nat m = k + 1 -> 1 <= i ->
    (forall j, i <= j <= k -> default 0 (ft !! Z.to_nat j) <> 0) ->
    default 0 (ft !! Z.to_nat (k + 1)) = 0 ->
    k + 1 < limit -> (Z.to_nat (k + 1) < length ft)%nat ->
    alloc_scan (drop (Z.to_nat i) ft) i limit = Some (k + 1).
Proof.
  induction m as [|m IH]; intros i Him Hi Hnz Hz Hlim Hlen.
  - assert (i = k + 1) by lia. subst i.
    destruct (lookup_lt_is_Some_2 ft (Z.to_nat (k + 1)) Hlen) as [x Hx].
    rewrite (drop_S _ _ _ Hx). rewrite Hx in Hz. simpl in Hz. subst x.
    simpl. destruct (limit <=? k + 1) eqn:E; [apply Z.leb_le in E; lia|].
    reflexivity.
  - assert (Hlt : (Z.to_nat i < length ft)%nat) by lia.
    destruct (lookup_lt_is_Some_2 ft (Z.to_nat i) Hlt) as [x Hx].
    rewrite (drop_S _ _ _ Hx).
    specialize (Hnz i ltac:(lia)) as Hxi. rewrite Hx in Hxi. simpl in Hxi.
    simpl. destruct (limit <=? i) eqn:E; [apply Z.leb_le in E; lia|].
    apply Z.eqb_neq in Hxi. unfold FAT_FREE. rewrite Hxi.
    replace (S (Z.to_nat i)) with (Z.to_nat (i + 1)) by lia.
    apply IH; try lia; try done.
    intros j Hj. apply Hnz. lia.
Qed.

Lemma fat_cell_nonzero k j : 1 <= j <= k -> fat_cell k j <> 0.
Proof.
  intros Hj. unfold fat_cell, FAT_EOF.
  destruct (j <? k) eqn:E1; [lia|].
  destruct (j =? k) eqn:E2; [lia|].
  apply Z.ltb_ge in E1. apply Z.eqb_neq in E2. lia.
Qed.

Lemma alloc_ok k n f st :
  holds k n f st -> 0 <= k -> k + 1 < tc ->
  alloc_cluster st =
    (k + 1,
     set_superblock (set_fat st (<[Z.to_nat (k + 1) := FAT_EOF]> (fat st)))
       (set_free_clusters (superblock st) (wrap32 (free_clusters (superblock st) - 1)))).
Proof.
  intros H Hk Hlim. pose proof geometry as (Htcr & _ & Hint).
  unfold alloc_cluster. rewrite (h_tc _ _ _ _ H), Hint.
  change 1%nat with (Z.to_nat 1).
  rewrite (alloc_scan_finds (fat st) k tc (Z.to_nat k) 1); try lia.
  - reflexivity.
  - intros j Hj. pose proof (h_fat _ _ _ _ H j ltac:(lia)) as Hc.
    unfold fat_at in Hc. rewrite Hc. now apply fat_cell_nonzero.
  - pose proof (h_fat _ _ _ _ H (k + 1) ltac:(lia)) as Hc.
    unfold fat_at in Hc. rewrite Hc. unfold fat_cell.
    destruct (k + 1 <? k) eqn:E1; [apply Z.ltb_lt in E1; lia|].
    destruct (k + 1 =? k) eqn:E2; [apply Z.eqb_eq in E2; lia|]. reflexivity.
  - rewrite (h_fat_len _ _ _ _ H). lia.
Qed.

Lemma first_of_pos k : 1 <= k -> first_of k = 1.
Proof.
  intros Hk. unfold first_of. destruct (k =? 0) eqn:E; [apply Z.eqb_eq in E; lia|done].
Qed.

Lemma file_at_0 st f : open_files st !! 0%nat = Some f -> file_at st 0 = f.
Proof. intros H. unfold file_at. change (Z.to_nat 0) with 0%nat. now rewrite H. Qed.

Lemma write_first_ok k n st :
  holds k n (wfile k n) st -> 0 <= k -> 1 < tc ->
  exists st1,
    write_first 0 0 st = inl (1, st1) /\
    holds (Z.max k 1) n (wfile (Z.max k 1) n) st1.
Proof.
  intros H Hk Htc1. unfold write_first.
  rewrite (file_at_0 st _ (h_file _ _ _ _ H)). cbn [of_first_cluster wfile].
  destruct (Z.eq_dec k 0) as [->|Hne].
  - change (first_of 0 =? FAT_EOF) with true. cbn iota.
    rewrite (alloc_ok 0 n _ st H ltac:(lia) ltac:(lia)).
    change (0 + 1 <? 0) with false. cbn iota. change (wrap16 (0 + 1)) with 1.
    eexists. split; [reflexivity|].
    change (Z.max 0 1) with 1.
    destruct H. constructor; fs_simpl; try done.
    + now rewrite length_insert.
    + intros j Hj.
      pose proof (fat_at_insert st 1 FAT_EOF j ltac:(lia) ltac:(lia)) as E.
      unfold fat_at in E |- *. fs_simpl. change (Z.to_nat (0 + 1)) with (Z.to_nat 1).
      rewrite E by (rewrite h_fat_len0; lia).
      specialize (h_fat0 j Hj). unfold fat_at in h_fat0. rewrite h_fat0.
      unfold fat_cell.
      destruct (j =? 1) eqn:E1.
      * apply Z.eqb_eq in E1. subst. reflexivity.
      * apply Z.eqb_neq in E1.
        destruct (j <? 0) eqn:E2; [apply Z.ltb_lt in E2; lia|].
        destruct (j =? 0) eqn:E3; [apply Z.eqb_eq in E3; lia|].
        destruct (j <? 1) eqn:E4; [apply Z.ltb_lt in E4; lia|]. reflexivity.
    + now rewrite length_alter.
    + change (Z.to_nat 0) with 0%nat. rewrite list_lookup_alter_eq, h_file0. reflexivity.
    + change (Z.to_nat 0) with 0%nat. rewrite list_lookup_alter_eq, h_dirent0. reflexivity.
  - rewrite first_of_pos by lia. change (1 =? FAT_EOF) with false. cbn iota.
    exists st. split; [reflexivity|]. now rewrite Z.max_l by lia.
Qed.


Lemma fat_cell_next k c : 1 <= c < k -> fat_cell k c = c + 1.
Proof.
  intros Hc. unfold fat_cell. destruct (c <? k) eqn:E; [done|].
  apply Z.ltb_ge in E. lia.
Qed.

Lemma fat_cell_last k : fat_cell k k = FAT_EOF.
Proof.
  unfold fat_cell. rewrite Z.ltb_irrefl, Z.eqb_refl. reflexivity.
Qed.

(** Appending cluster [k + 1] to a chain of [k >= 1] clusters. *)
Lemma extend_ok k n st :
  holds k n (wfile k n) st -> 1 <= k -> k + 1 < tc ->
  holds (k + 1) n (wfile (k + 1) n)
    (set_fat
       (set_superblock (set_fat st (<[Z.to_nat (k + 1) := FAT_EOF]> (fat st)))
          (set_free_clusters (superblock st) (wrap32 (free_clusters (superblock st) - 1))))
       (<[Z.to_nat k := k + 1]> (<[Z.to_nat (k + 1) := FAT_EOF]> (fat st)))).
Proof.
  intros H Hk Hlim. pose proof geometry as (Htcr & _ & _).
  unfold wfile in *. rewrite (first_of_pos (k + 1)) by lia.
  rewrite (first_of_pos k) in H by lia.
  destruct H. constructor; fs_simpl; try done.
  - now rewrite !length_insert.
  - intros j Hj. specialize (h_fat0 j Hj). unfold fat_at in *. fs_simpl.
    destruct (Z.eq_dec j k) as [->|Hjk].
    + rewrite list_lookup_insert_eq by (rewrite length_insert, h_fat_len0; lia).
      cbn [default]. rewrite fat_cell_next by lia. reflexivity.
    + rewrite list_lookup_insert_ne by lia.
      destruct (Z.eq_dec j (k + 1)) as [->|Hjk1].
      * rewrite list_lookup_insert_eq by (rewrite h_fat_len0; lia).
        cbn [default]. now rewrite fat_cell_last.
      * rewrite list_lookup_insert_ne by lia. rewrite h_fat0.
        unfold fat_cell.
        destruct (j <? k) eqn:E1, (j <? k + 1) eqn:E2;
          try apply Z.ltb_lt in E1; try apply Z.ltb_lt in E2;
          try apply Z.ltb_ge in E1; try apply Z.ltb_ge in E2; try lia; try done.
        destruct (j =? k) eqn:E3; [apply Z.eqb_eq in E3; lia|].
        destruct (j =? k + 1) eqn:E4; [apply Z.eqb_eq in E4; lia|]. reflexivity.
  - rewrite first_of_pos in h_dirent0 by lia. rewrite first_of_pos by lia. done.
Qed.

Lemma write_walk_ok (m : nat) :
  forall c k n st,
    holds k n (wfile k n) st -> 1 <= k < tc -> 1 <= c <= k ->
    c + Z.of_nat m <= k + 1 -> (c + Z.of_nat m = k + 1 -> k + 1 < tc) ->
    exists st2,
      write_walk m c st = inl (c + Z.of_nat m, st2) /\
      holds (Z.max k (c + Z.of_nat m)) n (wfile (Z.max k (c + Z.of_nat m)) n) st2.
Proof.
  induction m as [|m IH]; intros c k n st H Hk Hc Hm Hlim.
  - exists st. simpl. rewrite Z.add_0_r. split; [reflexivity|].
    now rewrite Z.max_l by lia.
  - pose proof geometry as (Htcr & _ & _).
    cbn [write_walk].
    rewrite (h_fat _ _ _ _ H c) by lia.
    destruct (Z.eq_dec c k) as [->|Hne].
    + (* the chain ends here: extend it *)
      assert (m = 0%nat) by lia. subst m.
      specialize (Hlim ltac:(lia)).
      rewrite fat_cell_last, Z.eqb_refl.
      rewrite (alloc_ok k n _ st H ltac:(lia) Hlim).
      destruct (k + 1 <? 0) eqn:E; [apply Z.ltb_lt in E; lia|].
      rewrite (wrap16_small (k + 1)) by lia.
      fs_simpl.
      pose proof (extend_ok k n st H ltac:(lia) Hlim) as Hx.
      eexists. split.
      * cbn [write_walk]. f_equal. f_equal.
        rewrite (h_fat _ _ _ _ Hx k) by lia. rewrite fat_cell_next by lia. lia.
      * replace (Z.max k (k + Z.of_nat 1)) with (k + 1) by lia. exact Hx.
    + rewrite fat_cell_next by lia.
      destruct (c + 1 =? FAT_EOF) eqn:E.
      { apply Z.eqb_eq in E. unfold FAT_EOF in E. lia. }
      destruct (IH (c + 1) k n st H Hk ltac:(lia) ltac:(lia) ltac:(intros; apply Hlim; lia))
        as (st2 & E2 & H2).
      exists st2. split.
      * rewrite E2. f_equal. f_equal. lia.
      * replace (c + Z.of_nat (S m)) with (c + 1 + Z.of_nat m) by lia. exact H2.
Qed.

(** *** One sector of data *)

Lemma sector_arith (j : Z) :
  0 <= j ->
  (512 * j) mod FS_CLUSTER_SIZE = 512 * (j mod 4) /\
  (512 * j) / FS_CLUSTER_SIZE = j / 4 /\
  ((512 * j) mod FS_CLUSTER_SIZE) mod 512 = 0 /\
  ((512 * j) mod FS_CLUSTER_SIZE) / 512 = j mod 4.
Proof.
  intros Hj. unfold FS_CLUSTER_SIZE. change 2048 with (512 * 4).
  rewrite Z.mul_mod_distr_l by lia. rewrite Z.div_mul_cancel_l by lia.
  repeat split.
  - rewrite Z.mul_comm. apply Z.mod_mul. lia.
  - rewrite Z.mul_comm. apply Z.div_mul. lia.
Qed.

Lemma to_copy_aligned (rem : Z) :
  0 < rem < 2^31 ->
  (if rem <? to_int32 (512 - 0) then wrap32 rem else 512 - 0) = Z.min 512 rem.
Proof.
  intros Hr. change (to_int32 (512 - 0)) with 512. change (512 - 0) with 512.
  destruct (rem <? 512) eqn:E.
  - apply Z.ltb_lt in E. rewrite wrap32_small by lia. lia.
  - apply Z.ltb_ge in E. lia.
Qed.

Lemma len_bound : len <= 2047 * 2048.
Proof.
  pose proof geometry as (Htcr & _ & _). unfold FS_CLUSTER_SIZE in Hfit. nia.
Qed.

Lemma write_data_ok k j st :
  let n := 512 * j in
  let n' := Z.min (n + 512) len in
  holds k n (wfile k n) st -> 0 <= j -> n < len -> k = j / 4 + 1 ->
  exists st',
    write_data 0 0 k (n mod FS_CLUSTER_SIZE) (drop (Z.to_nat n) B) (len - n) n st
      = Next (drop (Z.to_nat n') B, len - n', n', st') /\
    holds k n' (wfile k n') st'.
Proof.
  intros n n' H Hj Hn Hk.
  pose proof geometry as (Htcr & Hcapg & _). pose proof len_bound as Hlb.
  destruct (sector_arith j Hj) as (A1 & A2 & A3 & A4). fold n in A1, A2, A3, A4.
  assert (Hjb : j < 4 * (tc - 1)).
  { unfold FS_CLUSTER_SIZE in Hfit. unfold n in Hn. lia. }
  assert (Hmod4 : 0 <= j mod 4 < 4) by (apply Z.mod_pos_bound; lia).
  assert (Hdiv4 : j = 4 * (j / 4) + j mod 4) by (apply Z.div_mod; lia).
  assert (Hsec : wrap32 (cluster_to_sector k + j mod 4) = 17 + j).
  { unfold cluster_to_sector, DATA_START_SECTOR, FS_SECTORS_PER_CLUSTER.
    rewrite (wrap32_small (13 + k * 4)) by lia. rewrite wrap32_small by lia. lia. }
  assert (Hn'n : n' - n = Z.min 512 (len - n)) by (unfold n'; lia).
  unfold write_data. rewrite A3, A4, Hsec.
  rewrite to_copy_aligned by lia. rewrite <- Hn'n.
  change (negb (0 =? 0)) with false. cbn [orb].
  change (Z.to_nat 0) with 0%nat. rewrite Z.add_0_l.
  (* the sector buffer before the copy *)
  set (st3 := if len - n <? 512 then _ else st).
  assert (Hst3 : exists sb, st3 = set_sector_buf st sb).
  { unfold st3. destruct (len - n <? 512).
    - rewrite (healthy_read (dev st) (17 + j) (h_healthy _ _ _ _ H))
        by (rewrite (h_cap _ _ _ _ H); lia).
      cbn [negb Z.eqb]. destruct st; eexists; reflexivity.
    - destruct st; eexists; reflexivity. }
  destruct Hst3 as (sb & Est3). rewrite Est3. clear Est3 st3. fs_simpl.
  change (take 0 sb) with (@nil Z). cbn [app].
  set (buf' := take (Z.to_nat (n' - n)) (drop (Z.to_nat n) B) ++ drop (Z.to_nat (n' - n)) sb).
  destruct (healthy_write (dev st) (17 + j) 1 buf' (h_healthy _ _ _ _ H))
    as (d' & Ew & Hh' & Hc' & Hother & Hsame); try lia.
  { rewrite (h_cap _ _ _ _ H). lia. }
  specialize (Hsame eq_refl).
  rewrite Ew. cbn [negb Z.eqb].
  assert (Epos : wrap32 (n + (n' - n)) = n').
  { rewrite wrap32_small by lia. lia. }
  unfold file_at, update_file, update_dirent. fs_simpl. change (Z.to_nat 0) with 0%nat.
  rewrite !list_lookup_alter_eq, (h_file _ _ _ _ H).
  cbn [fmap option_fmap option_map default of_size pos wfile set_of_pos]. rewrite Epos.
  assert (Elt : (n <? n') = true) by (apply Z.ltb_lt; lia).
  change (of_size (id (set_of_pos (wfile k n) n'))) with n.
  change (pos (id (set_of_pos (wfile k n) n'))) with n'.
  rewrite Elt.
  replace (n + (n' - n)) with n' by lia.
  replace (len - n - (n' - n)) with (len - n') by lia.
  assert (Edrop : drop (Z.to_nat (n' - n)) (drop (Z.to_nat n) B) = drop (Z.to_nat n') B).
  { rewrite drop_drop. f_equal. lia. }
  rewrite Edrop.
  eexists. split; [reflexivity|].
  destruct H. constructor; fs_simpl; try done.
  - congruence.
  - now rewrite !length_alter.
  - rewrite !list_lookup_alter_eq, h_file0. cbn. rewrite Epos. reflexivity.
  - rewrite list_lookup_alter_eq, h_dirent0. reflexivity.
  - intros i Hi Hin.
    destruct (Z.eq_dec i j) as [->|Hij].
    + rewrite Hsame.
      assert (Ech : chunk n' j = Z.to_nat (n' - n)) by (unfold chunk, n', n; lia).
      rewrite Ech. replace (512 * j) with n by reflexivity.
      assert (Hlen1 : length (take (Z.to_nat (n' - n)) (drop (Z.to_nat n) B))
                      = Z.to_nat (n' - n)).
      { rewrite length_take, length_drop. unfold len in *. lia. }
      rewrite take_take. replace (Z.to_nat (n' - n) `min` 512)%nat with (Z.to_nat (n' - n)) by lia.
      unfold buf'. rewrite take_app_le by lia. rewrite take_idemp. reflexivity.
    + assert (Hlt : i < j) by (unfold n' in Hin; lia).
      rewrite Hother by lia.
      assert (Ech : chunk n' i = chunk n i) by (unfold chunk, n', n; lia).
      rewrite Ech. apply h_disk0; [done | unfold n; lia].
Qed.

(** *** The write loop *)

Definition clusters_for (n : Z) : Z := (n + 2047) / 2048.

Lemma holds_dev k n f st d :
  holds k n f st -> healthy d -> capacity d = capacity (dev st) ->
  (forall s, 13 <= s -> disk d s = disk (dev st) s) ->
  holds k n f (set_dev st d).
Proof.
  intros H Hh Hc Hd. destruct H. constructor; fs_simpl; try done.
  - congruence.
  - intros i Hi Hn. rewrite Hd by lia. now apply h_disk0.
Qed.

Lemma flush_ok k n f st : holds k n f st -> holds k n f (flush_metadata st).
Proof.
  intros H. pose proof geometry as (Htcr & Hcapg & _).
  unfold flush_metadata, write_fat, write_root_dir, write_superblock.
  pose proof (h_cap _ _ _ _ H) as Hc.
  destruct (healthy_write (dev st) FAT_START_SECTOR FAT_SECTORS (fat_bytes (fat st))
              (h_healthy _ _ _ _ H))
    as (d1 & E1 & H1 & C1 & O1 & _);
    [unfold FAT_SECTORS; lia | unfold FAT_START_SECTOR; lia
     | unfold FAT_START_SECTOR, FAT_SECTORS; lia |].
  rewrite E1. fs_simpl.
  destruct (healthy_write d1 ROOT_START_SECTOR ROOT_SECTORS (root_dir_bytes (root_dir st)) H1)
    as (d2 & E2 & H2 & C2 & O2 & _);
    [unfold ROOT_SECTORS; lia | unfold ROOT_START_SECTOR; lia
     | unfold ROOT_START_SECTOR, ROOT_SECTORS; lia |].
  rewrite E2. fs_simpl.
  destruct (healthy_write d2 SUPERBLOCK_SECTOR 1 (superblock_bytes (superblock st)) H2)
    as (d3 & E3 & H3 & C3 & O3 & _);
    [lia | unfold SUPERBLOCK_SECTOR; lia | unfold SUPERBLOCK_SECTOR; lia |].
  rewrite E3.
  assert (Es : set_dev (set_dev (set_dev st d1) d2) d3 = set_dev st d3) by reflexivity.
  rewrite Es. apply holds_dev; [done | done | congruence |].
  intros s Hs.
  rewrite O3 by (unfold SUPERBLOCK_SECTOR; lia).
  rewrite O2 by (unfold ROOT_START_SECTOR, ROOT_SECTORS; lia).
  rewrite O1 by (unfold FAT_START_SECTOR, FAT_SECTORS; lia). reflexivity.
Qed.

Lemma clusters_for_step (j n' : Z) :
  0 <= j -> 512 * j < n' <= 512 * j + 512 -> clusters_for n' = j / 4 + 1.
Proof.
  intros Hj Hn. unfold clusters_for.
  assert (Hmod4 : 0 <= j mod 4 < 4) by (apply Z.mod_pos_bound; lia).
  assert (Hdiv4 : j = 4 * (j / 4) + j mod 4) by (apply Z.div_mod; lia).
  symmetry. apply Z.div_unique with (r := n' + 2047 - 2048 * (j / 4 + 1)); lia.
Qed.

Lemma clusters_for_aligned (j : Z) :
  0 <= j -> clusters_for (512 * j) = (j + 3) / 4.
Proof.
  intros Hj. unfold clusters_for.
  assert (Hmod4 : 0 <= (j + 3) mod 4 < 4) by (apply Z.mod_pos_bound; lia).
  assert (Hdiv4 : j + 3 = 4 * ((j + 3) / 4) + (j + 3) mod 4) by (apply Z.div_mod; lia).
  symmetry.
  apply Z.div_unique with (r := 512 * j + 2047 - 2048 * ((j + 3) / 4)); lia.
Qed.

Lemma write_round_ok j st :
  let n := 512 * j in
  let n' := Z.min (n + 512) len in
  holds (clusters_for n) n (wfile (clusters_for n) n) st -> 0 <= j -> n < len ->
  exists st',
    fs_write_round 0 0 (drop (Z.to_nat n) B) (len - n) n st
      = Next (drop (Z.to_nat n') B, len - n', n', st') /\
    holds (clusters_for n') n' (wfile (clusters_for n') n') st'.
Proof.
  intros n n' H Hj Hn.
  pose proof geometry as (Htcr & Hcapg & _).
  assert (Hjb : j < 4 * (tc - 1)).
  { unfold FS_CLUSTER_SIZE in Hfit. unfold n in Hn. lia. }
  assert (Hmod4 : 0 <= j mod 4 < 4) by (apply Z.mod_pos_bound; lia).
  assert (Hdiv4 : j = 4 * (j / 4) + j mod 4) by (apply Z.div_mod; lia).
  assert (Hmod4' : 0 <= (j + 3) mod 4 < 4) by (apply Z.mod_pos_bound; lia).
  assert (Hdiv4' : j + 3 = 4 * ((j + 3) / 4) + (j + 3) mod 4) by (apply Z.div_mod; lia).
  assert (Hq : 0 <= j / 4) by (apply Z.div_pos; lia).
  assert (Hk : clusters_for n = (j + 3) / 4) by (apply clusters_for_aligned; lia).
  assert (Hk' : clusters_for n' = j / 4 + 1).
  { apply clusters_for_step; [done | unfold n', n; lia]. }
  rewrite Hk in H. rewrite Hk'.
  set (k := (j + 3) / 4) in *.
  assert (Hk0 : 0 <= k) by (apply Z.div_pos; lia).
  unfold fs_write_round.
  rewrite (file_at_0 _ _ (h_file _ _ _ _ H)). cbn [pos wfile].
  destruct (write_first_ok k n st H Hk0 ltac:(lia)) as (st1 & E1 & H1).
  rewrite E1.
  destruct (sector_arith j Hj) as (_ & A2 & _). fold n in A2. rewrite A2.
  destruct (write_walk_ok (Z.to_nat (j / 4)) 1 (Z.max k 1) n st1 H1
              ltac:(lia) ltac:(lia) ltac:(lia) ltac:(lia)) as (st2 & E2 & H2).
  rewrite E2.
  replace (Z.max (Z.max k 1) (1 + Z.of_nat (Z.to_nat (j / 4)))) with (j / 4 + 1) in H2 by lia.
  replace (1 + Z.of_nat (Z.to_nat (j / 4))) with (j / 4 + 1) by lia.
  apply (write_data_ok (j / 4 + 1) j st2 H2 Hj Hn eq_refl).
Qed.

Lemma write_loop_ok (fuel : nat) :
  forall n st,
    n = len \/ (exists j, n = 512 * j /\ 0 <= j /\ n < len) ->
    holds (clusters_for n) n (wfile (clusters_for n) n) st ->
    (Z.to_nat (len - n) <= fuel)%nat ->
    exists st',
      fs_write_loop fuel 0 0 (drop (Z.to_nat n) B) (len - n) n st = (Completed, len, st') /\
      holds (clusters_for len) len (wfile (clusters_for len) len) st'.
Proof.
  induction fuel as [|fuel IH]; intros n st Hn H Hfuel.
  - assert (n = len) by (destruct Hn as [|(j & -> & ? & ?)]; lia). subst n.
    simpl. eexists. split; [reflexivity|]. now apply flush_ok.
  - destruct Hn as [->|(j & -> & Hj & Hlt)].
    + simpl. rewrite Z.sub_diag. cbn [Z.ltb Z.compare].
      eexists. split; [reflexivity|]. now apply flush_ok.
    + cbn [fs_write_loop].
      destruct (0 <? len - 512 * j) eqn:E; [|apply Z.ltb_ge in E; lia].
      destruct (write_round_ok j st H Hj Hlt) as (st' & Er & H').
      rewrite Er.
      apply IH; [ | exact H' | lia].
      destruct (Z_lt_ge_dec (512 * j + 512) len) as [Hl|Hg].
      * right. exists (j + 1). lia.
      * left. lia.
Qed.

Lemma fs_write_ok st :
  holds 0 0 (wfile 0 0) st ->
  exists st',
    fs_write 0 B len st = (len, st') /\
    holds (clusters_for len) len (wfile (clusters_for len) len) st'.
Proof.
  intros H. unfold fs_write, fd_ok, fs_write_body.
  rewrite (file_at_0 _ _ (h_file _ _ _ _ H)). cbn [in_use wfile of_flags dirent_idx].
  change (negb ((0 <=? 0) && (0 <? FS_MAX_OPEN) && negb (1 =? 0))) with false. cbn iota.
  change (Z.land (Z.lor FS_O_WRITE FS_O_CREATE) FS_O_WRITE =? 0) with false. cbn iota.
  destruct (write_loop_ok (Z.to_nat len) 0 st) as (st' & E & H').
  - destruct (Z.eq_dec len 0) as [E0|Hne]; [left; lia|].
    right. exists 0. unfold len in *. lia.
  - exact H.
  - lia.
  - change (Z.to_nat 0) with 0%nat in E. rewrite drop_0, Z.sub_0_r in E.
    rewrite E. eauto.
Qed.

(** *** Close, reopen, read *)

Definition rfile (k p : Z) : open_file_t :=
  mk_open_file 1 0 len p (first_of k) FS_O_READ.

Lemma holds_file k n f g st :
  holds k n f st ->
  holds k n g (set_open_files st (<[0%nat := g]> (open_files st))).
Proof.
  intros H. destruct H. constructor; fs_simpl; try done.
  - now rewrite length_insert.
  - apply list_lookup_insert_eq. lia.
Qed.

Lemma fs_close_ok k n st :
  holds k n (wfile k n) st ->
  exists st', fs_close 0 st = (0, st') /\ holds k n (set_of_in_use (wfile k n) 0) st'.
Proof.
  intros H. unfold fs_close, fd_ok.
  rewrite (file_at_0 _ _ (h_file _ _ _ _ H)). cbn [in_use wfile].
  change (negb ((0 <=? 0) && (0 <? FS_MAX_OPEN) && negb (1 =? 0))) with false. cbn iota.
  eexists. split; [reflexivity|].
  destruct H. constructor; fs_simpl; try done.
  - now rewrite length_alter.
  - change (Z.to_nat 0) with 0%nat. rewrite list_lookup_alter_eq, h_file0. reflexivity.
Qed.

Lemma lookup_0_cons {A} (l : list A) (x : A) :
  l !! 0%nat = Some x -> exists t, l = x :: t.
Proof. destruct l as [|y t]; [done|]. intros [= ->]. eauto. Qed.

Lemma open_read_ok k st :
  holds k len (set_of_in_use (wfile k len) 0) st ->
  exists st', fs_open nm FS_O_READ st = (0, st') /\ holds k len (rfile k 0) st'.
Proof.
  intros H. destruct path_head as (c & rest & Epath & Hc0).
  destruct nmarr_matches as (Hn0 & Hcmp).
  unfold fs_open. rewrite (h_mounted _ _ _ _ H). cbn [Z.eqb]. fold path.
  assert (Ec : default 0 (path !! 0%nat) = c) by (rewrite Epath; reflexivity).
  rewrite Ec. apply Z.eqb_neq in Hc0 as Hc0'. rewrite Hc0'.
  assert (Efd : find_free_fd (take (Z.to_nat FS_MAX_OPEN) (open_files st)) 0 = 0).
  { destruct (lookup_0_cons _ _ (h_file _ _ _ _ H)) as (ft & Ef). rewrite Ef. reflexivity. }
  rewrite Efd. cbn [Z.ltb Z.compare].
  assert (Eff : find_file st path = 0).
  { destruct (lookup_0_cons _ _ (h_dirent _ _ _ _ H)) as (rt & Er).
    unfold find_file. rewrite Er. change (Z.to_nat FS_MAX_FILES) with 64%nat.
    cbn [take find_file_from name].
    assert (En0 : (name0 (mk_dirent nmarr len (first_of k) 0 0) =? 0) = false).
    { apply Z.eqb_neq. exact Hn0. }
    rewrite En0, Hcmp. reflexivity. }
  rewrite Eff. cbn [Z.ltb Z.compare].
  change (negb (Z.land FS_O_READ FS_O_TRUNC =? 0)) with false. cbn iota.
  unfold install_fd, dirent_at. change (Z.to_nat 0) with 0%nat.
  rewrite (h_dirent _ _ _ _ H). cbn [default size first_cluster].
  change (negb (Z.land FS_O_READ FS_O_APPEND =? 0)) with false. cbn iota.
  eexists. split; [reflexivity|].
  apply (holds_file _ _ _ _ _ H).
Qed.

Lemma read_walk_ok (m : nat) :
  forall c k n f st,
    holds k n f st -> k < 2048 -> 1 <= c -> c + Z.of_nat m <= k ->
    read_walk m c st = c + Z.of_nat m.
Proof.
  induction m as [|m IH]; intros c k n f st H Hk Hc Hm.
  - simpl. lia.
  - cbn [read_walk].
    destruct (c =? FAT_EOF) eqn:E; [apply Z.eqb_eq in E; unfold FAT_EOF in E; lia|].
    rewrite (h_fat _ _ _ _ H c) by lia. rewrite fat_cell_next by lia.
    rewrite (IH (c + 1) k n f st H Hk) by lia. lia.
Qed.

Lemma clusters_for_mono a b : a <= b -> clusters_for a <= clusters_for b.
Proof. intros H. unfold clusters_for. apply Z.div_le_mono; lia. Qed.

Lemma read_round_ok j st out :
  let n := 512 * j in
  let n' := Z.min (n + 512) len in
  let k := clusters_for len in
  holds k len (rfile k n) st -> 0 <= j -> n < len ->
  exists st',
    fs_read_round 0 out (len - n) n st
      = Next (out ++ take (Z.to_nat (n' - n)) (drop (Z.to_nat n) B), len - n', n', st') /\
    holds k len (rfile k n') st'.
Proof.
  intros n n' k H Hj Hn.
  pose proof geometry as (Htcr & Hcapg & _). pose proof len_bound as Hlb.
  destruct (sector_arith j Hj) as (A1 & A2 & A3 & A4). fold n in A1, A2, A3, A4.
  assert (Hjb : j < 4 * (tc - 1)).
  { unfold FS_CLUSTER_SIZE in Hfit. unfold n in Hn. lia. }
  assert (Hmod4 : 0 <= j mod 4 < 4) by (apply Z.mod_pos_bound; lia).
  assert (Hdiv4 : j = 4 * (j / 4) + j mod 4) by (apply Z.div_mod; lia).
  assert (Hq : 0 <= j / 4) by (apply Z.div_pos; lia).
  assert (Hkn : j / 4 + 1 <= k).
  { rewrite <- (clusters_for_step j (n + 1)) by (unfold n; lia).
    apply clusters_for_mono. lia. }
  assert (Hkb : k < tc).
  { unfold k, clusters_for. unfold FS_CLUSTER_SIZE in Hfit.
    apply Z.div_lt_upper_bound; lia. }
  assert (Hn'n : n' - n = Z.min 512 (len - n)) by (unfold n'; lia).
  unfold fs_read_round.
  rewrite (file_at_0 _ _ (h_file _ _ _ _ H)). cbn [pos rfile of_first_cluster of_size].
  rewrite A2, A3, A4. rewrite first_of_pos by lia.
  rewrite (read_walk_ok (Z.to_nat (j / 4)) 1 k len _ st H) by lia.
  replace (1 + Z.of_nat (Z.to_nat (j / 4))) with (j / 4 + 1) by lia.
  destruct (j / 4 + 1 =? FAT_EOF) eqn:E1; [apply Z.eqb_eq in E1; unfold FAT_EOF in E1; lia|].
  destruct (j / 4 + 1 =? FAT_FREE) eqn:E2; [apply Z.eqb_eq in E2; unfold FAT_FREE in E2; lia|].
  cbn [orb].
  assert (Hsec : wrap32 (cluster_to_sector (j / 4 + 1) + j mod 4) = 17 + j).
  { unfold cluster_to_sector, DATA_START_SECTOR, FS_SECTORS_PER_CLUSTER.
    rewrite (wrap32_small (13 + (j / 4 + 1) * 4)) by lia. rewrite wrap32_small by lia. lia. }
  rewrite Hsec.
  rewrite (healthy_read (dev st) (17 + j) (h_healthy _ _ _ _ H))
    by (rewrite (h_cap _ _ _ _ H); lia).
  cbn [negb Z.eqb].
  rewrite to_copy_aligned by lia. rewrite <- Hn'n.
  assert (Epos : wrap32 (n + (n' - n)) = n') by (rewrite wrap32_small by lia; lia).
  rewrite Epos.
  destruct (len <? n') eqn:E3; [apply Z.ltb_lt in E3; unfold n' in E3; lia|].
  fs_simpl. change (Z.to_nat 0) with 0%nat. rewrite drop_0.
  assert (Ecopy : take (Z.to_nat (n' - n)) (disk (dev st) (17 + j))
                  = take (Z.to_nat (n' - n)) (drop (Z.to_nat n) B)).
  { pose proof (h_disk _ _ _ _ H j Hj Hn) as Hd.
    assert (Ech : chunk len j = Z.to_nat (n' - n)) by (unfold chunk, n', n; lia).
    rewrite Ech in Hd. exact Hd. }
  rewrite Ecopy.
  replace (len - n - (n' - n)) with (len - n') by lia.
  replace (n + (n' - n)) with n' by lia.
  eexists. split; [reflexivity|].
  assert (Est : set_sector_buf (set_dev st (dev st)) (disk (dev st) (17 + j))
                = set_sector_buf st (disk (dev st) (17 + j))) by (destruct st; reflexivity).
  rewrite Est.
  destruct H. constructor; fs_simpl; try done.
  - now rewrite length_alter.
  - change (Z.to_nat 0) with 0%nat.
    rewrite list_lookup_alter_eq, h_file0. cbn. rewrite Epos. reflexivity.
Qed.

Lemma read_loop_ok (fuel : nat) :
  forall n st,
    let k := clusters_for len in
    n = len \/ (exists j, n = 512 * j /\ 0 <= j /\ n < len) ->
    holds k len (rfile k n) st ->
    (Z.to_nat (len - n) <= fuel)%nat ->
    exists st',
      fs_read_loop fuel 0 (take (Z.to_nat n) B) (len - n) n st = (Completed, len, B, st') /\
      holds k len (rfile k len) st'.
Proof.
  induction fuel as [|fuel IH]; intros n st k Hn H Hfuel.
  - assert (n = len) by (destruct Hn as [|(j & -> & ? & ?)]; lia). subst n.
    simpl. exists st. split; [|done]. unfold len. rewrite Nat2Z.id, firstn_all. reflexivity.
  - destruct Hn as [->|(j & -> & Hj & Hlt)].
    + simpl. rewrite Z.sub_diag. cbn [Z.ltb Z.compare andb].
      exists st. split; [|done]. unfold len. rewrite Nat2Z.id, firstn_all. reflexivity.
    + cbn [fs_read_loop].
      destruct (0 <? len - 512 * j) eqn:E; [|apply Z.ltb_ge in E; lia].
      rewrite (file_at_0 _ _ (h_file _ _ _ _ H)). cbn [pos rfile of_size andb].
      destruct (512 * j <? len) eqn:E2; [|apply Z.ltb_ge in E2; lia].
      destruct (read_round_ok j st (take (Z.to_nat (512 * j)) B) H Hj Hlt) as (st' & Er & H').
      rewrite Er.
      rewrite take_take_drop.
      replace (Z.to_nat (512 * j) + Z.to_nat (Z.min (512 * j + 512) len - 512 * j))%nat
        with (Z.to_nat (Z.min (512 * j + 512) len)) by lia.
      apply IH; [ | exact H' | lia].
      destruct (Z_lt_ge_dec (512 * j + 512) len) as [Hl|Hg].
      * right. exists (j + 1). lia.
      * left. lia.
Qed.

Lemma fs_read_ok st :
  let k := clusters_for len in
  holds k len (rfile k 0) st ->
  exists st', fs_read 0 len st = (len, B, st') /\ fs_size 0 st' = len.
Proof.
  intros k H. pose proof len_bound as Hlb.
  unfold fs_read, fd_ok.
  rewrite (file_at_0 _ _ (h_file _ _ _ _ H)). cbn [in_use rfile of_flags].
  change (negb ((0 <=? 0) && (0 <? FS_MAX_OPEN) && negb (1 =? 0))) with false. cbn iota.
  change (Z.land FS_O_READ FS_O_READ =? 0) with false. cbn iota.
  destruct (read_loop_ok (Z.to_nat len) 0 st) as (st' & E & H').
  - destruct (Z.eq_dec len 0) as [E0|Hne]; [left; lia|].
    right. exists 0. unfold len in *. lia.
  - exact H.
  - lia.
  - change (Z.to_nat 0) with 0%nat in E. rewrite take_0, Z.sub_0_r in E.
    rewrite E. exists st'. split; [reflexivity|].
    unfold fs_size, fd_ok.
    rewrite (file_at_0 _ _ (h_file _ _ _ _ H')). cbn [in_use rfile of_size].
    change (negb ((0 <=? 0) && (0 <? FS_MAX_OPEN) && negb (1 =? 0))) with false. cbn iota.
    unfold to_int32. rewrite wrap32_small by (unfold len in *; lia).
    destruct (len <? 2^31) eqn:E3; [done|]. apply Z.ltb_ge in E3. lia.
Qed.


End Roundtrip.



(** The round trip for every capacity of at least 32 sectors, the
    capacity taken as the 64-bit number the block driver reports. *)
Definition roundtrip_on_every_capacity : Prop :=
  forall (st0 : fs) (nm B : list Z),
    healthy (dev st0) ->
    32 <= capacity (dev st0) ->
    valid_filename nm ->
    Z.of_nat (length B) <=
      (clusters_of_capacity (capacity (dev st0)) - 1) * FS_CLUSTER_SIZE ->
    let len := Z.of_nat (length B) in
    let '(rc0, st1) := fs_format st0 in
    let '(fd, st2) := fs_open nm (Z.lor FS_O_WRITE FS_O_CREATE) st1 in
    let '(written, st3) := fs_write fd B len st2 in
    let '(rc1, st4) := fs_close fd st3 in
    let '(fd2, st5) := fs_open nm FS_O_READ st4 in
    let '(nread, buf, st6) := fs_read fd2 len st5 in
    rc0 = 0 /\ 0 <= fd /\ written = len /\ rc1 = 0 /\ 0 <= fd2 /\
    nread = len /\ buf = B /\ fs_size fd2 st6 = len.

(** A healthy disk of 2^32 sectors (2 TiB). *)
Definition huge_dev : blkdev := mk_blkdev true (2^32) (fun _ => replicate 512 0) [].


(** ** The rest of the API: seek, directory listing, removal, statistics *)

Definition FS_SEEK_SET : Z := 0.
Definition FS_SEEK_CUR : Z := 1.
Definition FS_SEEK_END : Z := 2.

(** [fs_seek]: [new_pos] is an [int]; the sums with the unsigned [pos] and
    [size] are taken modulo [2^32] and read back as signed. *)
Definition fs_seek (fd offset whence : Z) (st : fs) : Z * fs :=
  if negb (fd_ok fd st) then (-1, st)
  else
    let f := file_at st fd in
    let target :=
      if whence =? FS_SEEK_SET then Some offset
      else if whence =? FS_SEEK_CUR then Some (to_int32 (pos f + offset))
      else if whence =? FS_SEEK_END then Some (to_int32 (of_size f + offset))
      else None in
    match target with
    | None => (-1, st)
    | Some new_pos =>
        let new_pos := if new_pos <? 0 then 0 else new_pos in
        (new_pos, update_file st fd (fun f => set_of_pos f new_pos))
    end.

Definition fs_mounted (st : fs) : Z := fs_is_mounted st.

(** The loop of [fs_readdir] over the entries from index [i] on: [count]
    entries copied so far, [out] the caller's array. *)
Fixpoint readdir_loop (entries : list fs_dirent_t) (max_entries count : Z)
    (out : list fs_dirent_t) : Z * list fs_dirent_t :=
  match entries with
  | [] => (count, out)
  | d :: entries' =>
      if count <? max_entries then
        if negb (name0 d =? 0) then readdir_loop entries' max_entries (count + 1) (out ++ [d])
        else readdir_loop entries' max_entries count out
      else (count, out)
  end.

(** [fs_readdir]: the count returned and the entries stored.  The path
    is not looked at. *)
Definition fs_readdir (path : list Z) (max_entries : Z) (st : fs) : Z * list fs_dirent_t :=
  if fs_is_mounted st =? 0 then (-1, [])
  else readdir_loop (take (Z.to_nat FS_MAX_FILES) (root_dir st)) max_entries 0 [].

(** The scan of [fs_remove] for an open descriptor of entry [idx]. *)
Fixpoint file_is_open (files : list open_file_t) (idx : Z) : bool :=
  match files with
  | [] => false
  | f :: files' =>
      if negb (in_use f =? 0) && (dirent_idx f =? idx) then true
      else file_is_open files' idx
  end.

Definition fs_remove (path : list Z) (st : fs) : Z * fs :=
  if fs_is_mounted st =? 0 then (-1, st)
  else
    let path := skip_slash path in
    if default 0 (path !! 0%nat) =? 0 then (-1, st)
    else
      let idx := find_file st path in
      if idx <? 0 then (-1, st)
      else if file_is_open (take (Z.to_nat FS_MAX_OPEN) (open_files st)) idx then (-1, st)
      else
        let st1 :=
          if negb (first_cluster (dirent_at st idx) =? FAT_EOF)
          then free_cluster_chain (first_cluster (dirent_at st idx)) st
          else st in
        let st2 := update_dirent st1 idx (fun _ => zero_dirent) in
        (0, flush_metadata st2).

Record fs_stats_t := mk_fs_stats {
  stats_total_clusters : Z;
  stats_free_clusters : Z;
  stats_cluster_size : Z;
  stats_files_count : Z
}.

Fixpoint count_files (entries : list fs_dirent_t) (files_count : Z) : Z :=
  match entries with
  | [] => files_count
  | d :: entries' =>
      count_files entries' (if negb (name0 d =? 0) then wrap32 (files_count + 1) else files_count)
  end.

(** [fs_stats]: the return value and what is stored through [stats]. *)
Definition fs_stats (st : fs) : Z * option fs_stats_t :=
  if fs_is_mounted st =? 0 then (-1, None)
  else
    (0, Some (mk_fs_stats (total_clusters (superblock st)) (free_clusters (superblock st))
                FS_CLUSTER_SIZE
                (count_files (take (Z.to_nat FS_MAX_FILES) (root_dir st)) 0))).

(** ** Descriptors *)

Lemma file_at_alter_eq st fd g :
  (Z.to_nat fd < length (open_files st))%nat ->
  file_at (update_file st fd g) fd = g (file_at st fd).
Proof.
  intros Hlt. unfold file_at, update_file. cbn [open_files set_open_files].
  rewrite list_lookup_alter_eq.
  destruct (lookup_lt_is_Some_2 _ _ Hlt) as [f Hf]. rewrite Hf. reflexivity.
Qed.

Lemma file_at_alter_ne st fd i g :
  Z.to_nat fd <> Z.to_nat i -> file_at (update_file st fd g) i = file_at st i.
Proof.
  intros Hne. unfold file_at, update_file. cbn [open_files set_open_files].
  now rewrite list_lookup_alter_ne.
Qed.

Lemma fd_ok_lookup fd st :
  fd_ok fd st = true ->
  0 <= fd < FS_MAX_OPEN /\ (Z.to_nat fd < length (open_files st))%nat /\
  in_use (file_at st fd) <> 0.
Proof.
  unfold fd_ok. intros H. apply andb_true_iff in H as [H H3].
  apply andb_true_iff in H as [H1 H2]. apply Z.leb_le in H1. apply Z.ltb_lt in H2.
  apply negb_true_iff, Z.eqb_neq in H3. split; [lia|]. split; [|exact H3].
  unfold file_at in H3. destruct (open_files st !! Z.to_nat fd) as [f|] eqn:E.
  - apply lookup_lt_Some in E. exact E.
  - cbn in H3. contradiction.
Qed.

(** A descriptor that has been closed is refused by every call, and the
    refusal changes nothing; closing leaves every other descriptor and
    the cached metadata as they were. *)
Theorem closed_descriptor_refused (fd : Z) (st : fs) (buf : list Z) (len offset whence : Z) :
  (fs_close fd st).1 = 0 ->
  let st' := (fs_close fd st).2 in
  fs_read fd len st' = (-1, [], st') /\
  fs_write fd buf len st' = (-1, st') /\
  fs_seek fd offset whence st' = (-1, st') /\
  fs_size fd st' = -1 /\
  fs_close fd st' = (-1, st') /\
  (forall i, 0 <= i -> i <> fd -> file_at st' i = file_at st i) /\
  root_dir st' = root_dir st /\ fat st' = fat st /\ superblock st' = superblock st /\
  dev st' = dev st.
Proof.
  unfold fs_close. destruct (fd_ok fd st) eqn:Eok; cbn [negb fst snd]; [|intros H; lia].
  intros _. destruct (fd_ok_lookup fd st Eok) as (Hr & Hlt & Hu).
  set (st' := update_file st fd (fun f => set_of_in_use f 0)).
  assert (Hno : fd_ok fd st' = false).
  { unfold fd_ok. unfold st'. rewrite file_at_alter_eq by exact Hlt.
    cbn [in_use set_of_in_use]. rewrite Z.eqb_refl. cbn [negb].
    now rewrite andb_false_r. }
  unfold fs_read, fs_write, fs_seek, fs_size, fs_close. rewrite Hno. cbn [negb].
  repeat (split; [reflexivity|]).
  split; [|repeat split; reflexivity].
  intros i Hi Hne. unfold st'. apply file_at_alter_ne. lia.
Qed.

Lemma closed_descriptor_refused_witness :
  let st := file_a_open in
  let st' := (fs_close 0 st).2 in
  fs_read 0 5 st' = (-1, [], st') /\ fs_write 0 [104] 1 st' = (-1, st').
Proof.
  intros st st'.
  pose proof (closed_descriptor_refused 0 st [104] 5 0 0 ltac:(vm_compute; reflexivity))
    as (H1 & _).
  pose proof (closed_descriptor_refused 0 st [104] 1 0 0 ltac:(vm_compute; reflexivity))
    as (_ & H2 & _).
  split; [exact H1|exact H2].
Defined.

(** ** Which descriptor [fs_open] hands out *)

Lemma find_free_fd_spec (files : list open_file_t) :
  forall i, 0 <= i ->
    let fd := find_free_fd files i in
    (fd = -1 /\ Forall (fun f => in_use f <> 0) files) \/
    (i <= fd < i + Z.of_nat (length files) /\
     (exists f, files !! Z.to_nat (fd - i) = Some f /\ in_use f = 0) /\
     forall j f, (j < Z.to_nat (fd - i))%nat -> files !! j = Some f -> in_use f <> 0).
Proof.
  induction files as [|f files IH]; intros i Hi fd.
  - left. split; [reflexivity|constructor].
  - subst fd. cbn [find_free_fd].
    destruct (in_use f =? 0) eqn:E.
    + apply Z.eqb_eq in E. right. cbn [length]. split; [lia|].
      rewrite Z.sub_diag. split; [exists f; split; [reflexivity|exact E]|].
      intros j g Hj. cbn in Hj. lia.
    + apply Z.eqb_neq in E.
      specialize (IH (i + 1) ltac:(lia)). cbv zeta in IH.
      destruct IH as [[H1 H2]|(H1 & (g & Hg & Hg0) & H3)].
      * left. split; [exact H1|now constructor].
      * right. cbn [length]. split; [lia|].
        replace (Z.to_nat (find_free_fd files (i + 1) - i))
          with (S (Z.to_nat (find_free_fd files (i + 1) - (i + 1)))) by lia.
        split; [exists g; split; [exact Hg|exact Hg0]|].
        intros j h Hj Hh. destruct j as [|j]; [cbn in Hh; congruence|].
        cbn in Hh. apply (H3 j h); [lia|exact Hh].
Qed.

Lemma free_cluster_chain_loop_files (fuel : nat) :
  forall start st, open_files (free_cluster_chain_loop fuel start st) = open_files st.
Proof.
  induction fuel as [|fuel IH]; intros start st; [reflexivity|].
  cbn [free_cluster_chain_loop].
  destruct (negb (start =? FAT_EOF) && negb (start =? FAT_FREE) && (start <? 2048));
    [|reflexivity].
  cbv zeta. rewrite IH. reflexivity.
Qed.

Lemma free_cluster_chain_files start st :
  open_files (free_cluster_chain start st) = open_files st.
Proof. unfold free_cluster_chain. apply free_cluster_chain_loop_files. Qed.

Lemma write_root_dir_files st : open_files (write_root_dir st).2 = open_files st.
Proof. unfold write_root_dir. destruct (blk_write _ _ _ _). reflexivity. Qed.

Lemma write_fat_files st : open_files (write_fat st).2 = open_files st.
Proof. unfold write_fat. destruct (blk_write _ _ _ _). reflexivity. Qed.

Lemma write_superblock_files st : open_files (write_superblock st).2 = open_files st.
Proof. unfold write_superblock. destruct (blk_write _ _ _ _). reflexivity. Qed.

(** Every path through [fs_open] either fails without touching the
    descriptor table or ends in [install_fd] on the first free slot. *)
Lemma fs_open_cases path flags st :
  let fd := find_free_fd (take (Z.to_nat FS_MAX_OPEN) (open_files st)) 0 in
  ((fs_open path flags st).1 = -1 /\
   open_files (fs_open path flags st).2 = open_files st) \/
  (0 <= fd /\ exists st1 idx, open_files st1 = open_files st /\
                               fs_open path flags st = install_fd fd idx flags st1).
Proof.
  intros fd. unfold fs_open. fold fd.
  destruct (fs_is_mounted st =? 0); [left; done|].
  destruct (default 0 (skip_slash path !! 0%nat) =? 0); [left; done|].
  destruct (fd <? 0) eqn:Efd; [left; done|]. apply Z.ltb_ge in Efd.
  destruct (find_file st (skip_slash path) <? 0).
  - destruct (Z.land flags FS_O_CREATE =? 0); [left; done|].
    destruct (find_free_dirent st <? 0); [left; done|].
    match goal with |- context [write_root_dir ?s] =>
      pose proof (write_root_dir_files s) as Hw; destruct (write_root_dir s) as [rc st2] end.
    cbn [snd] in Hw. cbn [update_dirent open_files set_root_dir] in Hw.
    destruct (negb (rc =? 0)).
    + left. cbn [fst snd update_dirent open_files set_root_dir]. done.
    + right. split; [exact Efd|]. exists st2, (find_free_dirent st). done.
  - destruct (negb (Z.land flags FS_O_TRUNC =? 0)).
    + destruct (negb (first_cluster (dirent_at st (find_file st (skip_slash path))) =? FAT_EOF)).
      * pose proof (free_cluster_chain_files
                      (first_cluster (dirent_at st (find_file st (skip_slash path)))) st) as HX.
        revert HX.
        generalize (free_cluster_chain
                      (first_cluster (dirent_at st (find_file st (skip_slash path)))) st).
        intros X HX.
        match goal with |- context [write_fat ?s] =>
          pose proof (write_fat_files s) as Hw1; destruct (write_fat s) as [rc1 st3] end.
        pose proof (write_root_dir_files st3) as Hw2.
        destruct (write_root_dir st3) as [rc2 st4]. cbn [snd] in Hw1, Hw2.
        cbn [update_dirent open_files set_root_dir] in Hw1.
        right. split; [exact Efd|]. exists st4, (find_file st (skip_slash path)).
        split; [rewrite Hw2, Hw1; exact HX|reflexivity].
      * right. split; [exact Efd|]. exists st, (find_file st (skip_slash path)). done.
    + right. split; [exact Efd|]. exists st, (find_file st (skip_slash path)). done.
Qed.

(** [fs_open] hands out the lowest descriptor that is not in use, marks
    it in use with the flags of the call, and leaves every other
    descriptor alone; when all [FS_MAX_OPEN] descriptors are in use it
    fails and changes nothing. *)
Theorem fs_open_lowest_free_descriptor (path : list Z) (flags : Z) (st : fs) :
  length (open_files st) = Z.to_nat FS_MAX_OPEN ->
  let fd := (fs_open path flags st).1 in
  let st' := (fs_open path flags st).2 in
  (fd = -1 \/ 0 <= fd < FS_MAX_OPEN) /\
  (fd <> -1 ->
   in_use (file_at st fd) = 0 /\
   (forall i, 0 <= i < fd -> in_use (file_at st i) <> 0) /\
   fd_ok fd st' = true /\ of_flags (file_at st' fd) = flags /\
   (forall i, 0 <= i -> i <> fd -> file_at st' i = file_at st i)) /\
  (fd = -1 -> open_files st' = open_files st) /\
  ((forall i, 0 <= i < FS_MAX_OPEN -> in_use (file_at st i) <> 0) ->
   fs_open path flags st = (-1, st)).
Proof.
  intros Hlen fd st'.
  assert (Htake : take (Z.to_nat FS_MAX_OPEN) (open_files st) = open_files st).
  { apply take_ge. lia. }
  pose proof (fs_open_cases path flags st) as Hcases. cbv zeta in Hcases.
  rewrite Htake in Hcases.
  pose proof (find_free_fd_spec (open_files st) 0 ltac:(lia)) as Hspec.
  cbv zeta in Hspec.
  set (fd0 := find_free_fd (open_files st) 0) in *.
  assert (Hfull : (forall i, 0 <= i < FS_MAX_OPEN -> in_use (file_at st i) <> 0) ->
                  fd0 = -1).
  { intros Hall. destruct Hspec as [[H _]|(Hr & (f & Hf & Hf0) & _)]; [exact H|].
    exfalso. apply (Hall fd0); [rewrite Hlen in Hr; lia|].
    unfold file_at. rewrite Z.sub_0_r in Hf. now rewrite Hf. }
  assert (Hlast : (forall i, 0 <= i < FS_MAX_OPEN -> in_use (file_at st i) <> 0) ->
                  fs_open path flags st = (-1, st)).
  { intros Hall. specialize (Hfull Hall). unfold fs_open. rewrite Htake. fold fd0.
    rewrite Hfull.
    destruct (fs_is_mounted st =? 0); [reflexivity|].
    destruct (default 0 (skip_slash path !! 0%nat) =? 0); reflexivity. }
  destruct Hcases as [[H1 H2]|(Hfd & st1 & idx & Hof & Hopen)].
  - fold fd in H1. fold st' in H2.
    split; [now left|]. split; [intros H; contradiction|]. split; [intros _; exact H2|].
    exact Hlast.
  - destruct Hspec as [[H _]|(Hr & (f & Hf & Hf0) & Hbelow)]; [lia|].
    rewrite Z.sub_0_r in Hf, Hbelow. rewrite Hlen in Hr.
    assert (Hfdv : fd = fd0) by (unfold fd; now rewrite Hopen).
    assert (Hst : st' = set_open_files st1
              (<[Z.to_nat fd0 := mk_open_file 1 idx (size (dirent_at st1 idx))
                   (if negb (Z.land flags FS_O_APPEND =? 0) then size (dirent_at st1 idx) else 0)
                   (first_cluster (dirent_at st1 idx)) flags]> (open_files st1)))
      by (unfold st'; now rewrite Hopen).
    rewrite Hfdv. split; [right; lia|]. split; [|split; [intros H; lia|exact Hlast]].
    intros _.
    split; [unfold file_at; now rewrite Hf|].
    split.
    { intros i Hi. unfold file_at.
      destruct (open_files st !! Z.to_nat i) as [g|] eqn:Eg.
      - apply (Hbelow (Z.to_nat i) g); [lia|exact Eg].
      - apply lookup_ge_None_1 in Eg. lia. }
    assert (Hat : file_at st' fd0 =
              mk_open_file 1 idx (size (dirent_at st1 idx))
                (if negb (Z.land flags FS_O_APPEND =? 0) then size (dirent_at st1 idx) else 0)
                (first_cluster (dirent_at st1 idx)) flags).
    { rewrite Hst. unfold file_at. cbn [open_files set_open_files].
      rewrite list_lookup_insert_eq by (rewrite Hof; lia). reflexivity. }
    split.
    { unfold fd_ok. rewrite Hat. cbn [in_use].
      rewrite (proj2 (Z.leb_le 0 fd0)) by lia.
      rewrite (proj2 (Z.ltb_lt fd0 FS_MAX_OPEN)) by lia. reflexivity. }
    split; [now rewrite Hat|].
    intros i Hi Hne. rewrite Hst. unfold file_at. cbn [open_files set_open_files].
    rewrite list_lookup_insert_ne by lia. now rewrite Hof.
Qed.

Lemma fs_open_lowest_free_descriptor_witness :
  let st := file_a_open in
  (fs_open [98] (Z.lor FS_O_WRITE FS_O_CREATE) st).1 = 1 /\
  in_use (file_at st 1) = 0 /\
  fd_ok 1 (fs_open [98] (Z.lor FS_O_WRITE FS_O_CREATE) st).2 = true.
Proof.
  intros st.
  assert (Hfd : (fs_open [98] (Z.lor FS_O_WRITE FS_O_CREATE) st).1 = 1)
    by (vm_compute; reflexivity).
  destruct (fs_open_lowest_free_descriptor [98] (Z.lor FS_O_WRITE FS_O_CREATE) st
              ltac:(vm_compute; reflexivity)) as (_ & H & _).
  rewrite Hfd in H. destruct (H ltac:(lia)) as (H1 & _ & H3 & _).
  split; [reflexivity|]. split; [exact H1|exact H3].
Defined.

(** ** Names of twenty characters or more *)

(** A directory entry as the code keeps it: [name] is an array of
    [FS_MAX_FILENAME] characters that holds a NUL. *)
Definition terminated (d : fs_dirent_t) : Prop :=
  length (name d) = Z.to_nat FS_MAX_FILENAME /\
  exists i, (i < Z.to_nat FS_MAX_FILENAME)%nat /\ name d !! i = Some 0.

Definition names_terminated (st : fs) : Prop := Forall terminated (root_dir st).

Lemma str_cmp_past_nul (i : nat) :
  forall a p, a !! i = Some 0 -> Forall (fun c => c <> 0) (take (S i) p) ->
              (i < length p)%nat -> str_cmp a p <> 0.
Proof.
  induction i as [|i IH]; intros a p Ha Hp Hlen.
  - destruct a as [|ca a]; [discriminate|]. injection Ha as ->.
    destruct p as [|cb p]; [cbn in Hlen; lia|].
    inversion Hp as [|? ? Hcb _]; subst. cbn. lia.
  - destruct a as [|ca a]; [discriminate|].
    destruct p as [|cb p]; [cbn in Hlen; lia|].
    cbn [take] in Hp. inversion Hp as [|? ? Hcb Hp']; subst.
    cbn [str_cmp].
    destruct (negb (ca =? 0) && negb (cb =? 0) && (ca =? cb)) eqn:E.
    + apply IH; [exact Ha|exact Hp'|cbn in Hlen; lia].
    + destruct (ca =? cb) eqn:E1; [|apply Z.eqb_neq in E1; lia].
      apply Z.eqb_eq in E1. subst cb.
      rewrite (proj2 (Z.eqb_neq ca 0) Hcb) in E. discriminate E.
Qed.

Lemma find_file_from_long entries p :
  forall i, Forall terminated entries ->
    (20 <= length p)%nat -> Forall (fun c => c <> 0) (take 20 p) ->
    find_file_from entries i p = -1.
Proof.
  induction entries as [|d entries IH]; intros i Ht Hlen Hp; [reflexivity|].
  inversion Ht as [|? ? (Hl & k & Hk & Hnul) Ht']; subst.
  cbn [find_file_from].
  assert (Hne : str_cmp (name d) p <> 0).
  { apply (str_cmp_past_nul k); [exact Hnul| |].
    - change (Z.to_nat FS_MAX_FILENAME) with 20%nat in Hk.
      replace (take (S k) p) with (take (S k) (take 20 p))
        by (rewrite take_take; f_equal; lia).
      now apply Forall_take.
    - change (Z.to_nat FS_MAX_FILENAME) with 20%nat in Hk. lia. }
  rewrite (proj2 (Z.eqb_neq _ _) Hne), andb_false_r. now apply IH.
Qed.

Lemma name_copy_length dst : forall src room, length (str_cpy dst src room) = length dst.
Proof.
  induction dst as [|d dst IH]; intros src room; [reflexivity|].
  cbn [str_cpy]. destruct room as [|room]; [reflexivity|].
  destruct src as [|c src]; [reflexivity|].
  destruct (c =? 0); [reflexivity|]. cbn [length]. now rewrite IH.
Qed.

Lemma str_cpy_nul dst :
  forall src room, (room < length dst)%nat ->
    exists i, (i <= room)%nat /\ str_cpy dst src room !! i = Some 0.
Proof.
  induction dst as [|d dst IH]; intros src room Hroom; [cbn in Hroom; lia|].
  cbn [str_cpy]. destruct room as [|room]; [exists 0%nat; split; [lia|reflexivity]|].
  destruct src as [|c src]; [exists 0%nat; split; [lia|reflexivity]|].
  destruct (c =? 0); [exists 0%nat; split; [lia|reflexivity]|].
  destruct (IH src room ltac:(cbn in Hroom; lia)) as (i & Hi & Hz).
  exists (S i). split; [lia|exact Hz].
Qed.

Lemma write_root_dir_root st : root_dir (write_root_dir st).2 = root_dir st.
Proof. unfold write_root_dir. destruct (blk_write _ _ _ _). reflexivity. Qed.

(** The name array holds nineteen characters; [fs_open] compares the
    whole path with it.  So a file whose name has twenty characters or
    more is never found: opening it without [FS_O_CREATE] fails, and
    opening it with [FS_O_CREATE] makes an entry that the same name does
    not find afterwards. *)
Theorem long_name_never_found (path : list Z) (flags : Z) (st : fs) :
  names_terminated st ->
  let p := skip_slash path in
  (20 <= length p)%nat -> Forall (fun c => c <> 0) (take 20 p) ->
  let r := fs_open path flags st in
  find_file st p = -1 /\
  (Z.land flags FS_O_CREATE = 0 -> r = (-1, st)) /\
  names_terminated r.2 /\
  find_file r.2 p = -1.
Proof.
  intros Hn p Hlen Hp r.
  assert (Hfind : forall s, names_terminated s -> find_file s p = -1).
  { intros s Hs. unfold find_file. apply find_file_from_long; [|exact Hlen|exact Hp].
    now apply Forall_take. }
  assert (Hr : (Z.land flags FS_O_CREATE = 0 -> r = (-1, st)) /\ names_terminated r.2).
  { subst r. unfold fs_open. fold p. rewrite (Hfind st Hn).
    destruct (fs_is_mounted st =? 0); [split; [reflexivity|exact Hn]|].
    destruct (default 0 (p !! 0%nat) =? 0); [split; [reflexivity|exact Hn]|].
    destruct (find_free_fd (take (Z.to_nat FS_MAX_OPEN) (open_files st)) 0 <? 0);
      [split; [reflexivity|exact Hn]|].
    change (-1 <? 0) with true. cbv iota.
    destruct (Z.land flags FS_O_CREATE =? 0) eqn:Ec; [split; [reflexivity|exact Hn]|].
    apply Z.eqb_neq in Ec. split; [intros H; contradiction|].
    destruct (find_free_dirent st <? 0); [exact Hn|].
    assert (Hnew : names_terminated
              (update_dirent st (find_free_dirent st) (fun d =>
                 mk_dirent (str_cpy (name d) p (Z.to_nat (FS_MAX_FILENAME - 1))) 0 FAT_EOF 0 0))).
    { unfold names_terminated, update_dirent. cbn [root_dir set_root_dir].
      apply Forall_alter; [exact Hn|]. intros d _ (Hl & _). split.
      - cbn [name]. now rewrite name_copy_length.
      - cbn [name].
        destruct (str_cpy_nul (name d) p (Z.to_nat (FS_MAX_FILENAME - 1))) as (i & Hi & Hz).
        + rewrite Hl. change (Z.to_nat (FS_MAX_FILENAME - 1)) with 19%nat.
          change (Z.to_nat FS_MAX_FILENAME) with 20%nat. lia.
        + exists i. split; [|exact Hz].
          change (Z.to_nat (FS_MAX_FILENAME - 1)) with 19%nat in Hi.
          change (Z.to_nat FS_MAX_FILENAME) with 20%nat. lia. }
    revert Hnew.
    generalize (update_dirent st (find_free_dirent st) (fun d =>
                 mk_dirent (str_cpy (name d) p (Z.to_nat (FS_MAX_FILENAME - 1))) 0 FAT_EOF 0 0)).
    intros s1 Hs1.
    pose proof (write_root_dir_root s1) as Hw. destruct (write_root_dir s1) as [rc s2].
    cbn [snd] in Hw.
    assert (Hs2 : names_terminated s2) by (unfold names_terminated; now rewrite Hw).
    destruct (negb (rc =? 0)).
    - cbn [snd]. unfold names_terminated, update_dirent. cbn [root_dir set_root_dir].
      apply Forall_alter; [exact Hs2|]. intros d _ (Hl & _). split.
      + cbn [name set_dirent_name]. now rewrite length_insert.
      + exists 0%nat. split; [change (Z.to_nat FS_MAX_FILENAME) with 20%nat; lia|].
        cbn [name set_dirent_name]. apply list_lookup_insert_eq. rewrite Hl.
        change (Z.to_nat FS_MAX_FILENAME) with 20%nat. lia.
    - unfold install_fd. cbn [snd]. exact Hs2. }
  destruct Hr as [Hr1 Hr2].
  split; [exact (Hfind st Hn)|]. split; [exact Hr1|]. split; [exact Hr2|].
  exact (Hfind _ Hr2).
Qed.

Definition twenty_a : list Z := replicate 20 97.

Lemma long_name_never_found_witness :
  let st := (fs_format (boot_state (sample_dev []))).2 in
  let r := fs_open twenty_a (Z.lor FS_O_WRITE FS_O_CREATE) st in
  r.1 = 0 /\ find_file r.2 twenty_a = -1.
Proof.
  intros st r.
  assert (Hroot : root_dir st = replicate 64 zero_dirent) by (vm_compute; reflexivity).
  assert (Hn : names_terminated st).
  { unfold names_terminated. rewrite Hroot. apply Forall_replicate. split; [reflexivity|].
    exists 0%nat. split; [change (Z.to_nat FS_MAX_FILENAME) with 20%nat; lia|reflexivity]. }
  assert (Hp : Forall (fun c => c <> 0) (take 20 (skip_slash twenty_a))).
  { change (take 20 (skip_slash twenty_a)) with (replicate 20 97).
    apply Forall_replicate. discriminate. }
  split; [vm_compute; reflexivity|].
  exact (proj2 (proj2 (proj2 (long_name_never_found twenty_a (Z.lor FS_O_WRITE FS_O_CREATE) st
                  Hn ltac:(cbn; lia) Hp)))).
Defined.

(** ** Listing the directory *)

(** The entries in use, in directory order. *)
Definition used_entries (st : fs) : list fs_dirent_t :=
  List.filter (fun d => negb (name0 d =? 0)) (take (Z.to_nat FS_MAX_FILES) (root_dir st)).

Lemma readdir_loop_spec (entries : list fs_dirent_t) :
  forall max_entries count out,
    count = Z.of_nat (length out) ->
    readdir_loop entries max_entries count out =
      let out' := out ++ take (Z.to_nat max_entries - length out)
                              (List.filter (fun d => negb (name0 d =? 0)) entries) in
      (Z.of_nat (length out'), out').
Proof.
  induction entries as [|d entries IH]; intros mx count out Hc; cbv zeta.
  - cbn [readdir_loop List.filter]. rewrite take_nil, app_nil_r. now subst.
  - cbn [readdir_loop List.filter]. destruct (count <? mx) eqn:E.
    + apply Z.ltb_lt in E. destruct (negb (name0 d =? 0)).
      * rewrite IH by (rewrite length_app; cbn [length]; lia). cbv zeta.
        replace (Z.to_nat mx - length (out ++ [d]))%nat
          with (Z.to_nat mx - (length out + 1))%nat by (rewrite length_app; cbn [length]; lia).
        replace (Z.to_nat mx - length out)%nat
          with (S (Z.to_nat mx - (length out + 1)))%nat by lia.
        cbn [take]. rewrite <- app_assoc. reflexivity.
      * now rewrite IH.
    + apply Z.ltb_ge in E.
      replace (Z.to_nat mx - length out)%nat with 0%nat by lia.
      rewrite take_0, app_nil_r. now subst.
Qed.

Lemma count_files_spec (entries : list fs_dirent_t) :
  forall n, 0 <= n -> n + Z.of_nat (length entries) < 2^32 ->
    count_files entries n =
    n + Z.of_nat (length (List.filter (fun d => negb (name0 d =? 0)) entries)).
Proof.
  induction entries as [|d entries IH]; intros n Hn Hb.
  - cbn [count_files List.filter length]. lia.
  - cbn [count_files List.filter]. cbn [length] in Hb. destruct (negb (name0 d =? 0)).
    + rewrite wrap32_small by lia. rewrite IH by lia. cbn [length]. lia.
    + now rewrite IH by lia.
Qed.

(** [fs_readdir] stores the entries in use, in directory order, as many
    as [max_entries] allows, and returns how many it stored; the number
    of files reported by [fs_stats] is the number of entries in use.
    Both return -1 when nothing is mounted. *)
Theorem fs_readdir_lists_used_entries (path : list Z) (max_entries : Z) (st : fs) :
  let listed := take (Z.to_nat max_entries) (used_entries st) in
  fs_readdir path max_entries st =
    (if fs_is_mounted st =? 0 then (-1, []) else (Z.of_nat (length listed), listed)) /\
  fs_stats st =
    (if fs_is_mounted st =? 0 then (-1, None)
     else (0, Some (mk_fs_stats (total_clusters (superblock st))
                      (free_clusters (superblock st)) FS_CLUSTER_SIZE
                      (Z.of_nat (length (used_entries st)))))) /\
  Forall (fun d => name0 d <> 0) listed /\
  (Z.of_nat (length (used_entries st)) <= max_entries -> listed = used_entries st).
Proof.
  intros listed. unfold fs_readdir, fs_stats.
  split; [|split; [|split]].
  - destruct (fs_is_mounted st =? 0); [reflexivity|].
    rewrite readdir_loop_spec by reflexivity. cbv zeta. cbn [app length].
    now rewrite Nat.sub_0_r.
  - destruct (fs_is_mounted st =? 0); [reflexivity|].
    rewrite count_files_spec; [reflexivity|lia|].
    rewrite length_take. change (Z.to_nat FS_MAX_FILES) with 64%nat. lia.
  - apply Forall_take. unfold used_entries. apply List.Forall_forall. intros d Hd.
    apply filter_In in Hd as [_ Hd].
    apply negb_true_iff, Z.eqb_neq in Hd. exact Hd.
  - intros Hm. apply take_ge. lia.
Qed.

(** ** Removing a file *)

Definition matches (nm : list Z) (d : fs_dirent_t) : bool :=
  negb (name0 d =? 0) && (str_cmp (name d) nm =? 0).

Lemma find_file_from_range entries nm :
  forall i, find_file_from entries i nm = -1 \/
            i <= find_file_from entries i nm < i + Z.of_nat (length entries).
Proof.
  induction entries as [|d entries IH]; intros i; [now left|].
  cbn [find_file_from length].
  destruct (negb (name0 d =? 0) && (str_cmp (name d) nm =? 0)); [right; lia|].
  destruct (IH (i + 1)) as [H|H]; [now left|right; lia].
Qed.

Lemma find_file_from_hit entries nm :
  forall i k, 0 <= i -> find_file_from entries i nm = i + Z.of_nat k ->
    exists d, entries !! k = Some d /\ matches nm d = true.
Proof.
  induction entries as [|d entries IH]; intros i k Hi Hf; [cbn in Hf; lia|].
  cbn [find_file_from] in Hf.
  destruct (negb (name0 d =? 0) && (str_cmp (name d) nm =? 0)) eqn:E.
  - assert (k = 0%nat) by lia. subst k. exists d. split; [reflexivity|exact E].
  - destruct k as [|k].
    + destruct (find_file_from_range entries nm (i + 1)) as [H|H]; lia.
    + apply (IH (i + 1) k); lia.
Qed.

Lemma find_file_from_cleared entries nm :
  forall i k, 0 <= i -> find_file_from entries i nm = i + Z.of_nat k ->
    find_file_from (alter (fun _ => zero_dirent) k entries) i nm = -1 \/
    i + Z.of_nat k < find_file_from (alter (fun _ => zero_dirent) k entries) i nm.
Proof.
  induction entries as [|d entries IH]; intros i k Hi Hf; [cbn in Hf; lia|].
  cbn [find_file_from] in Hf.
  destruct (negb (name0 d =? 0) && (str_cmp (name d) nm =? 0)) eqn:E.
  - assert (k = 0%nat) by lia. subst k. cbn [alter list_alter find_file_from].
    change (negb (name0 zero_dirent =? 0)) with false. cbn [andb].
    destruct (find_file_from_range entries nm (i + 1)) as [H|H]; [now left|right; lia].
  - destruct k as [|k].
    + destruct (find_file_from_range entries nm (i + 1)) as [H|H]; lia.
    + cbn [alter list_alter find_file_from]. rewrite E.
      destruct (IH (i + 1) k ltac:(lia) ltac:(lia)) as [H|H]; [now left|right; lia].
Qed.

Lemma file_is_open_false files idx :
  file_is_open files idx = false ->
  forall k f, files !! k = Some f -> in_use f <> 0 -> dirent_idx f <> idx.
Proof.
  induction files as [|g files IH]; intros H k f Hk Hu; [discriminate|].
  cbn [file_is_open] in H.
  destruct (negb (in_use g =? 0) && (dirent_idx g =? idx)) eqn:E; [discriminate|].
  destruct k as [|k].
  - injection Hk as ->. apply Z.eqb_neq in Hu. rewrite Hu in E. cbn in E.
    now apply Z.eqb_neq.
  - exact (IH H k f Hk Hu).
Qed.

Lemma file_is_open_true files idx k f :
  files !! k = Some f -> in_use f <> 0 -> dirent_idx f = idx ->
  file_is_open files idx = true.
Proof.
  revert k. induction files as [|g files IH]; intros k Hk Hu Hi; [discriminate|].
  cbn [file_is_open].
  destruct (negb (in_use g =? 0) && (dirent_idx g =? idx)) eqn:E; [reflexivity|].
  destruct k as [|k].
  - injection Hk as ->. apply Z.eqb_neq in Hu. rewrite Hu in E.
    apply Z.eqb_eq in Hi. rewrite Hi in E. discriminate E.
  - exact (IH k Hk Hu Hi).
Qed.

Lemma free_cluster_chain_loop_root (fuel : nat) :
  forall start st, root_dir (free_cluster_chain_loop fuel start st) = root_dir st.
Proof.
  induction fuel as [|fuel IH]; intros start st; [reflexivity|].
  cbn [free_cluster_chain_loop].
  destruct (negb (start =? FAT_EOF) && negb (start =? FAT_FREE) && (start <? 2048));
    [|reflexivity].
  cbv zeta. rewrite IH. reflexivity.
Qed.

Lemma free_cluster_chain_root start st :
  root_dir (free_cluster_chain start st) = root_dir st.
Proof. unfold free_cluster_chain. apply free_cluster_chain_loop_root. Qed.

Lemma flush_metadata_caches st :
  root_dir (flush_metadata st) = root_dir st /\
  open_files (flush_metadata st) = open_files st /\
  fat (flush_metadata st) = fat st /\
  superblock (flush_metadata st) = superblock st /\
  fs_is_mounted (flush_metadata st) = fs_is_mounted st.
Proof.
  unfold flush_metadata, write_fat, write_root_dir, write_superblock.
  destruct (blk_write FAT_START_SECTOR _ _ _) as [rc1 d1]. cbn [dev set_dev root_dir].
  destruct (blk_write ROOT_START_SECTOR _ _ _) as [rc2 d2]. cbn [dev set_dev superblock].
  destruct (blk_write SUPERBLOCK_SECTOR _ _ _) as [rc3 d3]. done.
Qed.

(** Removing a file.  [fs_remove] either returns 0 or returns -1 and
    changes nothing; it refuses a file that some descriptor has open.
    When it returns 0, the directory entry that the name found is
    cleared, every other entry and every descriptor is as before, no
    open descriptor referred to the entry, and the name no longer finds
    that entry. *)
Theorem fs_remove_clears_entry (path : list Z) (st : fs) :
  let p := skip_slash path in
  let idx := find_file st p in
  let rc := (fs_remove path st).1 in
  let st' := (fs_remove path st).2 in
  (rc = 0 \/ fs_remove path st = (-1, st)) /\
  (forall fd, fd_ok fd st = true -> dirent_idx (file_at st fd) = idx ->
              fs_remove path st = (-1, st)) /\
  (rc = 0 ->
   0 <= idx < FS_MAX_FILES /\
   dirent_at st' idx = zero_dirent /\
   (forall i, 0 <= i -> i <> idx -> dirent_at st' i = dirent_at st i) /\
   open_files st' = open_files st /\
   (find_file st' p = -1 \/ idx < find_file st' p)).
Proof.
  intros p idx rc st'.
  assert (Hopen : forall fd, fd_ok fd st = true -> dirent_idx (file_at st fd) = idx ->
            file_is_open (take (Z.to_nat FS_MAX_OPEN) (open_files st)) idx = true).
  { intros fd Hok Hidx. destruct (fd_ok_lookup fd st Hok) as (Hr & Hlt & Hu).
    unfold file_at in *. destruct (open_files st !! Z.to_nat fd) as [f|] eqn:Ef;
      [|cbn in Hu; contradiction].
    cbn [default] in *.
    apply (file_is_open_true _ idx (Z.to_nat fd) f); [|exact Hu|exact Hidx].
    rewrite lookup_take_lt by lia. exact Ef. }
  subst rc st'. unfold fs_remove. fold p. fold idx.
  destruct (fs_is_mounted st =? 0);
    [split; [now right|split; [reflexivity|cbn; intros H; lia]]|].
  destruct (default 0 (p !! 0%nat) =? 0);
    [split; [now right|split; [reflexivity|cbn; intros H; lia]]|].
  destruct (idx <? 0) eqn:Eidx;
    [split; [now right|split; [reflexivity|cbn; intros H; lia]]|].
  apply Z.ltb_ge in Eidx.
  destruct (file_is_open (take (Z.to_nat FS_MAX_OPEN) (open_files st)) idx) eqn:Eo;
    [split; [now right|split; [reflexivity|cbn; intros H; lia]]|].
  split; [now left|].
  split; [intros fd Hok Hidx; discriminate (Hopen fd Hok Hidx)|].
  intros _. cbn [snd].
  assert (Hst1 : exists st1, root_dir st1 = root_dir st /\ open_files st1 = open_files st /\
            (if negb (first_cluster (dirent_at st idx) =? FAT_EOF)
             then free_cluster_chain (first_cluster (dirent_at st idx)) st else st) = st1).
  { eexists. split; [|split; [|reflexivity]].
    - destruct (negb _); [apply free_cluster_chain_root|reflexivity].
    - destruct (negb _); [apply free_cluster_chain_files|reflexivity]. }
  destruct Hst1 as (st1 & Hroot & Hfiles & ->).
  destruct (flush_metadata_caches (update_dirent st1 idx (fun _ => zero_dirent)))
    as (Fr & Ff & _).
  cbn [update_dirent root_dir open_files set_root_dir] in Fr, Ff.
  assert (Hrange : 0 <= idx < Z.of_nat (length (take (Z.to_nat FS_MAX_FILES) (root_dir st)))).
  { unfold idx, find_file in *.
    destruct (find_file_from_range (take (Z.to_nat FS_MAX_FILES) (root_dir st)) p 0); lia. }
  rewrite length_take in Hrange. change (Z.to_nat FS_MAX_FILES) with 64%nat in Hrange.
  split; [unfold FS_MAX_FILES; lia|].
  split.
  { unfold dirent_at. rewrite Fr, Hroot, list_lookup_alter_eq.
    destruct (lookup_lt_is_Some_2 (root_dir st) (Z.to_nat idx) ltac:(lia)) as [d Hd].
    now rewrite Hd. }
  split.
  { intros i Hi Hne. unfold dirent_at. rewrite Fr, Hroot.
    rewrite list_lookup_alter_ne by lia. reflexivity. }
  split; [now rewrite Ff|].
  unfold find_file. rewrite Fr, Hroot.
  rewrite take_alter_lt by (change (Z.to_nat FS_MAX_FILES) with 64%nat; lia).
  pose proof (find_file_from_cleared (take (Z.to_nat FS_MAX_FILES) (root_dir st)) p 0
                (Z.to_nat idx) ltac:(lia)) as Hc.
  rewrite Z2Nat.id in Hc by lia. apply Hc. reflexivity.
Qed.

(** ** The clusters of a removed file *)

(** The test of the loop of [free_cluster_chain]. *)
Definition in_chain (c : Z) : bool :=
  negb (c =? FAT_EOF) && negb (c =? FAT_FREE) && (c <? 2048).

(** [cs] is the cluster chain that starts at [c]: each cluster is linked
    to the next by the FAT, and the chain ends at the first value that is
    no cluster number. *)
Fixpoint is_chain (st : fs) (c : Z) (cs : list Z) : Prop :=
  match cs with
  | [] => in_chain c = false
  | x :: cs' => x = c /\ 0 <= c /\ in_chain c = true /\ is_chain st (fat_at st c) cs'
  end.

Lemma is_chain_ext st st2 cs :
  forall c, (forall j, j ∈ cs -> fat_at st2 j = fat_at st j) ->
            is_chain st c cs -> is_chain st2 c cs.
Proof.
  induction cs as [|x cs IH]; intros c Hext Hc; [exact Hc|].
  destruct Hc as (-> & H0 & Hin & Hc). cbn [is_chain].
  split; [reflexivity|]. split; [exact H0|]. split; [exact Hin|].
  rewrite (Hext c ltac:(left)). apply IH; [|exact Hc].
  intros j Hj. apply Hext. now right.
Qed.

Lemma is_chain_members st cs :
  forall c j, is_chain st c cs -> j ∈ cs -> 1 <= j < 2048.
Proof.
  induction cs as [|x cs IH]; intros c j Hc Hj; [inversion Hj|].
  destruct Hc as (-> & H0 & Hin & Hc).
  apply elem_of_cons in Hj as [->|Hj]; [|exact (IH _ _ Hc Hj)].
  unfold in_chain, FAT_FREE in Hin. apply andb_true_iff in Hin as [Hin H2].
  apply andb_true_iff in Hin as [_ H1]. apply Z.ltb_lt in H2.
  apply negb_true_iff, Z.eqb_neq in H1. lia.
Qed.

Lemma chain_length_bound st c cs : is_chain st c cs -> NoDup cs -> (length cs < 2049)%nat.
Proof.
  intros Hc Hnd.
  assert (Hsub : cs ⊆+ seqZ 1 2047).
  { apply NoDup_submseteq; [exact Hnd|]. intros j Hj. apply elem_of_seqZ.
    pose proof (is_chain_members st cs c j Hc Hj). lia. }
  apply submseteq_length in Hsub. rewrite length_seqZ in Hsub. lia.
Qed.

Lemma free_cluster_chain_loop_spec (cs : list Z) :
  forall fuel c st,
    (length cs < fuel)%nat -> is_chain st c cs -> NoDup cs ->
    length (fat st) = 2048%nat ->
    let st' := free_cluster_chain_loop fuel c st in
    (forall j, j ∈ cs -> fat_at st' j = FAT_FREE) /\
    (forall j, 0 <= j -> j ∉ cs -> fat_at st' j = fat_at st j) /\
    length (fat st') = 2048%nat /\
    free_clusters (superblock st') =
      wrap32 (free_clusters (superblock st) + Z.of_nat (length cs)) \/
    cs = [] /\ st' = st.
Proof.
  induction cs as [|x cs IH]; intros fuel c st Hfuel Hc Hnd Hlen st'.
  - right. split; [reflexivity|]. subst st'. destruct fuel as [|fuel]; [reflexivity|].
    cbn [free_cluster_chain_loop]. cbn [is_chain] in Hc. unfold in_chain in Hc.
    now rewrite Hc.
  - left. destruct Hc as (-> & H0 & Hin & Hc).
    destruct fuel as [|fuel]; [cbn in Hfuel; lia|].
    subst st'. cbn [free_cluster_chain_loop]. unfold in_chain in Hin. rewrite Hin. cbv zeta.
    pose proof (is_chain_members st (c :: cs) c c
                  ltac:(cbn [is_chain]; unfold in_chain; done) ltac:(left)) as Hcr.
    apply NoDup_cons in Hnd as [Hnotin Hnd].
    set (st2 := set_superblock (set_fat st (<[Z.to_nat c := FAT_FREE]> (fat st)))
                  (set_free_clusters
                     (superblock (set_fat st (<[Z.to_nat c := FAT_FREE]> (fat st))))
                     (wrap32 (free_clusters
                                (superblock (set_fat st (<[Z.to_nat c := FAT_FREE]> (fat st))))
                              + 1)))).
    assert (Hat : forall j, 0 <= j -> fat_at st2 j = if j =? c then FAT_FREE else fat_at st j).
    { intros j Hj. unfold fat_at, st2. cbn [fat set_superblock set_fat].
      destruct (j =? c) eqn:E.
      - apply Z.eqb_eq in E. subst j. rewrite list_lookup_insert_eq by lia. reflexivity.
      - apply Z.eqb_neq in E. rewrite list_lookup_insert_ne by lia. reflexivity. }
    assert (Hc2 : is_chain st2 (fat_at st c) cs).
    { apply (is_chain_ext st); [|exact Hc]. intros j Hj.
      pose proof (is_chain_members st cs _ j Hc Hj).
      rewrite Hat by lia. destruct (j =? c) eqn:E; [|reflexivity].
      apply Z.eqb_eq in E. subst j. contradiction. }
    assert (Hlen2 : length (fat st2) = 2048%nat).
    { unfold st2. cbn [fat set_superblock set_fat]. now rewrite length_insert. }
    assert (Hfree2 : free_clusters (superblock st2) = wrap32 (free_clusters (superblock st) + 1))
      by reflexivity.
    clearbody st2.
    destruct (IH fuel (fat_at st c) st2 ltac:(cbn in Hfuel; lia) Hc2 Hnd Hlen2)
      as [(I1 & I2 & I3 & I4)|[-> I5]].
    + split; [|split; [|split]].
      * intros j Hj. apply elem_of_cons in Hj as [->|Hj]; [|now apply I1].
        rewrite I2 by (lia || exact Hnotin). rewrite Hat by lia. now rewrite Z.eqb_refl.
      * intros j Hj Hnot. apply not_elem_of_cons in Hnot as [Hne Hnot].
        rewrite I2 by assumption. rewrite Hat by lia.
        now rewrite (proj2 (Z.eqb_neq j c) Hne).
      * exact I3.
      * rewrite I4, Hfree2. cbn [length]. unfold wrap32.
        rewrite Zplus_mod_idemp_l. f_equal. lia.
    + cbv zeta in I5. rewrite I5.
      split; [|split; [|split]].
      * intros j Hj. apply list_elem_of_singleton in Hj as ->.
        rewrite Hat by lia. now rewrite Z.eqb_refl.
      * intros j Hj Hnot. apply not_elem_of_cons in Hnot as [Hne _].
        rewrite Hat by lia. now rewrite (proj2 (Z.eqb_neq j c) Hne).
      * exact Hlen2.
      * rewrite Hfree2. reflexivity.
Qed.

Lemma free_cluster_chain_spec (cs : list Z) (c : Z) (st : fs) :
  is_chain st c cs -> NoDup cs -> length (fat st) = 2048%nat ->
  (forall j, j ∈ cs -> fat_at (free_cluster_chain c st) j = FAT_FREE) /\
  (forall j, 0 <= j -> j ∉ cs -> fat_at (free_cluster_chain c st) j = fat_at st j) /\
  length (fat (free_cluster_chain c st)) = 2048%nat /\
  free_clusters (superblock (free_cluster_chain c st)) =
    wrap32 (free_clusters (superblock st) + Z.of_nat (length cs)) \/
  cs = [] /\ free_cluster_chain c st = st.
Proof.
  intros Hc Hnd Hlen. unfold free_cluster_chain.
  apply free_cluster_chain_loop_spec; [|exact Hc|exact Hnd|exact Hlen].
  exact (chain_length_bound st c cs Hc Hnd).
Qed.

(** [fs_remove] gives the clusters of the file back.  When the FAT links
    the clusters [cs] from the first cluster of the entry to the end of
    the chain, without repetition, a successful [fs_remove] marks every
    cluster of [cs] free, changes no other FAT cell and adds their number
    to the free-cluster count. *)
Theorem fs_remove_frees_chain (path : list Z) (st : fs) (cs : list Z) :
  let idx := find_file st (skip_slash path) in
  let st' := (fs_remove path st).2 in
  (fs_remove path st).1 = 0 ->
  length (fat st) = 2048%nat ->
  is_chain st (first_cluster (dirent_at st idx)) cs -> NoDup cs ->
  (forall j, j ∈ cs -> fat_at st' j = FAT_FREE) /\
  (forall j, 0 <= j -> j ∉ cs -> fat_at st' j = fat_at st j) /\
  free_clusters (superblock st') =
    wrap32 (free_clusters (superblock st) + Z.of_nat (length cs)) \/
  cs = [] /\ fat st' = fat st /\ superblock st' = superblock st.
Proof.
  intros idx st'. subst st'. unfold fs_remove. fold idx.
  destruct (fs_is_mounted st =? 0); [cbn; intros H; lia|].
  destruct (default 0 (skip_slash path !! 0%nat) =? 0); [cbn; intros H; lia|].
  destruct (idx <? 0); [cbn; intros H; lia|].
  destruct (file_is_open (take (Z.to_nat FS_MAX_OPEN) (open_files st)) idx);
    [cbn; intros H; lia|].
  intros _ Hlen Hc Hnd. cbn [snd].
  pose proof (free_cluster_chain_spec cs _ st Hc Hnd Hlen) as Hspec.
  assert (Hguard : first_cluster (dirent_at st idx) = FAT_EOF -> cs = []).
  { intros He. destruct cs as [|x cs']; [reflexivity|].
    destruct Hc as (_ & _ & Hin & _). rewrite He in Hin. discriminate Hin. }
  revert Hspec.
  generalize (free_cluster_chain (first_cluster (dirent_at st idx)) st). intros st1 Hspec.
  assert (Hst1 : exists st2,
            (if negb (first_cluster (dirent_at st idx) =? FAT_EOF) then st1 else st) = st2 /\
            ((forall j, j ∈ cs -> fat_at st2 j = FAT_FREE) /\
             (forall j, 0 <= j -> j ∉ cs -> fat_at st2 j = fat_at st j) /\
             free_clusters (superblock st2) =
               wrap32 (free_clusters (superblock st) + Z.of_nat (length cs)) \/
             cs = [] /\ fat st2 = fat st /\ superblock st2 = superblock st)).
  { eexists. split; [reflexivity|].
    destruct (first_cluster (dirent_at st idx) =? FAT_EOF) eqn:E; cbn [negb].
    - apply Z.eqb_eq in E. right. split; [exact (Hguard E)|done].
    - destruct Hspec as [(I1 & I2 & _ & I4)|[-> ->]]; [left; done|right; done]. }
  destruct Hst1 as (st2 & -> & Hst2).
  destruct (flush_metadata_caches (update_dirent st2 idx (fun _ => zero_dirent)))
    as (_ & _ & Ffat & Fsb & _).
  cbn [update_dirent fat superblock set_root_dir] in Ffat, Fsb.
  unfold fat_at. rewrite Ffat, Fsb. exact Hst2.
Qed.

(** File "a" of the sample disk after "hello" has been written to it and
    the descriptor closed. *)
Definition file_a_written : fs :=
  (fs_close 0 (fs_write 0 [104; 101; 108; 108; 111] 5 file_a_open).2).2.

Lemma fs_remove_frees_chain_witness :
  (fs_remove [97] file_a_written).1 = 0 /\
  fat_at file_a_written 1 = FAT_EOF /\
  fat_at (fs_remove [97] file_a_written).2 1 = FAT_FREE.
Proof.
  assert (H0 : (fs_remove [97] file_a_written).1 = 0) by (vm_compute; reflexivity).
  assert (Hc : is_chain file_a_written
                 (first_cluster (dirent_at file_a_written
                                   (find_file file_a_written (skip_slash [97])))) [1]).
  { cbn [is_chain]. split; [vm_compute; reflexivity|]. split; [vm_compute; discriminate|].
    split; vm_compute; reflexivity. }
  split; [exact H0|]. split; [vm_compute; reflexivity|].
  destruct (fs_remove_frees_chain [97] file_a_written [1] H0 ltac:(vm_compute; reflexivity) Hc
              ltac:(apply NoDup_singleton)) as [(H & _)|[H _]]; [|discriminate H].
  apply H. left.
Defined.

(** ** Mounting: [fs_init] *)

(** Reading the structures back from the bytes of the disk
    (little-endian, no padding in either structure). *)
Definition byte_at (data : list Z) (i : nat) : Z := default 0 (data !! i).

Definition u16_at (data : list Z) (i : nat) : Z :=
  byte_at data i + 256 * byte_at data (i + 1).

Definition u32_at (data : list Z) (i : nat) : Z :=
  byte_at data i + 256 * byte_at data (i + 1) + 65536 * byte_at data (i + 2)
  + 16777216 * byte_at data (i + 3).

Definition superblock_of_bytes (data : list Z) : fs_superblock_t :=
  mk_superblock (u32_at data 0) (u32_at data 4) (u32_at data 8) (u32_at data 12)
    (u32_at data 16) (u32_at data 20) (u32_at data 24) (u32_at data 28)
    (u32_at data 32) (u32_at data 36) (take 472 (drop 40 data)).

Definition fat_of_bytes (data : list Z) : list Z :=
  map (fun i => u16_at data (2 * i)) (seq 0 2048).

Definition dirent_of_bytes (data : list Z) (i : nat) : fs_dirent_t :=
  mk_dirent (take 20 (drop i data)) (u32_at data (i + 20)) (u16_at data (i + 24))
            (u16_at data (i + 26)) (u32_at data (i + 28)).

Definition root_dir_of_bytes (data : list Z) : list fs_dirent_t :=
  map (fun i => dirent_of_bytes data (32 * i)) (seq 0 64).

(** [fs_init].  Each of the three reads is a single request to the
    driver, which copies to the destination only when the request has
    succeeded: a failed read leaves the cached structure as it was. *)
Definition fs_init (st : fs) : Z * fs :=
  if negb (blk_available (dev st)) then (-1, st)
  else
    let st := set_open_files st (replicate (Z.to_nat FS_MAX_OPEN) zero_open_file) in
    let '(rc, data, d) := blk_read SUPERBLOCK_SECTOR 1 (dev st) in
    if negb (rc =? 0) then (-1, set_dev st d)
    else
      let st := set_superblock (set_dev st d) (superblock_of_bytes data) in
      if negb (magic (superblock st) =? FS_MAGIC) then (0, set_mounted st 0)
      else
        let '(rc, data, d) := blk_read FAT_START_SECTOR FAT_SECTORS (dev st) in
        if negb (rc =? 0) then (-1, set_dev st d)
        else
          let st := set_fat (set_dev st d) (fat_of_bytes data) in
          let '(rc, data, d) := blk_read ROOT_START_SECTOR ROOT_SECTORS (dev st) in
          if negb (rc =? 0) then (-1, set_dev st d)
          else (0, set_mounted (set_root_dir (set_dev st d) (root_dir_of_bytes data)) 1).

(** *** Encoding and decoding *)

Definition u16 (v : Z) : Prop := 0 <= v < 65536.
Definition u32 (v : Z) : Prop := 0 <= v < 4294967296.

Definition wf_superblock (sb : fs_superblock_t) : Prop :=
  u32 (magic sb) /\ u32 (version sb) /\ u32 (total_sectors sb) /\ u32 (total_clusters sb) /\
  u32 (free_clusters sb) /\ u32 (fat_start sb) /\ u32 (fat_sectors sb) /\
  u32 (root_start sb) /\ u32 (root_sectors sb) /\ u32 (data_start sb) /\
  length (sb_reserved sb) = 472%nat.

Definition wf_dirent (d : fs_dirent_t) : Prop :=
  length (name d) = 20%nat /\ u32 (size d) /\ u16 (first_cluster d) /\ u16 (flags d) /\
  u32 (reserved d).

(** The cached metadata has the shape of the C arrays and values of the
    width of their fields. *)
Definition wf_caches (st : fs) : Prop :=
  wf_superblock (superblock st) /\
  length (fat st) = 2048%nat /\ Forall u16 (fat st) /\
  length (root_dir st) = 64%nat /\ Forall wf_dirent (root_dir st).

Lemma le16_value v : u16 v -> v mod 256 + 256 * ((v / 256) mod 256) = v.
Proof.
  unfold u16. intros H. rewrite (Z.mod_small (v / 256)).
  - pose proof (Z.div_mod v 256 ltac:(lia)). lia.
  - split; [apply Z.div_pos; lia|apply Z.div_lt_upper_bound; lia].
Qed.

Lemma le32_value v :
  u32 v ->
  v mod 256 + 256 * ((v / 256) mod 256) + 65536 * ((v / 65536) mod 256)
  + 16777216 * ((v / 16777216) mod 256) = v.
Proof.
  unfold u32. intros H.
  assert (H1 : v / 65536 = v / 256 / 256) by (rewrite Z.div_div by lia; reflexivity).
  assert (H2 : v / 16777216 = v / 256 / 256 / 256) by (rewrite !Z.div_div by lia; reflexivity).
  rewrite H1, H2.
  pose proof (Z.div_mod v 256 ltac:(lia)) as D0.
  pose proof (Z.div_mod (v / 256) 256 ltac:(lia)) as D1.
  pose proof (Z.div_mod (v / 256 / 256) 256 ltac:(lia)) as D2.
  assert (B3 : 0 <= v / 256 / 256 / 256 < 256).
  { split; [repeat apply Z.div_pos; lia|].
    repeat apply Z.div_lt_upper_bound; lia. }
  rewrite (Z.mod_small (v / 256 / 256 / 256)) by exact B3. lia.
Qed.

Lemma byte_at_app_l a b i : (i < length a)%nat -> byte_at (a ++ b) i = byte_at a i.
Proof. intros H. unfold byte_at. now rewrite lookup_app_l. Qed.

Lemma byte_at_app_r a b i : byte_at (a ++ b) (length a + i) = byte_at b i.
Proof.
  unfold byte_at. rewrite lookup_app_r by lia. do 2 f_equal. lia.
Qed.

Lemma byte_at_drop data i k : byte_at (drop i data) k = byte_at data (i + k).
Proof. unfold byte_at. now rewrite lookup_drop. Qed.

Lemma superblock_roundtrip sb :
  wf_superblock sb -> superblock_of_bytes (superblock_bytes sb) = sb.
Proof.
  intros (H0 & H1 & H2 & H3 & H4 & H5 & H6 & H7 & H8 & H9 & Hr).
  destruct sb as [m v ts tc fc fs0 fsec rs rsec ds res]. cbn in *.
  unfold superblock_of_bytes, superblock_bytes, le32, u32_at, byte_at.
  cbn [magic version total_sectors total_clusters free_clusters fat_start fat_sectors
       root_start root_sectors data_start sb_reserved app lookup list_lookup default drop
       Nat.add].
  unfold id. rewrite !le32_value by assumption.
  rewrite drop_0, take_ge by lia. reflexivity.
Qed.

Lemma fat_bytes_at (f : list Z) :
  forall i v, f !! i = Some v ->
    byte_at (fat_bytes f) (2 * i) = v mod 256 /\
    byte_at (fat_bytes f) (2 * i + 1) = (v / 256) mod 256.
Proof.
  induction f as [|x f IH]; intros i v Hi; [discriminate|].
  unfold fat_bytes. cbn [map concat]. fold (fat_bytes f).
  destruct i as [|i].
  - injection Hi as ->. split; reflexivity.
  - cbn in Hi. destruct (IH i v Hi) as [I1 I2].
    replace (2 * S i)%nat with (S (S (2 * i))) by lia.
    split; [exact I1|exact I2].
Qed.

Lemma fat_bytes_length f : length (fat_bytes f) = (2 * length f)%nat.
Proof.
  induction f as [|x f IH]; [reflexivity|].
  unfold fat_bytes in *. cbn [map concat]. rewrite length_app, IH.
  unfold le16. cbn [length]. lia.
Qed.

Lemma fat_roundtrip f :
  length f = 2048%nat -> Forall u16 f -> fat_of_bytes (fat_bytes f) = f.
Proof.
  intros Hlen Hf. apply list_eq. intros i. unfold fat_of_bytes.
  rewrite list_lookup_fmap.
  destruct (decide (i < 2048)%nat) as [Hi|Hi].
  - rewrite lookup_seq_lt by exact Hi. cbn [fmap option_fmap option_map Nat.add].
    destruct (lookup_lt_is_Some_2 f i ltac:(lia)) as [v Hv]. rewrite Hv.
    destruct (fat_bytes_at f i v Hv) as [B1 B2]. unfold u16_at. rewrite B1, B2.
    f_equal. apply le16_value. exact (Forall_lookup_1 _ _ _ _ Hf Hv).
  - rewrite lookup_seq_ge by lia. cbn. symmetry. apply lookup_ge_None_2. lia.
Qed.

Lemma dirent_bytes_length d : length (name d) = 20%nat -> length (dirent_bytes d) = 32%nat.
Proof. intros H. unfold dirent_bytes, le32, le16. rewrite !length_app, H. reflexivity. Qed.

Lemma dirent_roundtrip d rest :
  wf_dirent d -> dirent_of_bytes (dirent_bytes d ++ rest) 0 = d.
Proof.
  intros (Hn & Hs & Hc & Hf & Hr). destruct d as [nm sz fc fl rs].
  cbn [name size first_cluster flags reserved] in *.
  do 20 (destruct nm as [|? nm]; [discriminate Hn|]).
  destruct nm; [|discriminate Hn].
  unfold dirent_of_bytes, dirent_bytes, u32_at, u16_at, byte_at, le32, le16.
  cbn [name size first_cluster flags reserved drop take Nat.add app lookup list_lookup
       default].
  unfold id. rewrite !le32_value by assumption. rewrite !le16_value by assumption.
  reflexivity.
Qed.

Lemma dirent_of_bytes_drop data i :
  dirent_of_bytes data i = dirent_of_bytes (drop i data) 0.
Proof.
  unfold dirent_of_bytes, u32_at, u16_at. cbn [Nat.add].
  rewrite !byte_at_drop, drop_0, <- !Nat.add_assoc. cbn [Nat.add]. reflexivity.
Qed.

Lemma root_dir_bytes_drop (r : list fs_dirent_t) :
  forall i, Forall wf_dirent r ->
    drop (32 * i) (root_dir_bytes r) = root_dir_bytes (drop i r).
Proof.
  induction r as [|d r IH]; intros i Hr.
  - unfold root_dir_bytes. cbn. now rewrite !drop_nil.
  - inversion Hr as [|? ? Hd Hr']; subst. destruct i as [|i]; [reflexivity|].
    unfold root_dir_bytes in *. cbn [map concat drop].
    replace (32 * S i)%nat with (length (dirent_bytes d) + 32 * i)%nat
      by (rewrite dirent_bytes_length by apply Hd; lia).
    rewrite drop_app_add. now apply IH.
Qed.

Lemma root_dir_bytes_length r :
  Forall wf_dirent r -> length (root_dir_bytes r) = (32 * length r)%nat.
Proof.
  induction r as [|d r IH]; intros Hr; [reflexivity|].
  inversion Hr as [|? ? Hd Hr']; subst.
  unfold root_dir_bytes in *. cbn [map concat length]. rewrite length_app.
  rewrite dirent_bytes_length by apply Hd. rewrite IH by exact Hr'. lia.
Qed.

Lemma root_dir_roundtrip r :
  length r = 64%nat -> Forall wf_dirent r -> root_dir_of_bytes (root_dir_bytes r) = r.
Proof.
  intros Hlen Hr. apply list_eq. intros i. unfold root_dir_of_bytes.
  rewrite list_lookup_fmap.
  destruct (decide (i < 64)%nat) as [Hi|Hi].
  - rewrite lookup_seq_lt by exact Hi. cbn [fmap option_fmap option_map Nat.add].
    destruct (lookup_lt_is_Some_2 r i ltac:(lia)) as [d Hd]. rewrite Hd. f_equal.
    rewrite dirent_of_bytes_drop, root_dir_bytes_drop by exact Hr.
    rewrite (drop_S _ _ _ Hd). unfold root_dir_bytes. cbn [map concat].
    apply dirent_roundtrip. exact (Forall_lookup_1 _ _ _ _ Hr Hd).
  - rewrite lookup_seq_ge by lia. cbn. symmetry. apply lookup_ge_None_2. lia.
Qed.

(** *** What the metadata writes leave on the disk *)

(** The disk holds the images of the cached metadata of [st]. *)
Definition on_disk (st : fs) (dk : Z -> list Z) : Prop :=
  dk SUPERBLOCK_SECTOR = superblock_bytes (superblock st) /\
  (forall k, 0 <= k < FAT_SECTORS ->
     dk (FAT_START_SECTOR + k) = sector_of (fat_bytes (fat st)) k) /\
  (forall k, 0 <= k < ROOT_SECTORS ->
     dk (ROOT_START_SECTOR + k) = sector_of (root_dir_bytes (root_dir st)) k).

Lemma superblock_bytes_length sb :
  wf_superblock sb -> length (superblock_bytes sb) = 512%nat.
Proof.
  intros (_ & _ & _ & _ & _ & _ & _ & _ & _ & _ & Hr).
  unfold superblock_bytes, le32. rewrite !length_app, Hr. reflexivity.
Qed.

Lemma blk_write_ok sector count buf d :
  healthy d -> 0 <= sector -> 0 <= count -> sector + count <= capacity d ->
  exists d', blk_write sector count buf d = (0, d') /\ healthy d' /\
             capacity d' = capacity d /\
             forall s, disk d' s = disk_write (disk d) sector count buf s.
Proof.
  intros Hh Hs Hc Hr. unfold blk_write. apply blk_write_loop_ok; (exact Hh || lia).
Qed.

Lemma blk_read_back sector count buf d :
  healthy d -> 0 <= sector -> 0 <= count -> sector + count <= capacity d ->
  Z.of_nat (length buf) = 512 * count ->
  (forall k, 0 <= k < count -> disk d (sector + k) = sector_of buf k) ->
  blk_read sector count d = (0, buf, d).
Proof.
  intros Hh Hs Hc Hr Hlen Hd. unfold blk_read.
  rewrite blk_read_loop_ok by (exact Hh || lia). do 2 f_equal.
  replace sector with (sector + Z.of_nat 0) at 1 by lia.
  rewrite (disk_read_buffer (disk d) sector buf (Z.to_nat count) 0); [reflexivity|lia|].
  intros j Hj. replace (sector + Z.of_nat 0 + Z.of_nat j) with (sector + Z.of_nat j) by lia.
  rewrite Hd by lia. f_equal.
Qed.

Lemma disk_write_in dk sector count buf s :
  sector <= s < sector + count ->
  disk_write dk sector count buf s = sector_of buf (s - sector).
Proof.
  intros H. unfold disk_write.
  rewrite (proj2 (Z.leb_le sector s)) by lia.
  rewrite (proj2 (Z.ltb_lt s (sector + count))) by lia. reflexivity.
Qed.

Lemma sector_of_whole buf : length buf = 512%nat -> sector_of buf 0 = buf.
Proof. intros H. unfold sector_of. cbn [Z.mul Z.to_nat drop]. apply take_ge. lia. Qed.

Lemma fs_init_on_disk st st' :
  healthy (dev st') -> DATA_START_SECTOR <= capacity (dev st') ->
  wf_caches st -> magic (superblock st) = FS_MAGIC ->
  on_disk st (disk (dev st')) ->
  fs_init st' =
    (0, mk_fs (superblock st) (fat st) (root_dir st)
              (replicate (Z.to_nat FS_MAX_OPEN) zero_open_file) 1 (sector_buf st') (dev st')).
Proof.
  intros Hh Hcap (Hsb & Hfl & Hf & Hrl & Hr) Hmagic (D0 & D1 & D2).
  unfold DATA_START_SECTOR in Hcap.
  unfold fs_init, blk_available. rewrite (proj1 Hh). cbn [negb dev set_open_files].
  rewrite (blk_read_back SUPERBLOCK_SECTOR 1 (superblock_bytes (superblock st)) (dev st'));
    [|exact Hh|unfold SUPERBLOCK_SECTOR; lia|lia|unfold SUPERBLOCK_SECTOR; lia| |].
  2:{ rewrite superblock_bytes_length by exact Hsb. reflexivity. }
  2:{ intros k Hk. assert (k = 0) by lia. subst k. rewrite Z.add_0_r, D0.
      symmetry. apply sector_of_whole. now apply superblock_bytes_length. }
  cbn [negb Z.eqb]. cbn [superblock set_superblock set_dev dev].
  rewrite superblock_roundtrip by exact Hsb. rewrite Hmagic, Z.eqb_refl. cbn [negb].
  rewrite (blk_read_back FAT_START_SECTOR FAT_SECTORS (fat_bytes (fat st)) (dev st'));
    [|exact Hh|unfold FAT_START_SECTOR; lia|unfold FAT_SECTORS; lia
     |unfold FAT_START_SECTOR, FAT_SECTORS; lia| |exact D1].
  2:{ rewrite fat_bytes_length, Hfl. reflexivity. }
  cbn [negb Z.eqb]. cbn [set_fat set_dev dev].
  rewrite fat_roundtrip by assumption.
  rewrite (blk_read_back ROOT_START_SECTOR ROOT_SECTORS (root_dir_bytes (root_dir st))
             (dev st'));
    [|exact Hh|unfold ROOT_START_SECTOR; lia|unfold ROOT_SECTORS; lia
     |unfold ROOT_START_SECTOR, ROOT_SECTORS; lia| |exact D2].
  2:{ rewrite root_dir_bytes_length, Hrl by exact Hr. reflexivity. }
  cbn [negb Z.eqb]. rewrite root_dir_roundtrip by assumption. reflexivity.
Qed.

Lemma flush_metadata_on_disk st :
  healthy (dev st) -> DATA_START_SECTOR <= capacity (dev st) -> wf_caches st ->
  healthy (dev (flush_metadata st)) /\
  capacity (dev (flush_metadata st)) = capacity (dev st) /\
  on_disk st (disk (dev (flush_metadata st))) /\
  (forall s, DATA_START_SECTOR <= s -> disk (dev (flush_metadata st)) s = disk (dev st) s).
Proof.
  intros Hh Hcap (Hsb & Hfl & Hf & Hrl & Hr). unfold DATA_START_SECTOR in *.
  unfold flush_metadata, write_fat, write_root_dir, write_superblock.
  destruct (blk_write_ok FAT_START_SECTOR FAT_SECTORS (fat_bytes (fat st)) (dev st))
    as (d1 & E1 & H1 & C1 & W1);
    [exact Hh|unfold FAT_START_SECTOR; lia|unfold FAT_SECTORS; lia
     |unfold FAT_START_SECTOR, FAT_SECTORS; lia|].
  rewrite E1. cbn [dev set_dev root_dir].
  destruct (blk_write_ok ROOT_START_SECTOR ROOT_SECTORS (root_dir_bytes (root_dir st)) d1)
    as (d2 & E2 & H2 & C2 & W2);
    [exact H1|unfold ROOT_START_SECTOR; lia|unfold ROOT_SECTORS; lia
     |unfold ROOT_START_SECTOR, ROOT_SECTORS; lia|].
  rewrite E2. cbn [dev set_dev superblock].
  destruct (blk_write_ok SUPERBLOCK_SECTOR 1 (superblock_bytes (superblock st)) d2)
    as (d3 & E3 & H3 & C3 & W3);
    [exact H2|unfold SUPERBLOCK_SECTOR; lia|lia|unfold SUPERBLOCK_SECTOR; lia|].
  rewrite E3. cbn [dev set_dev].
  unfold on_disk.
  unfold FAT_START_SECTOR, FAT_SECTORS, ROOT_START_SECTOR, ROOT_SECTORS, SUPERBLOCK_SECTOR in *.
  split; [exact H3|]. split; [now rewrite C3, C2, C1|]. split; [split; [|split]|].
  - rewrite W3, disk_write_in by lia. rewrite Z.sub_diag.
    apply sector_of_whole. now apply superblock_bytes_length.
  - intros k Hk. rewrite W3, disk_write_other by lia.
    rewrite W2, disk_write_other by lia.
    rewrite W1, disk_write_in by lia. f_equal. lia.
  - intros k Hk. rewrite W3, disk_write_other by lia.
    rewrite W2, disk_write_in by lia. f_equal. lia.
  - intros s Hs. rewrite W3, disk_write_other by lia.
    rewrite W2, disk_write_other by lia. rewrite W1, disk_write_other by lia. reflexivity.
Qed.

(** The metadata survives a remount.  [fs_write] and [fs_remove] end by
    flushing the cached superblock, FAT and root directory; on a device
    that answers every request, an [fs_init] that finds the disk in that
    state, whatever the caches hold by then, mounts the filesystem and
    restores the three structures exactly, with every descriptor free.
    The flush does not touch the data area. *)
Theorem metadata_survives_remount (st st' : fs) :
  healthy (dev st) -> DATA_START_SECTOR <= capacity (dev st) ->
  wf_caches st -> magic (superblock st) = FS_MAGIC ->
  dev st' = dev (flush_metadata st) ->
  let r := fs_init st' in
  r.1 = 0 /\ fs_mounted r.2 = 1 /\
  superblock r.2 = superblock st /\ fat r.2 = fat st /\ root_dir r.2 = root_dir st /\
  open_files r.2 = replicate (Z.to_nat FS_MAX_OPEN) zero_open_file /\
  (forall s, DATA_START_SECTOR <= s -> disk (dev r.2) s = disk (dev st) s).
Proof.
  intros Hh Hcap Hwf Hmagic Hdev r.
  destruct (flush_metadata_on_disk st Hh Hcap Hwf) as (H1 & C1 & D1 & K1).
  subst r. rewrite (fs_init_on_disk st st'); [|rewrite Hdev; exact H1|rewrite Hdev; lia
                                              |exact Hwf|exact Hmagic|rewrite Hdev; exact D1].
  cbn [fst snd]. unfold fs_mounted.
  cbn [superblock fat root_dir open_files fs_is_mounted dev].
  repeat (split; [reflexivity|]). intros s Hs. rewrite Hdev. now apply K1.
Qed.

(** *** Formatting, then mounting *)

Lemma fs_format_image st0 :
  healthy (dev st0) -> 32 <= capacity (dev st0) < 2^32 ->
  let st1 := (fs_format st0).2 in
  (fs_format st0).1 = 0 /\ wf_caches st1 /\ magic (superblock st1) = FS_MAGIC /\
  healthy (dev st1) /\ capacity (dev st1) = capacity (dev st0) /\
  on_disk st1 (disk (dev st1)) /\
  fat st1 = <[0%nat := FAT_EOF]> (replicate 2048 0) /\
  root_dir st1 = replicate 64 zero_dirent /\
  free_clusters (superblock st1) = total_clusters (superblock st1) - 1 /\
  1 <= total_clusters (superblock st1) <= 2048.
Proof.
  intros Hh Hcap. cbv zeta. unfold fs_format, blk_available.
  rewrite (proj1 Hh). cbn [negb].
  rewrite (wrap32_small (capacity (dev st0))) by lia.
  rewrite (proj2 (Z.ltb_ge (capacity (dev st0)) 32)) by lia.
  unfold DATA_START_SECTOR, FS_SECTORS_PER_CLUSTER.
  rewrite (wrap32_small (capacity (dev st0) - 13)) by lia.
  set (tc := if 2048 <? (capacity (dev st0) - 13) / 4 then 2048
             else (capacity (dev st0) - 13) / 4).
  assert (Htc : 4 <= tc <= 2048).
  { unfold tc. destruct (2048 <? _) eqn:E; [lia|]. apply Z.ltb_ge in E.
    split; [|lia]. apply Z.div_le_lower_bound; lia. }
  unfold set_free_clusters.
  cbn [magic version total_sectors total_clusters free_clusters fat_start
       fat_sectors root_start root_sectors data_start sb_reserved].
  rewrite (wrap32_small (tc - 1)) by lia.
  set (sb := mk_superblock FS_MAGIC FS_VERSION (capacity (dev st0)) tc (tc - 1)
               FAT_START_SECTOR FAT_SECTORS ROOT_START_SECTOR ROOT_SECTORS 13
               (replicate 472 0)).
  set (ft := <[0%nat := FAT_EOF]> (replicate 2048 0)).
  set (rd := replicate 64 zero_dirent).
  assert (Hsb : wf_superblock sb).
  { unfold wf_superblock, sb, u32, FS_MAGIC, FS_VERSION, FAT_START_SECTOR, FAT_SECTORS,
      ROOT_START_SECTOR, ROOT_SECTORS.
    cbn [magic version total_sectors total_clusters free_clusters fat_start
         fat_sectors root_start root_sectors data_start sb_reserved].
    rewrite length_replicate. repeat split; lia. }
  assert (Hft : length ft = 2048%nat /\ Forall u16 ft).
  { unfold ft. rewrite length_insert, length_replicate. split; [reflexivity|].
    apply Forall_insert; [apply Forall_replicate; unfold u16; lia|].
    unfold u16, FAT_EOF. lia. }
  assert (Hrd : length rd = 64%nat /\ Forall wf_dirent rd).
  { unfold rd. rewrite length_replicate. split; [reflexivity|].
    apply Forall_replicate. unfold wf_dirent, zero_dirent, u32, u16.
    cbn [name size first_cluster flags reserved]. rewrite length_replicate.
    repeat split; lia. }
  unfold write_superblock, write_fat, write_root_dir. cbn [dev superblock].
  destruct (blk_write_ok SUPERBLOCK_SECTOR 1 (superblock_bytes sb) (dev st0))
    as (d1 & E1 & H1 & C1 & W1);
    [exact Hh|unfold SUPERBLOCK_SECTOR; lia|lia|unfold SUPERBLOCK_SECTOR; lia|].
  rewrite E1. cbn [negb Z.eqb dev set_dev fat].
  destruct (blk_write_ok FAT_START_SECTOR FAT_SECTORS (fat_bytes ft) d1)
    as (d2 & E2 & H2 & C2 & W2);
    [exact H1|unfold FAT_START_SECTOR; lia|unfold FAT_SECTORS; lia
     |unfold FAT_START_SECTOR, FAT_SECTORS; lia|].
  rewrite E2. cbn [negb Z.eqb dev set_dev root_dir].
  destruct (blk_write_ok ROOT_START_SECTOR ROOT_SECTORS (root_dir_bytes rd) d2)
    as (d3 & E3 & H3 & C3 & W3);
    [exact H2|unfold ROOT_START_SECTOR; lia|unfold ROOT_SECTORS; lia
     |unfold ROOT_START_SECTOR, ROOT_SECTORS; lia|].
  rewrite E3. cbn [negb Z.eqb dev set_dev].
  destruct (healthy_flush d3 H3) as (H4 & C4 & D4).
  destruct (blk_flush d3) as [rcf d4]. cbn [snd] in H4, C4, D4.
  cbn [fst snd superblock fat root_dir dev set_dev set_mounted fs_is_mounted].
  split; [reflexivity|]. split; [split; [exact Hsb|]; tauto|].
  split; [reflexivity|]. split; [exact H4|].
  split; [now rewrite C4, C3, C2, C1|].
  split; [|split; [reflexivity|split; [reflexivity|split; [reflexivity|cbn; lia]]]].
  unfold on_disk. cbn [superblock fat root_dir]. rewrite D4.
  unfold FAT_START_SECTOR, FAT_SECTORS, ROOT_START_SECTOR, ROOT_SECTORS, SUPERBLOCK_SECTOR in *.
  split; [|split].
  - rewrite W3, disk_write_other by lia. rewrite W2, disk_write_other by lia.
    rewrite W1, disk_write_in by lia. rewrite Z.sub_diag.
    apply sector_of_whole. now apply superblock_bytes_length.
  - intros k Hk. rewrite W3, disk_write_other by lia.
    rewrite W2, disk_write_in by lia. f_equal. lia.
  - intros k Hk. rewrite W3, disk_write_in by lia. f_equal. lia.
Qed.

(** Formatting, then mounting.  On a device that answers every request
    and has between 32 and [2^32 - 1] sectors, [fs_format] succeeds; an
    [fs_init] that finds the disk as [fs_format] left it mounts the
    filesystem and reads back the superblock, FAT and root directory that
    [fs_format] built: an empty directory, and every cluster free except
    the reserved cluster 0. *)
Theorem mount_after_format (st0 st' : fs) :
  healthy (dev st0) -> 32 <= capacity (dev st0) < 2^32 ->
  dev st' = dev (fs_format st0).2 ->
  let st1 := (fs_format st0).2 in
  let r := fs_init st' in
  (fs_format st0).1 = 0 /\ r.1 = 0 /\ fs_mounted r.2 = 1 /\
  superblock r.2 = superblock st1 /\ fat r.2 = fat st1 /\ root_dir r.2 = root_dir st1 /\
  used_entries r.2 = [] /\
  free_clusters (superblock r.2) = total_clusters (superblock r.2) - 1 /\
  fat_at r.2 0 = FAT_EOF /\
  (forall j, 1 <= j < 2048 -> fat_at r.2 j = FAT_FREE).
Proof.
  intros Hh Hcap Hdev st1 r.
  destruct (fs_format_image st0 Hh Hcap)
    as (Hrc & Hwf & Hmagic & H1 & C1 & D1 & Hfat & Hroot & Hfree & Htc).
  fold st1 in Hwf, Hmagic, H1, C1, D1, Hfat, Hroot, Hfree, Htc, Hdev.
  subst r. rewrite (fs_init_on_disk st1 st');
    [|rewrite Hdev; exact H1|rewrite Hdev, C1; unfold DATA_START_SECTOR; lia
     |exact Hwf|exact Hmagic|rewrite Hdev; exact D1].
  cbn [fst snd]. unfold fs_mounted, used_entries, fat_at.
  cbn [superblock fat root_dir open_files fs_is_mounted dev].
  split; [exact Hrc|]. do 5 (split; [reflexivity|]).
  split; [rewrite Hroot; reflexivity|]. split; [exact Hfree|].
  rewrite Hfat. split; [reflexivity|].
  intros j Hj. rewrite list_lookup_insert_ne by lia.
  rewrite lookup_replicate_2 by lia. reflexivity.
Qed.

Lemma dev_boot_state d : dev (boot_state d) = d.
Proof. reflexivity. Qed.

Lemma mount_after_format_witness :
  let st0 := boot_state (sample_dev []) in
  let r := fs_init (boot_state (dev (fs_format st0).2)) in
  r.1 = 0 /\ fs_mounted r.2 = 1 /\ superblock r.2 = superblock (fs_format st0).2.
Proof.
  intros st0 r.
  destruct (mount_after_format st0 (boot_state (dev (fs_format st0).2))
              ltac:(split; reflexivity) ltac:(cbn; lia) (dev_boot_state _))
    as (_ & H1 & H2 & H3 & _).
  split; [exact H1|]. split; [exact H2|exact H3].
Defined.

Lemma metadata_survives_remount_witness :
  let st := file_a_written in
  let r := fs_init (boot_state (dev (flush_metadata st))) in
  r.1 = 0 /\ root_dir r.2 = root_dir st /\ fat r.2 = fat st.
Proof.
  intros st r.
  assert (Hh : healthy (dev st)) by (split; vm_compute; reflexivity).
  assert (Hroot : root_dir st =
            mk_dirent (97 :: replicate 19 0) 5 1 0 0 :: replicate 63 zero_dirent)
    by (vm_compute; reflexivity).
  assert (Hfat : fat st = <[1%nat := FAT_EOF]> (<[0%nat := FAT_EOF]> (replicate 2048 0)))
    by (vm_compute; reflexivity).
  assert (Hwf : wf_caches st).
  { split; [|split; [|split; [|split]]].
    - unfold wf_superblock, u32. vm_compute. repeat split; congruence.
    - rewrite Hfat, !length_insert, length_replicate. reflexivity.
    - rewrite Hfat. repeat apply Forall_insert;
        [apply Forall_replicate; unfold u16; lia|unfold u16, FAT_EOF; lia
         |unfold u16, FAT_EOF; lia].
    - rewrite Hroot. cbn [length]. rewrite length_replicate. reflexivity.
    - rewrite Hroot. constructor.
      + unfold wf_dirent, u32, u16. cbn. repeat split; lia.
      + apply Forall_replicate. unfold wf_dirent, zero_dirent, u32, u16. cbn.
        repeat split; lia. }
  destruct (metadata_survives_remount st (boot_state (dev (flush_metadata st)))
              Hh ltac:(vm_compute; discriminate) Hwf ltac:(vm_compute; reflexivity)
              (dev_boot_state _))
    as (H1 & _ & _ & H4 & H5 & _).
  split; [exact H1|]. split; [exact H5|exact H4].
Defined.

(** ** Moving the cursor *)

Lemma fs_read_at_end fd len st :
  fd_ok fd st = true -> Z.land (of_flags (file_at st fd)) FS_O_READ <> 0 ->
  of_size (file_at st fd) <= pos (file_at st fd) ->
  fs_read fd len st = (0, [], st).
Proof.
  intros Hok Hfl Hpos. unfold fs_read. rewrite Hok. cbn [negb].
  rewrite (proj2 (Z.eqb_neq _ _) Hfl).
  destruct (Z.to_nat len) as [|fuel]; [reflexivity|].
  cbn [fs_read_loop].
  rewrite (proj2 (Z.ltb_ge (pos (file_at st fd)) (of_size (file_at st fd)))) by exact Hpos.
  now rewrite andb_false_r.
Qed.

(** [fs_seek] on an open descriptor.  An unknown [whence] returns -1 and
    changes nothing.  Otherwise the result is never negative and is the
    new position of the descriptor; the size, the flags and every other
    descriptor are untouched.  [FS_SEEK_SET] clamps a negative offset to
    0.  The position is not clamped to the size: it may lie past the end
    of the file, and a read at or past the end returns 0 and stores
    nothing. *)
Theorem fs_seek_moves_cursor (fd offset whence len : Z) (st : fs) :
  fd_ok fd st = true ->
  let f := file_at st fd in
  let r := fs_seek fd offset whence st in
  (whence <> FS_SEEK_SET -> whence <> FS_SEEK_CUR -> whence <> FS_SEEK_END ->
   r = (-1, st)) /\
  (whence = FS_SEEK_SET \/ whence = FS_SEEK_CUR \/ whence = FS_SEEK_END ->
   0 <= r.1 /\ file_at r.2 fd = set_of_pos f r.1 /\ fd_ok fd r.2 = true /\
   (forall i, 0 <= i -> i <> fd -> file_at r.2 i = file_at st i) /\
   (Z.land (of_flags f) FS_O_READ <> 0 -> of_size f <= r.1 ->
    fs_read fd len r.2 = (0, [], r.2))) /\
  (whence = FS_SEEK_SET -> r.1 = Z.max 0 offset) /\
  (whence = FS_SEEK_CUR -> 0 <= pos f + offset < 2^31 -> r.1 = pos f + offset) /\
  (whence = FS_SEEK_END -> 0 <= of_size f + offset < 2^31 -> r.1 = of_size f + offset).
Proof.
  intros Hok f r. destruct (fd_ok_lookup fd st Hok) as (Hr & Hlt & Hu).
  assert (Hto : forall v, 0 <= v < 2^31 -> to_int32 v = v).
  { intros v Hv. unfold to_int32. rewrite wrap32_small by lia.
    now rewrite (proj2 (Z.ltb_lt v (2^31))) by lia. }
  assert (Hmove : forall np, 0 <= np ->
            let st' := update_file st fd (fun g => set_of_pos g np) in
            file_at st' fd = set_of_pos f np /\ fd_ok fd st' = true /\
            (forall i, 0 <= i -> i <> fd -> file_at st' i = file_at st i) /\
            (Z.land (of_flags f) FS_O_READ <> 0 -> of_size f <= np ->
             fs_read fd len st' = (0, [], st'))).
  { intros np Hnp st'.
    assert (Hat : file_at st' fd = set_of_pos f np)
      by (unfold st'; now rewrite file_at_alter_eq).
    assert (Hok' : fd_ok fd st' = true).
    { revert Hok. unfold fd_ok. rewrite Hat. cbn [in_use set_of_pos]. fold f. tauto. }
    split; [exact Hat|]. split; [exact Hok'|]. split.
    - intros i Hi Hne. unfold st'. apply file_at_alter_ne. lia.
    - intros Hfl Hsz. apply fs_read_at_end; [exact Hok'| |]; rewrite Hat;
        cbn [of_flags of_size pos set_of_pos]; assumption. }
  subst r. unfold fs_seek. rewrite Hok. cbn [negb]. fold f.
  unfold FS_SEEK_SET, FS_SEEK_CUR, FS_SEEK_END.
  destruct (whence =? 0) eqn:E0.
  { apply Z.eqb_eq in E0. subst whence.
    assert (Hnp : 0 <= (if offset <? 0 then 0 else offset))
      by (destruct (offset <? 0) eqn:E; [lia|apply Z.ltb_ge in E; lia]).
    split; [intros H; lia|]. split.
    - intros _. cbn [fst snd]. split; [exact Hnp|]. exact (Hmove _ Hnp).
    - split; [intros _; cbn [fst];
              destruct (offset <? 0) eqn:E; [apply Z.ltb_lt in E|apply Z.ltb_ge in E]; lia|].
      split; intros H; lia. }
  destruct (whence =? 1) eqn:E1.
  { apply Z.eqb_eq in E1. subst whence.
    assert (Hnp : 0 <= (if to_int32 (pos f + offset) <? 0 then 0
                        else to_int32 (pos f + offset)))
      by (destruct (_ <? 0) eqn:E; [lia|apply Z.ltb_ge in E; lia]).
    split; [intros _ H; lia|]. split.
    - intros _. cbn [fst snd]. split; [exact Hnp|]. exact (Hmove _ Hnp).
    - split; [intros H; lia|]. split; [|intros H; lia].
      intros _ Hb. cbn [fst]. rewrite Hto by exact Hb.
      now rewrite (proj2 (Z.ltb_ge (pos f + offset) 0)) by lia. }
  destruct (whence =? 2) eqn:E2.
  { apply Z.eqb_eq in E2. subst whence.
    assert (Hnp : 0 <= (if to_int32 (of_size f + offset) <? 0 then 0
                        else to_int32 (of_size f + offset)))
      by (destruct (_ <? 0) eqn:E; [lia|apply Z.ltb_ge in E; lia]).
    split; [intros _ _ H; lia|]. split.
    - intros _. cbn [fst snd]. split; [exact Hnp|]. exact (Hmove _ Hnp).
    - split; [intros H; lia|]. split; [intros H; lia|].
      intros _ Hb. cbn [fst]. rewrite Hto by exact Hb.
      now rewrite (proj2 (Z.ltb_ge (of_size f + offset) 0)) by lia. }
  apply Z.eqb_neq in E0, E1, E2.
  split; [reflexivity|]. split; [intros [H|[H|H]]; lia|].
  split; [intros H; lia|]. split; intros H; lia.
Qed.

Lemma fs_seek_moves_cursor_witness :
  let st := (fs_open [97] FS_O_READ file_a_written).2 in
  (fs_seek 0 0 FS_SEEK_END st).1 = 5 /\
  fs_read 0 3 (fs_seek 0 0 FS_SEEK_END st).2 = (0, [], (fs_seek 0 0 FS_SEEK_END st).2).
Proof.
  intros st.
  assert (Hok : fd_ok 0 st = true) by (vm_compute; reflexivity).
  destruct (fs_seek_moves_cursor 0 0 FS_SEEK_END 3 st Hok) as (_ & H & _ & _ & He).
  destruct (H ltac:(right; right; reflexivity)) as (_ & _ & _ & _ & Hrd).
  assert (Hsz : of_size (file_at st 0) = 5) by (vm_compute; reflexivity).
  assert (H5 : (fs_seek 0 0 FS_SEEK_END st).1 = 5).
  { rewrite (He eq_refl); rewrite Hsz; [reflexivity|lia]. }
  split; [exact H5|]. apply Hrd.
  - vm_compute. discriminate.
  - rewrite H5, Hsz. lia.
Defined.
End TinyFS.

(** * Network stack (kernel/net/net.c, kernel/tcp.c) *)

Module Net.

(** A byte read from a packet or an address array: [uint8_t]. *)
Definition rd8 (l : list Z) (i : Z) : Z :=
  if i <? 0 then 0 else wrap8 (default 0 (l !! Z.to_nat i)).

(** Big-endian images, as the byte-by-byte stores of the source write them. *)
Definition be16 (v : Z) : list Z :=
  [Z.land (Z.shiftr v 8) 0xFF; Z.land v 0xFF].
Definition be32 (v : Z) : list Z :=
  [Z.land (Z.shiftr v 24) 0xFF; Z.land (Z.shiftr v 16) 0xFF;
   Z.land (Z.shiftr v 8) 0xFF; Z.land v 0xFF].

(** [(b0 << 8) | b1] and its 32-bit sibling, on bytes read with [rd8]. *)
Definition get16 (l : list Z) (i : Z) : Z :=
  Z.lor (Z.shiftl (rd8 l i) 8) (rd8 l (i + 1)).
Definition get32 (l : list Z) (i : Z) : Z :=
  Z.lor (Z.lor (Z.lor (Z.shiftl (rd8 l i) 24) (Z.shiftl (rd8 l (i + 1)) 16))
               (Z.shiftl (rd8 l (i + 2)) 8))
        (rd8 l (i + 3)).

Definition ETH_HLEN : Z := 14.
Definition ETH_P_IP : Z := 0x0800.
Definition ETH_P_ARP : Z := 0x0806.
Definition ARP_REQUEST : Z := 1.
Definition IP_PROTO_TCP : Z := 6.
Definition ARP_CACHE_SIZE : Z := 8.
Definition PACKET_BUF_SIZE : Z := 2048.
Definition VIRTIO_NET_HDR_SIZE : Z := 10.

Definition DNS_STATE_IDLE : Z := 0.
Definition DNS_STATE_PENDING : Z := 1.
Definition DNS_STATE_DONE : Z := 2.
Definition DNS_STATE_ERROR : Z := 3.

Definition TCP_FIN : Z := 0x01.
Definition TCP_SYN : Z := 0x02.
Definition TCP_RST : Z := 0x04.
Definition TCP_PSH : Z := 0x08.
Definition TCP_ACK : Z := 0x10.

Definition TCP_CLOSED : Z := 0.
Definition TCP_SYN_SENT : Z := 1.
Definition TCP_ESTABLISHED : Z := 2.
Definition TCP_FIN_WAIT_1 : Z := 3.
Definition TCP_FIN_WAIT_2 : Z := 4.
Definition TCP_CLOSE_WAIT : Z := 5.
Definition TCP_LAST_ACK : Z := 6.
Definition TCP_TIME_WAIT : Z := 7.

Definition MAX_TCP_CONNS : Z := 4.
Definition TCP_RX_BUF_SIZE : Z := 4096.

(** ** Data *)

(** [net_status_t] of the virtio-net driver, with the frames handed to
    the device so far (oldest first). *)
Record nic := mk_nic {
  available : Z;
  mac : list Z;                 (* uint8_t mac[6] *)
  tx_log : list (list Z)
}.

Record net_config_t := mk_config {
  ip : list Z; subnet : list Z; gateway : list Z; dns : list Z;   (* uint8_t [4] *)
  configured : Z;
  dhcp_state : Z
}.

Record arp_entry := mk_arp {
  arp_ip : list Z;              (* uint8_t ip[4] *)
  arp_mac : list Z;             (* uint8_t mac[6] *)
  arp_valid : Z
}.

Record dns_query_t := mk_dns_query {
  q_state : Z;
  result_ip : list Z;           (* uint8_t result_ip[4] *)
  query_id : Z;                 (* uint16_t *)
  q_timeout_tick : Z;
  q_retry_tick : Z;
  hostname : list Z             (* char hostname[64] *)
}.

Record tcp_conn_t := mk_conn {
  state : Z;
  remote_ip : list Z;           (* uint8_t remote_ip[4] *)
  local_port : Z;               (* uint16_t *)
  remote_port : Z;              (* uint16_t *)
  seq_num : Z;                  (* uint32_t *)
  ack_num : Z;                  (* uint32_t *)
  last_ack_sent : Z;            (* uint32_t *)
  rx_buffer : list Z;           (* uint8_t rx_buffer[TCP_RX_BUF_SIZE] *)
  rx_len : Z;
  rx_ready : Z;
  timeout_tick : Z;             (* uint32_t *)
  retries : Z
}.

Definition zero_conn : tcp_conn_t :=
  mk_conn 0 [0; 0; 0; 0] 0 0 0 0 0 (replicate (Z.to_nat TCP_RX_BUF_SIZE) 0) 0 0 0 0.

(** The file-scope state of net.c and tcp.c and the driver status.
    [active_dns_query] is the object the global pointer designates, [None]
    for NULL. *)
Record net := mk_net {
  status : nic;
  config : net_config_t;
  arp_cache : list arp_entry;           (* ARP_CACHE_SIZE entries *)
  active_dns_query : option dns_query_t;
  connections : list tcp_conn_t;        (* MAX_TCP_CONNS entries *)
  next_local_port : Z;                  (* uint16_t *)
  tcp_ticks : Z;                        (* uint32_t *)
  seed : Z                              (* static uint32_t in get_initial_seq *)
}.

Definition set_status (s : net) (v : nic) : net :=
  mk_net v (config s) (arp_cache s) (active_dns_query s) (connections s)
         (next_local_port s) (tcp_ticks s) (seed s).
Definition set_query (s : net) (v : option dns_query_t) : net :=
  mk_net (status s) (config s) (arp_cache s) v (connections s)
         (next_local_port s) (tcp_ticks s) (seed s).
Definition set_connections (s : net) (v : list tcp_conn_t) : net :=
  mk_net (status s) (config s) (arp_cache s) (active_dns_query s) v
         (next_local_port s) (tcp_ticks s) (seed s).
Definition set_next_local_port (s : net) (v : Z) : net :=
  mk_net (status s) (config s) (arp_cache s) (active_dns_query s) (connections s)
         v (tcp_ticks s) (seed s).
Definition set_seed (s : net) (v : Z) : net :=
  mk_net (status s) (config s) (arp_cache s) (active_dns_query s) (connections s)
         (next_local_port s) (tcp_ticks s) v.

Definition conn_at (s : net) (idx : Z) : tcp_conn_t :=
  default zero_conn (connections s !! Z.to_nat idx).
Definition update_conn (s : net) (idx : Z) (g : tcp_conn_t -> tcp_conn_t) : net :=
  set_connections s (alter g (Z.to_nat idx) (connections s)).

Definition set_state (c : tcp_conn_t) (v : Z) : tcp_conn_t :=
  mk_conn v (remote_ip c) (local_port c) (remote_port c) (seq_num c) (ack_num c)
          (last_ack_sent c) (rx_buffer c) (rx_len c) (rx_ready c) (timeout_tick c)
          (retries c).
Definition set_seq_num (c : tcp_conn_t) (v : Z) : tcp_conn_t :=
  mk_conn (state c) (remote_ip c) (local_port c) (remote_port c) v (ack_num c)
          (last_ack_sent c) (rx_buffer c) (rx_len c) (rx_ready c) (timeout_tick c)
          (retries c).
Definition set_ack_num (c : tcp_conn_t) (v : Z) : tcp_conn_t :=
  mk_conn (state c) (remote_ip c) (local_port c) (remote_port c) (seq_num c) v
          (last_ack_sent c) (rx_buffer c) (rx_len c) (rx_ready c) (timeout_tick c)
          (retries c).
Definition set_last_ack_sent (c : tcp_conn_t) (v : Z) : tcp_conn_t :=
  mk_conn (state c) (remote_ip c) (local_port c) (remote_port c) (seq_num c) (ack_num c)
          v (rx_buffer c) (rx_len c) (rx_ready c) (timeout_tick c) (retries c).
Definition set_rx (c : tcp_conn_t) (buf : list Z) (len ready : Z) : tcp_conn_t :=
  mk_conn (state c) (remote_ip c) (local_port c) (remote_port c) (seq_num c) (ack_num c)
          (last_ack_sent c) buf len ready (timeout_tick c) (retries c).
Definition set_timeout_tick (c : tcp_conn_t) (v : Z) : tcp_conn_t :=
  mk_conn (state c) (remote_ip c) (local_port c) (remote_port c) (seq_num c) (ack_num c)
          (last_ack_sent c) (rx_buffer c) (rx_len c) (rx_ready c) v (retries c).
Definition set_retries (c : tcp_conn_t) (v : Z) : tcp_conn_t :=
  mk_conn (state c) (remote_ip c) (local_port c) (remote_port c) (seq_num c) (ack_num c)
          (last_ack_sent c) (rx_buffer c) (rx_len c) (rx_ready c) (timeout_tick c) v.

(** ** Driver and ARP *)

(** [virtio_net_send data len]: the frame is queued unless the driver is
    down or the frame does not fit a packet buffer. *)
Definition virtio_net_send (data : list Z) (len : Z) (s : net) : Z * net :=
  if (available (status s) =? 0) || (PACKET_BUF_SIZE - VIRTIO_NET_HDR_SIZE <? len)
  then (-1, s)
  else (0, set_status s
             (mk_nic (available (status s)) (mac (status s))
                     (tx_log (status s) ++ [take (Z.to_nat len) data]))).

Definition ip_match (a b : list Z) : bool :=
  (rd8 a 0 =? rd8 b 0) && (rd8 a 1 =? rd8 b 1) &&
  (rd8 a 2 =? rd8 b 2) && (rd8 a 3 =? rd8 b 3).

(** [net_arp_lookup]: the MAC of the first valid entry for [ip]. *)
Fixpoint arp_lookup_from (entries : list arp_entry) (addr : list Z) : option (list Z) :=
  match entries with
  | [] => None
  | e :: entries' =>
      if negb (arp_valid e =? 0) && ip_match (arp_ip e) addr
      then Some (arp_mac e)
      else arp_lookup_from entries' addr
  end.

Definition net_arp_lookup (addr : list Z) (s : net) : option (list Z) :=
  arp_lookup_from (take (Z.to_nat ARP_CACHE_SIZE) (arp_cache s)) addr.

Definition bytes (l : list Z) (n : nat) : list Z :=
  map (fun i => rd8 l (Z.of_nat i)) (seq 0 n).

Definition broadcast_mac : list Z := [0xFF; 0xFF; 0xFF; 0xFF; 0xFF; 0xFF].

(** [net_send_arp_request]: an Ethernet broadcast carrying the request. *)
Definition net_send_arp_request (target_ip : list Z) (s : net) : net :=
  if available (status s) =? 0 then s
  else
    let frame :=
      broadcast_mac ++ bytes (mac (status s)) 6 ++ be16 ETH_P_ARP ++
      be16 1 ++ be16 0x0800 ++ [6; 4] ++ be16 ARP_REQUEST ++
      bytes (mac (status s)) 6 ++ bytes (ip (config s)) 4 ++
      replicate 6 0 ++ bytes target_ip 4 in
    (virtio_net_send frame (ETH_HLEN + 28) s).2.

(** ** TCP (kernel/tcp.c) *)

(** One's-complement sum over [l], two bytes at a time, in a [uint32_t]. *)
Fixpoint csum_words (l : list Z) (sum : Z) : Z :=
  match l with
  | a :: b :: t => csum_words t (wrap32 (sum + Z.lor (Z.shiftl a 8) b))
  | [a] => wrap32 (sum + Z.shiftl a 8)
  | [] => sum
  end.

(** [while (sum >> 16) sum = (sum & 0xFFFF) + (sum >> 16);] -- a 32-bit
    sum is folded after two rounds. *)
Fixpoint fold_carry (fuel : nat) (sum : Z) : Z :=
  match fuel with
  | O => sum
  | S fuel' =>
      if Z.shiftr sum 16 =? 0 then sum
      else fold_carry fuel' (wrap32 (Z.land sum 0xFFFF + Z.shiftr sum 16))
  end.

Definition tcp_checksum (src_ip dest_ip : list Z) (tcp : list Z) (tcp_len : Z) : Z :=
  let sum := wrap32 (0 + Z.lor (Z.shiftl (rd8 src_ip 0) 8) (rd8 src_ip 1)) in
  let sum := wrap32 (sum + Z.lor (Z.shiftl (rd8 src_ip 2) 8) (rd8 src_ip 3)) in
  let sum := wrap32 (sum + Z.lor (Z.shiftl (rd8 dest_ip 0) 8) (rd8 dest_ip 1)) in
  let sum := wrap32 (sum + Z.lor (Z.shiftl (rd8 dest_ip 2) 8) (rd8 dest_ip 3)) in
  let sum := wrap32 (sum + IP_PROTO_TCP) in
  let sum := wrap32 (sum + tcp_len) in
  let sum := csum_words (bytes tcp (Z.to_nat tcp_len)) sum in
  wrap16 (Z.lnot (fold_carry 3 sum)).

Definition ip_header_checksum (hdr : list Z) : Z :=
  wrap16 (Z.lnot (fold_carry 3 (csum_words (bytes hdr 20) 0))).

(** The Ethernet frame that [send_tcp_packet] assembles in [tcp_tx_buf]
    for connection [idx]. *)
Definition tcp_frame (s : net) (idx : Z) (dest_mac : list Z) (flags : Z)
    (data : list Z) (data_len : Z) : list Z :=
  let conn := conn_at s idx in
  let total_len := 20 + 20 + data_len in
  let eth := bytes dest_mac 6 ++ bytes (mac (status s)) 6 ++ be16 ETH_P_IP in
  let src := bytes (ip (config s)) 4 in
  let dst := bytes (remote_ip conn) 4 in
  let ip0 := [0x45; 0] ++ be16 (wrap16 total_len) ++ be16 (wrap16 (1000 + idx)) ++
             [0; 0] ++ [64; IP_PROTO_TCP] ++ [0; 0] ++ src ++ dst in
  let ip_csum := ip_header_checksum ip0 in
  let iph := take 10 ip0 ++ be16 ip_csum ++ drop 12 ip0 in
  let payload := if 0 <? data_len then bytes data (Z.to_nat data_len) else [] in
  let tcp0 := be16 (local_port conn) ++ be16 (remote_port conn) ++
              be32 (seq_num conn) ++ be32 (ack_num conn) ++
              [0x50; wrap8 flags] ++ be16 TCP_RX_BUF_SIZE ++ [0; 0; 0; 0] in
  let tcp_csum := tcp_checksum src dst (tcp0 ++ payload) (20 + data_len) in
  let tcph := take 16 tcp0 ++ be16 tcp_csum ++ drop 18 tcp0 in
  eth ++ iph ++ tcph ++ payload.

(** [send_tcp_packet conn flags data data_len] with [conn = &connections[idx]]. *)
Definition send_tcp_packet (idx flags : Z) (data : list Z) (data_len : Z) (s : net) : net :=
  if (available (status s) =? 0) || (configured (config s) =? 0) then s
  else
    match net_arp_lookup (gateway (config s)) s with
    | None => net_send_arp_request (gateway (config s)) s
    | Some dest_mac =>
        let frame := tcp_frame s idx dest_mac flags data data_len in
        let s1 := (virtio_net_send frame (ETH_HLEN + (20 + 20 + data_len)) s).2 in
        let s2 := if negb (Z.land flags TCP_SYN =? 0)
                  then update_conn s1 idx (fun c => set_seq_num c (wrap32 (seq_num c + 1)))
                  else s1 in
        let s3 := if negb (Z.land flags TCP_FIN =? 0)
                  then update_conn s2 idx (fun c => set_seq_num c (wrap32 (seq_num c + 1)))
                  else s2 in
        if 0 <? data_len
        then update_conn s3 idx (fun c => set_seq_num c (wrap32 (seq_num c + data_len)))
        else s3
    end.

Fixpoint find_free_conn_from (conns : list tcp_conn_t) (i : Z) : Z :=
  match conns with
  | [] => -1
  | c :: conns' => if state c =? TCP_CLOSED then i else find_free_conn_from conns' (i + 1)
  end.

Definition find_free_conn (s : net) : Z :=
  find_free_conn_from (take (Z.to_nat MAX_TCP_CONNS) (connections s)) 0.

Fixpoint find_conn_from (conns : list tcp_conn_t) (i : Z) (addr : list Z)
    (lport rport : Z) : Z :=
  match conns with
  | [] => -1
  | c :: conns' =>
      if negb (state c =? TCP_CLOSED) && (local_port c =? lport) &&
         (remote_port c =? rport) &&
         (rd8 addr 0 =? rd8 (remote_ip c) 0) && (rd8 addr 1 =? rd8 (remote_ip c) 1) &&
         (rd8 addr 2 =? rd8 (remote_ip c) 2) && (rd8 addr 3 =? rd8 (remote_ip c) 3)
      then i
      else find_conn_from conns' (i + 1) addr lport rport
  end.

Definition find_conn (addr : list Z) (lport rport : Z) (s : net) : Z :=
  find_conn_from (take (Z.to_nat MAX_TCP_CONNS) (connections s)) 0 addr lport rport.

Definition get_initial_seq (s : net) : Z * net :=
  let v := wrap32 (seed s * 1103515245 + 12345) in (v, set_seed s v).

Definition tcp_connect (addr : list Z) (port : Z) (s : net) : Z * net :=
  if configured (config s) =? 0 then (-1, s)
  else
    let idx := find_free_conn s in
    if idx <? 0 then (-1, s)
    else
      let lport := next_local_port s in
      let s1 := set_next_local_port s (wrap16 (lport + 1)) in
      let s1 := if 65000 <? next_local_port s1 then set_next_local_port s1 49152 else s1 in
      let '(iss, s2) := get_initial_seq s1 in
      let conn := mk_conn TCP_SYN_SENT (bytes addr 4) lport (wrap16 port) iss 0 0
                    (replicate (Z.to_nat TCP_RX_BUF_SIZE) 0) 0 0
                    (wrap32 (tcp_ticks s2 + 500)) 0 in
      let s3 := update_conn s2 idx (fun _ => conn) in
      (idx, send_tcp_packet idx TCP_SYN [] 0 s3).

Fixpoint tcp_send_loop (fuel : nat) (idx : Z) (data : list Z) (len sent : Z) (s : net)
  : Z * net :=
  match fuel with
  | O => (sent, s)
  | S fuel' =>
      if sent <? len then
        let chunk := len - sent in
        let chunk := if 1400 <? chunk then 1400 else chunk in
        let s1 := send_tcp_packet idx (Z.lor TCP_ACK TCP_PSH)
                    (drop (Z.to_nat sent) data) chunk s in
        tcp_send_loop fuel' idx data len (sent + chunk) s1
      else (sent, s)
  end.

(** [tcp_send]: each round sends at least one byte, [len] rounds suffice. *)
Definition tcp_send (idx : Z) (data : list Z) (len : Z) (s : net) : Z * net :=
  if (idx <? 0) || (MAX_TCP_CONNS <=? idx) then (-1, s)
  else if negb (state (conn_at s idx) =? TCP_ESTABLISHED) then (-1, s)
  else tcp_send_loop (Z.to_nat len) idx data len 0 s.

(** [tcp_recv idx buffer max_len]: return value, the bytes copied to
    [buffer], and the state.  The bytes left in [rx_buffer] move to its
    start ([memmove]); what lies behind them is not touched. *)
Definition tcp_recv (idx max_len : Z) (s : net) : Z * list Z * net :=
  if (idx <? 0) || (MAX_TCP_CONNS <=? idx) then (-1, [], s)
  else
    let conn := conn_at s idx in
    if rx_len conn =? 0 then (0, [], s)
    else
      let to_copy := rx_len conn in
      let to_copy := if max_len <? to_copy then max_len else to_copy in
      let out := take (Z.to_nat to_copy) (rx_buffer conn) in
      let buf :=
        if to_copy <? rx_len conn then
          take (Z.to_nat (rx_len conn - to_copy)) (drop (Z.to_nat to_copy) (rx_buffer conn))
          ++ drop (Z.to_nat (rx_len conn - to_copy)) (rx_buffer conn)
        else rx_buffer conn in
      let len' := rx_len conn - to_copy in
      (to_copy, out,
       update_conn s idx (fun c => set_rx c buf len' (if 0 <? len' then 1 else 0))).

Definition tcp_data_available (idx : Z) (s : net) : Z :=
  if (idx <? 0) || (MAX_TCP_CONNS <=? idx) then 0 else rx_ready (conn_at s idx).

Definition tcp_get_state (idx : Z) (s : net) : Z :=
  if (idx <? 0) || (MAX_TCP_CONNS <=? idx) then TCP_CLOSED else state (conn_at s idx).

Definition tcp_close (idx : Z) (s : net) : net :=
  if (idx <? 0) || (MAX_TCP_CONNS <=? idx) then s
  else if state (conn_at s idx) =? TCP_ESTABLISHED then
    let s1 := send_tcp_packet idx (Z.lor TCP_FIN TCP_ACK) [] 0 s in
    update_conn s1 idx (fun c =>
      set_timeout_tick (set_state c TCP_FIN_WAIT_1) (wrap32 (tcp_ticks s1 + 5000)))
  else update_conn s idx (fun c => set_state c TCP_CLOSED).

Definition ack_segment (idx seq : Z) (s : net) : net :=
  let s1 := update_conn s idx (fun c => set_ack_num c (wrap32 (seq + 1))) in
  send_tcp_packet idx TCP_ACK [] 0 s1.

(** [tcp_handle_packet]: [src_ip] is the source address of the IP header,
    [tcp] the segment from its header on, [len] its length. *)
Definition tcp_handle_packet (src_ip : list Z) (tcp : list Z) (len : Z) (s : net) : net :=
  let src_port := get16 tcp 0 in
  let dest_port := get16 tcp 2 in
  let seq := get32 tcp 4 in
  let ack := get32 tcp 8 in
  let flags := rd8 tcp 13 in
  let idx := find_conn src_ip dest_port src_port s in
  if idx <? 0 then s
  else
    let tcp_hdr_len := Z.shiftr (rd8 tcp 12) 4 * 4 in
    let data_len := len - tcp_hdr_len in
    let data := drop (Z.to_nat tcp_hdr_len) tcp in
    if negb (Z.land flags TCP_RST =? 0)
    then update_conn s idx (fun c => set_state c TCP_CLOSED)
    else
      let st := state (conn_at s idx) in
      if st =? TCP_SYN_SENT then
        if Z.land flags (Z.lor TCP_SYN TCP_ACK) =? Z.lor TCP_SYN TCP_ACK then
          let s1 := update_conn s idx (fun c => set_ack_num c (wrap32 (seq + 1))) in
          if ack =? seq_num (conn_at s1 idx) then
            let s2 := update_conn s1 idx (fun c => set_state c TCP_ESTABLISHED) in
            let s3 := send_tcp_packet idx TCP_ACK [] 0 s2 in
            update_conn s3 idx (fun c => set_last_ack_sent c (ack_num c))
          else s1
        else s
      else if st =? TCP_ESTABLISHED then
        let s1 :=
          if 0 <? data_len then
            let conn := conn_at s idx in
            let space := TCP_RX_BUF_SIZE - rx_len conn in
            let to_copy := if space <? data_len then space else data_len in
            let sa :=
              if 0 <? to_copy then
                update_conn s idx (fun c =>
                  set_rx c (take (Z.to_nat (rx_len c)) (rx_buffer c)
                            ++ bytes data (Z.to_nat to_copy)
                            ++ drop (Z.to_nat (rx_len c + to_copy)) (rx_buffer c))
                         (rx_len c + to_copy) 1)
              else s in
            let sb := update_conn sa idx (fun c => set_ack_num c (wrap32 (seq + data_len))) in
            let sc := send_tcp_packet idx TCP_ACK [] 0 sb in
            update_conn sc idx (fun c => set_last_ack_sent c (ack_num c))
          else s in
        if negb (Z.land flags TCP_FIN =? 0) then
          let s2 := ack_segment idx seq s1 in
          let s3 := update_conn s2 idx (fun c => set_state c TCP_CLOSE_WAIT) in
          let s4 := send_tcp_packet idx (Z.lor TCP_FIN TCP_ACK) [] 0 s3 in
          update_conn s4 idx (fun c => set_state c TCP_LAST_ACK)
        else s1
      else if st =? TCP_FIN_WAIT_1 then
        let s1 := if negb (Z.land flags TCP_ACK =? 0)
                  then update_conn s idx (fun c => set_state c TCP_FIN_WAIT_2) else s in
        if negb (Z.land flags TCP_FIN =? 0) then
          let s2 := ack_segment idx seq s1 in
          update_conn s2 idx (fun c =>
            set_timeout_tick (set_state c TCP_TIME_WAIT) (wrap32 (tcp_ticks s2 + 2000)))
        else s1
      else if st =? TCP_FIN_WAIT_2 then
        if negb (Z.land flags TCP_FIN =? 0) then
          let s2 := ack_segment idx seq s in
          update_conn s2 idx (fun c =>
            set_timeout_tick (set_state c TCP_TIME_WAIT) (wrap32 (tcp_ticks s2 + 2000)))
        else s
      else if st =? TCP_LAST_ACK then
        if negb (Z.land flags TCP_ACK =? 0)
        then update_conn s idx (fun c => set_state c TCP_CLOSED) else s
      else s.

(** *** Connection lookup and update *)

Ltac net_simpl :=
  cbn [status config arp_cache active_dns_query connections next_local_port tcp_ticks seed
       set_status set_query set_connections set_next_local_port set_seed update_conn] in *.

Lemma conn_at_update s idx g :
  0 <= idx -> (Z.to_nat idx < length (connections s))%nat ->
  conn_at (update_conn s idx g) idx = g (conn_at s idx).
Proof.
  intros Hi Hlen. unfold conn_at. net_simpl.
  rewrite list_lookup_alter_eq.
  destruct (lookup_lt_is_Some_2 _ _ Hlen) as [c Hc]. rewrite Hc. reflexivity.
Qed.

Lemma update_conn_length s idx g :
  length (connections (update_conn s idx g)) = length (connections s).
Proof. net_simpl. apply length_alter. Qed.

Lemma find_free_conn_from_range conns :
  forall i, 0 <= find_free_conn_from conns i -> 0 <= i ->
    i <= find_free_conn_from conns i < i + Z.of_nat (length conns).
Proof.
  induction conns as [|c conns IH]; intros i Hr Hi; simpl in *; [lia|].
  destruct (state c =? TCP_CLOSED); [lia|].
  specialize (IH (i + 1) Hr ltac:(lia)). lia.
Qed.

Lemma find_conn_from_range conns addr lp rp :
  forall i, 0 <= find_conn_from conns i addr lp rp -> 0 <= i ->
    i <= find_conn_from conns i addr lp rp < i + Z.of_nat (length conns).
Proof.
  induction conns as [|c conns IH]; intros i Hr Hi; simpl in *; [lia|].
  destruct (_ && _); [lia|].
  specialize (IH (i + 1) Hr ltac:(lia)). lia.
Qed.

Lemma find_free_conn_valid s :
  0 <= find_free_conn s ->
  (Z.to_nat (find_free_conn s) < length (connections s))%nat.
Proof.
  intros H. unfold find_free_conn in *.
  pose proof (find_free_conn_from_range _ 0 H ltac:(lia)) as Hr.
  rewrite length_take in Hr. lia.
Qed.

Lemma find_conn_valid addr lp rp s :
  0 <= find_conn addr lp rp s ->
  (Z.to_nat (find_conn addr lp rp s) < length (connections s))%nat.
Proof.
  intros H. unfold find_conn in *.
  pose proof (find_conn_from_range _ addr lp rp 0 H ltac:(lia)) as Hr.
  rewrite length_take in Hr. lia.
Qed.

(** *** What [send_tcp_packet] does to the state *)

Definition link_ready (s : net) : Prop :=
  available (status s) <> 0 /\ configured (config s) <> 0 /\
  is_Some (net_arp_lookup (gateway (config s)) s).

Definition gateway_mac (s : net) : list Z :=
  default [] (net_arp_lookup (gateway (config s)) s).

Lemma virtio_net_send_connections data len s :
  connections (virtio_net_send data len s).2 = connections s /\
  config (virtio_net_send data len s).2 = config s /\
  arp_cache (virtio_net_send data len s).2 = arp_cache s /\
  available (status (virtio_net_send data len s).2) = available (status s) /\
  mac (status (virtio_net_send data len s).2) = mac (status s) /\
  seed (virtio_net_send data len s).2 = seed s.
Proof. unfold virtio_net_send. destruct (_ || _); repeat split; reflexivity. Qed.

Lemma arp_request_connections target s :
  connections (net_send_arp_request target s) = connections s /\
  config (net_send_arp_request target s) = config s /\
  arp_cache (net_send_arp_request target s) = arp_cache s /\
  available (status (net_send_arp_request target s)) = available (status s) /\
  mac (status (net_send_arp_request target s)) = mac (status s) /\
  seed (net_send_arp_request target s) = seed s.
Proof.
  unfold net_send_arp_request. destruct (_ =? _); [repeat split; reflexivity|].
  apply virtio_net_send_connections.
Qed.

(** A pure acknowledgement changes no connection. *)
Lemma send_ack_connections idx s :
  connections (send_tcp_packet idx TCP_ACK [] 0 s) = connections s.
Proof.
  unfold send_tcp_packet. destruct (_ || _); [reflexivity|].
  destruct (net_arp_lookup _ s).
  - change (negb (Z.land TCP_ACK TCP_SYN =? 0)) with false.
    change (negb (Z.land TCP_ACK TCP_FIN =? 0)) with false.
    change (0 <? 0) with false. cbn iota.
    apply virtio_net_send_connections.
  - apply arp_request_connections.
Qed.

Lemma send_ack_log idx s :
  link_ready s ->
  tx_log (status (send_tcp_packet idx TCP_ACK [] 0 s)) =
  tx_log (status s) ++ [tcp_frame s idx (gateway_mac s) TCP_ACK [] 0].
Proof.
  intros (Ha & Hc & [m Hm]). unfold send_tcp_packet, gateway_mac.
  apply Z.eqb_neq in Ha. apply Z.eqb_neq in Hc. rewrite Ha, Hc, Hm. cbn [orb default].
  change (negb (Z.land TCP_ACK TCP_SYN =? 0)) with false.
  change (negb (Z.land TCP_ACK TCP_FIN =? 0)) with false.
  change (0 <? 0) with false. cbn iota.
  unfold virtio_net_send. rewrite Ha. cbn [orb].
  change (PACKET_BUF_SIZE - VIRTIO_NET_HDR_SIZE <? ETH_HLEN + (20 + 20 + 0)) with false.
  cbn iota. unfold id. cbn [tx_log snd status set_status]. reflexivity.
Qed.

(** *** The segment a frame carries *)

Lemma tcp_frame_shape s idx m flags :
  let f := tcp_frame s idx m flags [] 0 in
  length f = 54%nat /\ f !! 47%nat = Some (wrap8 flags) /\
  take 4 (drop 38 f) = be32 (seq_num (conn_at s idx)) /\
  take 4 (drop 42 f) = be32 (ack_num (conn_at s idx)).
Proof. repeat split; reflexivity. Qed.

Lemma wrap32_succ_neq (v : Z) : wrap32 (wrap32 v + 1) <> wrap32 v.
Proof.
  unfold wrap32. pose proof (Z.mod_pos_bound v (2^32) ltac:(lia)) as Hv.
  destruct (Z.eq_dec (v mod 2^32) (2^32 - 1)) as [E|E].
  - rewrite E. change ((2^32 - 1 + 1) mod 2^32) with 0. lia.
  - rewrite (Z.mod_small (v mod 2^32 + 1)) by lia. lia.
Qed.

Lemma link_ready_dec s : link_ready s \/ ~ link_ready s.
Proof.
  unfold link_ready.
  destruct (Z.eq_dec (available (status s)) 0); [right; tauto|].
  destruct (Z.eq_dec (configured (config s)) 0); [right; tauto|].
  destruct (net_arp_lookup (gateway (config s)) s) eqn:E.
  - left. split; [done|]. split; [done|]. eauto.
  - right. intros (_ & _ & [m Hm]). discriminate.
Qed.

(** Sending the SYN: either the link is ready, the frame is queued and
    the sequence number advances, or no connection changes. *)
Lemma send_syn_cases idx s :
  (link_ready s /\
   send_tcp_packet idx TCP_SYN [] 0 s =
     update_conn
       (set_status s
          (mk_nic (available (status s)) (mac (status s))
                  (tx_log (status s) ++ [tcp_frame s idx (gateway_mac s) TCP_SYN [] 0])))
       idx (fun c => set_seq_num c (wrap32 (seq_num c + 1))))
  \/
  (~ link_ready s /\
   connections (send_tcp_packet idx TCP_SYN [] 0 s) = connections s).
Proof.
  destruct (link_ready_dec s) as [Hr|Hn].
  - left. split; [done|]. destruct Hr as (Ha & Hc & [m Hm]).
    unfold send_tcp_packet, gateway_mac.
    apply Z.eqb_neq in Ha. apply Z.eqb_neq in Hc. rewrite Ha, Hc, Hm. cbn [orb default].
    change (negb (Z.land TCP_SYN TCP_SYN =? 0)) with true.
    change (negb (Z.land TCP_SYN TCP_FIN =? 0)) with false.
    change (0 <? 0) with false. cbn iota.
    unfold virtio_net_send. rewrite Ha. cbn [orb].
    change (PACKET_BUF_SIZE - VIRTIO_NET_HDR_SIZE <? ETH_HLEN + (20 + 20 + 0)) with false.
    cbn iota. unfold id. cbn [snd]. reflexivity.
  - right. split; [done|]. unfold send_tcp_packet.
    destruct (available (status s) =? 0) eqn:Ea; [reflexivity|].
    destruct (configured (config s) =? 0) eqn:Ec; [reflexivity|]. cbn [orb].
    destruct (net_arp_lookup (gateway (config s)) s) eqn:Em.
    + exfalso. apply Hn. apply Z.eqb_neq in Ea. apply Z.eqb_neq in Ec.
      split; [done|]. split; [done|]. eauto.
    + apply arp_request_connections.
Qed.

(** The transition of a connection in [SYN_SENT] on its SYN|ACK. *)
Lemma synack_establishes s idx src_ip tcp len iss :
  find_conn src_ip (get16 tcp 2) (get16 tcp 0) s = idx -> 0 <= idx ->
  state (conn_at s idx) = TCP_SYN_SENT ->
  seq_num (conn_at s idx) = wrap32 (iss + 1) ->
  Z.land (rd8 tcp 13) TCP_RST = 0 ->
  Z.land (rd8 tcp 13) (Z.lor TCP_SYN TCP_ACK) = Z.lor TCP_SYN TCP_ACK ->
  get32 tcp 8 = wrap32 (iss + 1) ->
  let s' := tcp_handle_packet src_ip tcp len s in
  state (conn_at s' idx) = TCP_ESTABLISHED /\
  ack_num (conn_at s' idx) = wrap32 (get32 tcp 4 + 1) /\
  seq_num (conn_at s' idx) = wrap32 (iss + 1) /\
  (link_ready s ->
   exists f, tx_log (status s') = tx_log (status s) ++ [f] /\
             length f = 54%nat /\ f !! 47%nat = Some TCP_ACK /\
             take 4 (drop 38 f) = be32 (wrap32 (iss + 1)) /\
             take 4 (drop 42 f) = be32 (wrap32 (get32 tcp 4 + 1))).
Proof.
  intros Hfind Hidx Hst Hseq Hrst Hflags Hack s'.
  assert (Hvalid : (Z.to_nat idx < length (connections s))%nat).
  { rewrite <- Hfind. apply find_conn_valid. lia. }
  unfold s', tcp_handle_packet. cbv zeta. rewrite Hfind, Hrst, Hflags.
  destruct (idx <? 0) eqn:E0; [apply Z.ltb_lt in E0; lia|].
  change (negb (0 =? 0)) with false. cbn iota.
  rewrite Hst. change (TCP_SYN_SENT =? TCP_SYN_SENT) with true. cbn iota.
  rewrite Z.eqb_refl.
  set (s1 := update_conn s idx (fun c => set_ack_num c (wrap32 (get32 tcp 4 + 1)))).
  assert (Hc1 : conn_at s1 idx = set_ack_num (conn_at s idx) (wrap32 (get32 tcp 4 + 1))).
  { unfold s1. now apply conn_at_update. }
  rewrite Hc1. cbn [seq_num set_ack_num]. rewrite Hseq, Hack, Z.eqb_refl.
  set (s2 := update_conn s1 idx (fun c => set_state c TCP_ESTABLISHED)).
  assert (Hv1 : (Z.to_nat idx < length (connections s1))%nat).
  { unfold s1. now rewrite update_conn_length. }
  assert (Hc2 : conn_at s2 idx = set_state (conn_at s1 idx) TCP_ESTABLISHED).
  { unfold s2. now apply conn_at_update. }
  assert (Hv2 : (Z.to_nat idx < length (connections s2))%nat).
  { unfold s2. now rewrite update_conn_length. }
  set (s3 := send_tcp_packet idx TCP_ACK [] 0 s2).
  assert (Hconn3 : connections s3 = connections s2) by apply send_ack_connections.
  assert (Hc3 : conn_at s3 idx = conn_at s2 idx).
  { unfold conn_at. now rewrite Hconn3. }
  assert (Hv3 : (Z.to_nat idx < length (connections s3))%nat) by now rewrite Hconn3.
  rewrite (conn_at_update s3 idx _ Hidx Hv3), Hc3, Hc2, Hc1.
  cbn [state ack_num seq_num set_last_ack_sent set_state set_ack_num].
  split; [reflexivity|]. split; [reflexivity|]. split; [exact Hseq|].
  intros Hready.
  assert (Hready2 : link_ready s2) by exact Hready.
  exists (tcp_frame s2 idx (gateway_mac s2) TCP_ACK [] 0).
  destruct (tcp_frame_shape s2 idx (gateway_mac s2) TCP_ACK) as (F1 & F2 & F3 & F4).
  cbv zeta in F1, F2, F3, F4.
  split; [|split; [exact F1|split; [exact F2|split]]].
  - change (tx_log (status (update_conn s3 idx
              (fun c => set_last_ack_sent c (ack_num c))))) with (tx_log (status s3)).
    unfold s3. rewrite send_ack_log by exact Hready2. reflexivity.
  - rewrite F3, Hc2, Hc1. cbn [seq_num set_state set_ack_num]. now rewrite Hseq.
  - rewrite F4, Hc2, Hc1. reflexivity.
Qed.

(** *** [tcp_connect] *)

Lemma find_free_conn_from_closed conns :
  forall i, 0 <= find_free_conn_from conns i -> 0 <= i ->
    exists c, conns !! Z.to_nat (find_free_conn_from conns i - i) = Some c /\
              state c = TCP_CLOSED.
Proof.
  induction conns as [|c conns IH]; intros i Hr Hi; simpl in *; [lia|].
  destruct (state c =? TCP_CLOSED) eqn:E.
  - exists c. rewrite Z.sub_diag. split; [reflexivity|]. now apply Z.eqb_eq.
  - destruct (IH (i + 1) Hr ltac:(lia)) as (c' & Hc' & Hs').
    pose proof (find_free_conn_from_range conns (i + 1) Hr ltac:(lia)) as Hrg.
    exists c'. split; [|exact Hs'].
    replace (Z.to_nat (find_free_conn_from conns (i + 1) - i))
      with (S (Z.to_nat (find_free_conn_from conns (i + 1) - (i + 1)))) by lia.
    exact Hc'.
Qed.

Lemma find_free_conn_closed s :
  0 <= find_free_conn s -> state (conn_at s (find_free_conn s)) = TCP_CLOSED.
Proof.
  intros H. unfold find_free_conn in *.
  destruct (find_free_conn_from_closed _ 0 H ltac:(lia)) as (c & Hc & Hs).
  rewrite Z.sub_0_r in Hc. apply lookup_take_Some in Hc as [Hc _].
  unfold conn_at. now rewrite Hc.
Qed.


(** *** Learning hardware addresses (net.c) *)

Definition set_arp_cache (s : net) (v : list arp_entry) : net :=
  mk_net (status s) (config s) v (active_dns_query s) (connections s)
         (next_local_port s) (tcp_ticks s) (seed s).

(** Index of the first entry that satisfies [p], counting from [i]. *)
Fixpoint arp_find (p : arp_entry -> bool) (entries : list arp_entry) (i : nat) : option nat :=
  match entries with
  | [] => None
  | e :: entries' => if p e then Some i else arp_find p entries' (S i)
  end.

(** [arp_add], which [handle_arp] calls for the sender of every ARP
    packet received: refresh the entry of a known address, else fill the
    first empty slot, else overwrite entry 0. *)
Definition arp_add (addr m : list Z) (s : net) : net :=
  let cache := take (Z.to_nat ARP_CACHE_SIZE) (arp_cache s) in
  match arp_find (fun e => negb (arp_valid e =? 0) && ip_match (arp_ip e) addr) cache 0 with
  | Some i =>
      set_arp_cache s
        (alter (fun e => mk_arp (arp_ip e) (bytes m 6) (arp_valid e)) i (arp_cache s))
  | None =>
      match arp_find (fun e => arp_valid e =? 0) cache 0 with
      | Some i =>
          set_arp_cache s (<[i := mk_arp (bytes addr 4) (bytes m 6) 1]> (arp_cache s))
      | None =>
          set_arp_cache s
            (alter (fun e => mk_arp (bytes addr 4) (bytes m 6) (arp_valid e)) 0%nat
                   (arp_cache s))
      end
  end.

(** The ARP cache plays no part in the connection table. *)
Lemma arp_add_connections addr m s :
  connections (arp_add addr m s) = connections s /\
  status (arp_add addr m s) = status s /\ config (arp_add addr m s) = config s /\
  seed (arp_add addr m s) = seed s.
Proof.
  unfold arp_add. cbv zeta. destruct (arp_find _ _ _); [repeat split; reflexivity|].
  destruct (arp_find _ _ _); repeat split; reflexivity.
Qed.

(** *** The SYN|ACK step *)

(** What [tcp_handle_packet] does with the SYN|ACK that acknowledges the
    SYN of a connection in [SYN_SENT]: three stores into the connection
    around one call of [send_tcp_packet]. *)
Lemma synack_step s idx src_ip tcp len iss :
  find_conn src_ip (get16 tcp 2) (get16 tcp 0) s = idx -> 0 <= idx ->
  state (conn_at s idx) = TCP_SYN_SENT ->
  seq_num (conn_at s idx) = wrap32 (iss + 1) ->
  Z.land (rd8 tcp 13) TCP_RST = 0 ->
  Z.land (rd8 tcp 13) (Z.lor TCP_SYN TCP_ACK) = Z.lor TCP_SYN TCP_ACK ->
  get32 tcp 8 = wrap32 (iss + 1) ->
  tcp_handle_packet src_ip tcp len s =
  update_conn
    (send_tcp_packet idx TCP_ACK [] 0
       (update_conn
          (update_conn s idx (fun c => set_ack_num c (wrap32 (get32 tcp 4 + 1))))
          idx (fun c => set_state c TCP_ESTABLISHED)))
    idx (fun c => set_last_ack_sent c (ack_num c)).
Proof.
  intros Hfind Hidx Hst Hseq Hrst Hflags Hack.
  assert (Hvalid : (Z.to_nat idx < length (connections s))%nat).
  { rewrite <- Hfind. apply find_conn_valid. lia. }
  unfold tcp_handle_packet. cbv zeta. rewrite Hfind, Hrst, Hflags.
  destruct (idx <? 0) eqn:E0; [apply Z.ltb_lt in E0; lia|].
  change (negb (0 =? 0)) with false. cbn iota.
  rewrite Hst. change (TCP_SYN_SENT =? TCP_SYN_SENT) with true. cbn iota.
  rewrite Z.eqb_refl.
  rewrite (conn_at_update s idx _ Hidx Hvalid).
  cbn [seq_num set_ack_num]. rewrite Hseq, Hack, Z.eqb_refl.
  reflexivity.
Qed.

(** A pure acknowledgement on a link that is not ready: nothing is sent
    when the interface is down or unconfigured, and an ARP request for
    the gateway, 42 bytes long, when only the gateway's hardware address
    is missing. *)
Lemma send_ack_log_not_ready idx s :
  ~ link_ready s ->
  let s' := send_tcp_packet idx TCP_ACK [] 0 s in
  ((available (status s) = 0 \/ configured (config s) = 0) /\
   tx_log (status s') = tx_log (status s))
  \/
  (available (status s) <> 0 /\ configured (config s) <> 0 /\
   net_arp_lookup (gateway (config s)) s = None /\
   exists f, tx_log (status s') = tx_log (status s) ++ [f] /\
             length f = 42%nat /\ take 2 (drop 12 f) = be16 ETH_P_ARP /\
             take 6 f = broadcast_mac).
Proof.
  intros Hn s'. unfold s', send_tcp_packet.
  destruct (available (status s) =? 0) eqn:Ea.
  { left. apply Z.eqb_eq in Ea. split; [now left|reflexivity]. }
  destruct (configured (config s) =? 0) eqn:Ec.
  { left. apply Z.eqb_eq in Ec. split; [now right|reflexivity]. }
  apply Z.eqb_neq in Ea. apply Z.eqb_neq in Ec. cbn [orb].
  destruct (net_arp_lookup (gateway (config s)) s) eqn:Em.
  { exfalso. apply Hn. split; [done|]. split; [done|]. eauto. }
  right. split; [done|]. split; [done|]. split; [reflexivity|].
  unfold net_send_arp_request, virtio_net_send.
  apply Z.eqb_neq in Ea. rewrite Ea. cbn [orb].
  change (PACKET_BUF_SIZE - VIRTIO_NET_HDR_SIZE <? ETH_HLEN + 28) with false.
  cbn iota. cbn [snd status set_status tx_log].
  eexists. split; [reflexivity|]. repeat split; reflexivity.
Qed.
(** What [tcp_connect] leaves behind when it returns a slot: the slot was
    closed, it is now in [SYN_SENT] with the chosen initial sequence
    number, advanced by one exactly when the SYN went out. *)
Lemma tcp_connect_slot addr port s idx s1 :
  tcp_connect addr port s = (idx, s1) -> 0 <= idx ->
  let iss := wrap32 (seed s * 1103515245 + 12345) in
  state (conn_at s idx) = TCP_CLOSED /\
  state (conn_at s1 idx) = TCP_SYN_SENT /\
  (Z.to_nat idx < length (connections s1))%nat /\
  ((link_ready s /\ link_ready s1 /\ seq_num (conn_at s1 idx) = wrap32 (iss + 1) /\
    exists syn, tx_log (status s1) = tx_log (status s) ++ [syn] /\
                length syn = 54%nat /\ syn !! 47%nat = Some TCP_SYN /\
                take 4 (drop 38 syn) = be32 iss)
   \/ (~ link_ready s /\ seq_num (conn_at s1 idx) = iss)).
Proof.
  intros Hc Hidx iss. unfold tcp_connect in Hc.
  destruct (configured (config s) =? 0) eqn:Ecfg;
    [apply pair_equal_spec in Hc as [Hi _]; lia|].
  destruct (find_free_conn s <? 0) eqn:Efree;
    [apply pair_equal_spec in Hc as [Hi _]; lia|].
  apply Z.ltb_ge in Efree.
  pose proof (find_free_conn_closed s Efree) as Hclosed.
  pose proof (find_free_conn_valid s Efree) as Hvalid.
  unfold get_initial_seq in Hc. cbv beta iota zeta in Hc.
  match type of Hc with
  | (_, send_tcp_packet _ _ _ _ (update_conn (set_seed ?s2 ?v) _ (fun _ => ?c))) = _ =>
      set (sa := s2) in *; set (conn := c) in *; set (sb := set_seed sa v) in *
  end.
  apply pair_equal_spec in Hc as [Hi Hs1].
  rewrite Hi in Hclosed, Hvalid, Hs1. clear Hi Efree.
  set (s3 := update_conn sb idx (fun _ => conn)) in *.
  change (send_tcp_packet idx TCP_SYN [] 0 s3 = s1) in Hs1.
  assert (Hsa : seed sa = seed s).
  { unfold sa. destruct (65000 <? _); reflexivity. }
  assert (Hconnsb : connections sb = connections s).
  { unfold sb, sa. destruct (65000 <? _); reflexivity. }
  assert (Hseq : seq_num conn = iss).
  { change (wrap32 (seed sa * 1103515245 + 12345) = iss). now rewrite Hsa. }
  assert (Hv3 : (Z.to_nat idx < length (connections sb))%nat) by now rewrite Hconnsb.
  assert (Hc3 : conn_at s3 idx = conn) by (unfold s3; now rewrite conn_at_update).
  assert (Hl3 : (Z.to_nat idx < length (connections s3))%nat).
  { unfold s3. now rewrite update_conn_length. }
  assert (Hready : link_ready s3 <-> link_ready s).
  { unfold s3, sb, sa, link_ready. destruct (65000 <? _); reflexivity. }
  assert (Hlog : tx_log (status s3) = tx_log (status s)).
  { unfold s3, sb, sa. destruct (65000 <? _); reflexivity. }
  split; [exact Hclosed|].
  destruct (send_syn_cases idx s3) as [(Hr & Heq)|(Hn & Heq)].
  - rewrite Heq in Hs1. clear Heq.
    match type of Hs1 with update_conn ?x _ _ = _ => set (s4 := x) in * end.
    assert (Hl4 : (Z.to_nat idx < length (connections s4))%nat) by exact Hl3.
    assert (Hc4 : conn_at s4 idx = conn) by exact Hc3.
    assert (Hc1 : conn_at s1 idx = set_seq_num conn (wrap32 (seq_num conn + 1))).
    { rewrite <- Hs1. rewrite conn_at_update by done. now rewrite Hc4. }
    rewrite Hc1. split; [reflexivity|]. split.
    { rewrite <- Hs1. now rewrite update_conn_length. }
    left. split; [now apply Hready|]. split.
    { rewrite <- Hs1. exact Hr. }
    split.
    { change (wrap32 (seq_num conn + 1) = wrap32 (iss + 1)). now rewrite Hseq. }
    exists (tcp_frame s3 idx (gateway_mac s3) TCP_SYN [] 0).
    destruct (tcp_frame_shape s3 idx (gateway_mac s3) TCP_SYN) as (F1 & F2 & F3 & F4).
    cbv zeta in F1, F2, F3, F4.
    split; [|split; [exact F1|split; [exact F2|]]].
    + rewrite <- Hs1. unfold s4. cbn [status update_conn set_connections set_status tx_log].
      now rewrite Hlog.
    + rewrite F3, Hc3. now rewrite Hseq.
  - assert (Hc1 : conn_at s1 idx = conn).
    { unfold conn_at. rewrite <- Hs1, Heq. exact Hc3. }
    rewrite Hc1. split; [reflexivity|]. split.
    { rewrite <- Hs1, Heq. exact Hl3. }
    right. split; [now rewrite <- Hready|].
    exact Hseq.
Qed.

(** C2 (as amended).  Three-way handshake.  Let [tcp_connect] return
    the slot [idx] with the SYN sent, so that the slot's sequence number
    is [iss + 1] for the initial sequence number [iss] the call drew: the
    slot was [CLOSED], is now [SYN_SENT], the SYN frame carrying [iss] is
    the one frame queued and the link is ready.  Let [t] be any state in
    which the slot is still [SYN_SENT] with sequence number [iss + 1].
    Every incoming segment that belongs to the slot, has SYN and ACK set
    (and RST clear) and acknowledges [iss + 1] then sets [ack_num] to the
    segment's sequence number plus one, moves the slot to [ESTABLISHED]
    and keeps [seq_num] at [iss + 1].  When the link is ready in [t]
    (interface up and configured, hardware address of the gateway
    cached) exactly one more frame is queued, a pure ACK carrying these
    two numbers.  When it is not, no ACK goes out: nothing is queued if
    the interface is down or unconfigured, and otherwise one ARP request
    for the gateway. *)
Theorem tcp_three_way_handshake addr port s idx s1 t src_ip tcp len :
  let iss := wrap32 (seed s * 1103515245 + 12345) in
  tcp_connect addr port s = (idx, s1) -> 0 <= idx ->
  seq_num (conn_at s1 idx) = wrap32 (iss + 1) ->
  state (conn_at t idx) = TCP_SYN_SENT ->
  seq_num (conn_at t idx) = wrap32 (iss + 1) ->
  find_conn src_ip (get16 tcp 2) (get16 tcp 0) t = idx ->
  Z.land (rd8 tcp 13) TCP_RST = 0 ->
  Z.land (rd8 tcp 13) (Z.lor TCP_SYN TCP_ACK) = Z.lor TCP_SYN TCP_ACK ->
  get32 tcp 8 = wrap32 (iss + 1) ->
  let t' := tcp_handle_packet src_ip tcp len t in
  state (conn_at s idx) = TCP_CLOSED /\
  state (conn_at s1 idx) = TCP_SYN_SENT /\
  link_ready s1 /\
  (exists syn, tx_log (status s1) = tx_log (status s) ++ [syn] /\
               length syn = 54%nat /\ syn !! 47%nat = Some TCP_SYN /\
               take 4 (drop 38 syn) = be32 iss) /\
  state (conn_at t' idx) = TCP_ESTABLISHED /\
  ack_num (conn_at t' idx) = wrap32 (get32 tcp 4 + 1) /\
  seq_num (conn_at t' idx) = wrap32 (iss + 1) /\
  (link_ready t ->
   exists ack, tx_log (status t') = tx_log (status t) ++ [ack] /\
               length ack = 54%nat /\ ack !! 47%nat = Some TCP_ACK /\
               take 4 (drop 38 ack) = be32 (wrap32 (iss + 1)) /\
               take 4 (drop 42 ack) = be32 (wrap32 (get32 tcp 4 + 1))) /\
  (~ link_ready t ->
   ((available (status t) = 0 \/ configured (config t) = 0) /\
    tx_log (status t') = tx_log (status t))
   \/
   (available (status t) <> 0 /\ configured (config t) <> 0 /\
    net_arp_lookup (gateway (config t)) t = None /\
    exists f, tx_log (status t') = tx_log (status t) ++ [f] /\
              length f = 42%nat /\ take 2 (drop 12 f) = be16 ETH_P_ARP /\
              take 6 f = broadcast_mac)).
Proof.
  intros iss Hconn Hidx Hseq Hst Hseqt Hfind Hrst Hflags Hack t'.
  destruct (tcp_connect_slot addr port s idx s1 Hconn Hidx)
    as (Hclosed & Hsent & Hlen & [(Hr & Hr1 & _ & Hsyn)|(_ & Hiss)]).
  - destruct (synack_establishes t idx src_ip tcp len iss
                Hfind Hidx Hst Hseqt Hrst Hflags Hack) as (He & Ha & Hs & Hlog).
    do 7 (split; [assumption|]). split; [exact Hlog|].
    intros Hn. unfold t'.
    rewrite (synack_step t idx src_ip tcp len iss Hfind Hidx Hst Hseqt Hrst Hflags Hack).
    set (t2 := update_conn (update_conn t idx _) idx _).
    assert (Hn2 : ~ link_ready t2) by exact Hn.
    exact (send_ack_log_not_ready idx t2 Hn2).
  - exfalso. rewrite Hiss in Hseq. symmetry in Hseq.
    exact (wrap32_succ_neq (seed s * 1103515245 + 12345) Hseq).
Qed.
(** A configured interface behind the gateway 10.0.2.2 whose hardware
    address is cached, all four slots closed. *)
Definition sample_net : net :=
  mk_net (mk_nic 1 [0x52; 0x54; 0; 0x12; 0x34; 0x56] [])
         (mk_config [10; 0; 2; 15] [255; 255; 255; 0] [10; 0; 2; 2] [10; 0; 2; 3] 1 3)
         (mk_arp [10; 0; 2; 2] [0x52; 0x55; 10; 0; 2; 2] 1
            :: replicate 7 (mk_arp [0; 0; 0; 0] [0; 0; 0; 0; 0; 0] 0))
         None (replicate 4 zero_conn) 49152 0 0x12345678.

Definition sample_peer : list Z := [93; 184; 216; 34].

(** The SYN|ACK of the peer: from port 80 to port 49152, sequence number
    1000, acknowledging [ack]. *)
Definition sample_synack (ack : Z) : list Z :=
  be16 80 ++ be16 49152 ++ be32 1000 ++ be32 ack ++ [0x50; 0x12] ++ be16 1000 ++ [0; 0; 0; 0].

(** Eight neighbours whose ARP packets arrive after the SYN has left:
    seven fill the empty slots of the cache, the eighth takes entry 0,
    where the gateway was. *)
Definition sample_neighbours : list (list Z * list Z) :=
  map (fun i => ([10; 0; 2; 100 + i], [0x52; 0x54; 0; 0; 0; i])) (seqZ 1 8).

Definition learn (ns : list (list Z * list Z)) (s : net) : net :=
  fold_left (fun st n => arp_add n.1 n.2 st) ns s.

(** The state after [tcp_connect] and the same state after the eight
    ARP packets. *)
Definition sample_syn_sent : net := snd (tcp_connect sample_peer 80 sample_net).
Definition sample_gateway_displaced : net := learn sample_neighbours sample_syn_sent.

Lemma tcp_three_way_handshake_witness :
  let iss := wrap32 (seed sample_net * 1103515245 + 12345) in
  let s1 := sample_syn_sent in
  let t := sample_gateway_displaced in
  let seg := sample_synack (wrap32 (iss + 1)) in
  (tcp_connect sample_peer 80 sample_net = (0, s1) /\ 0 <= 0 /\
   seq_num (conn_at s1 0) = wrap32 (iss + 1) /\
   state (conn_at t 0) = TCP_SYN_SENT /\
   seq_num (conn_at t 0) = wrap32 (iss + 1) /\
   find_conn sample_peer (get16 seg 2) (get16 seg 0) t = 0 /\
   find_conn sample_peer (get16 seg 2) (get16 seg 0) s1 = 0 /\
   Z.land (rd8 seg 13) TCP_RST = 0 /\
   Z.land (rd8 seg 13) (Z.lor TCP_SYN TCP_ACK) = Z.lor TCP_SYN TCP_ACK /\
   get32 seg 8 = wrap32 (iss + 1)) /\
  (let s2 := tcp_handle_packet sample_peer seg 20 s1 in
   state (conn_at s2 0) = TCP_ESTABLISHED /\ ack_num (conn_at s2 0) = 1001 /\
   exists ack, tx_log (status s2) = tx_log (status s1) ++ [ack] /\
               length ack = 54%nat /\ ack !! 47%nat = Some TCP_ACK) /\
  (let t' := tcp_handle_packet sample_peer seg 20 t in
   state (conn_at t' 0) = TCP_ESTABLISHED /\ ack_num (conn_at t' 0) = 1001).
Proof.
  intros iss s1 t seg.
  assert (H1 : tcp_connect sample_peer 80 sample_net = (0, s1)) by (vm_compute; reflexivity).
  assert (H2 : 0 <= 0) by lia.
  assert (H3 : seq_num (conn_at s1 0) = wrap32 (iss + 1)) by (vm_compute; reflexivity).
  assert (H3s : state (conn_at s1 0) = TCP_SYN_SENT) by (vm_compute; reflexivity).
  assert (T1 : state (conn_at t 0) = TCP_SYN_SENT) by (vm_compute; reflexivity).
  assert (T2 : seq_num (conn_at t 0) = wrap32 (iss + 1)) by (vm_compute; reflexivity).
  assert (T3 : find_conn sample_peer (get16 seg 2) (get16 seg 0) t = 0)
    by (vm_compute; reflexivity).
  assert (H4 : find_conn sample_peer (get16 seg 2) (get16 seg 0) s1 = 0)
    by (vm_compute; reflexivity).
  assert (H5 : Z.land (rd8 seg 13) TCP_RST = 0) by (vm_compute; reflexivity).
  assert (H6 : Z.land (rd8 seg 13) (Z.lor TCP_SYN TCP_ACK) = Z.lor TCP_SYN TCP_ACK)
    by (vm_compute; reflexivity).
  assert (H7 : get32 seg 8 = wrap32 (iss + 1)) by (vm_compute; reflexivity).
  split; [repeat (split; [assumption|]); assumption|].
  split.
  - destruct (tcp_three_way_handshake sample_peer 80 sample_net 0 s1 s1 sample_peer seg 20
                H1 H2 H3 H3s H3 H4 H5 H6 H7) as (_ & _ & Hr & _ & He & Ha & _ & Hlog & _).
    destruct (Hlog Hr) as (ack & L1 & L2 & L3 & _).
    split; [exact He|]. split; [rewrite Ha; vm_compute; reflexivity|].
    exists ack. split; [exact L1|]. split; [exact L2|exact L3].
  - destruct (tcp_three_way_handshake sample_peer 80 sample_net 0 s1 t sample_peer seg 20
                H1 H2 H3 T1 T2 T3 H5 H6 H7) as (_ & _ & _ & _ & He & Ha & _).
    split; [exact He|]. rewrite Ha. vm_compute. reflexivity.
Defined.

(** The handshake step as the design document has it: whenever the
    SYN|ACK of a connection made by [tcp_connect] is processed, an ACK
    segment is sent. *)
Definition synack_always_acknowledged : Prop :=
  forall addr port s idx s1 t src_ip tcp len,
    let iss := wrap32 (seed s * 1103515245 + 12345) in
    tcp_connect addr port s = (idx, s1) -> 0 <= idx ->
    seq_num (conn_at s1 idx) = wrap32 (iss + 1) ->
    state (conn_at t idx) = TCP_SYN_SENT ->
    seq_num (conn_at t idx) = wrap32 (iss + 1) ->
    find_conn src_ip (get16 tcp 2) (get16 tcp 0) t = idx ->
    Z.land (rd8 tcp 13) TCP_RST = 0 ->
    Z.land (rd8 tcp 13) (Z.lor TCP_SYN TCP_ACK) = Z.lor TCP_SYN TCP_ACK ->
    get32 tcp 8 = wrap32 (iss + 1) ->
    let t' := tcp_handle_packet src_ip tcp len t in
    state (conn_at t' idx) = TCP_ESTABLISHED /\
    ack_num (conn_at t' idx) = wrap32 (get32 tcp 4 + 1) /\
    exists ack, tx_log (status t') = tx_log (status t) ++ [ack] /\
                length ack = 54%nat /\ ack !! 47%nat = Some TCP_ACK.

(** C2, counterexample.  [tcp_connect] sends the SYN of slot 0; eight
    ARP packets then push the gateway out of the ARP cache; the SYN|ACK
    arrives.  The slot becomes [ESTABLISHED] with [ack_num = 1001], but
    [send_tcp_packet] finds no hardware address for the gateway: the one
    frame it queues is an ARP request of 42 bytes, and no ACK segment
    leaves. *)
Lemma tcp_synack_without_ack :
  let iss := wrap32 (seed sample_net * 1103515245 + 12345) in
  let s1 := sample_syn_sent in
  let t := sample_gateway_displaced in
  let seg := sample_synack (wrap32 (iss + 1)) in
  let t' := tcp_handle_packet sample_peer seg 20 t in
  tcp_connect sample_peer 80 sample_net = (0, s1) /\
  connections t = connections s1 /\
  state (conn_at t 0) = TCP_SYN_SENT /\
  seq_num (conn_at t 0) = wrap32 (iss + 1) /\
  net_arp_lookup (gateway (config t)) t = None /\
  state (conn_at t' 0) = TCP_ESTABLISHED /\
  ack_num (conn_at t' 0) = 1001 /\
  (exists f, tx_log (status t') = tx_log (status t) ++ [f] /\
             length f = 42%nat /\ take 2 (drop 12 f) = be16 ETH_P_ARP) /\
  Forall (fun f => f !! 47%nat <> Some TCP_ACK) (tx_log (status t')) /\
  ~ synack_always_acknowledged.
Proof.
  intros iss s1 t seg t'.
  assert (H1 : tcp_connect sample_peer 80 sample_net = (0, s1)) by (vm_compute; reflexivity).
  assert (H3 : seq_num (conn_at s1 0) = wrap32 (iss + 1)) by (vm_compute; reflexivity).
  assert (T1 : state (conn_at t 0) = TCP_SYN_SENT) by (vm_compute; reflexivity).
  assert (T2 : seq_num (conn_at t 0) = wrap32 (iss + 1)) by (vm_compute; reflexivity).
  assert (T3 : find_conn sample_peer (get16 seg 2) (get16 seg 0) t = 0)
    by (vm_compute; reflexivity).
  assert (H5 : Z.land (rd8 seg 13) TCP_RST = 0) by (vm_compute; reflexivity).
  assert (H6 : Z.land (rd8 seg 13) (Z.lor TCP_SYN TCP_ACK) = Z.lor TCP_SYN TCP_ACK)
    by (vm_compute; reflexivity).
  assert (H7 : get32 seg 8 = wrap32 (iss + 1)) by (vm_compute; reflexivity).
  assert (L : length (tx_log (status t')) = 2%nat) by (vm_compute; reflexivity).
  assert (Lt : length (tx_log (status t)) = 1%nat) by (vm_compute; reflexivity).
  assert (F : Forall (fun f => f !! 47%nat <> Some TCP_ACK) (tx_log (status t'))).
  { vm_compute. repeat constructor; discriminate. }
  split; [exact H1|]. split; [vm_compute; reflexivity|].
  split; [exact T1|]. split; [exact T2|]. split; [vm_compute; reflexivity|].
  split; [vm_compute; reflexivity|]. split; [vm_compute; reflexivity|].
  split.
  { eexists. split; [vm_compute; reflexivity|]. split; vm_compute; reflexivity. }
  split; [exact F|].
  intros Hall.
  destruct (Hall sample_peer 80 sample_net 0 s1 t sample_peer seg 20
              H1 ltac:(lia) H3 T1 T2 T3 H5 H6 H7) as (_ & _ & ack & E & _ & Hflag).
  fold t' in E. rewrite E in F. apply Forall_app in F as [_ F].
  apply Forall_cons in F as [F _]. exact (F Hflag).
Qed.
(** *** [tcp_recv] *)

(** What [tcp_recv] hands out is a function of the receive buffer and its
    fill level alone. *)
Lemma tcp_recv_view idx max_len s s2 :
  rx_buffer (conn_at s2 idx) = rx_buffer (conn_at s idx) ->
  rx_len (conn_at s2 idx) = rx_len (conn_at s idx) ->
  (tcp_recv idx max_len s2).1 = (tcp_recv idx max_len s).1.
Proof.
  intros Hb Hl. unfold tcp_recv. destruct (_ || _); [reflexivity|].
  cbv zeta. rewrite Hb, Hl. destruct (rx_len (conn_at s idx) =? 0); reflexivity.
Qed.

Lemma tcp_recv_nonempty idx max_len s :
  0 <= idx < MAX_TCP_CONNS -> rx_len (conn_at s idx) <> 0 ->
  let c := conn_at s idx in
  let n := Z.min (rx_len c) max_len in
  tcp_recv idx max_len s =
  (n, take (Z.to_nat n) (rx_buffer c),
   update_conn s idx (fun c0 =>
     set_rx c0
       (if n <? rx_len c
        then take (Z.to_nat (rx_len c - n)) (drop (Z.to_nat n) (rx_buffer c))
             ++ drop (Z.to_nat (rx_len c - n)) (rx_buffer c)
        else rx_buffer c)
       (rx_len c - n) (if 0 <? rx_len c - n then 1 else 0))).
Proof.
  intros [Hlo Hhi] Hne c n. unfold tcp_recv.
  destruct (idx <? 0) eqn:E1; [apply Z.ltb_lt in E1; lia|].
  destruct (MAX_TCP_CONNS <=? idx) eqn:E2; [apply Z.leb_le in E2; lia|].
  cbn [orb]. cbv zeta. fold c.
  destruct (rx_len c =? 0) eqn:E3; [apply Z.eqb_eq in E3; contradiction|].
  assert (Hn : (if max_len <? rx_len c then max_len else rx_len c) = n).
  { unfold n. destruct (max_len <? rx_len c) eqn:E4;
      [apply Z.ltb_lt in E4|apply Z.ltb_ge in E4]; lia. }
  rewrite Hn. reflexivity.
Qed.

Lemma tcp_recv_empty idx max_len s :
  0 <= idx < MAX_TCP_CONNS -> rx_len (conn_at s idx) = 0 ->
  tcp_recv idx max_len s = (0, [], s).
Proof.
  intros [Hlo Hhi] Hz. unfold tcp_recv.
  destruct (idx <? 0) eqn:E1; [apply Z.ltb_lt in E1; lia|].
  destruct (MAX_TCP_CONNS <=? idx) eqn:E2; [apply Z.leb_le in E2; lia|].
  cbn [orb]. cbv zeta. now rewrite Hz.
Qed.

(** No frame that leaves touches a receive buffer. *)
Definition same_rx (i : Z) (s s' : net) : Prop :=
  rx_buffer (conn_at s' i) = rx_buffer (conn_at s i) /\
  rx_len (conn_at s' i) = rx_len (conn_at s i) /\
  state (conn_at s' i) = state (conn_at s i) /\
  length (connections s') = length (connections s).

Lemma same_rx_seq i s s0 idx (v : tcp_conn_t -> Z) :
  same_rx i s s0 ->
  same_rx i s (update_conn s0 idx (fun c => set_seq_num c (v c))).
Proof.
  intros (A & B & C & D). unfold same_rx. rewrite update_conn_length.
  rewrite <- A, <- B, <- C, <- D. unfold conn_at, update_conn.
  cbn [connections set_connections].
  destruct (decide (Z.to_nat idx = Z.to_nat i)) as [E|E].
  - rewrite E, list_lookup_alter_eq. destruct (connections s0 !! Z.to_nat i); done.
  - rewrite list_lookup_alter_ne by done. done.
Qed.

Lemma same_rx_seq_if i s s0 idx (b : bool) (v : tcp_conn_t -> Z) :
  same_rx i s s0 ->
  same_rx i s (if b then update_conn s0 idx (fun c => set_seq_num c (v c)) else s0).
Proof. intros H. destruct b; [now apply same_rx_seq|exact H]. Qed.

Lemma send_tcp_packet_rx idx flags data data_len s i :
  same_rx i s (send_tcp_packet idx flags data data_len s).
Proof.
  unfold send_tcp_packet. destruct (_ || _); [done|].
  destruct (net_arp_lookup _ _).
  - cbv zeta. apply same_rx_seq_if with (v := fun c => wrap32 (seq_num c + data_len)).
    apply same_rx_seq_if with (v := fun c => wrap32 (seq_num c + 1)).
    apply same_rx_seq_if with (v := fun c => wrap32 (seq_num c + 1)).
    match goal with |- context [virtio_net_send ?f ?l s] =>
      pose proof (virtio_net_send_connections f l s) as (Hc & _) end.
    unfold same_rx, conn_at. now rewrite Hc.
  - destruct (arp_request_connections (gateway (config s)) s) as (Hc & _).
    unfold same_rx, conn_at. now rewrite Hc.
Qed.

Lemma tcp_handle_rst src_ip tcp len s idx :
  find_conn src_ip (get16 tcp 2) (get16 tcp 0) s = idx -> 0 <= idx ->
  Z.land (rd8 tcp 13) TCP_RST <> 0 ->
  tcp_handle_packet src_ip tcp len s = update_conn s idx (fun c => set_state c TCP_CLOSED).
Proof.
  intros Hf Hi Hr. unfold tcp_handle_packet. cbv zeta. rewrite Hf.
  destruct (idx <? 0) eqn:E; [apply Z.ltb_lt in E; lia|].
  apply Z.eqb_neq in Hr. now rewrite Hr.
Qed.

Lemma tcp_close_rx idx s :
  0 <= idx < MAX_TCP_CONNS -> (Z.to_nat idx < length (connections s))%nat ->
  rx_buffer (conn_at (tcp_close idx s) idx) = rx_buffer (conn_at s idx) /\
  rx_len (conn_at (tcp_close idx s) idx) = rx_len (conn_at s idx) /\
  (state (conn_at s idx) <> TCP_ESTABLISHED ->
   state (conn_at (tcp_close idx s) idx) = TCP_CLOSED).
Proof.
  intros [Hlo Hhi] Hv. unfold tcp_close.
  destruct (idx <? 0) eqn:E1; [apply Z.ltb_lt in E1; lia|].
  destruct (MAX_TCP_CONNS <=? idx) eqn:E2; [apply Z.leb_le in E2; lia|].
  cbn [orb]. destruct (state (conn_at s idx) =? TCP_ESTABLISHED) eqn:E3.
  - apply Z.eqb_eq in E3. cbv zeta.
    destruct (send_tcp_packet_rx idx (Z.lor TCP_FIN TCP_ACK) [] 0 s idx) as (A & B & _ & D).
    rewrite conn_at_update by (try rewrite D; done).
    cbn [rx_buffer rx_len set_timeout_tick set_state]. rewrite A, B. done.
  - rewrite conn_at_update by done. cbn [rx_buffer rx_len state set_state]. done.
Qed.

(** C9.  [tcp_recv] serves the receive buffer whatever the state of the
    connection.  For a valid slot holding [rx_len] bytes and a
    non-negative [max_len] it returns [min rx_len max_len], hands out
    that many leading bytes, moves the rest to the front of the buffer
    and leaves the state alone; with an empty buffer it returns 0 and
    changes nothing.  The result is the same in every state with the
    same buffer contents; in particular after a segment with RST, which
    closes the slot, and after [tcp_close]. *)
Theorem tcp_recv_ignores_state idx max_len s :
  0 <= idx < MAX_TCP_CONNS -> (Z.to_nat idx < length (connections s))%nat ->
  0 <= max_len ->
  0 <= rx_len (conn_at s idx) <= Z.of_nat (length (rx_buffer (conn_at s idx))) ->
  let c := conn_at s idx in
  let n := Z.min (rx_len c) max_len in
  let '(r, out, s') := tcp_recv idx max_len s in
  (r = n /\ out = take (Z.to_nat n) (rx_buffer c)) /\
  (rx_len (conn_at s' idx) = rx_len c - n /\
   take (Z.to_nat (rx_len c - n)) (rx_buffer (conn_at s' idx)) =
     take (Z.to_nat (rx_len c - n)) (drop (Z.to_nat n) (rx_buffer c)) /\
   state (conn_at s' idx) = state c) /\
  (rx_len c = 0 -> r = 0 /\ s' = s) /\
  (forall s2, rx_buffer (conn_at s2 idx) = rx_buffer c ->
              rx_len (conn_at s2 idx) = rx_len c ->
              (tcp_recv idx max_len s2).1 = (r, out)) /\
  (forall src_ip tcp len,
     find_conn src_ip (get16 tcp 2) (get16 tcp 0) s = idx ->
     Z.land (rd8 tcp 13) TCP_RST <> 0 ->
     let s2 := tcp_handle_packet src_ip tcp len s in
     state (conn_at s2 idx) = TCP_CLOSED /\ (tcp_recv idx max_len s2).1 = (r, out)) /\
  (let s2 := tcp_close idx s in
   (state c <> TCP_ESTABLISHED -> state (conn_at s2 idx) = TCP_CLOSED) /\
   (tcp_recv idx max_len s2).1 = (r, out)).
Proof.
  intros Hidx Hv Hmax [Hl0 Hl1] c n.
  change (conn_at s idx) with c in Hl0, Hl1.
  assert (Hview : forall s2, rx_buffer (conn_at s2 idx) = rx_buffer c ->
                             rx_len (conn_at s2 idx) = rx_len c ->
                             (tcp_recv idx max_len s2).1 = (tcp_recv idx max_len s).1).
  { intros s2 Hb Hl. now apply tcp_recv_view. }
  assert (Hrst : forall src_ip tcp len,
     find_conn src_ip (get16 tcp 2) (get16 tcp 0) s = idx ->
     Z.land (rd8 tcp 13) TCP_RST <> 0 ->
     state (conn_at (tcp_handle_packet src_ip tcp len s) idx) = TCP_CLOSED /\
     (tcp_recv idx max_len (tcp_handle_packet src_ip tcp len s)).1
       = (tcp_recv idx max_len s).1).
  { intros src_ip tcp len Hf Hr.
    rewrite (tcp_handle_rst src_ip tcp len s idx Hf (proj1 Hidx) Hr).
    split.
    - rewrite conn_at_update by (done || lia). reflexivity.
    - apply Hview; rewrite conn_at_update by (done || lia); reflexivity. }
  assert (Hclose : (state c <> TCP_ESTABLISHED -> state (conn_at (tcp_close idx s) idx) = TCP_CLOSED) /\
                   (tcp_recv idx max_len (tcp_close idx s)).1 = (tcp_recv idx max_len s).1).
  { destruct (tcp_close_rx idx s Hidx Hv) as (A & B & C).
    split; [exact C|]. now apply Hview. }
  destruct (Z.eq_dec (rx_len c) 0) as [Hz|Hnz].
  - rewrite (tcp_recv_empty idx max_len s Hidx Hz) in *. cbn [fst] in *.
    assert (Hn : n = 0) by (unfold n; lia).
    rewrite Hn, Hz. change (Z.to_nat 0) with 0%nat. change (0 - 0) with 0.
    change (Z.to_nat 0) with 0%nat. cbn [take].
    split; [done|]. split; [done|]. split; [done|].
    split; [intros s2 Hb Hl; apply Hview; [exact Hb|now rewrite Hz]|]. split.
    + intros src_ip tcp len Hf Hr. cbv zeta. now apply Hrst.
    + cbv zeta. exact Hclose.
  - rewrite (tcp_recv_nonempty idx max_len s Hidx Hnz) in *. fold c n in Hview, Hrst, Hclose |- *.
    cbn [fst] in *.
    rewrite conn_at_update by (done || lia). fold c.
    cbn [rx_len rx_buffer state set_rx].
    split; [done|]. split.
    { split; [reflexivity|]. split; [|reflexivity].
      destruct (n <? rx_len c) eqn:E; [apply Z.ltb_lt in E|apply Z.ltb_ge in E].
      - assert (Hn0 : 0 <= n) by (unfold n; lia).
        rewrite take_app_le by (rewrite length_take, length_drop; lia).
        rewrite take_take. f_equal. lia.
      - assert (Hn : n = rx_len c) by (unfold n in *; lia).
        rewrite Hn, Z.sub_diag. reflexivity. }
    split; [intros; contradiction|].
    split; [exact Hview|]. split.
    + intros src_ip tcp len Hf Hr. cbv zeta. now apply Hrst.
    + cbv zeta. exact Hclose.
Qed.

(** The sample connection, established, after the peer sent the two
    bytes "hi". *)
Definition sample_iss1 : Z := wrap32 (wrap32 (seed sample_net * 1103515245 + 12345) + 1).

Definition sample_established : net :=
  tcp_handle_packet sample_peer (sample_synack sample_iss1) 20
    (snd (tcp_connect sample_peer 80 sample_net)).

Definition sample_data_segment : list Z :=
  be16 80 ++ be16 49152 ++ be32 1001 ++ be32 sample_iss1 ++ [0x50; 0x18] ++
  be16 1000 ++ [0; 0; 0; 0] ++ [104; 105].

Definition sample_rst_segment : list Z :=
  be16 80 ++ be16 49152 ++ be32 1003 ++ be32 sample_iss1 ++ [0x50; 0x04] ++
  be16 0 ++ [0; 0; 0; 0].

Definition sample_with_data : net :=
  tcp_handle_packet sample_peer sample_data_segment 22 sample_established.

Lemma tcp_recv_ignores_state_witness :
  let s := sample_with_data in
  let s_rst := tcp_handle_packet sample_peer sample_rst_segment 20 s in
  (0 <= 0 < MAX_TCP_CONNS /\ (Z.to_nat 0 < length (connections s))%nat /\ 0 <= 1 /\
   0 <= rx_len (conn_at s 0) <= Z.of_nat (length (rx_buffer (conn_at s 0)))) /\
  state (conn_at s 0) = TCP_ESTABLISHED /\
  (tcp_recv 0 1 s).1 = (1, [104]) /\
  state (conn_at s_rst 0) = TCP_CLOSED /\
  (tcp_recv 0 1 s_rst).1 = (1, [104]).
Proof.
  intros s s_rst.
  assert (H1 : 0 <= 0 < MAX_TCP_CONNS) by (unfold MAX_TCP_CONNS; lia).
  assert (H2 : (Z.to_nat 0 < length (connections s))%nat) by (vm_compute; lia).
  assert (H3 : 0 <= 1) by lia.
  assert (H4 : 0 <= rx_len (conn_at s 0) <= Z.of_nat (length (rx_buffer (conn_at s 0))))
    by (vm_compute; split; discriminate).
  split; [repeat (split; [assumption|]); assumption|].
  split; [vm_compute; reflexivity|].
  pose proof (tcp_recv_ignores_state 0 1 s H1 H2 H3 H4) as T. cbv zeta in T.
  destruct (tcp_recv 0 1 s) as [[r out] s'] eqn:E.
  destruct T as ((Hr & Hout) & _ & _ & _ & Hrst & _).
  destruct (Hrst sample_peer sample_rst_segment 20) as (Hc & Hsame).
  { vm_compute. reflexivity. }
  { vm_compute. discriminate. }
  assert (Hval : (r, out) = (1, [104])).
  { rewrite Hr, Hout. vm_compute. reflexivity. }
  cbn [fst]. rewrite <- Hval. split; [reflexivity|]. split; [exact Hc|exact Hsame].
Defined.


(** *** Data segments *)

Lemma bytes_length l n : length (bytes l n) = n.
Proof. unfold bytes. now rewrite length_map, length_seq. Qed.



(** *** [tcp_send] *)

Lemma rd8_drop l a i : 0 <= i -> rd8 (drop a l) i = rd8 l (Z.of_nat a + i).
Proof.
  intros Hi. unfold rd8.
  rewrite (proj2 (Z.ltb_ge i 0)) by lia.
  rewrite (proj2 (Z.ltb_ge (Z.of_nat a + i) 0)) by lia.
  rewrite lookup_drop. do 3 f_equal. lia.
Qed.

Lemma bytes_lookup l n i :
  bytes l n !! i = if decide (i < n)%nat then Some (rd8 l (Z.of_nat i)) else None.
Proof.
  unfold bytes. rewrite list_lookup_fmap. destruct (decide (i < n)%nat) as [H|H].
  - rewrite lookup_seq_lt by exact H. reflexivity.
  - rewrite lookup_seq_ge by lia. reflexivity.
Qed.

Lemma bytes_app l (a b : nat) : bytes l (a + b) = bytes l a ++ bytes (drop a l) b.
Proof.
  apply list_eq. intros i. rewrite bytes_lookup.
  destruct (decide (i < a)%nat) as [Ha|Ha].
  - rewrite lookup_app_l by (rewrite bytes_length; exact Ha).
    rewrite bytes_lookup. destruct (decide (i < a + b)%nat); [|lia].
    destruct (decide (i < a)%nat); [reflexivity|lia].
  - rewrite lookup_app_r by (rewrite bytes_length; lia).
    rewrite bytes_length, bytes_lookup.
    destruct (decide (i < a + b)%nat); destruct (decide (i - a < b)%nat); try lia;
      [|reflexivity].
    rewrite rd8_drop by lia. do 2 f_equal. lia.
Qed.

(** A data segment of at most 1400 bytes over a ready link: the frame is
    queued and the sequence number advances by the payload length. *)
Lemma send_data_ready idx data n s :
  link_ready s -> 0 < n <= 1400 ->
  send_tcp_packet idx (Z.lor TCP_ACK TCP_PSH) data n s =
    update_conn
      (set_status s
         (mk_nic (available (status s)) (mac (status s))
            (tx_log (status s)
             ++ [tcp_frame s idx (gateway_mac s) (Z.lor TCP_ACK TCP_PSH) data n])))
      idx (fun c => set_seq_num c (wrap32 (seq_num c + n))).
Proof.
  intros (Ha & Hc & [m Hm]) Hn. unfold send_tcp_packet, gateway_mac.
  apply Z.eqb_neq in Ha. apply Z.eqb_neq in Hc. rewrite Ha, Hc, Hm. cbn [orb default].
  change (negb (Z.land (Z.lor TCP_ACK TCP_PSH) TCP_SYN =? 0)) with false.
  change (negb (Z.land (Z.lor TCP_ACK TCP_PSH) TCP_FIN =? 0)) with false.
  rewrite (proj2 (Z.ltb_lt 0 n)) by lia. cbv iota zeta.
  unfold virtio_net_send. rewrite Ha. cbn [orb].
  unfold PACKET_BUF_SIZE, VIRTIO_NET_HDR_SIZE, ETH_HLEN.
  rewrite (proj2 (Z.ltb_ge (2048 - 10) (14 + (20 + 20 + n)))) by lia.
  cbn [snd].
  assert (Hf : length (tcp_frame s idx m (Z.lor TCP_ACK TCP_PSH) data n)
               = Z.to_nat (14 + (20 + 20 + n))).
  { unfold tcp_frame. cbv zeta. rewrite (proj2 (Z.ltb_lt 0 n)) by lia.
    rewrite !length_app. cbn. rewrite bytes_length. lia. }
  rewrite <- Hf, firstn_all. reflexivity.
Qed.

Lemma tcp_frame_payload s idx m flags data n :
  0 < n ->
  drop 54 (tcp_frame s idx m flags data n) = bytes data (Z.to_nat n) /\
  take 4 (drop 38 (tcp_frame s idx m flags data n)) = be32 (seq_num (conn_at s idx)) /\
  length (tcp_frame s idx m flags data n) = (54 + Z.to_nat n)%nat.
Proof.
  intros Hn. unfold tcp_frame. cbv zeta. rewrite (proj2 (Z.ltb_lt 0 n)) by lia.
  split; [reflexivity|]. split; [reflexivity|].
  rewrite !length_app. cbn. rewrite bytes_length. lia.
Qed.

Lemma conn_at_update_ne s idx i g :
  Z.to_nat idx <> Z.to_nat i -> conn_at (update_conn s idx g) i = conn_at s i.
Proof.
  intros Hne. unfold conn_at, update_conn. cbn [connections set_connections].
  now rewrite list_lookup_alter_ne.
Qed.

Lemma tcp_send_loop_ready (fuel : nat) (idx : Z) (data : list Z) (len : Z) :
  forall sent s,
    link_ready s -> 0 <= idx -> (Z.to_nat idx < length (connections s))%nat ->
    0 <= seq_num (conn_at s idx) < 2^32 ->
    0 <= sent <= len -> (Z.to_nat (len - sent) <= fuel)%nat ->
    let r := tcp_send_loop fuel idx data len sent s in
    r.1 = len /\ link_ready r.2 /\
    conn_at r.2 idx =
      set_seq_num (conn_at s idx) (wrap32 (seq_num (conn_at s idx) + (len - sent))) /\
    (forall i, 0 <= i -> i <> idx -> conn_at r.2 i = conn_at s i) /\
    exists frames,
      tx_log (status r.2) = tx_log (status s) ++ frames /\
      Z.of_nat (length frames) = (len - sent + 1399) / 1400 /\
      concat (map (drop 54) frames) = bytes (drop (Z.to_nat sent) data) (Z.to_nat (len - sent)) /\
      (forall j f, frames !! j = Some f ->
         Z.of_nat (length f) = 54 + Z.min 1400 (len - sent - 1400 * Z.of_nat j) /\
         take 4 (drop 38 f) =
           be32 (wrap32 (seq_num (conn_at s idx) + 1400 * Z.of_nat j))).
Proof.
  induction fuel as [|fuel IH]; intros sent s Hr Hidx Hv Hseq Hs Hfuel r.
  - assert (sent = len) by lia. subst sent. subst r. cbn [tcp_send_loop fst snd].
    split; [reflexivity|]. split; [exact Hr|].
    split.
    { rewrite Z.sub_diag, Z.add_0_r, wrap32_small by exact Hseq.
      now destruct (conn_at s idx). }
    split; [reflexivity|].
    exists []. rewrite app_nil_r, Z.sub_diag. split; [reflexivity|].
    split; [reflexivity|]. split; [reflexivity|]. intros j f Hj. discriminate Hj.
  - subst r. cbn [tcp_send_loop]. destruct (sent <? len) eqn:E.
    + apply Z.ltb_lt in E. cbv zeta.
      set (chunk := if 1400 <? len - sent then 1400 else len - sent).
      assert (Hch : 0 < chunk <= 1400 /\ chunk = Z.min 1400 (len - sent)).
      { unfold chunk. destruct (1400 <? len - sent) eqn:E1;
          [apply Z.ltb_lt in E1|apply Z.ltb_ge in E1]; lia. }
      destruct Hch as [Hch Hmin].
      rewrite (send_data_ready idx (drop (Z.to_nat sent) data) chunk s Hr Hch).
      set (f0 := tcp_frame s idx (gateway_mac s) (Z.lor TCP_ACK TCP_PSH)
                   (drop (Z.to_nat sent) data) chunk).
      set (s1 := update_conn _ idx _).
      assert (Hc1 : conn_at s1 idx =
                set_seq_num (conn_at s idx) (wrap32 (seq_num (conn_at s idx) + chunk))).
      { unfold s1. rewrite conn_at_update by exact Hv || exact Hidx. reflexivity. }
      assert (Hv1 : (Z.to_nat idx < length (connections s1))%nat).
      { unfold s1. now rewrite update_conn_length. }
      assert (Hr1 : link_ready s1) by exact Hr.
      assert (Hseq1 : 0 <= seq_num (conn_at s1 idx) < 2^32).
      { rewrite Hc1. cbn [seq_num set_seq_num]. unfold wrap32.
        apply Z.mod_pos_bound. lia. }
      assert (Hother1 : forall i, 0 <= i -> i <> idx -> conn_at s1 i = conn_at s i).
      { intros i Hi Hne. unfold s1. rewrite conn_at_update_ne by lia. reflexivity. }
      assert (Hlog1 : tx_log (status s1) = tx_log (status s) ++ [f0]) by reflexivity.
      destruct (tcp_frame_payload s idx (gateway_mac s) (Z.lor TCP_ACK TCP_PSH)
                  (drop (Z.to_nat sent) data) chunk ltac:(lia)) as (P1 & P2 & P3).
      fold f0 in P1, P2, P3.
      destruct (IH (sent + chunk) s1 Hr1 Hidx Hv1 Hseq1 ltac:(lia) ltac:(lia))
        as (I1 & I2 & I3 & I4 & frames & F1 & F2 & F3 & F4).
      clearbody s1 f0.
      split; [exact I1|]. split; [exact I2|]. split.
      { rewrite I3, Hc1. unfold set_seq_num.
        cbn [state remote_ip local_port remote_port seq_num ack_num last_ack_sent rx_buffer
             rx_len rx_ready timeout_tick retries].
        f_equal. unfold wrap32. rewrite Zplus_mod_idemp_l. f_equal. lia. }
      split.
      { intros i Hi Hne. rewrite I4 by assumption. now apply Hother1. }
      exists (f0 :: frames). split; [rewrite F1, Hlog1, <- app_assoc; reflexivity|].
      assert (Hrest : len - (sent + chunk) = 0 \/ chunk = 1400) by lia.
      split.
      { cbn [length]. rewrite Nat2Z.inj_succ, F2.
        destruct Hrest as [H0|H14].
        - rewrite H0. change ((0 + 1399) / 1400) with 0.
          apply (Z.div_unique _ _ _ (len - sent - 1)); lia.
        - rewrite H14 in *.
          replace (len - sent + 1399) with (len - (sent + 1400) + 1399 + 1 * 1400) by lia.
          rewrite Z.div_add by lia. lia. }
      split.
      { cbn [map concat]. rewrite P1, F3.
        replace (Z.to_nat (len - sent)) with (Z.to_nat chunk + Z.to_nat (len - (sent + chunk)))%nat
          by lia.
        rewrite bytes_app, drop_drop. do 3 f_equal. lia. }
      intros j f Hj. destruct j as [|j].
      { injection Hj as <-. split.
        - rewrite P3. lia.
        - rewrite P2, Z.mul_0_r, Z.add_0_r, wrap32_small by exact Hseq. reflexivity. }
      cbn in Hj. destruct (F4 j f Hj) as [G1 G2].
      assert (Hne : len - (sent + chunk) <> 0).
      { intros H0. rewrite H0 in F2. change ((0 + 1399) / 1400) with 0 in F2.
        destruct frames; [discriminate Hj|cbn in F2; lia]. }
      assert (H14 : chunk = 1400) by lia. rewrite H14 in *.
      split.
      { rewrite G1. f_equal. f_equal. lia. }
      rewrite G2, Hc1. cbn [seq_num set_seq_num]. f_equal. unfold wrap32.
      rewrite Zplus_mod_idemp_l. f_equal. lia.
    + apply Z.ltb_ge in E. assert (sent = len) by lia. subst sent. cbn [fst snd].
      split; [reflexivity|]. split; [exact Hr|].
      split.
      { rewrite Z.sub_diag, Z.add_0_r, wrap32_small by exact Hseq.
        now destruct (conn_at s idx). }
      split; [reflexivity|].
      exists []. rewrite app_nil_r, Z.sub_diag. split; [reflexivity|].
      split; [reflexivity|]. split; [reflexivity|]. intros j f Hj. discriminate Hj.
Qed.

Lemma send_not_ready idx flags data n s :
  ~ link_ready s ->
  connections (send_tcp_packet idx flags data n s) = connections s /\
  ~ link_ready (send_tcp_packet idx flags data n s).
Proof.
  intros Hn. unfold send_tcp_packet.
  destruct (available (status s) =? 0) eqn:Ea; [split; [reflexivity|exact Hn]|].
  destruct (configured (config s) =? 0) eqn:Ec; [split; [reflexivity|exact Hn]|].
  cbn [orb]. destruct (net_arp_lookup (gateway (config s)) s) eqn:Em.
  - exfalso. apply Hn. apply Z.eqb_neq in Ea. apply Z.eqb_neq in Ec.
    split; [exact Ea|]. split; [exact Ec|]. eauto.
  - destruct (arp_request_connections (gateway (config s)) s) as (H1 & H2 & H3 & H4 & _).
    split; [exact H1|]. intros (Ra & Rc & Rm). apply Hn.
    unfold net_arp_lookup in *. rewrite H2, H3 in Rm. rewrite H2 in Rc. rewrite H4 in Ra.
    split; [exact Ra|]. split; [exact Rc|exact Rm].
Qed.

Lemma tcp_send_loop_not_ready (fuel : nat) (idx : Z) (data : list Z) (len : Z) :
  forall sent s,
    ~ link_ready s -> 0 <= sent <= len -> (Z.to_nat (len - sent) <= fuel)%nat ->
    (tcp_send_loop fuel idx data len sent s).1 = len /\
    connections (tcp_send_loop fuel idx data len sent s).2 = connections s.
Proof.
  induction fuel as [|fuel IH]; intros sent s Hn Hs Hfuel.
  - cbn [tcp_send_loop fst snd]. split; [lia|reflexivity].
  - cbn [tcp_send_loop]. destruct (sent <? len) eqn:E.
    + apply Z.ltb_lt in E. cbv zeta.
      set (chunk := if 1400 <? len - sent then 1400 else len - sent).
      assert (Hch : 0 < chunk <= len - sent).
      { unfold chunk. destruct (1400 <? len - sent) eqn:E1;
          [apply Z.ltb_lt in E1|apply Z.ltb_ge in E1]; lia. }
      destruct (send_not_ready idx (Z.lor TCP_ACK TCP_PSH) (drop (Z.to_nat sent) data)
                  chunk s Hn) as [Hc Hn1].
      destruct (IH (sent + chunk) _ Hn1 ltac:(lia) ltac:(lia)) as [I1 I2].
      split; [exact I1|]. now rewrite I2.
    + apply Z.ltb_ge in E. cbn [fst snd]. split; [lia|reflexivity].
Qed.

(** [tcp_send] on an established connection returns [len].  When the
    link is ready (driver up, interface configured, hardware address of
    the gateway cached) the data leaves in segments of at most 1400
    bytes: their payloads, in the order queued, are the [len] bytes of
    [data]; segment [j] carries the sequence number advanced by
    [1400 * j]; afterwards the sequence number of the connection has
    advanced by [len] and no other connection has changed.  When the
    link is not ready, no connection changes, so nothing has been sent
    although the call reports [len]. *)
Theorem tcp_send_segments (idx : Z) (data : list Z) (len : Z) (s : net) :
  0 <= idx < MAX_TCP_CONNS -> (Z.to_nat idx < length (connections s))%nat ->
  state (conn_at s idx) = TCP_ESTABLISHED ->
  0 <= seq_num (conn_at s idx) < 2^32 -> 0 <= len ->
  let r := tcp_send idx data len s in
  r.1 = len /\
  (link_ready s ->
   conn_at r.2 idx = set_seq_num (conn_at s idx) (wrap32 (seq_num (conn_at s idx) + len)) /\
   (forall i, 0 <= i -> i <> idx -> conn_at r.2 i = conn_at s i) /\
   exists frames,
     tx_log (status r.2) = tx_log (status s) ++ frames /\
     Z.of_nat (length frames) = (len + 1399) / 1400 /\
     concat (map (drop 54) frames) = bytes data (Z.to_nat len) /\
     (forall j f, frames !! j = Some f ->
        Z.of_nat (length f) = 54 + Z.min 1400 (len - 1400 * Z.of_nat j) /\
        take 4 (drop 38 f) = be32 (wrap32 (seq_num (conn_at s idx) + 1400 * Z.of_nat j)))) /\
  (~ link_ready s -> connections r.2 = connections s).
Proof.
  intros [Hlo Hhi] Hv Hst Hseq Hlen r. subst r. unfold tcp_send.
  rewrite (proj2 (Z.ltb_ge idx 0)) by lia.
  rewrite (proj2 (Z.leb_gt MAX_TCP_CONNS idx)) by lia. cbn [orb].
  rewrite Hst, Z.eqb_refl. cbn [negb].
  destruct (link_ready_dec s) as [Hr|Hn].
  - pose proof (tcp_send_loop_ready (Z.to_nat len) idx data len 0 s Hr Hlo Hv Hseq
                  ltac:(lia) ltac:(lia)) as H.
    cbv zeta in H. rewrite !Z.sub_0_r in H. change (Z.to_nat 0) with 0%nat in H.
    rewrite drop_0 in H.
    destruct H as (H1 & _ & H3 & H4 & frames & F1 & F2 & F3 & F4).
    split; [exact H1|]. split; [|intros Hn; contradiction].
    intros _. split; [exact H3|]. split; [exact H4|].
    exists frames. split; [exact F1|]. split; [exact F2|]. split; [exact F3|].
    intros j f Hj. exact (F4 j f Hj).
  - destruct (tcp_send_loop_not_ready (Z.to_nat len) idx data len 0 s Hn ltac:(lia) ltac:(lia))
      as [H1 H2].
    split; [exact H1|]. split; [intros Hr; contradiction|]. intros _. exact H2.
Qed.

Lemma sample_established_ready : link_ready sample_established.
Proof.
  split; [vm_compute; discriminate|]. split; [vm_compute; discriminate|].
  eexists. vm_compute. reflexivity.
Qed.

Lemma tcp_send_segments_witness :
  let data := replicate 3000 65 in
  let r := tcp_send 0 data 3000 sample_established in
  r.1 = 3000 /\
  exists frames,
    tx_log (status r.2) = tx_log (status sample_established) ++ frames /\
    Z.of_nat (length frames) = 3 /\
    concat (map (drop 54) frames) = bytes data 3000.
Proof.
  intros data r.
  destruct (tcp_send_segments 0 data 3000 sample_established
              ltac:(unfold MAX_TCP_CONNS; lia) ltac:(vm_compute; lia)
              ltac:(vm_compute; reflexivity) ltac:(vm_compute; split; [discriminate|reflexivity])
              ltac:(lia)) as (H1 & H2 & _).
  split; [exact H1|].
  destruct (H2 sample_established_ready) as (_ & _ & frames & F1 & F2 & F3 & _).
  exists frames. split; [exact F1|]. split; [exact F2|exact F3].
Defined.

(** *** Slots and ports of [tcp_connect] *)

Lemma find_free_conn_from_spec conns :
  forall i, 0 <= i ->
    (find_free_conn_from conns i = -1 /\ Forall (fun c => state c <> TCP_CLOSED) conns) \/
    (i <= find_free_conn_from conns i < i + Z.of_nat (length conns) /\
     forall j c, (j < Z.to_nat (find_free_conn_from conns i - i))%nat ->
                 conns !! j = Some c -> state c <> TCP_CLOSED).
Proof.
  induction conns as [|c conns IH]; intros i Hi; [left; split; [reflexivity|constructor]|].
  cbn [find_free_conn_from length]. destruct (state c =? TCP_CLOSED) eqn:E.
  - right. split; [lia|]. intros j c0 Hj. lia.
  - apply Z.eqb_neq in E. destruct (IH (i + 1) ltac:(lia)) as [[H1 H2]|[H1 H2]].
    + left. split; [exact H1|now constructor].
    + right. split; [lia|]. intros j c0 Hj Hc0. destruct j as [|j].
      * injection Hc0 as <-. exact E.
      * apply (H2 j c0); [lia|exact Hc0].
Qed.

(** Every outgoing frame leaves the addressing of the connections alone:
    [send_tcp_packet] changes at most the sequence number of its own
    connection. *)
Lemma send_tcp_packet_conn idx flags data n s i :
  0 <= idx -> 0 <= i ->
  exists v, conn_at (send_tcp_packet idx flags data n s) i =
            (if decide (i = idx) then set_seq_num (conn_at s i) v else conn_at s i) /\
            next_local_port (send_tcp_packet idx flags data n s) = next_local_port s.
Proof.
  intros Hidx Hi.
  assert (Hsame : exists v, conn_at s i =
            (if decide (i = idx) then set_seq_num (conn_at s i) v else conn_at s i)).
  { exists (seq_num (conn_at s i)). destruct (decide (i = idx)); [|reflexivity].
    now destruct (conn_at s i). }
  assert (Hupd : forall s0 (b : bool) (w : tcp_conn_t -> Z),
            (exists v, conn_at s0 i =
               (if decide (i = idx) then set_seq_num (conn_at s i) v else conn_at s i)) ->
            exists v, conn_at (if b then update_conn s0 idx (fun c => set_seq_num c (w c))
                               else s0) i =
               (if decide (i = idx) then set_seq_num (conn_at s i) v else conn_at s i)).
  { intros s0 b w [v Hv]. destruct b; [|eauto].
    destruct (decide (i = idx)) as [->|Hne].
    - unfold conn_at in *. unfold update_conn. cbn [connections set_connections].
      rewrite list_lookup_alter_eq.
      destruct (connections s0 !! Z.to_nat idx) as [c0|] eqn:E0; cbn [default option_map
        fmap option_fmap] in *.
      + exists (w c0). unfold id in *. rewrite Hv. reflexivity.
      + exists v. exact Hv.
    - exists v. rewrite conn_at_update_ne by lia. exact Hv. }
  unfold send_tcp_packet.
  destruct (_ || _); [destruct Hsame as [v Hv]; exists v; split; [exact Hv|reflexivity]|].
  destruct (net_arp_lookup _ s).
  - cbv zeta.
    match goal with |- context [virtio_net_send ?f ?l s] =>
      pose proof (virtio_net_send_connections f l s) as (Hc & _);
      assert (Hp : next_local_port (virtio_net_send f l s).2 = next_local_port s)
        by (unfold virtio_net_send; destruct (_ || _); reflexivity);
      set (s1 := (virtio_net_send f l s).2) in *
    end.
    assert (H1 : exists v, conn_at s1 i =
              (if decide (i = idx) then set_seq_num (conn_at s i) v else conn_at s i)).
    { destruct Hsame as [v Hv]. exists v. unfold conn_at at 1. rewrite Hc. exact Hv. }
    clearbody s1.
    pose proof (Hupd s1 (negb (Z.land flags TCP_SYN =? 0))
                  (fun c => wrap32 (seq_num c + 1)) H1) as H2.
    pose proof (Hupd _ (negb (Z.land flags TCP_FIN =? 0))
                  (fun c => wrap32 (seq_num c + 1)) H2) as H3.
    pose proof (Hupd _ (0 <? n) (fun c => wrap32 (seq_num c + n)) H3) as [v Hv].
    exists v. split; [exact Hv|].
    destruct (0 <? n); destruct (negb (Z.land flags TCP_FIN =? 0));
      destruct (negb (Z.land flags TCP_SYN =? 0)); exact Hp.
  - destruct (arp_request_connections (gateway (config s)) s) as (Hc & _).
    destruct Hsame as [v Hv]. exists v. split.
    + unfold conn_at at 1. rewrite Hc. exact Hv.
    + unfold net_send_arp_request. destruct (_ =? _); [reflexivity|].
      unfold virtio_net_send. destruct (_ || _); reflexivity.
Qed.

(** [tcp_connect] takes the lowest closed slot and the next local port.
    It fails, changing nothing, when the interface is not configured or
    when none of the [MAX_TCP_CONNS] slots is closed.  Otherwise the slot
    records the peer and the local port that was next, no other slot
    changes, and the next local port stays inside 49152..65000 and
    differs from the one just used. *)
Theorem tcp_connect_slot_and_port (addr : list Z) (port : Z) (s : net) :
  let r := tcp_connect addr port s in
  let idx := r.1 in
  (idx = -1 \/ 0 <= idx < MAX_TCP_CONNS) /\
  (idx = -1 -> r.2 = s) /\
  (configured (config s) = 0 -> idx = -1) /\
  ((forall i, 0 <= i < MAX_TCP_CONNS -> state (conn_at s i) <> TCP_CLOSED) -> idx = -1) /\
  (0 <= idx ->
   state (conn_at s idx) = TCP_CLOSED /\
   (forall i, 0 <= i < idx -> state (conn_at s i) <> TCP_CLOSED) /\
   state (conn_at r.2 idx) = TCP_SYN_SENT /\
   local_port (conn_at r.2 idx) = next_local_port s /\
   remote_port (conn_at r.2 idx) = wrap16 port /\
   remote_ip (conn_at r.2 idx) = bytes addr 4 /\
   rx_len (conn_at r.2 idx) = 0 /\
   (forall i, 0 <= i -> i <> idx -> conn_at r.2 i = conn_at s i) /\
   (49152 <= next_local_port s <= 65000 ->
    49152 <= next_local_port r.2 <= 65000 /\ next_local_port r.2 <> next_local_port s)).
Proof.
  intros r idx. subst idx r. unfold tcp_connect.
  destruct (configured (config s) =? 0) eqn:Ecfg.
  { cbn [fst snd]. split; [now left|]. split; [reflexivity|]. split; [reflexivity|].
    split; [reflexivity|]. intros H; lia. }
  apply Z.eqb_neq in Ecfg.
  pose proof (find_free_conn_from_spec (take (Z.to_nat MAX_TCP_CONNS) (connections s)) 0
                ltac:(lia)) as Hspec.
  fold (find_free_conn s) in Hspec.
  destruct (find_free_conn s <? 0) eqn:Efree.
  { apply Z.ltb_lt in Efree. cbn [fst snd]. split; [now left|]. split; [reflexivity|].
    split; [reflexivity|]. split; [reflexivity|]. intros H; lia. }
  apply Z.ltb_ge in Efree.
  destruct Hspec as [[H _]|[Hrange Hbelow]]; [lia|].
  rewrite length_take in Hrange. change (Z.to_nat MAX_TCP_CONNS) with 4%nat in *.
  rewrite Z.sub_0_r in Hbelow.
  pose proof (find_free_conn_closed s Efree) as Hclosed.
  pose proof (find_free_conn_valid s Efree) as Hvalid.
  set (idx := find_free_conn s) in *.
  unfold get_initial_seq. cbv beta iota zeta. cbn [fst snd].
  match goal with
  | |- context [send_tcp_packet idx TCP_SYN [] 0 (update_conn ?sb idx (fun _ => ?c))] =>
      set (conn := c); set (s2 := sb)
  end.
  assert (Hconn2 : connections s2 = connections s).
  { unfold s2. destruct (65000 <? _); reflexivity. }
  assert (Hport2 : next_local_port s2 =
            if 65000 <? wrap16 (next_local_port s + 1) then 49152
            else wrap16 (next_local_port s + 1)).
  { unfold s2. cbn [next_local_port set_next_local_port set_seed].
    destruct (65000 <? wrap16 (next_local_port s + 1)); reflexivity. }
  set (s3 := update_conn s2 idx (fun _ => conn)).
  assert (Hc3 : conn_at s3 idx = conn).
  { unfold s3. rewrite conn_at_update by (try rewrite Hconn2; assumption). reflexivity. }
  assert (Ho3 : forall i, 0 <= i -> i <> idx -> conn_at s3 i = conn_at s i).
  { intros i Hi Hne. unfold s3. rewrite conn_at_update_ne by lia.
    unfold conn_at. now rewrite Hconn2. }
  assert (Hp3 : next_local_port s3 = next_local_port s2) by reflexivity.
  clearbody s3.
  split; [right; unfold MAX_TCP_CONNS; lia|]. split; [intros H; lia|].
  split; [intros H; contradiction|].
  split.
  { intros Hall. exfalso. apply (Hall idx); [unfold MAX_TCP_CONNS; lia|exact Hclosed]. }
  intros _. split; [exact Hclosed|]. split.
  { intros i Hi. unfold conn_at.
    destruct (connections s !! Z.to_nat i) as [c|] eqn:Ec.
    - apply (Hbelow (Z.to_nat i) c); [lia|]. rewrite lookup_take_lt by lia. exact Ec.
    - apply lookup_ge_None_1 in Ec. lia. }
  destruct (send_tcp_packet_conn idx TCP_SYN [] 0 s3 idx Efree Efree) as (v & Hv & Hp).
  rewrite decide_True in Hv by reflexivity. rewrite Hc3 in Hv.
  rewrite Hv. cbn [state local_port remote_port remote_ip rx_len set_seq_num conn].
  split; [reflexivity|]. split.
  { unfold s2. destruct (65000 <? _); reflexivity. }
  split; [reflexivity|]. split; [reflexivity|]. split; [reflexivity|]. split.
  { intros i Hi Hne.
    destruct (send_tcp_packet_conn idx TCP_SYN [] 0 s3 i Efree Hi) as (w & Hw & _).
    rewrite decide_False in Hw by exact Hne. rewrite Hw. now apply Ho3. }
  intros Hport. rewrite Hp, Hp3, Hport2.
  destruct (Z.eq_dec (next_local_port s) 65000) as [E|E].
  - rewrite E. change (65000 <? wrap16 (65000 + 1)) with true. cbv iota. lia.
  - rewrite (wrap16_small (next_local_port s + 1)) by lia.
    rewrite (proj2 (Z.ltb_ge 65000 (next_local_port s + 1))) by lia. lia.
Qed.
(** ** DNS responses (net.c, [handle_dns_response]) *)

Definition set_q_state (q : dns_query_t) (v : Z) : dns_query_t :=
  mk_dns_query v (result_ip q) (query_id q) (q_timeout_tick q) (q_retry_tick q) (hostname q).
Definition set_result_ip (q : dns_query_t) (v : list Z) : dns_query_t :=
  mk_dns_query (q_state q) v (query_id q) (q_timeout_tick q) (q_retry_tick q) (hostname q).

(** The loop over the question name.  [p] and [e] are offsets into the
    packet for the pointers [p] and [end].  A round either leaves at a
    compression pointer or moves [p] forward by at least two bytes. *)
Fixpoint skip_qname (fuel : nat) (data : list Z) (e p : Z) : Z :=
  match fuel with
  | O => p
  | S fuel' =>
      if (p <? e) && negb (rd8 data p =? 0) then
        if Z.land (rd8 data p) 0xC0 =? 0xC0 then p + 2
        else skip_qname fuel' data e (p + (rd8 data p + 1))
      else p
  end.

(** The loop over the labels of the answer name. *)
Fixpoint skip_labels (fuel : nat) (data : list Z) (e p : Z) : Z :=
  match fuel with
  | O => p
  | S fuel' =>
      if (p <? e) && negb (rd8 data p =? 0)
      then skip_labels fuel' data e (p + (rd8 data p + 1))
      else p
  end.

(** Offset of the first answer's TYPE field, or [None] where the source
    returns before it reads it.  Both loops get [len] rounds. *)
Definition first_answer_fields (data : list Z) (len : Z) : option Z :=
  let e := len in
  let p := skip_qname (Z.to_nat len) data e 12 in
  let p := if (p <? e) && (rd8 data p =? 0) then p + 1 else p in
  let p := p + 4 in
  if e <? p + 12 then None
  else
    let p :=
      if Z.land (rd8 data p) 0xC0 =? 0xC0 then p + 2
      else
        let p := skip_labels (Z.to_nat len) data e p in
        if (p <? e) && (rd8 data p =? 0) then p + 1 else p in
    if e <? p + 10 then None else Some p.

Definition handle_dns_response (data : list Z) (len : Z) (s : net) : net :=
  if len <? 12 then s
  else
    match active_dns_query s with
    | None => s
    | Some q =>
        if negb (q_state q =? DNS_STATE_PENDING) then s
        else
          let id := wrap16 (get16 data 0) in
          if negb (id =? query_id q) then s
          else
            let flags := wrap16 (get16 data 2) in
            if Z.land flags 0x8000 =? 0 then s
            else if negb (Z.land flags 0x000F =? 0)
            then set_query s (Some (set_q_state q DNS_STATE_ERROR))
            else
              let ancount := wrap16 (get16 data 6) in
              if ancount =? 0
              then set_query s (Some (set_q_state q DNS_STATE_ERROR))
              else
                match first_answer_fields data len with
                | None => s
                | Some p =>
                    let atype := wrap16 (get16 data p) in
                    let rdlen := wrap16 (get16 data (p + 8)) in
                    let p := p + 10 in
                    if (atype =? 1) && (rdlen =? 4) && (p + 4 <=? len)
                    then set_query s
                           (Some (set_q_state
                                    (set_result_ip q (bytes (drop (Z.to_nat p) data) 4))
                                    DNS_STATE_DONE))
                    else set_query s (Some (set_q_state q DNS_STATE_ERROR))
                end
    end.

(** *** Fuel *)

Lemma rd8_range data i : 0 <= rd8 data i < 256.
Proof.
  unfold rd8. destruct (i <? 0); [lia|]. unfold wrap8.
  apply Z.mod_pos_bound. lia.
Qed.

(** Once the rounds cover the distance to [e], more rounds change
    nothing: the loops have run to their end. *)
Lemma skip_qname_fuel data e :
  forall f1 f2 p, (Z.to_nat (e - p) <= f1)%nat -> (Z.to_nat (e - p) <= f2)%nat ->
    skip_qname f1 data e p = skip_qname f2 data e p.
Proof.
  induction f1 as [|f1 IH]; intros f2 p H1 H2.
  - destruct f2 as [|f2]; [reflexivity|]. simpl.
    destruct (p <? e) eqn:E; [apply Z.ltb_lt in E; lia|]. reflexivity.
  - destruct f2 as [|f2]; simpl.
    + destruct (p <? e) eqn:E; [apply Z.ltb_lt in E; lia|]. reflexivity.
    + destruct (p <? e) eqn:E; [|reflexivity]. apply Z.ltb_lt in E.
      destruct (rd8 data p =? 0) eqn:E0; [reflexivity|]. cbn [negb andb].
      destruct (_ =? 0xC0); [reflexivity|].
      pose proof (rd8_range data p). apply IH; lia.
Qed.

Lemma skip_labels_fuel data e :
  forall f1 f2 p, (Z.to_nat (e - p) <= f1)%nat -> (Z.to_nat (e - p) <= f2)%nat ->
    skip_labels f1 data e p = skip_labels f2 data e p.
Proof.
  induction f1 as [|f1 IH]; intros f2 p H1 H2.
  - destruct f2 as [|f2]; [reflexivity|]. simpl.
    destruct (p <? e) eqn:E; [apply Z.ltb_lt in E; lia|]. reflexivity.
  - destruct f2 as [|f2]; simpl.
    + destruct (p <? e) eqn:E; [apply Z.ltb_lt in E; lia|]. reflexivity.
    + destruct (p <? e) eqn:E; [|reflexivity]. apply Z.ltb_lt in E.
      destruct (rd8 data p =? 0) eqn:E0; [reflexivity|]. cbn [negb andb].
      pose proof (rd8_range data p). apply IH; lia.
Qed.

(** *** Reading a packet that is known piecewise *)

Definition byte (b : Z) : Prop := 0 <= b < 256.

(** [segment data p l]: the bytes of [l] sit in [data] from offset [p]. *)
Definition segment (data : list Z) (p : Z) (l : list Z) : Prop :=
  exists pre post, data = pre ++ l ++ post /\ Z.of_nat (length pre) = p.

Lemma segment_tail data p l1 l2 :
  segment data p (l1 ++ l2) -> segment data (p + Z.of_nat (length l1)) l2.
Proof.
  intros (pre & post & -> & <-). exists (pre ++ l1), post.
  rewrite <- !app_assoc, length_app. split; [reflexivity|lia].
Qed.

Lemma segment_head data p l1 l2 : segment data p (l1 ++ l2) -> segment data p l1.
Proof.
  intros (pre & post & -> & <-). exists pre, (l2 ++ post).
  rewrite <- !app_assoc. split; reflexivity.
Qed.

Lemma segment_bound data p l :
  segment data p l -> 0 <= p /\ p + Z.of_nat (length l) <= Z.of_nat (length data).
Proof. intros (pre & post & -> & <-). rewrite !length_app. lia. Qed.

Lemma segment_rd8 data p x l : segment data p (x :: l) -> rd8 data p = wrap8 x.
Proof.
  intros (pre & post & -> & <-). unfold rd8.
  destruct (Z.of_nat (length pre) <? 0) eqn:E; [apply Z.ltb_lt in E; lia|].
  rewrite Nat2Z.id. cbn [app]. now rewrite list_lookup_middle.
Qed.

Lemma be16_get (v : Z) :
  0 <= v < 65536 ->
  Z.lor (Z.shiftl (wrap8 (Z.land (Z.shiftr v 8) 0xFF)) 8) (wrap8 (Z.land v 0xFF)) = v.
Proof.
  intros Hv. change 0xFF with (Z.ones 8). rewrite !Z.land_ones by lia.
  unfold wrap8. rewrite !Z.mod_mod by lia.
  apply Z.bits_inj'. intros n Hn. rewrite Z.lor_spec.
  destruct (Z.ltb_spec n 8) as [Hlt|Hge].
  - rewrite Z.shiftl_spec_low by lia. rewrite Z.mod_pow2_bits_low by lia. reflexivity.
  - rewrite Z.shiftl_spec_high by lia. rewrite (Z.mod_pow2_bits_high v 8 n) by lia.
    rewrite orb_false_r. destruct (Z.ltb_spec (n - 8) 8) as [Hlt'|Hge'].
    + rewrite Z.mod_pow2_bits_low by lia. rewrite Z.shiftr_spec by lia. f_equal. lia.
    + rewrite Z.mod_pow2_bits_high by lia.
      rewrite <- (Z.mod_small v (2^16)) by lia.
      now rewrite Z.mod_pow2_bits_high by lia.
Qed.

Lemma segment_get16 data p v l :
  segment data p (be16 v ++ l) -> 0 <= v < 65536 -> get16 data p = v.
Proof.
  intros Hs Hv. unfold get16. cbn [be16 app] in Hs.
  rewrite (segment_rd8 _ _ _ _ Hs).
  apply (segment_tail data p [_]) in Hs. cbn [length] in Hs.
  change (Z.of_nat 1) with 1 in Hs.
  rewrite (segment_rd8 _ _ _ _ Hs). now apply be16_get.
Qed.

Lemma segment_bytes data p l l' :
  segment data p (l ++ l') -> Forall byte l ->
  bytes (drop (Z.to_nat p) data) (length l) = l.
Proof.
  intros (pre & post & -> & <-) Hb. rewrite Nat2Z.id, drop_app_length.
  unfold bytes. clear pre. rewrite <- app_assoc.
  generalize (l' ++ post). intros rest.
  apply list_eq. intros i. rewrite list_lookup_fmap.
  destruct (decide (i < length l)%nat) as [Hi|Hi].
  - rewrite lookup_seq_lt by done. cbn [fmap option_fmap option_map plus].
    destruct (lookup_lt_is_Some_2 l i Hi) as [x Hx]. rewrite Hx. f_equal.
    unfold rd8. destruct (Z.of_nat i <? 0) eqn:E; [apply Z.ltb_lt in E; lia|].
    rewrite Nat2Z.id, lookup_app_l by done. rewrite Hx. cbn [default].
    apply wrap8_small. exact (Forall_lookup_1 _ _ _ _ Hb Hx).
  - rewrite lookup_seq_ge by lia. rewrite lookup_ge_None_2 by lia. reflexivity.
Qed.

(** *** The wire format of a response (RFC 1035), as the peer writes it *)

Fixpoint encode_labels (ls : list (list Z)) : list Z :=
  match ls with
  | [] => []
  | l :: ls' => Z.of_nat (length l) :: l ++ encode_labels ls'
  end.

Definition label_ok (l : list Z) : Prop := (1 <= length l <= 63)%nat.

(** A name is a sequence of labels closed by the root label, or a
    two-byte compression pointer. *)
Inductive wire_name :=
  | NameLabels (ls : list (list Z))
  | NamePointer (c lo : Z).

Definition encode_name (nm : wire_name) : list Z :=
  match nm with
  | NameLabels ls => encode_labels ls ++ [0]
  | NamePointer c lo => [c; lo]
  end.

Definition name_ok (nm : wire_name) : Prop :=
  match nm with
  | NameLabels ls => Forall label_ok ls
  | NamePointer c lo => byte c /\ Z.land c 0xC0 = 0xC0
  end.

Record dns_rr := mk_rr {
  rr_name : wire_name;
  rr_type : Z;
  rr_class : Z;
  rr_ttl : Z;
  rr_rdata : list Z
}.

Definition encode_rr (r : dns_rr) : list Z :=
  encode_name (rr_name r) ++ be16 (rr_type r) ++ be16 (rr_class r) ++ be32 (rr_ttl r) ++
  be16 (Z.of_nat (length (rr_rdata r))) ++ rr_rdata r.

Fixpoint encode_rrs (rs : list dns_rr) : list Z :=
  match rs with
  | [] => []
  | r :: rs' => encode_rr r ++ encode_rrs rs'
  end.

(** Header, one question, the answers. *)
Definition dns_message (id flags : Z) (qname : list (list Z)) (qtype qclass : Z)
    (answers : list dns_rr) : list Z :=
  (be16 id ++ be16 flags ++ be16 1 ++ be16 (Z.of_nat (length answers)) ++ be16 0 ++ be16 0) ++
  (encode_labels qname ++ [0] ++ be16 qtype ++ be16 qclass) ++
  encode_rrs answers.

Lemma small_no_pointer (n : Z) : 0 <= n < 64 -> Z.land n 0xC0 = 0.
Proof.
  intros Hn. apply Z.bits_inj'. intros i Hi.
  rewrite Z.land_spec, Z.bits_0. destruct (Z.ltb_spec i 6) as [Hlt|Hge].
  - change 0xC0 with (Z.shiftl 3 6). rewrite Z.shiftl_spec_low by lia. apply andb_false_r.
  - rewrite <- (Z.mod_small n (2^6)) by lia.
    now rewrite Z.mod_pow2_bits_high by lia.
Qed.

Lemma label_length_byte (l : list Z) :
  label_ok l ->
  wrap8 (Z.of_nat (length l)) = Z.of_nat (length l) /\ 1 <= Z.of_nat (length l) < 64.
Proof. intros [H1 H2]. split; [apply wrap8_small|]; lia. Qed.

Lemma skip_qname_labels data e ls :
  forall fuel p rest,
    segment data p (encode_labels ls ++ 0 :: rest) -> Forall label_ok ls ->
    p + Z.of_nat (length (encode_labels ls)) < e -> (length ls <= fuel)%nat ->
    skip_qname fuel data e p = p + Z.of_nat (length (encode_labels ls)).
Proof.
  induction ls as [|l ls IH]; intros fuel p rest Hs Hok He Hf.
  - cbn [encode_labels app length] in *. rewrite Z.add_0_r.
    destruct fuel; [reflexivity|]. simpl.
    rewrite (segment_rd8 _ _ _ _ Hs). change (wrap8 0 =? 0) with true.
    now rewrite andb_false_r.
  - destruct fuel as [|fuel]; [simpl in Hf; lia|].
    apply Forall_cons in Hok as [Hl Hok].
    destruct (label_length_byte l Hl) as [Hw Hr].
    cbn [encode_labels] in *. cbn [skip_qname].
    change ((Z.of_nat (length l) :: l ++ encode_labels ls) ++ 0 :: rest)
      with (Z.of_nat (length l) :: (l ++ encode_labels ls) ++ 0 :: rest) in Hs.
    rewrite (segment_rd8 _ _ _ _ Hs), Hw.
    cbn [length] in He. rewrite length_app in He.
    destruct (p <? e) eqn:E; [|apply Z.ltb_ge in E; lia].
    destruct (Z.of_nat (length l) =? 0) eqn:E0; [apply Z.eqb_eq in E0; lia|].
    cbn [andb negb]. rewrite small_no_pointer by lia. change (0 =? 0xC0) with false.
    cbn iota.
    change (Z.of_nat (length l) :: (l ++ encode_labels ls) ++ 0 :: rest)
      with ([Z.of_nat (length l)] ++ (l ++ encode_labels ls) ++ 0 :: rest) in Hs.
    rewrite <- (app_assoc l) in Hs. rewrite (app_assoc [_] l) in Hs.
    apply segment_tail in Hs. rewrite length_app in Hs. cbn [length] in Hs.
    replace (p + (Z.of_nat (length l) + 1)) with (p + Z.of_nat (1 + length l)) by lia.
    rewrite (IH fuel _ rest Hs Hok) by (simpl in Hf; lia).
    cbn [length]. rewrite length_app. lia.
Qed.

Lemma skip_labels_labels data e ls :
  forall fuel p rest,
    segment data p (encode_labels ls ++ 0 :: rest) -> Forall label_ok ls ->
    p + Z.of_nat (length (encode_labels ls)) < e -> (length ls <= fuel)%nat ->
    skip_labels fuel data e p = p + Z.of_nat (length (encode_labels ls)).
Proof.
  induction ls as [|l ls IH]; intros fuel p rest Hs Hok He Hf.
  - cbn [encode_labels app length] in *. rewrite Z.add_0_r.
    destruct fuel; [reflexivity|]. simpl.
    rewrite (segment_rd8 _ _ _ _ Hs). change (wrap8 0 =? 0) with true.
    now rewrite andb_false_r.
  - destruct fuel as [|fuel]; [simpl in Hf; lia|].
    apply Forall_cons in Hok as [Hl Hok].
    destruct (label_length_byte l Hl) as [Hw Hr].
    cbn [encode_labels] in *. cbn [skip_labels].
    change ((Z.of_nat (length l) :: l ++ encode_labels ls) ++ 0 :: rest)
      with (Z.of_nat (length l) :: (l ++ encode_labels ls) ++ 0 :: rest) in Hs.
    rewrite (segment_rd8 _ _ _ _ Hs), Hw.
    cbn [length] in He. rewrite length_app in He.
    destruct (p <? e) eqn:E; [|apply Z.ltb_ge in E; lia].
    destruct (Z.of_nat (length l) =? 0) eqn:E0; [apply Z.eqb_eq in E0; lia|].
    cbn [andb negb]. cbn iota.
    change (Z.of_nat (length l) :: (l ++ encode_labels ls) ++ 0 :: rest)
      with ([Z.of_nat (length l)] ++ (l ++ encode_labels ls) ++ 0 :: rest) in Hs.
    rewrite <- (app_assoc l) in Hs. rewrite (app_assoc [_] l) in Hs.
    apply segment_tail in Hs. rewrite length_app in Hs. cbn [length] in Hs.
    replace (p + (Z.of_nat (length l) + 1)) with (p + Z.of_nat (1 + length l)) by lia.
    rewrite (IH fuel _ rest Hs Hok) by (simpl in Hf; lia).
    cbn [length]. rewrite length_app. lia.
Qed.

Lemma encode_labels_length ls :
  Forall label_ok ls -> (length ls <= length (encode_labels ls))%nat.
Proof.
  induction 1 as [|l ls Hl _ IH]; [done|]. cbn [encode_labels length].
  rewrite length_app. lia.
Qed.

Lemma length_be16 v : length (be16 v) = 2%nat.
Proof. reflexivity. Qed.
Lemma length_be32 v : length (be32 v) = 4%nat.
Proof. reflexivity. Qed.

Lemma encode_rr_length r :
  length (encode_rr r) =
  (length (encode_name (rr_name r)) + 10 + length (rr_rdata r))%nat.
Proof. unfold encode_rr. rewrite !length_app, !length_be16, length_be32. lia. Qed.

(** The name of an answer is passed over whole. *)
Lemma skip_answer_name data e p nm rest fuel :
  segment data p (encode_name nm ++ rest) -> name_ok nm ->
  p + Z.of_nat (length (encode_name nm)) <= e ->
  (length (encode_name nm) <= fuel)%nat ->
  (if Z.land (rd8 data p) 0xC0 =? 0xC0 then p + 2
   else
     let p' := skip_labels fuel data e p in
     if (p' <? e) && (rd8 data p' =? 0) then p' + 1 else p')
  = p + Z.of_nat (length (encode_name nm)).
Proof.
  intros Hs Hok He Hf. destruct nm as [ls|c lo]; cbn [encode_name name_ok] in *.
  - rewrite <- app_assoc in Hs. cbn [app] in Hs. rewrite length_app in He, Hf |- *.
    cbn [length] in He, Hf |- *.
    assert (H0 : (Z.land (rd8 data p) 0xC0 =? 0xC0) = false).
    { destruct ls as [|l ls]; cbn [encode_labels app] in Hs.
      - now rewrite (segment_rd8 _ _ _ _ Hs).
      - apply Forall_cons in Hok as [Hl _].
        destruct (label_length_byte l Hl) as [Hw Hr].
        rewrite (segment_rd8 _ _ _ _ Hs), Hw, small_no_pointer by lia. reflexivity. }
    rewrite H0. cbv zeta.
    pose proof (encode_labels_length ls Hok) as Hlen.
    rewrite (skip_labels_labels data e ls fuel p rest Hs Hok) by lia.
    apply segment_tail in Hs. rewrite (segment_rd8 _ _ _ _ Hs).
    change (wrap8 0 =? 0) with true.
    destruct (_ <? e) eqn:E; [|apply Z.ltb_ge in E; lia]. cbn [andb]. lia.
  - destruct Hok as [Hc Hp]. cbn [app] in Hs.
    rewrite (segment_rd8 _ _ _ _ Hs), wrap8_small by exact Hc.
    rewrite Hp. reflexivity.
Qed.

Section Response.
  Variables (id flags : Z) (qname : list (list Z)) (qtype qclass : Z).
  Variables (a : dns_rr) (rest : list dns_rr).

Let msg := dns_message id flags qname qtype qclass (a :: rest).
Let len := Z.of_nat (length msg).
Let qend := 12 + Z.of_nat (length (encode_labels qname)) + 5.
Let fields := qend + Z.of_nat (length (encode_name (rr_name a))).

  Hypothesis Hq : Forall label_ok qname.
  Hypothesis Hname : name_ok (rr_name a).
  Hypothesis Hroom : (12 <= length (encode_rrs (a :: rest)))%nat.

Lemma response_length :
  len = qend + Z.of_nat (length (encode_rr a)) + Z.of_nat (length (encode_rrs rest)).
Proof.
  clear Hq Hname Hroom.
  unfold len, msg, dns_message, qend. cbn [encode_rrs].
  rewrite !length_app, !length_be16. cbn [length]. lia.
Qed.

Lemma response_question :
  segment msg 12
    (encode_labels qname ++ 0 :: (be16 qtype ++ be16 qclass) ++ encode_rrs (a :: rest)).
Proof.
  clear Hq Hname Hroom.
  exists (be16 id ++ be16 flags ++ be16 1 ++ be16 (Z.of_nat (length (a :: rest))) ++
          be16 0 ++ be16 0), [].
  split; [|reflexivity]. unfold msg, dns_message.
  rewrite app_nil_r, <- !app_assoc. reflexivity.
Qed.

Lemma response_answer : segment msg qend (encode_rr a ++ encode_rrs rest).
Proof.
  clear Hq Hname Hroom.
  exists ((be16 id ++ be16 flags ++ be16 1 ++ be16 (Z.of_nat (length (a :: rest))) ++
           be16 0 ++ be16 0) ++
          (encode_labels qname ++ [0] ++ be16 qtype ++ be16 qclass)), [].
  split.
  - unfold msg, dns_message. cbn [encode_rrs]. rewrite app_nil_r, <- !app_assoc. reflexivity.
  - unfold qend. rewrite !length_app, !length_be16. cbn [length]. lia.
Qed.

Lemma response_fields :
  segment msg fields
    (be16 (rr_type a) ++ be16 (rr_class a) ++ be32 (rr_ttl a) ++
     be16 (Z.of_nat (length (rr_rdata a))) ++ rr_rdata a ++ encode_rrs rest).
Proof.
  clear Hq Hname Hroom.
  pose proof response_answer as Hs. unfold encode_rr in Hs.
  rewrite <- !app_assoc in Hs. apply segment_tail in Hs. exact Hs.
Qed.

Lemma first_answer_fields_response :
  first_answer_fields msg len = Some fields.
Proof.
  pose proof response_length as Hlen. pose proof response_question as Hs.
  pose proof response_answer as Ha.
  pose proof (encode_labels_length qname Hq) as Hql.
  pose proof (encode_rr_length a) as Hal.
  assert (Hroom' : (12 <= length (encode_rr a) + length (encode_rrs rest))%nat).
  { cbn [encode_rrs] in Hroom. now rewrite length_app in Hroom. }
  unfold first_answer_fields. cbv zeta.
  rewrite (skip_qname_labels msg len qname _ 12 _ Hs Hq) by (unfold qend in *; lia).
  apply segment_tail in Hs. rewrite (segment_rd8 _ _ _ _ Hs).
  change (wrap8 0 =? 0) with true.
  destruct (_ <? len) eqn:E; [|apply Z.ltb_ge in E; unfold qend in *; lia]. cbn [andb].
  replace (12 + Z.of_nat (length (encode_labels qname)) + 1 + 4) with qend
    by (unfold qend; lia).
  destruct (len <? qend + 12) eqn:E1; [apply Z.ltb_lt in E1; lia|].
  unfold encode_rr in Ha. rewrite <- !app_assoc in Ha.
  rewrite (skip_answer_name msg len qend (rr_name a) _ _ Ha Hname) by lia.
  fold fields. destruct (len <? fields + 10) eqn:E2; [|reflexivity].
  apply Z.ltb_lt in E2. unfold fields in E2. lia.
Qed.

End Response.

Lemma response_header id flags qname qtype qclass answers :
  0 <= id < 65536 -> 0 <= flags < 65536 -> Z.of_nat (length answers) < 65536 ->
  let msg := dns_message id flags qname qtype qclass answers in
  get16 msg 0 = id /\ get16 msg 2 = flags /\ get16 msg 6 = Z.of_nat (length answers).
Proof.
  intros Hid Hfl Han msg. repeat split.
  - eapply segment_get16; [|exact Hid]. exists [], []. split; [|reflexivity].
    unfold msg, dns_message. rewrite app_nil_r, <- !app_assoc. reflexivity.
  - eapply segment_get16; [|exact Hfl]. exists (be16 id), []. split; [|reflexivity].
    unfold msg, dns_message. rewrite app_nil_r, <- !app_assoc. reflexivity.
  - eapply segment_get16; [|lia]. exists (be16 id ++ be16 flags ++ be16 1), [].
    split; [|reflexivity].
    unfold msg, dns_message. rewrite app_nil_r, <- !app_assoc. reflexivity.
Qed.

Lemma dns_response_first_answer s q flags qname qtype qclass a rest :
  active_dns_query s = Some q -> q_state q = DNS_STATE_PENDING ->
  0 <= query_id q < 65536 ->
  0 <= flags < 65536 -> Z.land flags 0x8000 <> 0 -> Z.land flags 0x000F = 0 ->
  Forall label_ok qname -> name_ok (rr_name a) -> 0 <= rr_type a < 65536 ->
  Forall byte (rr_rdata a) -> Z.of_nat (length (rr_rdata a)) < 65536 ->
  Z.of_nat (length (a :: rest)) < 65536 ->
  (12 <= length (encode_rrs (a :: rest)))%nat ->
  let msg := dns_message (query_id q) flags qname qtype qclass (a :: rest) in
  handle_dns_response msg (Z.of_nat (length msg)) s =
  set_query s (Some (if (rr_type a =? 1) && (Z.of_nat (length (rr_rdata a)) =? 4)
                     then set_q_state (set_result_ip q (rr_rdata a)) DNS_STATE_DONE
                     else set_q_state q DNS_STATE_ERROR)).
Proof.
  intros Hs Hp Hid Hfl Hqr Hrc Hq Hname Hty Hrd Hrl Han Hroom msg.
  destruct (response_header (query_id q) flags qname qtype qclass (a :: rest) Hid Hfl Han)
    as (G0 & G2 & G6). fold msg in G0, G2, G6.
  pose proof (response_length (query_id q) flags qname qtype qclass a rest) as Hlen.
  pose proof (response_fields (query_id q) flags qname qtype qclass a rest) as Hf.
  pose proof (first_answer_fields_response (query_id q) flags qname qtype qclass a rest
                Hq Hname Hroom) as Hfa.
  cbv zeta in Hlen, Hf, Hfa. fold msg in Hlen, Hf, Hfa.
  set (fields := 12 + Z.of_nat (length (encode_labels qname)) + 5 +
                 Z.of_nat (length (encode_name (rr_name a)))) in *.
  unfold handle_dns_response.
  destruct (Z.of_nat (length msg) <? 12) eqn:E; [apply Z.ltb_lt in E; lia|].
  rewrite Hs, Hp. change (negb (DNS_STATE_PENDING =? DNS_STATE_PENDING)) with false.
  cbv zeta. cbn iota. rewrite G0, G2, G6, !wrap16_small by (cbn [length] in *; lia).
  rewrite Z.eqb_refl. cbn [negb].
  apply Z.eqb_neq in Hqr. rewrite Hqr, Hrc. cbn [negb Z.eqb].
  destruct (Z.of_nat (length (a :: rest)) =? 0) eqn:E0;
    [apply Z.eqb_eq in E0; cbn [length] in E0; lia|].
  rewrite Hfa. rewrite (segment_get16 _ _ _ _ Hf Hty), wrap16_small by lia.
  apply (segment_tail msg fields (be16 _ ++ be16 _ ++ be32 _)) in Hf.
  change (Z.of_nat (length (be16 (rr_type a) ++ be16 (rr_class a) ++ be32 (rr_ttl a))))
    with 8 in Hf.
  rewrite (segment_get16 _ _ _ _ Hf) by lia. rewrite wrap16_small by lia.
  apply (segment_tail msg (fields + 8) (be16 _)) in Hf.
  change (Z.of_nat (length (be16 (Z.of_nat (length (rr_rdata a)))))) with 2 in Hf.
  replace (fields + 8 + 2) with (fields + 10) in Hf by lia.
  destruct (rr_type a =? 1); [|reflexivity]. cbn [andb].
  destruct (Z.of_nat (length (rr_rdata a)) =? 4) eqn:E4; [|reflexivity].
  apply Z.eqb_eq in E4. cbn [andb].
  pose proof (segment_bound _ _ _ (segment_head _ _ _ _ Hf)) as [_ Hb].
  destruct (fields + 10 + 4 <=? Z.of_nat (length msg)) eqn:E5;
    [|apply Z.leb_gt in E5; lia].
  pose proof (segment_bytes _ _ _ _ Hf Hrd) as Hby.
  replace (length (rr_rdata a)) with 4%nat in Hby by lia.
  rewrite Hby. reflexivity.
Qed.

(** The sentence of the design document, read over well-formed responses:
    whenever some answer record has type A and carries four bytes, the
    pending query ends [done] with the address of that record. *)
Definition any_a_record_resolves : Prop :=
  forall s q flags qname qtype qclass answers r,
    active_dns_query s = Some q -> q_state q = DNS_STATE_PENDING ->
    0 <= query_id q < 65536 ->
    0 <= flags < 65536 -> Z.land flags 0x8000 <> 0 -> Z.land flags 0x000F = 0 ->
    Forall label_ok qname ->
    Forall (fun x => name_ok (rr_name x) /\ 0 <= rr_type x < 65536 /\
                     Forall byte (rr_rdata x)) answers ->
    r ∈ answers -> rr_type r = 1 -> length (rr_rdata r) = 4%nat ->
    let msg := dns_message (query_id q) flags qname qtype qclass answers in
    exists q', active_dns_query (handle_dns_response msg (Z.of_nat (length msg)) s) = Some q' /\
               q_state q' = DNS_STATE_DONE /\ result_ip q' = rr_rdata r.

(** C6 (as amended).  A pending active query and a received datagram:
    - shorter than 12 bytes, with another id, or without the response
      bit: nothing changes;
    - a response with the query's id and RCODE <> 0 or ANCOUNT = 0: the
      query goes to [error];
    - a well-formed response with the query's id and RCODE = 0: the first
      answer record alone decides; type A with four bytes of data gives
      [done] with that address, any other first record gives [error],
      whatever the records behind it are. *)
Theorem dns_first_answer_decides s q :
  active_dns_query s = Some q -> q_state q = DNS_STATE_PENDING ->
  0 <= query_id q < 65536 ->
  (forall data len,
     len < 12 \/ wrap16 (get16 data 0) <> query_id q \/
     Z.land (wrap16 (get16 data 2)) 0x8000 = 0 ->
     handle_dns_response data len s = s) /\
  (forall data len,
     12 <= len -> wrap16 (get16 data 0) = query_id q ->
     Z.land (wrap16 (get16 data 2)) 0x8000 <> 0 ->
     Z.land (wrap16 (get16 data 2)) 0x000F <> 0 \/ wrap16 (get16 data 6) = 0 ->
     handle_dns_response data len s = set_query s (Some (set_q_state q DNS_STATE_ERROR))) /\
  (forall flags qname qtype qclass a rest,
     0 <= flags < 65536 -> Z.land flags 0x8000 <> 0 -> Z.land flags 0x000F = 0 ->
     Forall label_ok qname -> name_ok (rr_name a) -> 0 <= rr_type a < 65536 ->
     Forall byte (rr_rdata a) -> Z.of_nat (length (rr_rdata a)) < 65536 ->
     Z.of_nat (length (a :: rest)) < 65536 ->
     (12 <= length (encode_rrs (a :: rest)))%nat ->
     let msg := dns_message (query_id q) flags qname qtype qclass (a :: rest) in
     handle_dns_response msg (Z.of_nat (length msg)) s =
     set_query s (Some (if (rr_type a =? 1) && (Z.of_nat (length (rr_rdata a)) =? 4)
                        then set_q_state (set_result_ip q (rr_rdata a)) DNS_STATE_DONE
                        else set_q_state q DNS_STATE_ERROR))).
Proof.
  intros Hs Hp Hid. split; [|split].
  - intros data len H. unfold handle_dns_response.
    destruct (len <? 12) eqn:E; [reflexivity|]. apply Z.ltb_ge in E.
    rewrite Hs, Hp. change (negb (DNS_STATE_PENDING =? DNS_STATE_PENDING)) with false.
    cbv zeta. cbn iota.
    destruct (wrap16 (get16 data 0) =? query_id q) eqn:E1; [|reflexivity].
    apply Z.eqb_eq in E1. cbn [negb].
    destruct (Z.land (wrap16 (get16 data 2)) 0x8000 =? 0) eqn:E2; [reflexivity|].
    apply Z.eqb_neq in E2. lia.
  - intros data len Hlen Hi Hqr H. unfold handle_dns_response.
    destruct (len <? 12) eqn:E; [apply Z.ltb_lt in E; lia|].
    rewrite Hs, Hp. change (negb (DNS_STATE_PENDING =? DNS_STATE_PENDING)) with false.
    cbv zeta. cbn iota. rewrite Hi, Z.eqb_refl. cbn [negb].
    apply Z.eqb_neq in Hqr. rewrite Hqr.
    destruct (Z.land (wrap16 (get16 data 2)) 0x000F =? 0) eqn:E1; [|reflexivity].
    apply Z.eqb_eq in E1. cbn [negb]. destruct H as [H|H]; [contradiction|].
    now rewrite H.
  - intros flags qname qtype qclass a rest Hfl Hqr Hrc Hq Hn Hty Hrd Hrl Han Hroom.
    now apply dns_response_first_answer.
Qed.

(** A query for an address, pending with id 7. *)
Definition sample_query : dns_query_t :=
  mk_dns_query DNS_STATE_PENDING [0; 0; 0; 0] 7 30000 1000 [119; 119; 119; 46; 101; 120; 0].

Definition sample_dns_net : net := set_query sample_net (Some sample_query).

(** An alias record and an address record, both naming the question by
    a pointer to offset 12. *)
Definition sample_cname : dns_rr :=
  mk_rr (NamePointer 0xC0 12) 5 1 60 [1; 97; 0xC0; 16].
Definition sample_a : dns_rr :=
  mk_rr (NamePointer 0xC0 12) 1 1 60 [93; 184; 216; 34].

Definition sample_qname : list (list Z) := [[119; 119; 119]; [101; 120]].

Lemma dns_first_answer_decides_witness :
  (active_dns_query sample_dns_net = Some sample_query /\
   q_state sample_query = DNS_STATE_PENDING /\ 0 <= query_id sample_query < 65536) /\
  let msg := dns_message 7 0x8180 sample_qname 1 1 [sample_a] in
  active_dns_query (handle_dns_response msg (Z.of_nat (length msg)) sample_dns_net) =
  Some (mk_dns_query DNS_STATE_DONE [93; 184; 216; 34] 7 30000 1000
          [119; 119; 119; 46; 101; 120; 0]).
Proof.
  assert (H1 : active_dns_query sample_dns_net = Some sample_query) by reflexivity.
  assert (H2 : q_state sample_query = DNS_STATE_PENDING) by reflexivity.
  assert (H3 : 0 <= query_id sample_query < 65536) by (cbn; lia).
  split; [split; [exact H1|split; [exact H2|exact H3]]|].
  destruct (dns_first_answer_decides sample_dns_net sample_query H1 H2 H3) as (_ & _ & T).
  intros msg. unfold msg.
  change 7 with (query_id sample_query) at 1.
  rewrite T; [reflexivity|lia|discriminate|reflexivity| | | | | | |].
  - repeat constructor.
  - split; [cbv; split; [discriminate|reflexivity]|reflexivity].
  - cbn; lia.
  - repeat constructor; cbv; discriminate.
  - cbn; lia.
  - cbn; lia.
  - cbn; lia.
Defined.

(** C6 as stated fails: the response carries an address record of four
    bytes and RCODE 0, but an alias record comes first; the address
    record behind it is never read and the query ends in [error]. *)
Lemma dns_later_a_record_ignored :
  let msg := dns_message 7 0x8180 sample_qname 1 1 [sample_cname; sample_a] in
  let s' := handle_dns_response msg (Z.of_nat (length msg)) sample_dns_net in
  (sample_a ∈ [sample_cname; sample_a] /\ rr_type sample_a = 1 /\
   length (rr_rdata sample_a) = 4%nat /\ Z.land 0x8180 0x000F = 0) /\
  active_dns_query s' = Some (set_q_state sample_query DNS_STATE_ERROR) /\
  ~ any_a_record_resolves.
Proof.
  intros msg s'.
  assert (Hin : sample_a ∈ [sample_cname; sample_a]) by (right; left).
  assert (Hrun : active_dns_query s' = Some (set_q_state sample_query DNS_STATE_ERROR))
    by (vm_compute; reflexivity).
  split.
  { split; [exact Hin|]. split; [reflexivity|]. split; reflexivity. }
  split; [exact Hrun|].
  intros Hclaim.
  destruct (Hclaim sample_dns_net sample_query 0x8180 sample_qname 1 1
              [sample_cname; sample_a] sample_a) as (q' & Hq' & Hst & _);
    try reflexivity; try (cbn; lia); try discriminate; try exact Hin.
  - repeat constructor.
  - repeat constructor; cbv; (discriminate || reflexivity).
  - change (active_dns_query s' = Some q') in Hq'. rewrite Hrun in Hq'.
    injection Hq' as <-. discriminate Hst.
Qed.


(** ** Checksums of the frames that leave (kernel/tcp.c) *)

(** The sum of the 16-bit big-endian words of [l]; an odd last byte
    counts as the high byte of a word. *)
Fixpoint wsum (l : list Z) : Z :=
  match l with
  | a :: b :: t => 256 * a + b + wsum t
  | [a] => 256 * a
  | [] => 0
  end.

Lemma lor_shiftl_byte a b : byte a -> byte b -> Z.lor (Z.shiftl a 8) b = 256 * a + b.
Proof.
  unfold byte. intros Ha Hb. rewrite Z.shiftl_mul_pow2 by lia.
  rewrite <- Z.add_nocarry_lor.
  - change (2^8) with 256. lia.
  - apply Z.bits_inj'. intros n Hn. rewrite Z.land_spec, Z.bits_0.
    destruct (Z.ltb_spec n 8) as [Hlt|Hge].
    + rewrite Z.mul_pow2_bits_low by lia. reflexivity.
    + rewrite (Z.bits_above_log2 b n); [apply andb_false_r|lia|].
      destruct (Z.eq_dec b 0) as [->|Hb0]; [cbn; lia|].
      apply Z.log2_lt_pow2; [lia|]. apply Z.lt_le_trans with (2^8); [cbn; lia|].
      apply Z.pow_le_mono_r; lia.
Qed.

Lemma wsum_range l : Forall byte l -> 0 <= wsum l <= 65535 * Z.of_nat (length l).
Proof.
  revert l. fix IH 1. intros [|a [|b t]] Hl.
  - cbn. lia.
  - inversion Hl as [|? ? Ha _]; subst. unfold byte in Ha. cbn. lia.
  - inversion Hl as [|? ? Ha Hl1]; subst. inversion Hl1 as [|? ? Hb Ht]; subst.
    specialize (IH t Ht). unfold byte in Ha, Hb. cbn [wsum length].
    rewrite !Nat2Z.inj_succ. lia.
Qed.

Lemma csum_words_wsum l :
  Forall byte l -> forall sum, 0 <= sum -> sum + wsum l < 2^32 ->
  csum_words l sum = sum + wsum l.
Proof.
  revert l. fix IH 1. intros [|a [|b t]] Hl sum Hs Hb.
  - cbn. lia.
  - inversion Hl as [|? ? Ha _]; subst. cbn [csum_words wsum] in *.
    rewrite Z.shiftl_mul_pow2 by lia. change (2^8) with 256.
    unfold byte in Ha. rewrite wrap32_small by lia. lia.
  - inversion Hl as [|? ? Ha Hl1]; subst. inversion Hl1 as [|? ? Hb' Ht]; subst.
    cbn [csum_words wsum] in *. rewrite lor_shiftl_byte by assumption.
    pose proof (wsum_range t Ht) as Hr. unfold byte in Ha, Hb'.
    rewrite wrap32_small by lia. rewrite IH by (assumption || lia). lia.
Qed.

Lemma wsum_app_even l1 :
  forall l2, Nat.Even (length l1) -> wsum (l1 ++ l2) = wsum l1 + wsum l2.
Proof.
  revert l1. fix IH 1. intros [|a [|b t]] l2 He.
  - reflexivity.
  - destruct He as [k Hk]. cbn in Hk. lia.
  - cbn [app wsum]. rewrite IH; [lia|]. destruct He as [k Hk]. cbn [length] in Hk.
    exists (k - 1)%nat. lia.
Qed.

(** The end-around-carry fold reduces a 32-bit sum modulo 65535 into
    0..65535, and yields 0 only for the sum 0. *)
Lemma fold_carry_spec s :
  0 <= s < 2^32 ->
  0 <= fold_carry 3 s <= 65535 /\ (fold_carry 3 s) mod 65535 = s mod 65535 /\
  (0 < s -> 0 < fold_carry 3 s).
Proof.
  intros Hs.
  assert (Hstep : forall v, 0 <= v < 2^32 ->
            Z.shiftr v 16 = v / 65536 /\ Z.land v 0xFFFF = v mod 65536).
  { intros v Hv. split; [now rewrite Z.shiftr_div_pow2 by lia|].
    change 0xFFFF with (Z.ones 16). now rewrite Z.land_ones by lia. }
  assert (Hmod : forall v, 0 <= v -> (v mod 65536 + v / 65536) mod 65535 = v mod 65535).
  { intros v Hv. rewrite (Z.div_mod v 65536) at 3 by lia.
    replace (65536 * (v / 65536) + v mod 65536)
      with (v mod 65536 + v / 65536 + (v / 65536) * 65535) by lia.
    now rewrite Z.mod_add by lia. }
  cbn [fold_carry]. destruct (Hstep s Hs) as [E1 E2]. rewrite E1, E2.
  pose proof (Z.mod_pos_bound s 65536 ltac:(lia)) as B0.
  assert (Bd : 0 <= s / 65536 < 65536).
  { split; [apply Z.div_pos; lia|apply Z.div_lt_upper_bound; lia]. }
  pose proof (Z.div_mod s 65536 ltac:(lia)) as D0.
  destruct (s / 65536 =? 0) eqn:Z1.
  { apply Z.eqb_eq in Z1. split; [lia|]. split; [reflexivity|tauto]. }
  apply Z.eqb_neq in Z1.
  set (s1 := s mod 65536 + s / 65536) in *.
  assert (H1 : 0 < s1 < 131071) by (unfold s1; lia).
  rewrite (wrap32_small s1) by lia.
  destruct (Hstep s1 ltac:(lia)) as [F1 F2]. rewrite F1, F2.
  pose proof (Z.mod_pos_bound s1 65536 ltac:(lia)) as B1.
  assert (Bd1 : 0 <= s1 / 65536 <= 1).
  { split; [apply Z.div_pos; lia|]. apply Z.lt_succ_r. apply Z.div_lt_upper_bound; lia. }
  pose proof (Z.div_mod s1 65536 ltac:(lia)) as D1.
  assert (Hs1 : s1 mod 65535 = s mod 65535) by (apply Hmod; lia).
  destruct (s1 / 65536 =? 0) eqn:Z2.
  { apply Z.eqb_eq in Z2. split; [lia|]. split; [exact Hs1|lia]. }
  apply Z.eqb_neq in Z2.
  set (s2 := s1 mod 65536 + s1 / 65536) in *.
  assert (H2 : 0 < s2 <= 65535) by (unfold s2; lia).
  rewrite (wrap32_small s2) by lia.
  rewrite (Z.shiftr_div_pow2 s2 16) by lia. change (2^16) with 65536.
  rewrite (Z.div_small s2 65536) by lia. cbn [Z.eqb].
  split; [lia|]. split; [|lia].
  rewrite <- Hs1. apply Hmod. lia.
Qed.

Lemma complement16 r : 0 <= r <= 65535 -> wrap16 (Z.lnot r) = 65535 - r.
Proof.
  intros Hr. unfold wrap16, Z.lnot, Z.pred.
  symmetry. apply (Z.mod_unique _ _ (-1)); lia.
Qed.

Lemma low_byte_range v : byte (Z.land v 0xFF).
Proof.
  unfold byte. change 0xFF with (Z.ones 8). rewrite Z.land_ones by lia.
  apply Z.mod_pos_bound. lia.
Qed.

Lemma rd8_byte l i : byte (rd8 l i).
Proof.
  unfold byte, rd8. destruct (i <? 0); [lia|]. unfold wrap8. apply Z.mod_pos_bound. lia.
Qed.

Lemma be16_byte v : Forall byte (be16 v).
Proof. repeat constructor; apply low_byte_range. Qed.

Lemma be32_byte v : Forall byte (be32 v).
Proof. repeat constructor; apply low_byte_range. Qed.

Lemma bytes_byte l n : Forall byte (bytes l n).
Proof. unfold bytes. apply Forall_fmap, Forall_forall. intros x _. apply rd8_byte. Qed.

Lemma wsum_be16 c : 0 <= c < 65536 -> wsum (be16 c) = c.
Proof.
  intros Hc. unfold be16. cbn [wsum]. change 0xFF with (Z.ones 8).
  rewrite !Z.land_ones, Z.shiftr_div_pow2 by lia. change (2^8) with 256.
  rewrite (Z.mod_small (c / 256)).
  - pose proof (Z.div_mod c 256 ltac:(lia)). lia.
  - split; [apply Z.div_pos; lia|apply Z.div_lt_upper_bound; lia].
Qed.

(** Writing the checksum into its field makes the sum verify: the
    checksum computed over the finished header or segment is 0. *)
Lemma checksum_inserted (A B : list Z) (init : Z) :
  Forall byte A -> Forall byte B -> Nat.Even (length A) ->
  0 <= init -> init + wsum A + wsum B + 65535 < 2^32 ->
  let c := wrap16 (Z.lnot (fold_carry 3 (csum_words (A ++ [0; 0] ++ B) init))) in
  wrap16 (Z.lnot (fold_carry 3 (csum_words (A ++ be16 c ++ B) init))) = 0.
Proof.
  intros HA HB He Hi Hb c.
  pose proof (wsum_range A HA) as RA. pose proof (wsum_range B HB) as RB.
  assert (HS0 : csum_words (A ++ [0; 0] ++ B) init = init + wsum A + wsum B).
  { rewrite csum_words_wsum.
    - rewrite wsum_app_even by exact He. cbn [app wsum]. lia.
    - apply Forall_app. split; [exact HA|]. repeat constructor; [unfold byte; lia ..|exact HB].
    - exact Hi.
    - rewrite wsum_app_even by exact He. cbn [app wsum]. lia. }
  set (S0 := init + wsum A + wsum B) in *.
  destruct (fold_carry_spec S0 ltac:(lia)) as (R1 & R2 & R3).
  assert (Hc : c = 65535 - fold_carry 3 S0).
  { unfold c. rewrite HS0. now apply complement16. }
  assert (Hcr : 0 <= c < 65536) by lia.
  assert (HS1 : csum_words (A ++ be16 c ++ B) init = S0 + c).
  { rewrite csum_words_wsum.
    - rewrite wsum_app_even by exact He.
      rewrite (wsum_app_even (be16 c)) by (exists 1%nat; reflexivity).
      rewrite wsum_be16 by exact Hcr. unfold S0. lia.
    - apply Forall_app. split; [exact HA|]. apply Forall_app. split; [apply be16_byte|exact HB].
    - exact Hi.
    - rewrite wsum_app_even by exact He.
      rewrite (wsum_app_even (be16 c)) by (exists 1%nat; reflexivity).
      rewrite wsum_be16 by exact Hcr. unfold S0 in *. lia. }
  rewrite HS1.
  destruct (fold_carry_spec (S0 + c) ltac:(lia)) as (T1 & T2 & T3).
  assert (Hpos : 0 < S0 + c).
  { destruct (Z.eq_dec S0 0) as [E|E]; [|lia].
    assert (fold_carry 3 S0 = 0) by (rewrite E; reflexivity). lia. }
  specialize (T3 Hpos).
  assert (Hzero : (S0 + c) mod 65535 = 0).
  { rewrite Hc. replace (S0 + (65535 - fold_carry 3 S0))
      with (S0 - fold_carry 3 S0 + 1 * 65535) by lia.
    rewrite Z.mod_add by lia. rewrite Zminus_mod, R2, Z.sub_diag. reflexivity. }
  rewrite Hzero in T2.
  assert (Hfull : fold_carry 3 (S0 + c) = 65535).
  { destruct (Z.eq_dec (fold_carry 3 (S0 + c)) 65535) as [E|E]; [exact E|].
    rewrite Z.mod_small in T2 by lia. lia. }
  rewrite Hfull. reflexivity.
Qed.

Lemma bytes_exact l : Forall byte l -> forall rest, bytes (l ++ rest) (length l) = l.
Proof.
  intros Hl rest. apply list_eq. intros i. rewrite bytes_lookup.
  destruct (decide (i < length l)%nat) as [Hi|Hi].
  - destruct (lookup_lt_is_Some_2 l i Hi) as [x Hx]. rewrite Hx. f_equal.
    unfold rd8. rewrite (proj2 (Z.ltb_ge (Z.of_nat i) 0)) by lia.
    rewrite Nat2Z.id, lookup_app_l, Hx by exact Hi. cbn.
    apply wrap8_small. change (2^8) with 256.
    rewrite Forall_forall in Hl. apply Hl. apply list_elem_of_lookup. now exists i.
  - symmetry. apply lookup_ge_None_2. lia.
Qed.

(** The IP header with its checksum field filled verifies, whatever
    follows it in the frame. *)
Lemma ip_header_verifies (A B : list Z) :
  Forall byte A -> Forall byte B -> length A = 10%nat -> length B = 8%nat ->
  forall l, take 20 l = A ++ be16 (ip_header_checksum (A ++ [0; 0] ++ B)) ++ B ->
  ip_header_checksum l = 0.
Proof.
  intros HA HB LA LB l Hl.
  assert (Hb : forall h, length h = 20%nat -> Forall byte h ->
                 forall l', take 20 l' = h -> bytes l' 20 = h).
  { intros h Lh Hh l' E. rewrite <- (take_drop 20 l'), E.
    rewrite <- Lh at 2. now apply bytes_exact. }
  pose proof (wsum_range A HA) as RA. pose proof (wsum_range B HB) as RB.
  assert (E0 : bytes (A ++ [0; 0] ++ B) 20 = A ++ [0; 0] ++ B).
  { apply Hb.
    - rewrite !length_app, LA, LB. reflexivity.
    - repeat (apply Forall_app; split); auto. repeat constructor; unfold byte; lia.
    - apply take_ge. rewrite !length_app, LA, LB. cbn. lia. }
  revert Hl. unfold ip_header_checksum. rewrite E0. intros Hl.
  set (c := wrap16 _) in *.
  assert (E1 : bytes l 20 = A ++ be16 c ++ B).
  { apply Hb; [|repeat (apply Forall_app; split); auto using be16_byte|exact Hl].
    rewrite !length_app, LA, LB. reflexivity. }
  rewrite E1. subst c.
  apply checksum_inserted; try assumption; [exists 5%nat; lia|lia|lia].
Qed.

(** The pseudo-header part of the TCP sum. *)
Definition pseudo_sum (src dst : list Z) (tcp_len : Z) : Z :=
  256 * rd8 src 0 + rd8 src 1 + (256 * rd8 src 2 + rd8 src 3) +
  (256 * rd8 dst 0 + rd8 dst 1) + (256 * rd8 dst 2 + rd8 dst 3) + IP_PROTO_TCP + tcp_len.

Lemma tcp_checksum_sum src dst seg tcp_len :
  0 <= tcp_len <= 2048 ->
  tcp_checksum src dst seg tcp_len =
  wrap16 (Z.lnot (fold_carry 3 (csum_words (bytes seg (Z.to_nat tcp_len))
                                           (pseudo_sum src dst tcp_len)))).
Proof.
  intros Hn. unfold tcp_checksum, pseudo_sum. cbv zeta.
  rewrite !lor_shiftl_byte by apply rd8_byte.
  pose proof (rd8_byte src 0). pose proof (rd8_byte src 1).
  pose proof (rd8_byte src 2). pose proof (rd8_byte src 3).
  pose proof (rd8_byte dst 0). pose proof (rd8_byte dst 1).
  pose proof (rd8_byte dst 2). pose proof (rd8_byte dst 3).
  unfold byte, IP_PROTO_TCP in *.
  repeat match goal with
         | |- context [wrap32 ?x] => rewrite (wrap32_small x) by lia
         end.
  rewrite Z.add_0_l. reflexivity.
Qed.

(** The TCP segment with its checksum field filled verifies against
    the pseudo-header. *)
Lemma tcp_segment_verifies (src dst A B : list Z) (tcp_len : Z) :
  Forall byte A -> Forall byte B -> length A = 16%nat ->
  Z.of_nat (length B) = tcp_len - 18 -> tcp_len <= 2048 ->
  tcp_checksum src dst
    (A ++ be16 (tcp_checksum src dst (A ++ [0; 0] ++ B) tcp_len) ++ B) tcp_len = 0.
Proof.
  intros HA HB LA LB Hn.
  assert (H0 : 0 <= tcp_len <= 2048) by lia.
  rewrite !tcp_checksum_sum by exact H0.
  assert (Hb : forall h, Z.of_nat (length h) = tcp_len -> Forall byte h ->
                 bytes h (Z.to_nat tcp_len) = h).
  { intros h Lh Hh. rewrite <- Lh, Nat2Z.id. rewrite <- (app_nil_r h) at 1.
    now apply bytes_exact. }
  pose proof (wsum_range A HA) as RA. pose proof (wsum_range B HB) as RB.
  rewrite (Hb (A ++ be16 _ ++ B)).
  - rewrite (Hb (A ++ [0; 0] ++ B)).
    + assert (Hp : 0 <= pseudo_sum src dst tcp_len <= 4 * 65535 + 6 + 2048).
      { unfold pseudo_sum, IP_PROTO_TCP.
        pose proof (rd8_byte src 0). pose proof (rd8_byte src 1).
        pose proof (rd8_byte src 2). pose proof (rd8_byte src 3).
        pose proof (rd8_byte dst 0). pose proof (rd8_byte dst 1).
        pose proof (rd8_byte dst 2). pose proof (rd8_byte dst 3).
        unfold byte in *. lia. }
      apply checksum_inserted; try assumption; [exists 8%nat; lia|lia|lia].
    + rewrite !length_app, LA. cbn [length]. lia.
    + repeat (apply Forall_app; split); auto. repeat constructor; unfold byte; lia.
  - rewrite !length_app, LA. cbn [length be16]. lia.
  - repeat (apply Forall_app; split); auto using be16_byte.
Qed.


End Net.


(** * WebSocket frames (kernel/websocket.c) *)

Module WebSocket.

Definition WS_STATE_CLOSED : Z := 0.
Definition WS_STATE_CONNECTING : Z := 1.
Definition WS_STATE_OPEN : Z := 2.
Definition WS_STATE_CLOSING : Z := 3.

Definition WS_OP_CONTINUATION : Z := 0x00.
Definition WS_OP_TEXT : Z := 0x01.
Definition WS_OP_BINARY : Z := 0x02.
Definition WS_OP_CLOSE : Z := 0x08.
Definition WS_OP_PING : Z := 0x09.
Definition WS_OP_PONG : Z := 0x0A.

Definition WS_MAX_MESSAGE : Z := 2048.

(** [websocket_t]; the three frame-parsing fields are never written. *)
Record websocket_t := mk_ws {
  state : Z;
  tcp_conn : Z;
  host : list Z;                (* char host[WS_MAX_HOST] *)
  path : list Z;                (* char path[WS_MAX_PATH] *)
  port : Z;
  handshake_sent : Z;
  handshake_complete : Z;
  sec_key : list Z;
  rx_buffer : list Z;           (* uint8_t rx_buffer[WS_MAX_MESSAGE] *)
  rx_len : Z;
  rx_ready : Z;
  rx_opcode : Z                 (* uint8_t *)
}.

Definition set_state (ws : websocket_t) (v : Z) : websocket_t :=
  mk_ws v (tcp_conn ws) (host ws) (path ws) (port ws) (handshake_sent ws)
        (handshake_complete ws) (sec_key ws) (rx_buffer ws) (rx_len ws) (rx_ready ws)
        (rx_opcode ws).
Definition set_rx_buffer (ws : websocket_t) (v : list Z) : websocket_t :=
  mk_ws (state ws) (tcp_conn ws) (host ws) (path ws) (port ws) (handshake_sent ws)
        (handshake_complete ws) (sec_key ws) v (rx_len ws) (rx_ready ws) (rx_opcode ws).
Definition set_rx_len (ws : websocket_t) (v : Z) : websocket_t :=
  mk_ws (state ws) (tcp_conn ws) (host ws) (path ws) (port ws) (handshake_sent ws)
        (handshake_complete ws) (sec_key ws) (rx_buffer ws) v (rx_ready ws) (rx_opcode ws).
Definition set_rx_ready (ws : websocket_t) (v : Z) : websocket_t :=
  mk_ws (state ws) (tcp_conn ws) (host ws) (path ws) (port ws) (handshake_sent ws)
        (handshake_complete ws) (sec_key ws) (rx_buffer ws) (rx_len ws) v (rx_opcode ws).
Definition set_rx_opcode (ws : websocket_t) (v : Z) : websocket_t :=
  mk_ws (state ws) (tcp_conn ws) (host ws) (path ws) (port ws) (handshake_sent ws)
        (handshake_complete ws) (sec_key ws) (rx_buffer ws) (rx_len ws) (rx_ready ws) v.

(** What lies outside the connection object: the network stack and the
    seed of [ws_rand]. *)
Record world := mk_world {
  wnet : Net.net;
  ws_rand_seed : Z              (* static uint32_t *)
}.

Definition ws_rand (w : world) : Z * world :=
  let v := wrap32 (ws_rand_seed w * 1103515245 + 12345) in
  (v, mk_world (wnet w) v).

(** The loop that masks the payload: round [i] appends
    [data[i] ^ mask_bytes[i % 4]]. *)
Fixpoint mask_loop (rounds : nat) (i : Z) (data mask_bytes : list Z) : list Z :=
  match rounds with
  | O => []
  | S rounds' =>
      wrap8 (Z.lxor (Net.rd8 data i) (Net.rd8 mask_bytes (i mod 4)))
        :: mask_loop rounds' (i + 1) data mask_bytes
  end.

(** The bytes [send_frame] stores into [frame[0 .. pos)] when the length
    is below 65536, for the mask drawn. *)
Definition build_frame (opcode : Z) (data : list Z) (len : Z) (mask : Z) : list Z :=
  let first := [wrap8 (Z.lor 0x80 (Z.land opcode 0x0F))] in
  let length_field :=
    if len <? 126 then [wrap8 (Z.lor 0x80 len)]
    else wrap8 (Z.lor 0x80 126) :: Net.be16 len in
  let mask_bytes := Net.be32 mask in
  first ++ length_field ++ mask_bytes ++ mask_loop (Z.to_nat len) 0 data mask_bytes.

(** [send_frame].  The local [frame] has [WS_MAX_MESSAGE + 14] bytes; the
    model is the source's behaviour while the frame built stays inside. *)
Definition send_frame (ws : websocket_t) (opcode : Z) (data : list Z) (len : Z) (w : world)
  : Z * world :=
  if 65536 <=? len then (-1, w)
  else
    let '(mask, w1) := ws_rand w in
    let frame := build_frame opcode data len mask in
    let '(r, n) := Net.tcp_send (tcp_conn ws) frame (Z.of_nat (length frame)) (wnet w1) in
    (r, mk_world n (ws_rand_seed w1)).

(** The loop that copies and unmasks: it runs while [i < payload_len] and
    [rx_len < WS_MAX_MESSAGE - 1]. *)
Fixpoint unmask_loop (fuel : nat) (data : list Z) (pos payload_len mask : Z)
    (mask_key : list Z) (i : Z) (buf : list Z) (len : Z) : list Z * Z :=
  match fuel with
  | O => (buf, len)
  | S fuel' =>
      if (i <? payload_len) && (len <? WS_MAX_MESSAGE - 1) then
        let b := Net.rd8 data (pos + i) in
        let b := if mask =? 0 then b else wrap8 (Z.lxor b (Net.rd8 mask_key (i mod 4))) in
        unmask_loop fuel' data pos payload_len mask mask_key (i + 1)
                    (<[Z.to_nat len := b]> buf) (len + 1)
      else (buf, len)
  end.

(** [parse_frame]; the return value is the number of bytes consumed, 0
    when more data is needed.  The copy loop gets [WS_MAX_MESSAGE] rounds. *)
Definition parse_frame (ws : websocket_t) (data : list Z) (len : Z) (w : world)
  : Z * websocket_t * world :=
  if len <? 2 then (0, ws, w)
  else
    let byte1 := Net.rd8 data 0 in
    let byte2 := Net.rd8 data 1 in
    let opcode := Z.land byte1 0x0F in
    let mask := Z.land (Z.shiftr byte2 7) 1 in
    let payload_len := Z.land byte2 0x7F in
    let extended :=
      if payload_len =? 126 then
        if len <? 4 then None else Some (Net.get16 data 2, 4)
      else if payload_len =? 127 then
        if len <? 10 then None else Some (to_int32 (Net.get32 data 6), 10)
      else Some (payload_len, 2) in
    match extended with
    | None => (0, ws, w)
    | Some (payload_len, pos) =>
        let keyed :=
          if mask =? 0 then Some ([0; 0; 0; 0], pos)
          else if len <? pos + 4 then None
          else Some (Net.bytes (drop (Z.to_nat pos) data) 4, pos + 4) in
        match keyed with
        | None => (0, ws, w)
        | Some (mask_key, pos) =>
            if len <? pos + payload_len then (0, ws, w)
            else
              let ws1 := set_rx_len (set_rx_opcode ws opcode) 0 in
              let '(buf, n) :=
                unmask_loop (Z.to_nat WS_MAX_MESSAGE) data pos payload_len mask mask_key
                            0 (rx_buffer ws1) (rx_len ws1) in
              let ws2 := set_rx_len (set_rx_buffer ws1 (<[Z.to_nat n := 0]> buf)) n in
              let '(ws3, w3) :=
                if opcode =? WS_OP_PING then
                  let '(_, w') := send_frame ws2 WS_OP_PONG (rx_buffer ws2) (rx_len ws2) w in
                  (set_rx_ready ws2 0, w')
                else if opcode =? WS_OP_CLOSE then
                  let '(_, w') := send_frame ws2 WS_OP_CLOSE [] 0 w in
                  (set_rx_ready (set_state ws2 WS_STATE_CLOSED) 0, w')
                else if opcode =? WS_OP_PONG then (set_rx_ready ws2 0, w)
                else (set_rx_ready ws2 1, w) in
              (pos + payload_len, ws3, w3)
        end
    end.

(** ** Bytes and masks *)

Lemma byte_high_bits (a i : Z) : Net.byte a -> 8 <= i -> Z.testbit a i = false.
Proof.
  intros Ha Hi. rewrite <- (Z.mod_small a (2^8)) by (unfold Net.byte in Ha; lia).
  now rewrite Z.mod_pow2_bits_high by lia.
Qed.

Lemma lxor_byte (a b : Z) : Net.byte a -> Net.byte b -> Net.byte (Z.lxor a b).
Proof.
  intros Ha Hb.
  assert (Hn : 0 <= Z.lxor a b) by (apply Z.lxor_nonneg; unfold Net.byte in *; lia).
  split; [exact Hn|].
  assert (Hm : Z.lxor a b mod 2^8 = Z.lxor a b).
  { apply Z.bits_inj'. intros i Hi. rewrite Z.testbit_mod_pow2 by lia.
    destruct (Z.ltb_spec i 8) as [Hlt|Hge]; [reflexivity|].
    rewrite Z.lxor_spec, !byte_high_bits by (assumption || lia). reflexivity. }
  rewrite <- Hm. apply Z.mod_pos_bound. lia.
Qed.

Lemma wrap8_byte (v : Z) : Net.byte (wrap8 v).
Proof. unfold Net.byte, wrap8. apply Z.mod_pos_bound. lia. Qed.

Lemma land_ff_byte (v : Z) : Net.byte (Z.land v 0xFF).
Proof.
  change 0xFF with (Z.ones 8). rewrite Z.land_ones by lia.
  unfold Net.byte. apply Z.mod_pos_bound. lia.
Qed.

Lemma be32_bytes (v : Z) : Forall Net.byte (Net.be32 v).
Proof. unfold Net.be32. repeat constructor; apply land_ff_byte. Qed.

(** Masking twice with the same byte gives the byte back. *)
Lemma unmask_mask (d m : Z) :
  Net.byte d -> Net.byte m -> wrap8 (Z.lxor (wrap8 (Z.lxor d m)) m) = d.
Proof.
  intros Hd Hm. rewrite (wrap8_small (Z.lxor d m)) by (apply lxor_byte; assumption).
  rewrite Z.lxor_assoc, Z.lxor_nilpotent, Z.lxor_0_r. now apply wrap8_small.
Qed.

Lemma rd8_lookup (l : list Z) (j : nat) (x : Z) :
  l !! j = Some x -> Net.rd8 l (Z.of_nat j) = wrap8 x.
Proof.
  intros H. unfold Net.rd8.
  destruct (Z.of_nat j <? 0) eqn:E; [apply Z.ltb_lt in E; lia|].
  now rewrite Nat2Z.id, H.
Qed.

Lemma mask_loop_length rounds : forall i data mb, length (mask_loop rounds i data mb) = rounds.
Proof. induction rounds as [|n IH]; intros; simpl; [reflexivity|]. now rewrite IH. Qed.

Lemma mask_loop_lookup rounds :
  forall i data mb (j : nat), (j < rounds)%nat ->
    mask_loop rounds i data mb !! j =
    Some (wrap8 (Z.lxor (Net.rd8 data (i + Z.of_nat j))
                        (Net.rd8 mb ((i + Z.of_nat j) mod 4)))).
Proof.
  induction rounds as [|n IH]; intros i data mb j Hj; [lia|].
  destruct j as [|j].
  - simpl. now rewrite Z.add_0_r.
  - change (mask_loop (S n) i data mb !! S j) with (mask_loop n (i + 1) data mb !! j).
    rewrite IH by lia.
    replace (i + 1 + Z.of_nat j) with (i + Z.of_nat (S j)) by lia. reflexivity.
Qed.

(** High bit set over a smaller value: the two fields of a frame byte. *)
Lemma lor_high (k v : Z) : 0 <= k -> 0 <= v < 2^k -> Z.lor (2^k) v = 2^k + v.
Proof.
  intros Hk Hv. rewrite <- Z.add_lor_land.
  assert (H0 : Z.land (2^k) v = 0).
  { apply Z.bits_inj'. intros i Hi. rewrite Z.land_spec, Z.bits_0, Z.pow2_bits_eqb by lia.
    destruct (Z.eqb_spec k i) as [->|Hne]; [|reflexivity].
    rewrite <- (Z.mod_small v (2^i)) by lia.
    now rewrite Z.mod_pow2_bits_high by lia. }
  rewrite H0. lia.
Qed.

(** ** The copy loop of [parse_frame] *)

Lemma unmask_loop_spec data pos plen key :
  forall fuel i buf,
    let n := Z.min plen (WS_MAX_MESSAGE - 1) in
    0 <= i <= n -> n - i <= Z.of_nat fuel -> n < Z.of_nat (length buf) ->
    exists buf',
      unmask_loop fuel data pos plen 1 key i buf i = (buf', n) /\
      length buf' = length buf /\
      (forall j : nat, Z.of_nat j < i -> buf' !! j = buf !! j) /\
      (forall j : nat, i <= Z.of_nat j < n ->
         buf' !! j = Some (wrap8 (Z.lxor (Net.rd8 data (pos + Z.of_nat j))
                                         (Net.rd8 key (Z.of_nat j mod 4))))).
Proof.
  induction fuel as [|fuel IH]; intros i buf n Hi Hf Hlen.
  - exists buf. assert (i = n) by lia. subst i. simpl.
    split; [reflexivity|]. split; [reflexivity|]. split; [done|]. intros j Hj. lia.
  - cbn [unmask_loop].
    destruct ((i <? plen) && (i <? WS_MAX_MESSAGE - 1)) eqn:E.
    + apply andb_true_iff in E as [E1 E2]. apply Z.ltb_lt in E1. apply Z.ltb_lt in E2.
      change (1 =? 0) with false. cbv zeta. cbn iota.
      set (b := wrap8 (Z.lxor (Net.rd8 data (pos + i)) (Net.rd8 key (i mod 4)))).
      destruct (IH (i + 1) (<[Z.to_nat i := b]> buf)) as (buf' & Hrun & Hl & Hlow & Hhigh).
      { fold n. unfold n in *. lia. }
      { fold n. lia. }
      { rewrite length_insert. exact Hlen. }
      exists buf'. split; [exact Hrun|]. split; [now rewrite Hl, length_insert|]. split.
      * intros j Hj. rewrite Hlow by lia. apply list_lookup_insert_ne. lia.
      * intros j Hj. destruct (Z.eq_dec (Z.of_nat j) i) as [Heq|Hne].
        -- rewrite Hlow by lia. subst i. rewrite Nat2Z.id.
           rewrite list_lookup_insert_eq by lia. reflexivity.
        -- apply Hhigh. lia.
    + exists buf. assert (i = n).
      { apply andb_false_iff in E as [E|E]; apply Z.ltb_ge in E; unfold n in *; lia. }
      subst i. split; [reflexivity|]. split; [reflexivity|]. split; [done|].
      intros j Hj. lia.
Qed.

(** ** Decoding what [build_frame] wrote *)

Lemma opcode_field (opcode : Z) :
  Z.land (wrap8 (wrap8 (Z.lor 0x80 (Z.land opcode 0x0F)))) 0x0F = Z.land opcode 0x0F.
Proof.
  assert (Ho : 0 <= Z.land opcode 0x0F < 16).
  { change 0x0F with (Z.ones 4). rewrite Z.land_ones by lia. apply Z.mod_pos_bound. lia. }
  generalize dependent (Z.land opcode 0x0F). intros o Ho.
  change 0x80 with (2^7). rewrite lor_high; [|lia|change (2^7) with 128; lia].
  change (2^7) with 128.
  rewrite (wrap8_small (128 + o)) by (change (2^8) with 256; lia).
  rewrite wrap8_small by (change (2^8) with 256; lia).
  change 0x0F with (Z.ones 4). rewrite Z.land_ones by lia. change (2^4) with 16.
  symmetry. apply (Z.mod_unique _ _ 8); lia.
Qed.

Lemma length_field_small (len : Z) :
  0 <= len < 126 ->
  Z.land (Z.shiftr (wrap8 (wrap8 (Z.lor 0x80 len))) 7) 1 = 1 /\
  Z.land (wrap8 (wrap8 (Z.lor 0x80 len))) 0x7F = len.
Proof.
  intros Hl. change 0x80 with (2^7). rewrite lor_high; [|lia|change (2^7) with 128; lia].
  change (2^7) with 128.
  rewrite (wrap8_small (128 + len)) by (change (2^8) with 256; lia).
  rewrite wrap8_small by (change (2^8) with 256; lia). split.
  - rewrite Z.shiftr_div_pow2 by lia. change (2^7) with 128.
    replace ((128 + len) / 128) with 1; [reflexivity|].
    apply (Z.div_unique _ _ 1 len); lia.
  - change 0x7F with (Z.ones 7). rewrite Z.land_ones by lia. change (2^7) with 128.
    symmetry. apply (Z.mod_unique _ _ 1); lia.
Qed.

Section Decode.
  Variables (opcode mask : Z) (data : list Z).
  Hypothesis Hdata : Forall Net.byte data.
  Hypothesis Hfit : Z.of_nat (length data) <= WS_MAX_MESSAGE - 1.

Let len := Z.of_nat (length data).
Let frame := build_frame opcode data len mask.
Let hlen : Z := if len <? 126 then 2 else 4.
Let masked := mask_loop (Z.to_nat len) 0 data (Net.be32 mask).

Lemma frame_length : Z.of_nat (length frame) = hlen + 4 + len.
Proof.
  clear Hdata Hfit. unfold frame, build_frame, hlen. cbv zeta.
  destruct (len <? 126); rewrite !length_app, mask_loop_length; cbn [length Net.be32 Net.be16];
    lia.
Qed.

Lemma frame_key : Net.segment frame hlen (Net.be32 mask ++ masked).
Proof.
  clear Hdata Hfit. unfold frame, build_frame, hlen. cbv zeta.
  destruct (len <? 126).
  - exists [wrap8 (Z.lor 0x80 (Z.land opcode 0x0F)); wrap8 (Z.lor 0x80 len)], [].
    split; [|reflexivity]. rewrite app_nil_r. reflexivity.
  - exists (wrap8 (Z.lor 0x80 (Z.land opcode 0x0F)) :: wrap8 (Z.lor 0x80 126) :: Net.be16 len),
           [].
    split; [|reflexivity]. rewrite app_nil_r. reflexivity.
Qed.

Lemma frame_payload_byte (j : nat) (x : Z) :
  data !! j = Some x ->
  wrap8 (Z.lxor (Net.rd8 frame (hlen + 4 + Z.of_nat j))
                (Net.rd8 (Net.be32 mask) (Z.of_nat j mod 4))) = x.
Proof.
  clear Hfit. intros Hx.
  assert (Hj : (j < length data)%nat) by (eapply lookup_lt_Some; exact Hx).
  assert (Hbx : Net.byte x) by exact (Forall_lookup_1 _ _ _ _ Hdata Hx).
  pose proof frame_key as Hs. apply Net.segment_tail in Hs.
  change (Z.of_nat (length (Net.be32 mask))) with 4 in Hs.
  assert (Hm : masked !! j =
               Some (wrap8 (Z.lxor (Net.rd8 data (0 + Z.of_nat j))
                                   (Net.rd8 (Net.be32 mask) ((0 + Z.of_nat j) mod 4))))).
  { unfold masked. apply mask_loop_lookup. unfold len. lia. }
  rewrite Z.add_0_l in Hm. rewrite (rd8_lookup data j x Hx) in Hm.
  rewrite (wrap8_small x) in Hm by exact Hbx.
  destruct Hs as (pre & post & Hfr & Hpre).
  assert (Hrd : Net.rd8 frame (hlen + 4 + Z.of_nat j)
                = wrap8 (Z.lxor x (Net.rd8 (Net.be32 mask) (Z.of_nat j mod 4)))).
  { rewrite <- Hpre, <- Nat2Z.inj_add.
    rewrite (rd8_lookup frame (length pre + j)
               (wrap8 (Z.lxor x (Net.rd8 (Net.be32 mask) (Z.of_nat j mod 4))))).
    - apply wrap8_small, wrap8_byte.
    - rewrite Hfr, lookup_app_r by lia.
      replace (length pre + j - length pre)%nat with j by lia.
      rewrite lookup_app_l by (unfold masked; rewrite mask_loop_length; unfold len; lia).
      exact Hm. }
  rewrite Hrd. apply unmask_mask; [exact Hbx|]. unfold Net.rd8.
  destruct (_ <? 0); [unfold Net.byte; lia|apply wrap8_byte].
Qed.

End Decode.

(** The length byte carries the mask bit. *)
Lemma frame_mask_bit opcode mask data :
  let frame := build_frame opcode data (Z.of_nat (length data)) mask in
  Z.land (Z.shiftr (Net.rd8 frame 1) 7) 1 = 1.
Proof.
  intros frame. unfold frame, build_frame. cbv zeta.
  destruct (Z.of_nat (length data) <? 126) eqn:E.
  - apply Z.ltb_lt in E. apply (length_field_small (Z.of_nat (length data))). lia.
  - reflexivity.
Qed.

Lemma parse_build_frame opcode mask data ws2 w2 :
  Forall Net.byte data ->
  Z.of_nat (length data) <= WS_MAX_MESSAGE + 6 ->
  Z.of_nat (length (rx_buffer ws2)) = WS_MAX_MESSAGE ->
  let frame := build_frame opcode data (Z.of_nat (length data)) mask in
  let r := parse_frame ws2 frame (Z.of_nat (length frame)) w2 in
  let kept := Z.min (Z.of_nat (length data)) (WS_MAX_MESSAGE - 1) in
  r.1.1 = Z.of_nat (length frame) /\
  rx_opcode r.1.2 = Z.land opcode 0x0F /\
  rx_len r.1.2 = kept /\
  take (Z.to_nat kept) (rx_buffer r.1.2) = take (Z.to_nat kept) data.
Proof.
  intros Hdata Hfit Hbuf frame r kept.
  pose proof (frame_length opcode mask data) as Hlen.
  pose proof (frame_key opcode mask data) as Hkey.
  pose proof (frame_payload_byte opcode mask data Hdata) as Hbyte.
  cbv zeta in Hlen, Hkey, Hbyte. fold frame in Hlen, Hkey, Hbyte.
  set (len := Z.of_nat (length data)) in *.
  set (hlen := if len <? 126 then 2 else 4) in *.
  assert (Hl0 : 0 <= len) by (unfold len; lia).
  assert (Hop : Z.land (Net.rd8 frame 0) 0x0F = Z.land opcode 0x0F).
  { change (Net.rd8 frame 0) with (wrap8 (wrap8 (Z.lor 0x80 (Z.land opcode 0x0F)))).
    apply opcode_field. }
  assert (Hmask : Z.land (Z.shiftr (Net.rd8 frame 1) 7) 1 = 1)
    by apply frame_mask_bit.
  assert (Hext :
    (if Z.land (Net.rd8 frame 1) 0x7F =? 126
     then if Z.of_nat (length frame) <? 4 then None else Some (Net.get16 frame 2, 4)
     else if Z.land (Net.rd8 frame 1) 0x7F =? 127
          then if Z.of_nat (length frame) <? 10 then None
               else Some (to_int32 (Net.get32 frame 6), 10)
          else Some (Z.land (Net.rd8 frame 1) 0x7F, 2)) = Some (len, hlen)).
  { unfold hlen in *. destruct (len <? 126) eqn:E.
    - apply Z.ltb_lt in E.
      assert (Hb : Z.land (Net.rd8 frame 1) 0x7F = len).
      { unfold frame, build_frame. cbv zeta. fold len.
        destruct (len <? 126) eqn:E'; [|apply Z.ltb_ge in E'; lia].
        apply (length_field_small len). lia. }
      rewrite Hb.
      destruct (len =? 126) eqn:E1; [apply Z.eqb_eq in E1; lia|].
      destruct (len =? 127) eqn:E2; [apply Z.eqb_eq in E2; lia|]. reflexivity.
    - apply Z.ltb_ge in E.
      assert (Hb : Z.land (Net.rd8 frame 1) 0x7F = 126).
      { unfold frame, build_frame. cbv zeta. fold len.
        destruct (len <? 126) eqn:E'; [apply Z.ltb_lt in E'; lia|]. reflexivity. }
      rewrite Hb. change (126 =? 126) with true. cbn iota.
      destruct (Z.of_nat (length frame) <? 4) eqn:E1; [apply Z.ltb_lt in E1; lia|].
      f_equal. f_equal.
      apply (Net.segment_get16 frame 2 len (Net.be32 mask ++
               mask_loop (Z.to_nat len) 0 data (Net.be32 mask)));
        [|unfold WS_MAX_MESSAGE in Hfit; lia].
      exists [wrap8 (Z.lor 0x80 (Z.land opcode 0x0F)); wrap8 (Z.lor 0x80 126)], [].
      split; [|reflexivity]. unfold frame, build_frame. cbv zeta. fold len.
      destruct (len <? 126) eqn:E'; [apply Z.ltb_lt in E'; lia|].
      rewrite app_nil_r. reflexivity. }
  assert (Hh : hlen = 2 \/ hlen = 4) by (unfold hlen; destruct (len <? 126); lia).
  pose proof (Net.segment_bytes frame hlen (Net.be32 mask) _ Hkey (be32_bytes mask)) as Hkb.
  change (length (Net.be32 mask)) with 4%nat in Hkb.
  destruct (unmask_loop_spec frame (hlen + 4) len
              (Net.bytes (drop (Z.to_nat hlen) frame) 4)
              (Z.to_nat WS_MAX_MESSAGE) 0 (rx_buffer ws2))
    as (buf' & Hrun & Hbl & _ & Hcopied).
  { unfold WS_MAX_MESSAGE in *. lia. }
  { unfold WS_MAX_MESSAGE in *. lia. }
  { unfold WS_MAX_MESSAGE in *. lia. }
  fold kept in Hrun, Hcopied.
  assert (Hk : 0 <= kept <= len /\ kept < WS_MAX_MESSAGE)
    by (unfold kept; fold len; unfold WS_MAX_MESSAGE; lia).
  unfold r, parse_frame.
  destruct (Z.of_nat (length frame) <? 2) eqn:E2; [apply Z.ltb_lt in E2; lia|].
  cbv zeta. rewrite Hext, Hmask. change (1 =? 0) with false. cbn iota.
  destruct (Z.of_nat (length frame) <? hlen + 4) eqn:E3; [apply Z.ltb_lt in E3; lia|].
  destruct (Z.of_nat (length frame) <? hlen + 4 + len) eqn:E4; [apply Z.ltb_lt in E4; lia|].
  cbn [rx_buffer rx_len set_rx_len set_rx_opcode]. rewrite Hrun.
  set (ws' := set_rx_len _ kept).
  assert (Hws : rx_opcode ws' = Z.land opcode 0x0F /\ rx_len ws' = kept /\
                take (Z.to_nat kept) (rx_buffer ws') = take (Z.to_nat kept) data).
  { unfold ws'. cbn [rx_opcode rx_len rx_buffer set_rx_len set_rx_buffer set_rx_opcode].
    split; [exact Hop|]. split; [reflexivity|].
    apply list_eq. intros j. destruct (decide (j < Z.to_nat kept)%nat) as [Hj|Hj].
    - rewrite !lookup_take_lt by lia. rewrite list_lookup_insert_ne by lia.
      destruct (lookup_lt_is_Some_2 data j ltac:(unfold len in Hk; lia)) as [x Hx].
      rewrite Hcopied by lia. rewrite Hx. f_equal.
      rewrite Hkb. now apply Hbyte.
    - rewrite !lookup_take_ge by lia. reflexivity. }
  clearbody ws'. rewrite Hlen.
  destruct (Z.land (Net.rd8 frame 0) 0x0F =? WS_OP_PING).
  { destruct (send_frame _ _ _ _ _) as [? w']. cbn [fst snd]. exact (conj eq_refl Hws). }
  destruct (Z.land (Net.rd8 frame 0) 0x0F =? WS_OP_CLOSE).
  { destruct (send_frame _ _ _ _ _) as [? w']. cbn [fst snd]. exact (conj eq_refl Hws). }
  destruct (Z.land (Net.rd8 frame 0) 0x0F =? WS_OP_PONG); cbn [fst snd];
    exact (conj eq_refl Hws).
Qed.

(** The sentence of the design document: every payload below 65536 bytes
    whose frame fits [frame[WS_MAX_MESSAGE + 14]] comes back whole. *)
Definition roundtrip_within_frame_buffer : Prop :=
  forall opcode data mask ws2 w2,
    0 <= opcode < 16 -> Forall Net.byte data ->
    Z.of_nat (length data) < 65536 ->
    let frame := build_frame opcode data (Z.of_nat (length data)) mask in
    Z.of_nat (length frame) <= WS_MAX_MESSAGE + 14 ->
    Z.of_nat (length (rx_buffer ws2)) = WS_MAX_MESSAGE ->
    let r := parse_frame ws2 frame (Z.of_nat (length frame)) w2 in
    rx_opcode r.1.2 = opcode /\ rx_len r.1.2 = Z.of_nat (length data) /\
    take (length data) (rx_buffer r.1.2) = data.

(** C8 (as amended).  For a payload shorter than 65536 bytes whose
    frame fits [frame[WS_MAX_MESSAGE + 14]], [send_frame] draws a mask,
    builds the frame with the mask bit set and hands it to [tcp_send];
    [parse_frame], given that frame, consumes all of it and leaves in the
    connection the low four bits of the opcode (the opcode itself when it
    is below 16) and the first [min (|payload|, WS_MAX_MESSAGE - 1)]
    payload bytes.  So a payload of at most [WS_MAX_MESSAGE - 1] bytes
    comes back whole, and of a longer one the first 2047 bytes are kept. *)
Theorem ws_frame_roundtrip ws w opcode data :
  Forall Net.byte data ->
  Z.of_nat (length data) < 65536 ->
  Z.of_nat (length (build_frame opcode data (Z.of_nat (length data)) (ws_rand w).1))
    <= WS_MAX_MESSAGE + 14 ->
  let len := Z.of_nat (length data) in
  let mask := (ws_rand w).1 in
  let frame := build_frame opcode data len mask in
  send_frame ws opcode data len w =
    (let '(r, n) := Net.tcp_send (tcp_conn ws) frame (Z.of_nat (length frame)) (wnet w) in
     (r, mk_world n mask)) /\
  Z.land (Z.shiftr (Net.rd8 frame 1) 7) 1 = 1 /\
  forall ws2 w2,
    Z.of_nat (length (rx_buffer ws2)) = WS_MAX_MESSAGE ->
    let r := parse_frame ws2 frame (Z.of_nat (length frame)) w2 in
    r.1.1 = Z.of_nat (length frame) /\
    rx_opcode r.1.2 = Z.land opcode 0x0F /\
    (0 <= opcode < 16 -> rx_opcode r.1.2 = opcode) /\
    rx_len r.1.2 = Z.min len (WS_MAX_MESSAGE - 1) /\
    take (Z.to_nat (rx_len r.1.2)) (rx_buffer r.1.2) = take (Z.to_nat (WS_MAX_MESSAGE - 1)) data /\
    (len <= WS_MAX_MESSAGE - 1 ->
       rx_len r.1.2 = len /\ take (length data) (rx_buffer r.1.2) = data).
Proof.
  intros Hdata H64 Hfits len mask frame.
  pose proof (frame_length opcode mask data) as Hlen. cbv zeta in Hlen.
  fold len frame in Hlen.
  change (Z.of_nat (length frame) <= WS_MAX_MESSAGE + 14) in Hfits.
  assert (Hfit : len <= WS_MAX_MESSAGE + 6).
  { rewrite Hlen in Hfits. unfold WS_MAX_MESSAGE in *.
    destruct (len <? 126) eqn:E; [apply Z.ltb_lt in E|]; lia. }
  split; [|split].
  - unfold send_frame.
    destruct (65536 <=? len) eqn:E; [apply Z.leb_le in E; unfold len in E; lia|].
    reflexivity.
  - apply frame_mask_bit.
  - intros ws2 w2 Hbuf r.
    destruct (parse_build_frame opcode mask data ws2 w2 Hdata Hfit Hbuf)
      as (H1 & H2 & H3 & H4).
    fold len frame r in H1, H2, H3, H4.
    split; [exact H1|]. split; [exact H2|]. split; [|split; [exact H3|split]].
    + intros Ho. rewrite H2. change 0x0F with (Z.ones 4). rewrite Z.land_ones by lia.
      apply Z.mod_small. change (2^4) with 16. lia.
    + rewrite H3, H4.
      destruct (Z.le_ge_cases len (WS_MAX_MESSAGE - 1)) as [Hle|Hge].
      * rewrite !take_ge; [reflexivity|unfold len in *; lia ..].
      * now rewrite Z.min_r by exact Hge.
    + intros Hle. rewrite Z.min_l in H3, H4 by exact Hle. split; [exact H3|].
      unfold len in H4. rewrite Nat2Z.id in H4. rewrite H4. apply firstn_all.
Qed.

(** An open connection on slot 0 and the start value of the seed. *)
Definition sample_ws : websocket_t :=
  mk_ws WS_STATE_OPEN 0 [] [] 80 1 1 [] (replicate 2048 0) 0 0 0.
Definition sample_world : world := mk_world Net.sample_established 0x12345678.

(** A text message that comes back whole, and a payload of
    [WS_MAX_MESSAGE] bytes, of which 2047 are kept. *)
Lemma ws_frame_roundtrip_witness :
  let data := [104; 101; 108; 108; 111] in
  let big := replicate 2048 65 in
  (Forall Net.byte data /\ Z.of_nat (length data) < 65536 /\
   Z.of_nat (length (build_frame WS_OP_TEXT data 5 (ws_rand sample_world).1))
     <= WS_MAX_MESSAGE + 14) /\
  (Forall Net.byte big /\ Z.of_nat (length big) < 65536 /\
   Z.of_nat (length (build_frame WS_OP_BINARY big 2048 (ws_rand sample_world).1))
     <= WS_MAX_MESSAGE + 14) /\
  (let frame := build_frame WS_OP_TEXT data 5 (ws_rand sample_world).1 in
   let r := parse_frame sample_ws frame (Z.of_nat (length frame)) sample_world in
   rx_opcode r.1.2 = WS_OP_TEXT /\ rx_len r.1.2 = 5 /\ take 5 (rx_buffer r.1.2) = data) /\
  (let frame := build_frame WS_OP_BINARY big 2048 (ws_rand sample_world).1 in
   let r := parse_frame sample_ws frame (Z.of_nat (length frame)) sample_world in
   rx_len r.1.2 = 2047 /\
   take (Z.to_nat (rx_len r.1.2)) (rx_buffer r.1.2) = replicate 2047 65).
Proof.
  intros data big.
  assert (H1 : Forall Net.byte data) by (repeat (constructor; [unfold Net.byte; lia|]); constructor).
  assert (H2 : Z.of_nat (length data) < 65536) by (cbv; reflexivity).
  assert (H3 : Z.of_nat (length (build_frame WS_OP_TEXT data 5 (ws_rand sample_world).1))
               <= WS_MAX_MESSAGE + 14) by (vm_compute; discriminate).
  assert (B1 : Forall Net.byte big) by (apply Forall_replicate; unfold Net.byte; lia).
  assert (B2 : Z.of_nat (length big) < 65536) by (vm_compute; reflexivity).
  assert (B3 : Z.of_nat (length (build_frame WS_OP_BINARY big 2048 (ws_rand sample_world).1))
               <= WS_MAX_MESSAGE + 14) by (vm_compute; discriminate).
  split; [exact (conj H1 (conj H2 H3))|]. split; [exact (conj B1 (conj B2 B3))|].
  split.
  - destruct (ws_frame_roundtrip sample_ws sample_world WS_OP_TEXT data H1 H2 H3)
      as (_ & _ & T).
    destruct (T sample_ws sample_world eq_refl) as (_ & _ & Ho & _ & _ & Hw).
    destruct (Hw ltac:(vm_compute; discriminate)) as [Hl Hd].
    intros frame r. split; [apply Ho; unfold WS_OP_TEXT; lia|].
    split; [exact Hl|exact Hd].
  - destruct (ws_frame_roundtrip sample_ws sample_world WS_OP_BINARY big B1 B2 B3)
      as (_ & _ & T).
    destruct (T sample_ws sample_world eq_refl) as (_ & _ & _ & Hl & Hd & _).
    intros frame r. split; [exact Hl|exact Hd].
Defined.

(** C8 as stated fails: a payload of [WS_MAX_MESSAGE] bytes gives a
    frame of 2056 bytes, which fits the frame buffer, but the parser
    stops copying one byte short. *)
Lemma ws_full_buffer_payload_truncated :
  let data := replicate 2048 65 in
  let frame := build_frame WS_OP_BINARY data 2048 0xDEADBEEF in
  let r := parse_frame sample_ws frame (Z.of_nat (length frame)) sample_world in
  (Z.of_nat (length frame) = 2056 /\ Z.of_nat (length frame) <= WS_MAX_MESSAGE + 14) /\
  rx_len r.1.2 = 2047 /\
  ~ roundtrip_within_frame_buffer.
Proof.
  intros data frame r.
  assert (Hlen : Z.of_nat (length frame) = 2056) by (vm_compute; reflexivity).
  assert (Hrx : rx_len r.1.2 = 2047) by (vm_compute; reflexivity).
  split; [split; [exact Hlen|rewrite Hlen; cbv; discriminate]|].
  split; [exact Hrx|].
  intros Hclaim.
  destruct (Hclaim WS_OP_BINARY data 0xDEADBEEF sample_ws sample_world) as (_ & Hl & _).
  - unfold WS_OP_BINARY. lia.
  - apply Forall_replicate. unfold Net.byte. lia.
  - vm_compute. reflexivity.
  - change (Z.of_nat (length frame) <= WS_MAX_MESSAGE + 14). rewrite Hlen. cbv. discriminate.
  - reflexivity.
  - change (rx_len r.1.2 = Z.of_nat (length data)) in Hl. rewrite Hrx in Hl.
    vm_compute in Hl. discriminate Hl.
Qed.

End WebSocket.

(** * URL parsing (kernel/http.c) *)

Module Http.

Definition HTTP_MAX_HOST : Z := 64.
Definition HTTP_MAX_PATH : Z := 128.

Record http_url_t := mk_url {
  host : list Z;                (* char host[HTTP_MAX_HOST] *)
  path : list Z;                (* char path[HTTP_MAX_PATH] *)
  port : Z;                     (* uint16_t *)
  is_https : Z
}.

Definition set_host (u : http_url_t) (v : list Z) : http_url_t :=
  mk_url v (path u) (port u) (is_https u).
Definition set_path (u : http_url_t) (v : list Z) : http_url_t :=
  mk_url (host u) v (port u) (is_https u).
Definition set_port (u : http_url_t) (v : Z) : http_url_t :=
  mk_url (host u) (path u) v (is_https u).
Definition set_is_https (u : http_url_t) (v : Z) : http_url_t :=
  mk_url (host u) (path u) (port u) v.

(** A [const char*] is the list of the characters from the pointer on;
    the end of the list reads as the terminating NUL. *)
Definition deref (p : list Z) : Z := hd 0 p.

Fixpoint str_ncmp (a b : list Z) (n : nat) : Z :=
  match n with
  | O => 0
  | S n' =>
      if negb (deref a =? 0) && negb (deref b =? 0) && (deref a =? deref b)
      then str_ncmp (tl a) (tl b) n'
      else deref a - deref b
  end.

(** [str_cpy dst src max] with [room = max - 1]: the array after the copy. *)
Fixpoint str_cpy (dst src : list Z) (room : nat) : list Z :=
  match dst with
  | [] => []
  | d :: dst' =>
      match room, src with
      | S room', c :: src' => if c =? 0 then 0 :: dst' else c :: str_cpy dst' src' room'
      | _, _ => 0 :: dst'
      end
  end.

Definition scheme_http : list Z := [104; 116; 116; 112; 58; 47; 47].
Definition scheme_https : list Z := [104; 116; 116; 112; 115; 58; 47; 47].

(** The host loop: one character per round, so it recurses on [p]. *)
Fixpoint host_loop (p : list Z) (hostbuf : list Z) (host_len : Z) : list Z * list Z * Z :=
  match p with
  | [] => (p, hostbuf, host_len)
  | c :: p' =>
      if negb (c =? 0) && negb (c =? 58) && negb (c =? 47) && (host_len <? HTTP_MAX_HOST - 1)
      then host_loop p' (<[Z.to_nat host_len := c]> hostbuf) (host_len + 1)
      else (p, hostbuf, host_len)
  end.

(** The port loop, over the decimal digits. *)
Fixpoint port_loop (p : list Z) (acc : Z) : list Z * Z :=
  match p with
  | [] => (p, acc)
  | c :: p' =>
      if (48 <=? c) && (c <=? 57)
      then port_loop p' (wrap16 (acc * 10 + (c - 48)))
      else (p, acc)
  end.

Definition http_parse_url (url : list Z) : Z * http_url_t :=
  let parsed := mk_url (replicate (Z.to_nat HTTP_MAX_HOST) 0)
                       (replicate (Z.to_nat HTTP_MAX_PATH) 0) 0 0 in
  let parsed := set_port parsed 80 in
  let parsed := set_is_https parsed 0 in
  let parsed := set_path parsed (str_cpy (path parsed) [47] (Z.to_nat (HTTP_MAX_PATH - 1))) in
  let p := url in
  let '(parsed, p) :=
    if str_ncmp p scheme_https 8 =? 0
    then (set_port (set_is_https parsed 1) 443, drop 8 p)
    else if str_ncmp p scheme_http 7 =? 0 then (parsed, drop 7 p)
    else (parsed, p) in
  let '(p, hostbuf, host_len) := host_loop p (host parsed) 0 in
  let parsed := set_host parsed (<[Z.to_nat host_len := 0]> hostbuf) in
  if host_len =? 0 then (-1, parsed)
  else
    let '(parsed, p) :=
      if deref p =? 58 then
        let '(p', v) := port_loop (tl p) 0 in (set_port parsed v, p')
      else (parsed, p) in
    let parsed :=
      if deref p =? 47
      then set_path parsed (str_cpy (path parsed) p (Z.to_nat (HTTP_MAX_PATH - 1)))
      else parsed in
    (0, parsed).

(** The string an array holds: its characters up to the first NUL. *)
Fixpoint c_str (a : list Z) : list Z :=
  match a with
  | [] => []
  | c :: a' => if c =? 0 then [] else c :: c_str a'
  end.

(** ** Reading a URL as host[:port][/path] *)

Definition is_delim (c : Z) : bool := (c =? 58) || (c =? 47).

(** The characters before the first [':'] or ['/']. *)
Fixpoint leading_segment (s : list Z) : list Z :=
  match s with
  | [] => []
  | c :: s' => if is_delim c then [] else c :: leading_segment s'
  end.

Fixpoint digits_of (s : list Z) : list Z :=
  match s with
  | [] => []
  | c :: s' => if (48 <=? c) && (c <=? 57) then c :: digits_of s' else []
  end.

Definition decimal_from (acc : Z) (ds : list Z) : Z :=
  fold_left (fun a c => a * 10 + (c - 48)) ds acc.
Definition decimal (ds : list Z) : Z := decimal_from 0 ds.

(** Port and path of what follows the host. *)
Definition url_port (rest : list Z) : Z :=
  if deref rest =? 58 then wrap16 (decimal (digits_of (tl rest))) else 80.
Definition url_path (rest : list Z) : list Z :=
  let q := if deref rest =? 58 then drop (length (digits_of (tl rest))) (tl rest) else rest in
  if deref q =? 47 then take 127 q else [47].

Definition chars (s : list Z) : Prop := Forall (fun c => c <> 0) s.

Lemma str_ncmp_prefix s :
  chars s -> forall url, str_ncmp url s (length s) = 0 -> s `prefix_of` url.
Proof.
  induction 1 as [|c s Hc Hs IH]; intros url H.
  - apply prefix_nil.
  - cbn [length str_ncmp] in H. destruct url as [|a url]; cbn [deref hd tl] in H.
    + change (negb (0 =? 0)) with false in H. cbn [andb] in H. lia.
    + destruct (negb (a =? 0) && negb (c =? 0) && (a =? c)) eqn:E.
      * apply andb_true_iff in E as [_ E]. apply Z.eqb_eq in E. subst a.
        apply prefix_cons. now apply IH.
      * assert (a = c) by lia. subst a.
        apply Z.eqb_neq in Hc. rewrite Hc, Z.eqb_refl in E. discriminate.
Qed.

Lemma c_str_prefix s :
  chars s -> forall a,
    (forall j : nat, (j < length s)%nat -> a !! j = s !! j) ->
    a !! length s = Some 0 -> c_str a = s.
Proof.
  induction 1 as [|c s Hc Hs IH]; intros a Hpre Hend.
  - destruct a as [|x a]; [reflexivity|]. cbn in Hend. injection Hend as ->. reflexivity.
  - destruct a as [|x a]; [discriminate|].
    pose proof (Hpre 0%nat ltac:(cbn; lia)) as H0. cbn in H0. injection H0 as ->.
    cbn [c_str]. apply Z.eqb_neq in Hc. rewrite Hc. f_equal. apply IH.
    + intros j Hj. apply (Hpre (S j)). cbn. lia.
    + exact Hend.
Qed.

Lemma str_cpy_c_str dst :
  forall src room, chars src -> (room < length dst)%nat ->
    c_str (str_cpy dst src room) = take room src.
Proof.
  induction dst as [|d dst IH]; intros src room Hs Hr; [cbn in Hr; lia|].
  destruct room as [|room]; [reflexivity|].
  destruct src as [|c src]; [reflexivity|].
  apply Forall_cons in Hs as [Hc Hs]. cbn [str_cpy].
  apply Z.eqb_neq in Hc. rewrite Hc. cbn [c_str take]. rewrite Hc. f_equal.
  apply IH; [exact Hs|cbn in Hr; lia].
Qed.

Lemma leading_segment_chars s : chars s -> chars (leading_segment s).
Proof.
  induction 1 as [|c s Hc Hs IH]; [constructor|]. cbn [leading_segment].
  destruct (is_delim c); [constructor|]. now constructor.
Qed.

Lemma leading_segment_rest s :
  let rest := drop (length (leading_segment s)) s in
  s = leading_segment s ++ rest /\ (rest = [] \/ is_delim (deref rest) = true).
Proof.
  induction s as [|c s IH]; [split; [reflexivity|now left]|].
  cbn [leading_segment]. destruct (is_delim c) eqn:E.
  - cbn. split; [reflexivity|now right].
  - cbn [length drop app]. destruct IH as [IH1 IH2]. split; [now f_equal|exact IH2].
Qed.

(** ** The two loops *)

Lemma host_loop_spec p :
  chars p ->
  forall buf k, 0 <= k <= HTTP_MAX_HOST - 1 ->
    let n := Nat.min (length (leading_segment p)) (Z.to_nat (HTTP_MAX_HOST - 1 - k)) in
    exists buf',
      host_loop p buf k = (drop n p, buf', k + Z.of_nat n) /\
      length buf' = length buf /\
      (forall j : nat, Z.of_nat j < k -> buf' !! j = buf !! j) /\
      (forall j : nat, (j < n)%nat -> (Z.to_nat k + j < length buf)%nat ->
         buf' !! (Z.to_nat k + j)%nat = leading_segment p !! j).
Proof.
  unfold HTTP_MAX_HOST.
  induction 1 as [|c p Hc Hp IH]; intros buf k Hk.
  - exists buf. cbn. rewrite Z.add_0_r. split; [reflexivity|]. split; [reflexivity|].
    split; [done|]. intros j Hj. lia.
  - cbn [host_loop]. unfold HTTP_MAX_HOST. apply Z.eqb_neq in Hc. rewrite Hc. cbn [negb andb].
    cbn [leading_segment]. unfold is_delim.
    destruct (c =? 58) eqn:E1; cbn [negb andb orb].
    { exists buf. cbn. rewrite Z.add_0_r. split; [reflexivity|]. split; [reflexivity|].
      split; [done|]. intros j Hj. lia. }
    destruct (c =? 47) eqn:E2; cbn [negb andb orb].
    { exists buf. cbn. rewrite Z.add_0_r. split; [reflexivity|]. split; [reflexivity|].
      split; [done|]. intros j Hj. lia. }
    destruct (k <? 64 - 1) eqn:E3.
    + apply Z.ltb_lt in E3.
      destruct (IH (<[Z.to_nat k := c]> buf) (k + 1) ltac:(lia))
        as (buf' & Hrun & Hl & Hlow & Hseg).
      set (n' := Nat.min (length (leading_segment p)) (Z.to_nat (64 - 1 - (k + 1)))) in *.
      assert (Hn : Nat.min (length (c :: leading_segment p)) (Z.to_nat (64 - 1 - k)) = S n').
      { unfold n'. cbn [length]. lia. }
      rewrite Hn. clearbody n'. exists buf'. cbn [drop]. rewrite Hrun.
      replace (k + Z.of_nat (S n')) with (k + 1 + Z.of_nat n') by lia.
      split; [reflexivity|]. split; [now rewrite Hl, length_insert|]. split.
      * intros j Hj. rewrite Hlow by lia. apply list_lookup_insert_ne. lia.
      * intros j Hj Hb. destruct j as [|j].
        -- rewrite Nat.add_0_r, Hlow by lia. cbn [lookup list_lookup].
           apply list_lookup_insert_eq. lia.
        -- replace (Z.to_nat k + S j)%nat with (Z.to_nat (k + 1) + j)%nat by lia.
           rewrite Hseg by (rewrite ?length_insert; lia). reflexivity.
    + apply Z.ltb_ge in E3.
      assert (Hn : Nat.min (length (c :: leading_segment p)) (Z.to_nat (64 - 1 - k)) = 0%nat)
        by lia.
      rewrite Hn. exists buf. cbn. rewrite Z.add_0_r. split; [reflexivity|].
      split; [reflexivity|]. split; [done|]. intros j Hj. lia.
Qed.

Lemma wrap16_step (a b x : Z) :
  wrap16 a = wrap16 b -> wrap16 (a * 10 + x) = wrap16 (b * 10 + x).
Proof.
  unfold wrap16. intros H.
  rewrite (Z.add_mod (a * 10)), (Z.add_mod (b * 10)) by lia.
  rewrite (Z.mul_mod a), (Z.mul_mod b) by lia. now rewrite H.
Qed.

Lemma decimal_from_wrap ds :
  forall a b, wrap16 a = wrap16 b ->
    wrap16 (decimal_from a ds) = wrap16 (decimal_from b ds).
Proof.
  induction ds as [|c ds IH]; intros a b H; [exact H|].
  cbn [decimal_from fold_left]. apply IH. now apply wrap16_step.
Qed.

Lemma wrap16_idem (v : Z) : wrap16 (wrap16 v) = wrap16 v.
Proof. unfold wrap16. apply Z.mod_mod. lia. Qed.

Lemma port_loop_spec p :
  forall acc, 0 <= acc < 65536 ->
    port_loop p acc =
    (drop (length (digits_of p)) p, wrap16 (decimal_from acc (digits_of p))).
Proof.
  induction p as [|c p IH]; intros acc Ha.
  - cbn. now rewrite wrap16_small by (change (2^16) with 65536; lia).
  - cbn [port_loop digits_of]. destruct ((48 <=? c) && (c <=? 57)).
    + rewrite IH by (unfold wrap16; apply Z.mod_pos_bound; lia).
      cbn [length drop decimal_from fold_left]. f_equal.
      apply decimal_from_wrap, wrap16_idem.
    + cbn. now rewrite wrap16_small by (change (2^16) with 65536; lia).
Qed.

Lemma str_cpy_length dst : forall src room, length (str_cpy dst src room) = length dst.
Proof.
  induction dst as [|d dst IH]; intros src room; [reflexivity|].
  destruct room as [|room]; [reflexivity|]. destruct src as [|c src]; [reflexivity|].
  cbn [str_cpy]. destruct (c =? 0); [reflexivity|]. cbn [length]. now rewrite IH.
Qed.

Lemma leading_segment_lookup s :
  forall (j : nat) c, leading_segment s !! j = Some c ->
    s !! j = Some c /\ is_delim c = false.
Proof.
  induction s as [|x s IH]; intros j c H; [discriminate|].
  cbn [leading_segment] in H. destruct (is_delim x) eqn:E; [discriminate|].
  destruct j as [|j]; cbn in H |- *.
  - injection H as <-. now split.
  - now apply IH.
Qed.

Lemma deref_drop (s : list Z) (j : nat) : deref (drop j s) = default 0 (s !! j).
Proof.
  revert j. induction s as [|x s IH]; intros j.
  - now rewrite drop_nil.
  - destruct j as [|j]; [reflexivity|]. cbn [drop]. now rewrite IH.
Qed.

Lemma chars_drop (s : list Z) (j : nat) : chars s -> chars (drop j s).
Proof. apply Forall_drop. Qed.

Lemma chars_tl (s : list Z) : chars s -> chars (tl s).
Proof. destruct s; [done|]. intros H. now apply Forall_cons in H as [_ H]. Qed.

(** The path field after the port, as [http_parse_url] leaves it. *)
Lemma path_after (u : http_url_t) (p : list Z) :
  chars p -> c_str (path u) = [47] -> length (path u) = 128%nat ->
  c_str (path (if deref p =? 47
               then set_path u (str_cpy (path u) p (Z.to_nat (HTTP_MAX_PATH - 1)))
               else u))
  = (if deref p =? 47 then take 127 p else [47]).
Proof.
  intros Hp Hu Hl. destruct (deref p =? 47); [|exact Hu].
  cbn [path set_path]. change (Z.to_nat (HTTP_MAX_PATH - 1)) with 127%nat.
  apply str_cpy_c_str; [exact Hp|lia].
Qed.

(** C10.  A URL without scheme.  For a string that begins with neither
    "http://" nor "https://" and has a character before its first [':']
    or ['/'], [http_parse_url] returns 0 with [is_https = 0]; the host is
    the leading segment, cut at 63 characters.  When the segment has at
    most 63 characters, the rest is read as [:port][/path]: the port is
    80 unless a [':'] follows, then the decimal number behind it modulo
    65536; the path is "/" unless a ['/'] follows, then the rest cut at
    127 characters.  Behind a longer segment port and path keep their
    defaults. *)
Theorem http_parse_url_schemeless url :
  chars url ->
  ~ scheme_http `prefix_of` url -> ~ scheme_https `prefix_of` url ->
  leading_segment url <> [] ->
  let r := http_parse_url url in
  let seg := leading_segment url in
  let rest := drop (length seg) url in
  r.1 = 0 /\ is_https r.2 = 0 /\ c_str (host r.2) = take 63 seg /\
  ((length seg <= 63)%nat ->
     port r.2 = url_port rest /\ c_str (path r.2) = url_path rest) /\
  ((63 < length seg)%nat -> port r.2 = 80 /\ c_str (path r.2) = [47]).
Proof.
  intros Hurl Hhttp Hhttps Hseg r seg rest.
  assert (Es : (str_ncmp url scheme_https 8 =? 0) = false).
  { apply Z.eqb_neq. intros H. apply Hhttps.
    exact (str_ncmp_prefix scheme_https ltac:(repeat constructor; discriminate) url H). }
  assert (Eh : (str_ncmp url scheme_http 7 =? 0) = false).
  { apply Z.eqb_neq. intros H. apply Hhttp.
    exact (str_ncmp_prefix scheme_http ltac:(repeat constructor; discriminate) url H). }
  unfold r, http_parse_url. cbv zeta. rewrite Es, Eh.
  cbn [host path port is_https set_host set_path set_port set_is_https].
  change (Z.to_nat HTTP_MAX_HOST) with 64%nat.
  change (Z.to_nat HTTP_MAX_PATH) with 128%nat.
  destruct (host_loop_spec url Hurl (replicate 64 0) 0 ltac:(unfold HTTP_MAX_HOST; lia))
    as (buf & Hrun & Hbl & _ & Hcopy).
  change (Z.to_nat (HTTP_MAX_HOST - 1 - 0)) with 63%nat in Hrun, Hcopy.
  fold seg in Hrun, Hcopy. set (n := Nat.min (length seg) 63) in *.
  rewrite Hrun. rewrite length_replicate in Hbl.
  assert (Hn1 : (1 <= n)%nat).
  { assert (0 < length seg)%nat
      by (unfold seg; destruct (leading_segment url); [contradiction|cbn; lia]).
    unfold n. lia. }
  assert (Hn2 : (n <= 63)%nat /\ (n <= length seg)%nat) by (unfold n; lia).
  destruct (0 + Z.of_nat n =? 0) eqn:E0; [apply Z.eqb_eq in E0; lia|].
  set (p0 := str_cpy (replicate 128 0) [47] (Z.to_nat (HTTP_MAX_PATH - 1))).
  assert (Hp0 : c_str p0 = [47]) by reflexivity.
  assert (Hp0l : length p0 = 128%nat) by (unfold p0; now rewrite str_cpy_length, length_replicate).
  assert (Hhost : c_str (<[Z.to_nat (0 + Z.of_nat n) := 0]> buf) = take 63 seg).
  { replace (Z.to_nat (0 + Z.of_nat n)) with n by lia.
    assert (Ht : take 63 seg = take n seg).
    { destruct (decide (length seg <= 63)%nat) as [Hle|Hgt].
      - rewrite !take_ge by (unfold n; lia). reflexivity.
      - f_equal. unfold n. lia. }
    rewrite Ht.
    apply c_str_prefix.
    - apply Forall_take. now apply leading_segment_chars.
    - rewrite length_take. intros j Hj. rewrite list_lookup_insert_ne by lia.
      rewrite lookup_take_lt by lia. apply (Hcopy j); [lia|rewrite length_replicate; lia].
    - rewrite length_take. replace (Nat.min n (length seg)) with n by lia.
      apply list_lookup_insert_eq. lia. }
  assert (Hrest : chars (drop n url)) by now apply chars_drop.
  destruct (decide (length seg <= 63)%nat) as [Hle|Hgt].
  - assert (Hn : n = length seg) by (unfold n; lia).
    unfold rest, url_port, url_path. rewrite <- Hn.
    destruct (deref (drop n url) =? 58) eqn:E58.
    + rewrite (port_loop_spec (tl (drop n url)) 0 ltac:(lia)).
      set (q := drop (length (digits_of (tl (drop n url)))) (tl (drop n url))).
      assert (Hq : chars q) by (unfold q; apply chars_drop, chars_tl, Hrest).
      pose proof (path_after (mk_url (<[Z.to_nat (0 + Z.of_nat n) := 0]> buf) p0
                    (wrap16 (decimal_from 0 (digits_of (tl (drop n url))))) 0) q Hq Hp0 Hp0l)
        as Hpath.
      cbn [path set_path] in Hpath. cbn [set_port host path port is_https].
      destruct (deref q =? 47); cbn [fst snd host path port is_https set_path].
      all: split; [reflexivity|]; split; [reflexivity|]; split; [exact Hhost|].
      all: split; [intros _; split; [reflexivity|exact Hpath]|intros Hlt; lia].
    + pose proof (path_after (mk_url (<[Z.to_nat (0 + Z.of_nat n) := 0]> buf) p0 80 0)
                    (drop n url) Hrest Hp0 Hp0l) as Hpath.
      cbn [path set_path] in Hpath.
      destruct (deref (drop n url) =? 47); cbn [fst snd host path port is_https set_path].
      all: split; [reflexivity|]; split; [reflexivity|]; split; [exact Hhost|].
      all: split; [intros _; split; [reflexivity|exact Hpath]|intros Hlt; lia].
  - assert (Hn : n = 63%nat) by (unfold n; lia). rewrite Hn in *.
    destruct (lookup_lt_is_Some_2 seg 63 ltac:(lia)) as [c Hc].
    destruct (leading_segment_lookup url 63 c Hc) as [Hu Hd].
    assert (Hderef : deref (drop 63 url) = c) by now rewrite deref_drop, Hu.
    unfold is_delim in Hd. apply orb_false_iff in Hd as [Hd1 Hd2].
    rewrite Hderef, Hd1. cbv beta iota. rewrite Hderef, Hd2.
    cbn [fst snd host path port is_https].
    split; [reflexivity|]. split; [reflexivity|]. split; [exact Hhost|].
    split; [intros Hle; lia|intros _; split; [reflexivity|exact Hp0]].
Qed.

(** "ex.com:8080/x" *)
Definition sample_url : list Z := [101; 120; 46; 99; 111; 109; 58; 56; 48; 56; 48; 47; 120].

Lemma http_parse_url_schemeless_witness :
  (chars sample_url /\ ~ scheme_http `prefix_of` sample_url /\
   ~ scheme_https `prefix_of` sample_url /\ leading_segment sample_url <> []) /\
  let r := http_parse_url sample_url in
  r.1 = 0 /\ is_https r.2 = 0 /\ c_str (host r.2) = [101; 120; 46; 99; 111; 109] /\
  port r.2 = 8080 /\ c_str (path r.2) = [47; 120].
Proof.
  assert (H1 : chars sample_url) by (repeat constructor; discriminate).
  assert (H2 : ~ scheme_http `prefix_of` sample_url).
  { intros [k Hk]. discriminate Hk. }
  assert (H3 : ~ scheme_https `prefix_of` sample_url).
  { intros [k Hk]. discriminate Hk. }
  assert (H4 : leading_segment sample_url <> []) by (cbn; discriminate).
  split; [repeat (split; [assumption|]); assumption|].
  destruct (http_parse_url_schemeless sample_url H1 H2 H3 H4) as (R1 & R2 & R3 & R4 & _).
  destruct (R4 ltac:(cbn; lia)) as [R5 R6].
  intros r. split; [exact R1|]. split; [exact R2|]. split; [exact R3|].
  split; [exact R5|exact R6].
Defined.


(** The reading of a scheme-less URL as host[:port][/path], for every
    string: the host is the whole leading segment, port and path are
    those written behind it. *)
Definition parsed_as_host_port_path : Prop :=
  forall url, chars url ->
    ~ scheme_http `prefix_of` url -> ~ scheme_https `prefix_of` url ->
    leading_segment url <> [] ->
    let r := http_parse_url url in
    let rest := drop (length (leading_segment url)) url in
    r.1 = 0 /\ is_https r.2 = 0 /\ c_str (host r.2) = leading_segment url /\
    port r.2 = url_port rest /\ c_str (path r.2) = url_path rest.

(** A host name of 64 letters followed by ":8080/x". *)
Definition long_host_url : list Z := replicate 64 97 ++ [58; 56; 48; 56; 48; 47; 120].

(** C10, counterexample.  The host loop stops after 63 characters.  Of
    a 64-letter host name followed by ":8080/x" the parser keeps 63
    letters and then finds neither [':'] nor ['/'] under its cursor, so
    the port stays 80 and the path "/", where host[:port][/path] reads
    port 8080 and path "/x". *)
Lemma http_parse_url_long_host :
  (chars long_host_url /\ ~ scheme_http `prefix_of` long_host_url /\
   ~ scheme_https `prefix_of` long_host_url /\ leading_segment long_host_url <> []) /\
  leading_segment long_host_url = replicate 64 97 /\
  url_port (drop 64 long_host_url) = 8080 /\
  url_path (drop 64 long_host_url) = [47; 120] /\
  (http_parse_url long_host_url).1 = 0 /\
  c_str (host (http_parse_url long_host_url).2) = replicate 63 97 /\
  port (http_parse_url long_host_url).2 = 80 /\
  c_str (path (http_parse_url long_host_url).2) = [47] /\
  ~ parsed_as_host_port_path.
Proof.
  assert (H1 : chars long_host_url).
  { apply Forall_app. split; [apply Forall_replicate; discriminate|].
    repeat constructor; discriminate. }
  assert (H2 : ~ scheme_http `prefix_of` long_host_url).
  { intros [k Hk]. discriminate Hk. }
  assert (H3 : ~ scheme_https `prefix_of` long_host_url).
  { intros [k Hk]. discriminate Hk. }
  assert (H4 : leading_segment long_host_url <> []) by (cbn; discriminate).
  assert (E : port (http_parse_url long_host_url).2 = 80) by reflexivity.
  split; [exact (conj H1 (conj H2 (conj H3 H4)))|].
  do 6 (split; [reflexivity|]). split; [reflexivity|].
  intros Hall. destruct (Hall long_host_url H1 H2 H3 H4) as (_ & _ & _ & Hp & _).
  rewrite E in Hp. discriminate Hp.
Qed.
End Http.
